(* ===== verification/_CoqProject ===== *)
-Q . S2P
Prelude.v
Runtime.v
Frame.v
Dissector.v
Timing.v
Config.v
Stream.v
Buffered.v
Mux.v
MuxInv.v
Bounds.v
MuxProps.v
Datagrams.v
FlowControl.v
Pipe.v
Handshake.v
Duplex.v
Completion.v
Alone.v
Others.v
Parting.v
Among.v
Delivery.v
Wakeup.v
Remote.v
Net.v
SocksWire.v
UdpClients.v
Directory.v
Socks.v
Client.v
Handlers.v
Tls.v
Acme.v
Args.v
Service.v
Forwarder.v
Server.v
Tunnel.v
Serve.v
Sharing.v
CommandLine.v
Entry.v
Asserts.v
Fuzz.v
WireTests.v
ValueTests.v
CommandTests.v
SocksTests.v
StreamTests.v
Executor.v
MuxTests.v
ServiceTests.v
ServerTests.v
