(* ===== verification/Prelude.v ===== *)
(** * Rusty Penguin

    A verification development of rusty-penguin, a TCP and UDP tunnel over one
    WebSocket.  The client (src/src/client) listens on local ports, the server
    (src/src/server) connects to the targets, and between them a multiplexor
    (src/src/mux) carries any number of streams and datagrams over the
    WebSocket.  This file is the root: it holds the vocabulary all others
    share (bytes, machine integers, results, decimal and big-endian integers,
    UTF-8, the tactics and hint databases).

    ** Parts and files

    - Runtime.v: what the program uses of [tokio] and [futures-util] (mpsc and
      oneshot channels, wakers), as type classes whose laws are their
      documented behaviour.  The components are proved against the classes;
      the instances on lists and options are what the concrete runs use.
    - Frame.v (mux/frame.rs): the frames, their encoder and decoder.
      Dissector.v (tools/penguin-v7.lua): the other reader of the format, over
      an interface of Wireshark (class [Tvb]).
    - Timing.v (mux/timing.rs), Config.v (mux/config.rs): back-off delays,
      optional durations, the options of a multiplexor.
    - Stream.v (mux/stream.rs): [MuxStream] over the cell it shares with the
      task ([Ctx], [Shared]), poll function by poll function, and
      [CopyBidirectional] against any reader and writer (class [BufRW]).
      Buffered.v: the buffer [into_copy_bidirectional] puts around a stream
      (class [AsyncRW]: a TCP connection, the standard streams).
    - Mux.v (mux/lib.rs, mux/task.rs, mux/ws.rs): one state [Mux] holds what
      [Multiplexor], its task and the streams share: the flow table, the cells,
      the one-shot channels, the queues, the WebSocket (class [WebSocket]).
      Every handler is a function of the monad [M], whose outcomes are a
      value, an error, a panic, and an [await] that waits ([Parked]).
      MuxInv.v has the invariant [mux_wf] and that every operation preserves
      it, MuxProps.v the behaviour of each operation, Bounds.v that no queue
      outgrows the options.
    - FlowControl.v: two peers joined by their frame queues, and Pipe.v the
      bounded pipe they refine; Handshake.v: the opening of a stream across
      both multiplexors, which leaves the ends in the state the former start
      from; Wakeup.v: the atomic steps of a writer and of an acknowledgement
      under any schedule.
    - Duplex.v: a whole connection, the copiers of both sides and the frames
      between them in both directions; Completion.v: that it can always be
      brought to its end.  Alone.v: what one stream sees of its multiplexor;
      Others.v: that no operation for another touches it; Parting.v: what a
      stream keeps whatever its task does; Among.v: so a connection among any
      others behaves as it does alone, until one of the tasks leaves its
      loops.  Delivery.v: from the request for a stream to its last octet,
      among any others.
    - Remote.v (parse_remote.rs): the remote specifications.
    - Net.v: the addresses of the standard library, their texts and the
      parser of those.
    - SocksWire.v (client/handle_remote/socks/v4.rs, v5.rs): the SOCKS
      messages over a connection that may end, fail or stall; Socks.v
      (socks/mod.rs): the handler of a connection, with the rest of the client
      as the class [SocksEnv].
    - UdpClients.v, Client.v (client/mod.rs, maybe_retryable.rs,
      ws_connect.rs): the maps of UDP clients; the session and retry loops.
      Directory.v: the directory of clients the maps implement, and the task
      that prunes them.  Handlers.v (client/handle_remote/mod.rs, tcp.rs,
      udp.rs): the local listeners.
    - Args.v (arg.rs): URLs, headers, listening addresses.  Service.v
      (server/service.rs): which requests become WebSockets.  Forwarder.v
      (server/forwarder.rs) and Server.v (server/websocket.rs): the
      forwarders and the loop that serves one WebSocket.
    - Tls.v (tls/mod.rs, rustls.rs, native.rs): the configurations and the
      identity that can be replaced; Acme.v (server/acme): the challenge
      helper, an order, the renewal, over a directory that may answer anything
      (class [AcmeEnv]); Serve.v (server/mod.rs): the server from its arguments
      to its connections.
    - CommandLine.v (arg.rs): the arguments the subcommands declare and what
      is made of them, over what [clap] documents (class [Clap]); Entry.v
      (main.rs): the start of the process.
    - Datagrams.v: the datagrams of a multiplexor, whatever its streams do;
      Tunnel.v: the way of a packet from the listener of the client to the
      forwarder of the server and of the answer back, through both
      multiplexors.
    - Sharing.v (mux/dupe.rs, mux/loom.rs): cheap clones, and the locks and the
      waker of loom (class [LoomLocks]).
    - Fuzz.v (fuzz/fuzz_targets): the fuzz targets, as functions of the octets.
    - Asserts.v: panicking tests; WireTests.v, ValueTests.v, CommandTests.v,
      SocksTests.v, StreamTests.v, ServiceTests.v, ServerTests.v: the unit
      tests of the source files, assertion by assertion, run on the model with
      small instances of the crates and of the host, some after their
      standards (SHA-1, base64).  Executor.v and MuxTests.v (mux/tests.rs):
      the integration suite of the multiplexor, its tasks polled in turn with
      those of two multiplexors that are joined by the suite's own WebSocket.

    ** Correspondence

    Definitions carry the names of the code.  A loop over a [select!] is a
    function of the list of what happened, each event with the answers of the
    calls that round awaited, so a theorem for all lists is one for all
    interleavings; an operation of a task is one step of the state it shares.
    An integer of width [w] is a [Z] in its range ([in_width]), with
    [fetch_add] wrapping.  A panic, of an [expect], an assertion, an index or
    an overflow, is an outcome of its own.

    The model is the release build: the debug assertions of mux/lib.rs,
    mux/stream.rs, mux/task.rs and mux/frame.rs are left out.  That of
    [check_remaining!], which a peer can make fail, has a decoder of its own,
    [frame_try_from_debug], and [decode_sound] says where the two differ; that
    on the size of an encoded frame never fails ([encode_size_and_panic]).

    ** What is shown

    - The wire: decoding inverts encoding, accepts only what re-encodes to the
      same bytes up to trailing ones that three kinds of frame ignore, never
      panics in a release build (Frame), and agrees with the dissector but for
      the datagrams only the decoder refuses (Dissector); remote specifications likewise, with
      the exact strings that make their tokenizer panic (Remote); SOCKS
      requests and relayed datagrams are recognised exactly (SocksWire,
      Socks).
    - The multiplexor: the invariant along every run, that winding down frees
      every waiter, that a frame touches only its flow, and the effect of each
      frame on every kind of slot (MuxProps); all it ever holds is bounded by
      its options, outgoing frames apart (Bounds); a stream reads in order, writes
      within its window, and closes once (Stream); two peers neither lose,
      reorder nor overflow, and make progress when the threshold is within the
      window (FlowControl), which is to say that they refine a bounded pipe
      (Pipe), from the state the handshake leaves (Handshake).
    - The tunnel: under any interleaving a connection carries its octets
      unchanged in both directions (Duplex), can be finished when the
      thresholds are within the windows and the outer sides answer
      (Completion), and is to any others what it is alone as long as both
      tasks run (Among), so that a stream once asked for reaches the host and
      port asked for and, under the conditions of Completion, can be finished
      whatever the others have done, unless a task leaves its loops first: a
      message of another that fails, identifier 0 dropped and the end of the
      WebSocket make it, and what was under way then need not arrive
      (Delivery, Among).  There the users keep both multiplexors; datagrams keep their
      order and their addresses both ways, and one that is not too short
      arrives and is answered (Tunnel).
    - The client: no request for a stream is lost or overtaken by
      reconnections, and the delays between them (Client); the client maps
      stay inverse, implement their directory, and replies find their client
      (UdpClients, Directory, Handlers); a stream is asked for only on a
      complete SOCKS request, or one whose last zero the client's end of file
      cut off (Socks).
    - The server: only a complete, authorised handshake is upgraded (Service);
      the forwarder is faithful and clients are kept apart (Forwarder, Server);
      what makes a TLS configuration, and that a bad authority file never makes
      an open one (Tls); what is left of the challenges on every end of an
      order, how long it waits, and that renewal goes on after every order that
      ends and serves only what its orders gave (Acme); a server
      asked for TLS never serves without (Serve).
    - The start: an accepted command line never fails an assertion of the
      server or of the handshake (CommandLine).
    - The model passes the tests of the repository (the examples at the ends
      of *Tests.v), two of which turn out to test less than they say
      (ServiceTests, CommandTests), and its integration suite, however late the
      tasks of the multiplexors are (MuxTests); no octets make a fuzz target
      panic while the task it talks to runs (Fuzz).
    - Where the code does less than it means to, a theorem or an example says
      so: a window below the threshold stops a link, an acknowledgement can
      fall between a writer's look and its registration, the decoder refuses
      short datagrams and a packet of three octets so ends the connection
      (Tunnel), challenge files survive some errors (Acme), the loop of a
      WebSocket on the server never ends.

    ** Bounds and fuel

    Recursion that is not structural takes fuel, and each theorem that uses it
    says how much is enough: the tokenizer one round more than the length of
    its text ([tokenize_remote]), the copier the octets at hand,
    where no write takes zero octets ([copy_poll_terminates]), winding down the frames and messages in the
    queues ([wind_down_releases]), [show_uint] twenty digits, which hold every
    [u64].  Of the wait for an ACME order eleven rounds are enough, with
    435 seconds of sleep ([order_wait_bounded]).  Loops over events are
    structural in the list.  In Completion.v the fuel that reads a stream is
    one more than the octets that wait, and one round of writing.  Random
    identifiers are drawn from a list given to the operation; running out of
    it is an outcome of its own.  The executor of Executor.v has rounds, and a
    test that needs more fails as one that hangs.

    ** Not modelled

    The log subscribers and the deadlock detector, the hyper builders that
    serve a connection or make an HTTPS connector, [Debug] implementations and
    the benchmarks, which time what the integration tests do: calls into
    libraries without logic of their own.  Of the tests, the suite of the whole
    program (tests.rs), which needs the network of its host, and the two that
    exercise only the kernel or the clock.  The matching of [clap], SHA-1,
    base64, URIs, PEM, certificate verifiers, DNS, the HTTP client and the ACME
    directory are parameters.
    Spawning a task is the start of its list of steps.  Time enters as
    durations and instants given to the operations; memory ordering is that of
    the atomic steps of Wakeup.v.
*)

From stdpp Require Export base list gmap strings option.
From Stdlib Require Export ZArith Lia.
From Stdlib Require Import Ascii.

#[export] Set Default Goal Selector "!".

Declare Scope penguin_scope.
Delimit Scope penguin_scope with penguin.

Open Scope Z_scope.

(** ** Bytes and machine integers

    A byte, a [u16], a [u32] and a [u64] are integers of [Z] kept in the range
    of their width; the range is the well-formedness every Rust value has by
    its type. *)

Abbreviation bytes := (list Z).

Definition in_width (w z : Z) : Prop := 0 <= z < 2 ^ w.

Abbreviation u8_ok := (in_width 8).
Abbreviation u16_ok := (in_width 16).
Abbreviation u32_ok := (in_width 32).
Abbreviation u64_ok := (in_width 64).

Definition bytes_ok (bs : bytes) : Prop := Forall u8_ok bs.

Definition u32_max : Z := 2 ^ 32 - 1.

(** Addition as [AtomicU32::fetch_add] performs it: wrapping. *)
Definition wrapping_add32 (a b : Z) : Z := (a + b) mod 2 ^ 32.

(** Length of a byte string as an integer ([usize]). *)
Definition blen (bs : bytes) : Z := Z.of_nat (length bs).

(** String literals of the source as UTF-8 bytes. *)
Fixpoint bytes_of_string (s : string) : bytes :=
  match s with
  | EmptyString => []
  | String c s' => Z.of_N (Ascii.N_of_ascii c) :: bytes_of_string s'
  end.

Arguments bytes_of_string _%_string_scope.

Notation "'str' s" := (bytes_of_string s) (at level 9, s at level 0, only parsing) : penguin_scope.

(** [str::from_utf8] accepts: well-formed UTF-8 (no surrogates, no overlong
    forms, nothing above U+10FFFF). *)
Definition in_range (lo hi c : Z) : bool := (lo <=? c) && (c <=? hi).

Fixpoint utf8_ok (s : bytes) : bool :=
  match s with
  | [] => true
  | a :: s1 =>
      if in_range 0 127 a then utf8_ok s1
      else
        match s1 with
        | [] => false
        | b :: s2 =>
            if in_range 194 223 a && in_range 128 191 b then utf8_ok s2
            else
              match s2 with
              | [] => false
              | c :: s3 =>
                  if ((in_range 224 224 a && in_range 160 191 b) || (in_range 225 236 a && in_range 128 191 b)
                      || (in_range 237 237 a && in_range 128 159 b) || (in_range 238 239 a && in_range 128 191 b))
                     && in_range 128 191 c
                  then utf8_ok s3
                  else
                    match s3 with
                    | [] => false
                    | d :: s4 =>
                        if ((in_range 240 240 a && in_range 144 191 b) || (in_range 241 243 a && in_range 128 191 b)
                            || (in_range 244 244 a && in_range 128 143 b))
                           && in_range 128 191 c && in_range 128 191 d
                        then utf8_ok s4 else false
                    end
              end
        end
  end.

Example utf8_euro : utf8_ok [226; 130; 172] = true.
Proof. reflexivity. Qed.
Example utf8_surrogate : utf8_ok [237; 160; 128] = false.
Proof. reflexivity. Qed.

(** ** Results

    The outcome of a fallible function: a value, an error value, or a panic
    ([expect], [unreachable!], an out-of-range slice, a failed [assert!]). *)

Inductive res (E A : Type) : Type :=
| Ok (a : A)
| Err (e : E)
| Panic.
Arguments Ok {E A} _.
Arguments Err {E A} _.
Arguments Panic {E A}.

#[export] Instance res_ret {E} : MRet (res E) := fun _ a => Ok a.
#[export] Instance res_bind {E} : MBind (res E) :=
  fun _ _ k c => match c with Ok a => k a | Err e => Err e | Panic => Panic end.

(** [Result::map_err] / the implicit [From] conversion of [?]. *)
Definition map_err {E F A} (f : E -> F) (r : res E A) : res F A :=
  match r with Ok a => Ok a | Err e => Err (f e) | Panic => Panic end.

(** [Option::ok_or]. *)
Definition ok_or {E A} (o : option A) (e : E) : res E A :=
  match o with Some a => Ok a | None => Err e end.

Definition is_Ok {E A} (r : res E A) : bool :=
  match r with Ok _ => true | _ => false end.

(** The outcome of a [poll_*] function. *)
Inductive poll (A : Type) : Type :=
| Ready (a : A)
| Pending.
Arguments Ready {A} _.
Arguments Pending {A}.

(** [std::io::ErrorKind], the kinds the program distinguishes. *)
Inductive IoErrorKind :=
| AddrNotAvailable | BrokenPipe | ConnectionRefused | ConnectionReset | HostUnreachable
| NetworkUnreachable | ConnectionAborted | NotConnected | NetworkDown | TimedOut
| UnexpectedEof | InvalidInput | WriteZero | OtherIoKind.

#[export] Instance IoErrorKind_eq_dec : EqDecision IoErrorKind.
Proof. solve_decision. Defined.

(** ** Big-endian integers on the wire *)

(** [n] bytes of [z], most significant first: [BufMut::put_u8/put_u16/put_u32]
    and [to_be_bytes]. *)
Fixpoint put_be (n : nat) (z : Z) : bytes :=
  match n with
  | O => []
  | S n' => Z.land (Z.shiftr z (8 * Z.of_nat n')) 255 :: put_be n' z
  end.

Definition be_value (bs : bytes) : Z := foldl (fun acc x => acc * 256 + x) 0 bs.

(** [Buf::get_u8/get_u16/get_u32]: consume [n] bytes; the real accessor panics
    when fewer remain. *)
Definition get_be {E} (n : nat) (bs : bytes) : res E (Z * bytes) :=
  if (n <=? length bs)%nat then Ok (be_value (take n bs), drop n bs) else Panic.

(** ** Decimal integers: [FromStr] and [Display] of the unsigned types *)

(** [core::num::IntErrorKind], the kinds an unsigned parse can report. *)
Inductive IntErrorKind := IntEmpty | IntInvalidDigit | IntPosOverflow.

Definition char_plus : Z := 43.
Definition char_minus : Z := 45.

Definition digit_value (c : Z) : option Z :=
  if (48 <=? c) && (c <=? 57) then Some (c - 48) else None.

Fixpoint parse_digits (max acc : Z) (s : bytes) : res IntErrorKind Z :=
  match s with
  | [] => Ok acc
  | c :: s' =>
      match digit_value c with
      | None => Err IntInvalidDigit
      | Some d =>
          if max <? acc * 10 + d then Err IntPosOverflow
          else parse_digits max (acc * 10 + d) s'
      end
  end.

(** [u16::from_str], [u64::from_str] (the maximum selects the type). *)
Definition parse_uint (max : Z) (s : bytes) : res IntErrorKind Z :=
  match s with
  | [] => Err IntEmpty
  | [c] => if (c =? char_plus) || (c =? char_minus) then Err IntInvalidDigit
           else parse_digits max 0 [c]
  | c :: s' => if c =? char_plus then parse_digits max 0 s' else parse_digits max 0 s
  end.

(** Least significant digit first; 20 digits hold every [u64]. *)
Fixpoint digits_rev (fuel : nat) (n : Z) : bytes :=
  match fuel with
  | O => []
  | S f => if n <? 10 then [48 + n] else (48 + n mod 10) :: digits_rev f (n / 10)
  end.

Definition show_uint (n : Z) : bytes := rev (digits_rev 20 n).

(** ** Tactics *)

Ltac invc H := inversion H; subst; clear H.

(** Split every conditional and match on a variable-free boolean of the goal. *)
Ltac case_bool :=
  match goal with
  | |- context [if ?c then _ else _] =>
      lazymatch type of c with bool => destruct c eqn:? end
  end.

Ltac case_bool_in H :=
  match type of H with
  | context [if ?c then _ else _] =>
      lazymatch type of c with bool => destruct c eqn:? end
  end.

(** Turn boolean comparisons of the context into propositions. *)
Ltac bool_prop :=
  repeat match goal with
  | H : (_ <? _) = true |- _ => apply Z.ltb_lt in H
  | H : (_ <? _) = false |- _ => apply Z.ltb_ge in H
  | H : (_ <=? _) = true |- _ => apply Z.leb_le in H
  | H : (_ <=? _) = false |- _ => apply Z.leb_gt in H
  | H : (_ =? _) = true |- _ => apply Z.eqb_eq in H
  | H : (_ =? _) = false |- _ => apply Z.eqb_neq in H
  | H : (_ <=? _)%nat = true |- _ => apply Nat.leb_le in H
  | H : (_ <=? _)%nat = false |- _ => apply Nat.leb_gt in H
  | H : (_ && _) = true |- _ => apply andb_prop in H as [? ?]
  | H : (_ || _) = false |- _ => apply orb_false_elim in H as [? ?]
  | H : negb _ = true |- _ => apply negb_true_iff in H
  | H : negb _ = false |- _ => apply negb_false_iff in H
  end.

(** ** Generic lemmas *)

Lemma blen_nonneg bs : 0 <= blen bs.
Proof. unfold blen. lia. Qed.

Lemma blen_app xs ys : blen (xs ++ ys) = blen xs + blen ys.
Proof. unfold blen. rewrite length_app. lia. Qed.

Lemma length_put_be n z : length (put_be n z) = n.
Proof. induction n as [|n IH]; simpl; congruence. Qed.

Lemma foldl_be_acc bs acc :
  foldl (fun a x => a * 256 + x) acc bs
  = acc * 256 ^ Z.of_nat (length bs) + be_value bs.
Proof.
  revert acc. induction bs as [|x bs IH]; intros acc; unfold be_value; cbn [foldl].
  - simpl. lia.
  - rewrite (IH (acc * 256 + x)), (IH (0 * 256 + x)).
    simpl length. rewrite Nat2Z.inj_succ, Z.pow_succ_r by lia. ring.
Qed.

Lemma be_value_cons x bs :
  be_value (x :: bs) = x * 256 ^ Z.of_nat (length bs) + be_value bs.
Proof. unfold be_value at 1. cbn [foldl]. apply foldl_be_acc. Qed.

Lemma be_value_1 x : be_value [x] = x.
Proof. easy. Qed.

Lemma be_value_put_be n z : be_value (put_be n z) = z mod 256 ^ Z.of_nat n.
Proof.
  induction n as [|n IH].
  - simpl. unfold be_value. simpl. now rewrite Z.mod_1_r.
  - simpl put_be. rewrite be_value_cons, length_put_be, IH.
    change 255 with (Z.ones 8). rewrite Z.land_ones, Z.shiftr_div_pow2 by lia.
    rewrite Nat2Z.inj_succ, Z.pow_succ_r by lia.
    replace (2 ^ (8 * Z.of_nat n)) with (256 ^ Z.of_nat n)
      by (rewrite Z.pow_mul_r by lia; reflexivity).
    assert (0 < 256 ^ Z.of_nat n) by (apply Z.pow_pos_nonneg; lia).
    rewrite (Z.mul_comm 256), Z.rem_mul_r by lia.
    change (2 ^ 8) with 256. lia.
Qed.

Lemma be_value_put_be_small n z :
  0 <= z < 256 ^ Z.of_nat n -> be_value (put_be n z) = z.
Proof. intros H. now rewrite be_value_put_be, Z.mod_small. Qed.

(** Only the low [n] bytes of an integer reach the wire. *)
Lemma put_be_be_mod n x z : put_be n (x * 256 ^ Z.of_nat n + z) = put_be n z.
Proof.
  assert (Hg : forall m k, (m <= k)%nat -> put_be m (x * 256 ^ Z.of_nat k + z) = put_be m z).
  { clear n. intros m. induction m as [|m IH]; intros k Hk; [easy|]. simpl. f_equal; [|apply IH; lia].
    change 255 with (Z.ones 8). rewrite !Z.land_ones, !Z.shiftr_div_pow2, !Z.pow_mul_r by lia.
    change (2 ^ 8) with 256.
    replace (Z.of_nat k) with (Z.of_nat (k - S m) + 1 + Z.of_nat m) by lia.
    rewrite !Z.pow_add_r by lia.
    assert (0 < 256 ^ Z.of_nat m) by (apply Z.pow_pos_nonneg; lia).
    rewrite Z.mul_assoc, Z.div_add_l by lia.
    rewrite Z.pow_1_r, Z.mul_assoc, Z.add_comm. apply Z.mod_add. lia. }
  now apply Hg.
Qed.

Lemma put_be_ok n z : bytes_ok (put_be n z).
Proof.
  induction n as [|n IH]; constructor; [|exact IH].
  unfold in_width. change 255 with (Z.ones 8). rewrite Z.land_ones by lia.
  apply Z.mod_pos_bound. lia.
Qed.

Lemma be_value_bound bs : bytes_ok bs -> 0 <= be_value bs < 256 ^ Z.of_nat (length bs).
Proof.
  induction 1 as [|x bs Hx _ IH].
  - unfold be_value. simpl. lia.
  - rewrite be_value_cons. simpl length. rewrite Nat2Z.inj_succ, Z.pow_succ_r by lia.
    unfold in_width in Hx. change (2 ^ 8) with 256 in Hx. nia.
Qed.

Lemma put_be_be_value n bs : bytes_ok bs -> length bs = n -> put_be n (be_value bs) = bs.
Proof.
  intros Hok <-. induction Hok as [|x bs Hx Hok IH]; [easy|].
  simpl length. unfold put_be; fold put_be. rewrite be_value_cons.
  pose proof (be_value_bound bs Hok). pose proof (put_be_be_mod (length bs) x (be_value bs)).
  assert (0 < 256 ^ Z.of_nat (length bs)) by (apply Z.pow_pos_nonneg; lia).
  f_equal.
  - change 255 with (Z.ones 8). rewrite Z.land_ones, Z.shiftr_div_pow2, Z.pow_mul_r by lia.
    change (2 ^ 8) with 256. rewrite Z.div_add_l, Z.div_small by lia.
    rewrite Z.add_0_r. apply Z.mod_small. exact Hx.
  - rewrite <- IH at 2. congruence.
Qed.

Lemma get_be_put_be {E} n z rest :
  0 <= z < 256 ^ Z.of_nat n -> @get_be E n (put_be n z ++ rest) = Ok (z, rest).
Proof.
  intros Hz. unfold get_be. rewrite length_app, length_put_be.
  destruct (n <=? n + length rest)%nat eqn:Hn; bool_prop; [|lia].
  rewrite take_app_length', drop_app_length' by (symmetry; apply length_put_be).
  now rewrite be_value_put_be_small.
Qed.

Lemma get_be_Ok {E} n bs z rest :
  @get_be E n bs = Ok (z, rest) ->
  bytes_ok bs ->
  bs = take n bs ++ rest /\ z = be_value (take n bs) /\ length (take n bs) = n
  /\ 0 <= z < 256 ^ Z.of_nat n /\ bytes_ok rest.
Proof.
  unfold get_be. intros H Hok. case_bool_in H; invc H. bool_prop.
  assert (Hl : length (take n bs) = n) by (rewrite length_take; lia).
  split; [now rewrite take_drop|]. do 2 (split; [easy|]). split.
  - pose proof (be_value_bound (take n bs) (Forall_take _ _ _ Hok)) as Hb.
    now rewrite Hl in Hb.
  - now apply Forall_drop.
Qed.

Lemma get_be_enough {E} n bs :
  (n <= length bs)%nat -> @get_be E n bs = Ok (be_value (take n bs), drop n bs).
Proof. intros H. unfold get_be. destruct (Nat.leb_spec n (length bs)); [easy|lia]. Qed.

Lemma bytes_ok_app xs ys : bytes_ok (xs ++ ys) <-> bytes_ok xs /\ bytes_ok ys.
Proof. apply Forall_app. Qed.

Lemma bytes_of_string_ok s : bytes_ok (bytes_of_string s).
Proof.
  induction s as [|c s IH]; constructor; [|exact IH].
  unfold in_width. pose proof (Ascii.N_ascii_bounded c). change (2 ^ 8) with 256. lia.
Qed.

Lemma bytes_of_string_inj s t : bytes_of_string s = bytes_of_string t -> s = t.
Proof.
  revert t. induction s as [|c s IH]; intros [|d t] H; try easy.
  simpl in H. injection H as Hc Ht. f_equal; [|now apply IH].
  apply N2Z.inj, (f_equal Ascii.ascii_of_N) in Hc. now rewrite !Ascii.ascii_N_embedding in Hc.
Qed.

Lemma wrapping_add32_small a c :
  0 <= a -> 0 <= c -> a + c < 2 ^ 32 -> wrapping_add32 a c = a + c.
Proof. intros. apply Z.mod_small. lia. Qed.

Lemma wrapping_add32_ok a c : u32_ok (wrapping_add32 a c).
Proof. apply Z.mod_pos_bound. lia. Qed.

Lemma parse_digits_app max acc xs ys :
  parse_digits max acc (xs ++ ys)
  = a ← parse_digits max acc xs; parse_digits max a ys.
Proof.
  revert acc. induction xs as [|x xs IH]; intros acc; [easy|]. simpl.
  destruct (digit_value x); [|easy]. case_bool; [easy|apply IH].
Qed.

Lemma digit_value_digit d : 0 <= d < 10 -> digit_value (48 + d) = Some d.
Proof.
  intros H. unfold digit_value.
  replace ((48 <=? 48 + d) && (48 + d <=? 57)) with true by (symmetry; apply andb_true_intro; lia).
  f_equal. lia.
Qed.

Lemma parse_digits_digits_rev fuel max n :
  0 <= n <= max -> n < 10 ^ Z.of_nat fuel ->
  parse_digits max 0 (rev (digits_rev fuel n)) = Ok n.
Proof.
  revert n. induction fuel as [|f IH]; intros n Hn Hf; [simpl in *; f_equal; lia|].
  simpl digits_rev. case_bool; bool_prop.
  - simpl. rewrite digit_value_digit by lia. simpl. case_bool; bool_prop; [lia|]. easy.
  - simpl rev. rewrite Nat2Z.inj_succ, Z.pow_succ_r in Hf by lia.
    pose proof (Z.div_mod n 10 ltac:(lia)). pose proof (Z.mod_pos_bound n 10 ltac:(lia)).
    rewrite parse_digits_app, IH by nia. cbn [mbind res_bind parse_digits].
    rewrite digit_value_digit by lia.
    case_bool; bool_prop; [lia|]. f_equal. lia.
Qed.

Lemma digits_rev_digits fuel n : Forall (fun c => 48 <= c <= 57) (digits_rev fuel n) \/ n < 0.
Proof.
  revert n. induction fuel as [|f IH]; intros n; [left; constructor|].
  destruct (Z.ltb_spec n 0) as [|Hn]; [now right|left]. simpl.
  case_bool; bool_prop; [repeat constructor; lia|].
  pose proof (Z.mod_pos_bound n 10 ltac:(lia)).
  constructor; [lia|]. destruct (IH (n / 10)) as [|Hc]; [easy|].
  pose proof (Z.div_pos n 10). lia.
Qed.

Lemma digits_rev_ne fuel n : digits_rev (S fuel) n <> [].
Proof. simpl. case_bool; discriminate. Qed.

Lemma show_uint_digits n : 0 <= n -> Forall (fun c => 48 <= c <= 57) (show_uint n).
Proof. intros Hn. apply Forall_rev. destruct (digits_rev_digits 20 n); [easy|lia]. Qed.

Lemma show_uint_ne n : show_uint n <> [].
Proof.
  unfold show_uint. intros H. apply (f_equal (@rev Z)) in H. rewrite rev_involutive in H.
  now apply digits_rev_ne in H.
Qed.

Lemma parse_uint_digits max s :
  s <> [] -> Forall (fun c => 48 <= c <= 57) s -> parse_uint max s = parse_digits max 0 s.
Proof.
  intros Hne Hs. destruct s as [|c [|d s]]; [easy| |]; invc Hs; unfold parse_uint;
    unfold char_plus, char_minus.
  - replace (c =? 43) with false by lia. now replace (c =? 45) with false by lia.
  - now replace (c =? 43) with false by lia.
Qed.

(** Printing then parsing an unsigned integer gives it back. *)
Lemma parse_show_uint max n :
  0 <= n <= max -> n < 10 ^ 20 -> parse_uint max (show_uint n) = Ok n.
Proof.
  intros Hn H20. rewrite parse_uint_digits; [|apply show_uint_ne|now apply show_uint_digits].
  now apply parse_digits_digits_rev.
Qed.

Lemma parse_digits_bound max acc s n :
  0 <= acc <= max -> parse_digits max acc s = Ok n -> 0 <= n <= max.
Proof.
  revert acc. induction s as [|c s IH]; intros acc Hacc H; simpl in H; [invc H; lia|].
  unfold digit_value in H. destruct ((48 <=? c) && (c <=? 57)) eqn:Hd; [|easy].
  bool_prop. destruct (max <? acc * 10 + (c - 48)) eqn:Hm; [easy|]. bool_prop.
  eapply IH, H. lia.
Qed.

Lemma parse_uint_bound max s n : 0 <= max -> parse_uint max s = Ok n -> 0 <= n <= max.
Proof.
  intros Hmax. unfold parse_uint.
  destruct s as [|c [|d s]]; [easy| |];
    (case_bool; [try easy|]); apply parse_digits_bound; lia.
Qed.

Create HintDb penguin.
Create Rewrite HintDb wire.
#[export] Hint Resolve blen_nonneg put_be_ok bytes_of_string_ok wrapping_add32_ok : penguin.
#[export] Hint Rewrite @get_be_put_be using (unfold in_width in *; simpl in *; lia) : wire.
#[export] Hint Rewrite length_put_be length_app blen_app : wire.

Arguments put_be : simpl never.
Arguments get_be : simpl never.
Arguments be_value : simpl never.
Arguments show_uint : simpl never.

Lemma Ok_inj {E A} (x y : A) : @Ok E A x = Ok y -> x = y.
Proof. now intros [= ->]. Qed.

(** Use an equation [Ok t = Ok x] without reducing [t]. *)
Ltac inj H := apply Ok_inj in H; subst.

(** Ranges of concrete integers and byte strings. *)
Ltac solve_ranges :=
  repeat first
    [ exact I | reflexivity
    | match goal with
      | |- _ /\ _ => split
      | |- in_width _ _ => unfold in_width; cbn; lia
      | |- Forall _ _ => first [apply Forall_nil_2 | apply Forall_cons_2]
      end
    | progress hnf ].
