(* ===== verification/Runtime.v ===== *)
(** * Interfaces of the asynchronous runtime

    The channels and wakers the program uses come from [tokio] and
    [futures-util]; their code is not part of the repository.  The development
    is parametric in them: each is a type class whose operations are those the
    source calls and whose laws are their documented behaviour, stated through
    an observer ([chan_view], [shot_view], [waker_view]).  List-, option- and
    boolean-backed instances show that the laws can hold and are what the
    concrete examples run on. *)

From S2P Require Import Prelude.

(** ** [tokio::sync::mpsc] *)

(** [mpsc::error::TrySendError]; an unbounded sender only ever reports
    [TrySendClosed]. *)
Inductive TrySendError := TrySendFull | TrySendClosed.

(** What a channel is, to an observer of both halves. *)
Record chan_state (A : Type) := ChanState {
  cs_queue : list A;          (* sent and not yet received, oldest first *)
  cs_cap : option nat;        (* [None]: unbounded *)
  cs_rx_open : bool;          (* the receiver is alive and not closed *)
  cs_tx_open : bool;          (* some sender is alive *)
}.
Arguments ChanState {A} _ _ _ _.
Arguments cs_queue {A} _.
Arguments cs_cap {A} _.
Arguments cs_rx_open {A} _.
Arguments cs_tx_open {A} _.

Definition chan_full {A} (v : chan_state A) : bool :=
  match cs_cap v with
  | Some n => (n <=? length (cs_queue v))%nat
  | None => false
  end.

Definition spec_send {A} (a : A) (v : chan_state A) : chan_state A * option TrySendError :=
  if negb (cs_rx_open v) then (v, Some TrySendClosed)
  else if chan_full v then (v, Some TrySendFull)
  else (ChanState (cs_queue v ++ [a]) (cs_cap v) (cs_rx_open v) (cs_tx_open v), None).

(** [poll_recv]: the oldest item; else end of stream when the channel was
    closed or every sender is gone; else [Pending]. *)
Definition spec_recv {A} (v : chan_state A) : chan_state A * poll (option A) :=
  match cs_queue v with
  | a :: q => (ChanState q (cs_cap v) (cs_rx_open v) (cs_tx_open v), Ready (Some a))
  | [] => (v, if cs_rx_open v && cs_tx_open v then Pending else Ready None)
  end.

Definition spec_close {A} (v : chan_state A) : chan_state A :=
  ChanState (cs_queue v) (cs_cap v) false (cs_tx_open v).

Definition spec_rx_drop {A} (v : chan_state A) : chan_state A :=
  ChanState [] (cs_cap v) false (cs_tx_open v).

Definition spec_tx_drop {A} (v : chan_state A) : chan_state A :=
  ChanState (cs_queue v) (cs_cap v) (cs_rx_open v) false.

Class Mpsc (C : Type -> Type) := {
  channel : forall {A}, nat -> C A;
  unbounded_channel : forall {A}, C A;
  try_send : forall {A}, A -> C A -> C A * option TrySendError;
  poll_recv : forall {A}, C A -> C A * poll (option A);
  rx_close : forall {A}, C A -> C A;
  rx_drop : forall {A}, C A -> C A;
  tx_drop : forall {A}, C A -> C A;
  chan_view : forall {A}, C A -> chan_state A;
  view_channel : forall A n, chan_view (@channel A n) = ChanState [] (Some n) true true;
  view_unbounded : forall A, chan_view (@unbounded_channel A) = ChanState [] None true true;
  view_try_send : forall A (a : A) c, chan_view (try_send a c).1 = (spec_send a (chan_view c)).1;
  res_try_send : forall A (a : A) c, (try_send a c).2 = (spec_send a (chan_view c)).2;
  view_poll_recv : forall A (c : C A), chan_view (poll_recv c).1 = (spec_recv (chan_view c)).1;
  res_poll_recv : forall A (c : C A), (poll_recv c).2 = (spec_recv (chan_view c)).2;
  view_rx_close : forall A (c : C A), chan_view (rx_close c) = spec_close (chan_view c);
  view_rx_drop : forall A (c : C A), chan_view (rx_drop c) = spec_rx_drop (chan_view c);
  view_tx_drop : forall A (c : C A), chan_view (tx_drop c) = spec_tx_drop (chan_view c);
}.

(** ** [tokio::sync::oneshot] *)

Inductive shot_state (A : Type) :=
| ShotOpen                    (* both halves alive, nothing sent *)
| ShotSent (a : A)            (* sent, the receiver will get it *)
| ShotTxDropped               (* the sender was dropped unsent *)
| ShotRxDropped.              (* the receiver is gone *)
Arguments ShotOpen {A}.
Arguments ShotSent {A} _.
Arguments ShotTxDropped {A}.
Arguments ShotRxDropped {A}.

(** [Sender::send] consumes the sender, so a second send cannot be written;
    it fails exactly when the receiver is gone. *)
Definition spec_shot_send {A} (a : A) (s : shot_state A) : shot_state A * bool :=
  match s with
  | ShotOpen => (ShotSent a, true)
  | other => (other, false)
  end.

(** Awaiting the receiver: the value, or [RecvError] once the sender is gone. *)
Definition spec_shot_recv {A} (s : shot_state A) : poll (option A) :=
  match s with
  | ShotSent a => Ready (Some a)
  | ShotTxDropped => Ready None
  | _ => Pending
  end.

Definition spec_shot_tx_drop {A} (s : shot_state A) : shot_state A :=
  match s with ShotOpen => ShotTxDropped | other => other end.

Definition spec_shot_rx_drop {A} (s : shot_state A) : shot_state A := ShotRxDropped.

Class Oneshot (O : Type -> Type) := {
  oneshot : forall {A}, O A;
  shot_send : forall {A}, A -> O A -> O A * bool;
  shot_recv : forall {A}, O A -> poll (option A);
  shot_tx_drop : forall {A}, O A -> O A;
  shot_rx_drop : forall {A}, O A -> O A;
  shot_view : forall {A}, O A -> shot_state A;
  view_oneshot : forall A, shot_view (@oneshot A) = ShotOpen;
  view_shot_send : forall A (a : A) o, shot_view (shot_send a o).1 = (spec_shot_send a (shot_view o)).1;
  res_shot_send : forall A (a : A) o, (shot_send a o).2 = (spec_shot_send a (shot_view o)).2;
  res_shot_recv : forall A (o : O A), shot_recv o = spec_shot_recv (shot_view o);
  view_shot_tx_drop : forall A (o : O A), shot_view (shot_tx_drop o) = spec_shot_tx_drop (shot_view o);
  view_shot_rx_drop : forall A (o : O A), shot_view (shot_rx_drop o) = spec_shot_rx_drop (shot_view o);
}.

(** ** [futures_util::task::AtomicWaker] *)

(** [register] stores the waker of the current task, [wake] takes it out and
    wakes the task if there is one.  The observer sees whether a waker is
    stored; [wake] also answers whether a task was woken. *)
Class Waker (W : Type) := {
  new_waker : W;
  register : W -> W;
  wake : W -> W * bool;
  waker_view : W -> bool;
  view_new_waker : waker_view new_waker = false;
  view_register : forall w, waker_view (register w) = true;
  view_wake : forall w, waker_view (wake w).1 = false;
  res_wake : forall w, (wake w).2 = waker_view w;
}.

(** ** Instances *)

#[export] Program Instance list_mpsc : Mpsc chan_state := {
  channel := fun A n => ChanState [] (Some n) true true;
  unbounded_channel := fun A => ChanState [] None true true;
  try_send := fun A => spec_send;
  poll_recv := fun A => spec_recv;
  rx_close := fun A => spec_close;
  rx_drop := fun A => spec_rx_drop;
  tx_drop := fun A => spec_tx_drop;
  chan_view := fun A v => v;
}.
Solve All Obligations with reflexivity.

#[export] Program Instance state_oneshot : Oneshot shot_state := {
  oneshot := fun A => ShotOpen;
  shot_send := fun A => spec_shot_send;
  shot_recv := fun A => spec_shot_recv;
  shot_tx_drop := fun A => spec_shot_tx_drop;
  shot_rx_drop := fun A => spec_shot_rx_drop;
  shot_view := fun A s => s;
}.
Solve All Obligations with reflexivity.

#[export] Program Instance bool_waker : Waker bool := {
  new_waker := false;
  register := fun _ => true;
  wake := fun w => (false, w);
  waker_view := fun w => w;
}.
Solve All Obligations with reflexivity.

(** ** Observers and automation *)

Abbreviation queue c := (cs_queue (chan_view c)).
Abbreviation rx_open c := (cs_rx_open (chan_view c)).
Abbreviation tx_open c := (cs_tx_open (chan_view c)).
Abbreviation capacity c := (cs_cap (chan_view c)).

Create Rewrite HintDb chan.
#[export] Hint Rewrite @view_channel @view_unbounded @view_try_send @res_try_send
  @view_poll_recv @res_poll_recv @view_rx_close @view_rx_drop @view_tx_drop
  @view_oneshot @view_shot_send @res_shot_send @res_shot_recv @view_shot_tx_drop
  @view_shot_rx_drop @view_new_waker @view_register @view_wake @res_wake : chan.

(** Sending on an open channel with room. *)
Lemma spec_send_ok {A} (a : A) v :
  cs_rx_open v = true -> chan_full v = false ->
  spec_send a v = (ChanState (cs_queue v ++ [a]) (cs_cap v) (cs_rx_open v) (cs_tx_open v), None).
Proof. unfold spec_send. intros -> ->. easy. Qed.

(** Sending on an unbounded channel never reports a full buffer. *)
Lemma spec_send_unbounded {A} (a : A) v :
  cs_cap v = None ->
  spec_send a v
  = if cs_rx_open v
    then (ChanState (cs_queue v ++ [a]) (cs_cap v) (cs_rx_open v) (cs_tx_open v), None)
    else (v, Some TrySendClosed).
Proof. unfold spec_send, chan_full. intros ->. now destruct (cs_rx_open v). Qed.

Lemma spec_send_queue {A} (a : A) v :
  cs_queue (spec_send a v).1
  = match (spec_send a v).2 with Some _ => cs_queue v | None => cs_queue v ++ [a] end.
Proof. unfold spec_send. repeat case_bool; easy. Qed.

Lemma spec_send_flags {A} (a : A) v :
  cs_rx_open (spec_send a v).1 = cs_rx_open v
  /\ cs_tx_open (spec_send a v).1 = cs_tx_open v
  /\ cs_cap (spec_send a v).1 = cs_cap v.
Proof. unfold spec_send. repeat case_bool; easy. Qed.

Lemma spec_recv_flags {A} (v : chan_state A) :
  cs_rx_open (spec_recv v).1 = cs_rx_open v
  /\ cs_tx_open (spec_recv v).1 = cs_tx_open v
  /\ cs_cap (spec_recv v).1 = cs_cap v.
Proof. unfold spec_recv. now destruct (cs_queue v). Qed.

(** A bounded channel never holds more than its capacity. *)
Definition chan_bounded {A} (v : chan_state A) : Prop :=
  match cs_cap v with Some n => (length (cs_queue v) <= n)%nat | None => True end.

Lemma spec_send_bounded {A} (a : A) v : chan_bounded v -> chan_bounded (spec_send a v).1.
Proof.
  unfold chan_bounded, spec_send, chan_full. intros H.
  destruct (cs_rx_open v), (cs_cap v) eqn:Hc; simpl; rewrite ?Hc; simpl; try easy.
  case_bool; simpl; rewrite ?Hc; [easy|]. bool_prop. rewrite length_app. simpl. lia.
Qed.

Lemma spec_recv_bounded {A} (v : chan_state A) : chan_bounded v -> chan_bounded (spec_recv v).1.
Proof.
  unfold chan_bounded, spec_recv. destruct (cs_queue v) eqn:Hq; simpl; rewrite ?Hq; [easy|].
  destruct (cs_cap v); simpl; [lia|easy].
Qed.
