(* ===== verification/Frame.v ===== *)
(** * Penguin frames (src/src/mux/frame.rs, proto_version.rs)

    The wire format: the payload data types, the encoder
    [From<&Frame> for Vec<u8>], the decoder [TryFrom<Bytes> for Frame] with
    every early return and every panic, and the theorems that relate the two. *)

From S2P Require Import Prelude.

(** ** Definitions *)

Definition PROTOCOL_VERSION : bytes := bytes_of_string "penguin-v7".
Definition PROTOCOL_VERSION_NUMBER : Z := 7.

Inductive FrameError :=
| FrameTooShort
| FrameVersion (v : Z)
| InvalidOpCode (v : Z)
| InvalidBindType (v : Z).

(** [CowBytes]: borrowed or owned bytes; [PartialEq] compares the contents. *)
Inductive CowBytes :=
| Borrowed (data : bytes)
| Owned (data : bytes).

Definition cow_as_ref (c : CowBytes) : bytes :=
  match c with Borrowed data => data | Owned data => data end.

Definition cow_eq (x y : CowBytes) : bool := bool_decide (cow_as_ref x = cow_as_ref y).

Definition cow_dupe (c : CowBytes) : CowBytes :=
  match c with Borrowed data => Borrowed data | Owned data => Owned data end.

Definition cow_default : CowBytes := Borrowed [].

Definition cow_into_owned (c : CowBytes) : bytes :=
  match c with Borrowed data => data | Owned data => data end.

Definition cow_len (c : CowBytes) : Z :=
  match c with Borrowed data => blen data | Owned data => blen data end.

Inductive BindType := BindStream | BindDatagram.

(** The [#[repr(u8)]] discriminants. *)
Definition BindType_as_u8 (t : BindType) : Z :=
  match t with BindStream => 1 | BindDatagram => 3 end.

Definition BindType_try_from (value : Z) : res FrameError BindType :=
  if value =? 1 then Ok BindStream
  else if value =? 3 then Ok BindDatagram
  else Err (InvalidBindType value).

Inductive OpCode :=
| OpConnect | OpAcknowledge | OpReset | OpFinish | OpPush | OpBind | OpDatagram.

Definition OpCode_as_u8 (o : OpCode) : Z :=
  match o with
  | OpConnect => 0 | OpAcknowledge => 1 | OpReset => 2 | OpFinish => 3
  | OpPush => 4 | OpBind => 5 | OpDatagram => 6
  end.

Definition OpCode_try_from (value : Z) : res FrameError OpCode :=
  if value =? 0 then Ok OpConnect
  else if value =? 1 then Ok OpAcknowledge
  else if value =? 2 then Ok OpReset
  else if value =? 3 then Ok OpFinish
  else if value =? 4 then Ok OpPush
  else if value =? 5 then Ok OpBind
  else if value =? 6 then Ok OpDatagram
  else Err (InvalidOpCode value).

Record ConnectPayload := MkConnect {
  con_rwnd : Z;
  con_target_port : Z;
  con_target_host : CowBytes;
}.

Record BindPayload := MkBind {
  bnd_bind_type : BindType;
  bnd_target_port : Z;
  bnd_target_host : CowBytes;
}.

Record DatagramPayload := MkDatagram {
  dgm_target_port : Z;
  dgm_target_host : CowBytes;
  dgm_data : CowBytes;
}.

Inductive Payload :=
| Connect (p : ConnectPayload)
| Acknowledge (psh_recvd_since : Z)
| Reset
| Finish
| Push (data : CowBytes)
| Bind (p : BindPayload)
| Datagram (p : DatagramPayload).

(** [Payload::len]; [size_of] is 1, 2 or 4. *)
Definition Payload_len (p : Payload) : Z :=
  match p with
  | Connect c => 4 + 2 + cow_len (con_target_host c)
  | Acknowledge _ => 4
  | Reset | Finish => 0
  | Push data => cow_len data
  | Bind q => 1 + 2 + cow_len (bnd_target_host q)
  | Datagram d => 1 + 2 + cow_len (dgm_target_host d) + cow_len (dgm_data d)
  end.

Definition OpCode_from (p : Payload) : OpCode :=
  match p with
  | Connect _ => OpConnect
  | Acknowledge _ => OpAcknowledge
  | Reset => OpReset
  | Finish => OpFinish
  | Push _ => OpPush
  | Bind _ => OpBind
  | Datagram _ => OpDatagram
  end.

Record Frame := MkFrame { frame_id : Z; frame_payload : Payload }.

Definition new_connect (target_host : bytes) (target_port id rwnd : Z) : Frame :=
  MkFrame id (Connect (MkConnect rwnd target_port (Borrowed target_host))).

Definition new_acknowledge (id psh_recvd_since : Z) : Frame :=
  MkFrame id (Acknowledge psh_recvd_since).

Definition new_reset (id : Z) : Frame := MkFrame id Reset.

Definition new_finish (id : Z) : Frame := MkFrame id Finish.

Definition new_push (id : Z) (data : bytes) : Frame := MkFrame id (Push (Borrowed data)).

Definition new_push_owned (id : Z) (data : bytes) : Frame := MkFrame id (Push (Owned data)).

Definition new_bind (id : Z) (bind_type : BindType) (target_host : bytes) (target_port : Z) : Frame :=
  MkFrame id (Bind (MkBind bind_type target_port (Borrowed target_host))).

Definition new_datagram (id : Z) (target_host : bytes) (target_port : Z) (data : bytes) : Frame :=
  MkFrame id (Datagram (MkDatagram target_port (Borrowed target_host) (Borrowed data))).

Definition new_datagram_owned (id : Z) (target_host : bytes) (target_port : Z) (data : bytes) : Frame :=
  MkFrame id (Datagram (MkDatagram target_port (Owned target_host) (Owned data))).

(** [u8::try_from(usize)]. *)
Definition u8_try_from (n : Z) : option Z := if n <? 256 then Some n else None.

(** The payload part of the encoder; a [Datagram] whose host does not fit a
    one-byte length hits the [expect] and panics. *)
Definition encode_payload (p : Payload) : res FrameError bytes :=
  match p with
  | Connect c =>
      Ok (put_be 4 (con_rwnd c) ++ put_be 2 (con_target_port c) ++ cow_as_ref (con_target_host c))
  | Acknowledge n => Ok (put_be 4 n)
  | Reset | Finish => Ok []
  | Push data => Ok (cow_as_ref data)
  | Bind q =>
      Ok (put_be 1 (BindType_as_u8 (bnd_bind_type q)) ++ put_be 2 (bnd_target_port q)
          ++ cow_as_ref (bnd_target_host q))
  | Datagram d =>
      match u8_try_from (cow_len (dgm_target_host d)) with
      | Some len_u8 =>
          Ok (put_be 1 len_u8 ++ put_be 2 (dgm_target_port d)
              ++ cow_as_ref (dgm_target_host d) ++ cow_as_ref (dgm_data d))
      | None => Panic
      end
  end.

(** [From<&Frame> for Vec<u8>], with the trailing [debug_assert_eq!] on the
    precomputed size left to the theorem [encode_len]. *)
Definition frame_to_vec (f : Frame) : res FrameError bytes :=
  let firstbyte :=
    Z.lor (OpCode_as_u8 (OpCode_from (frame_payload f))) (Z.shiftl PROTOCOL_VERSION_NUMBER 4) in
  body ← encode_payload (frame_payload f);
  Ok (put_be 1 firstbyte ++ put_be 4 (frame_id f) ++ body).

(** [Frame::finalize] and the other conversions into [FinalizedFrame] only wrap
    the encoded bytes. *)
Definition finalize (f : Frame) : res FrameError bytes := frame_to_vec f.

(** The [check_remaining!] macro in a release or fuzzing build, where its
    [debug_assert!] is compiled out. *)
Definition check_remaining (data : bytes) (len : Z) : res FrameError unit :=
  if blen data <? len then Err FrameTooShort else Ok tt.

(** The macro with debug assertions: [debug_assert!(false, ..)] comes first. *)
Definition check_remaining_debug (data : bytes) (len : Z) : res FrameError unit :=
  if blen data <? len then Panic else Ok tt.

(** The decoder, over the macro as a build has it. *)
Section Decoder.
Variable check : bytes -> Z -> res FrameError unit.

Definition decode_payload_with (op : OpCode) (data : bytes) : res FrameError Payload :=
  match op with
  | OpConnect =>
      _ ← check data (4 + 2);
      '(rwnd, data) ← get_be 4 data;
      '(target_port, data) ← get_be 2 data;
      Ok (Connect (MkConnect rwnd target_port (Owned data)))
  | OpAcknowledge =>
      _ ← check data 4;
      '(psh_recvd_since, _) ← get_be 4 data;
      Ok (Acknowledge psh_recvd_since)
  | OpReset => Ok Reset
  | OpFinish => Ok Finish
  | OpPush => Ok (Push (Owned data))
  | OpBind =>
      _ ← check data (1 + 2);
      '(ty, data) ← get_be 1 data;
      bind_type ← BindType_try_from ty;
      '(target_port, data) ← get_be 2 data;
      Ok (Bind (MkBind bind_type target_port (Owned data)))
  | OpDatagram =>
      _ ← check data (1 + 6);
      '(host_len, data) ← get_be 1 data;
      _ ← check data (host_len + 6);
      '(target_port, data) ← get_be 2 data;
      if blen data <? host_len then Panic   (* [split_to] out of range *)
      else Ok (Datagram (MkDatagram target_port (Owned (take (Z.to_nat host_len) data))
                                    (Owned (drop (Z.to_nat host_len) data))))
  end.

(** [TryFrom<Bytes> for Frame]. *)
Definition frame_try_from_with (data : bytes) : res FrameError Frame :=
  _ ← check data (1 + 4);
  '(firstbyte, data) ← get_be 1 data;
  let ver := Z.shiftr firstbyte 4 in
  if negb (ver =? PROTOCOL_VERSION_NUMBER) then Err (FrameVersion ver)
  else
    opcode ← OpCode_try_from (Z.land firstbyte 15);
    '(id, data) ← get_be 4 data;
    payload ← decode_payload_with opcode data;
    Ok (MkFrame id payload).

End Decoder.

(** The program as it is shipped, and as its tests and debug builds run. *)
Definition decode_payload : OpCode -> bytes -> res FrameError Payload := decode_payload_with check_remaining.
Definition frame_try_from : bytes -> res FrameError Frame := frame_try_from_with check_remaining.
Definition frame_try_from_debug : bytes -> res FrameError Frame := frame_try_from_with check_remaining_debug.

(** What a debug build makes of an answer of the decoder. *)
Definition debug_build {A} (r : res FrameError A) : res FrameError A :=
  match r with Err FrameTooShort => Panic | _ => r end.

(** *** [FinalizedFrame]

    The newtype around the encoded bytes, and the conversions in and out of it. *)
Definition FinalizedFrame : Type := bytes.

(** [From<&Frame> for Bytes] and [for FinalizedFrame]. *)
Definition bytes_from_frame (frame : Frame) : res FrameError bytes := frame_to_vec frame.
Definition finalized_from_frame (frame : Frame) : res FrameError FinalizedFrame := bytes_from_frame frame.

(** [From<Bytes> for FinalizedFrame] and back. *)
Definition finalized_from_bytes (encoded : bytes) : FinalizedFrame := encoded.
Definition bytes_from_finalized (frame : FinalizedFrame) : bytes := frame.

(** [TryFrom<FinalizedFrame> for Frame]. *)
Definition frame_try_from_finalized (frame : FinalizedFrame) : res FrameError Frame :=
  frame_try_from (bytes_from_finalized frame).

(** [FinalizedFrame::opcode]. *)
Definition finalized_opcode (encoded : bytes) : res FrameError OpCode :=
  match encoded with
  | [] => Err FrameTooShort
  | firstbyte :: _ => OpCode_try_from (Z.land firstbyte 15)
  end.

(** *** Well-formedness: the ranges the Rust types enforce *)

Definition cow_ok (c : CowBytes) : Prop := bytes_ok (cow_as_ref c).

Definition payload_ok (p : Payload) : Prop :=
  match p with
  | Connect c => u32_ok (con_rwnd c) /\ u16_ok (con_target_port c) /\ cow_ok (con_target_host c)
  | Acknowledge n => u32_ok n
  | Reset | Finish => True
  | Push data => cow_ok data
  | Bind q => u16_ok (bnd_target_port q) /\ cow_ok (bnd_target_host q)
  | Datagram d => u16_ok (dgm_target_port d) /\ cow_ok (dgm_target_host d) /\ cow_ok (dgm_data d)
  end.

Definition frame_ok (f : Frame) : Prop := u32_ok (frame_id f) /\ payload_ok (frame_payload f).

(** The precondition of the encoder: the [expect] does not fire. *)
Definition encodable (f : Frame) : Prop :=
  match frame_payload f with
  | Datagram d => cow_len (dgm_target_host d) < 256
  | _ => True
  end.

(** A datagram whose data has fewer than four octets. *)
Definition short_datagram (f : Frame) : bool :=
  match frame_payload f with
  | Datagram d => cow_len (dgm_data d) <? 4
  | _ => false
  end.

(** *** Equality of frames: [PartialEq] ignores who owns the bytes *)

#[export] Instance cow_equiv : Equiv CowBytes := fun x y => cow_as_ref x = cow_as_ref y.

#[export] Instance payload_equiv : Equiv Payload := fun p q =>
  match p, q with
  | Connect c, Connect d =>
      con_rwnd c = con_rwnd d /\ con_target_port c = con_target_port d
      /\ con_target_host c ≡ con_target_host d
  | Acknowledge n, Acknowledge m => n = m
  | Reset, Reset => True
  | Finish, Finish => True
  | Push x, Push y => x ≡ y
  | Bind c, Bind d =>
      bnd_bind_type c = bnd_bind_type d /\ bnd_target_port c = bnd_target_port d
      /\ bnd_target_host c ≡ bnd_target_host d
  | Datagram c, Datagram d =>
      dgm_target_port c = dgm_target_port d /\ dgm_target_host c ≡ dgm_target_host d
      /\ dgm_data c ≡ dgm_data d
  | _, _ => False
  end.

#[export] Instance frame_equiv : Equiv Frame := fun f g =>
  frame_id f = frame_id g /\ frame_payload f ≡ frame_payload g.

(** The payload with every byte string owned: what the decoder builds. *)
Definition cow_owned (c : CowBytes) : CowBytes := Owned (cow_as_ref c).

Definition payload_owned (p : Payload) : Payload :=
  match p with
  | Connect c => Connect (MkConnect (con_rwnd c) (con_target_port c) (cow_owned (con_target_host c)))
  | Push data => Push (cow_owned data)
  | Bind q => Bind (MkBind (bnd_bind_type q) (bnd_target_port q) (cow_owned (bnd_target_host q)))
  | Datagram d =>
      Datagram (MkDatagram (dgm_target_port d) (cow_owned (dgm_target_host d)) (cow_owned (dgm_data d)))
  | other => other
  end.

Definition frame_owned (f : Frame) : Frame := MkFrame (frame_id f) (payload_owned (frame_payload f)).

(** ** Lemmas *)

#[export] Instance cow_equivalence : Equivalence (≡@{CowBytes}).
Proof. split; unfold equiv, cow_equiv; congruence || (intros ? ? ? -> ->; easy) || easy. Qed.

#[export] Instance payload_equivalence : Equivalence (≡@{Payload}).
Proof.
  split; unfold equiv, payload_equiv, equiv, cow_equiv.
  - intros []; easy.
  - intros [] []; intuition congruence.
  - intros [] [] []; try easy; intuition congruence.
Qed.

#[export] Instance frame_equivalence : Equivalence (≡@{Frame}).
Proof.
  split.
  - intros f. split; reflexivity.
  - intros f g [? ?]. split; symmetry; easy.
  - intros f g h [? ?] [? ?]. split; etrans; eassumption.
Qed.

#[export] Instance cow_as_ref_proper : Proper ((≡) ==> (=)) cow_as_ref.
Proof. easy. Qed.

Lemma cow_len_ref c : cow_len c = blen (cow_as_ref c).
Proof. now destruct c. Qed.

Lemma cow_eq_equiv x y : cow_eq x y = true <-> x ≡ y.
Proof. apply bool_decide_eq_true. Qed.

#[export] Instance cow_len_proper : Proper ((≡) ==> (=)) cow_len.
Proof. intros x y H. rewrite !cow_len_ref. now rewrite H. Qed.

#[export] Instance OpCode_from_proper : Proper ((≡) ==> (=)) OpCode_from.
Proof. intros [] []; simpl; easy. Qed.

#[export] Instance encode_payload_proper : Proper ((≡) ==> (=)) encode_payload.
Proof.
  unfold equiv, payload_equiv, equiv, cow_equiv.
  intros [] []; cbn [encode_payload]; try easy;
    [intros (? & ? & ?)|intros ?|intros ?|intros (? & ? & ?)|intros (? & ? & ?)];
    rewrite ?cow_len_ref;
    repeat match goal with H : _ = _ |- _ => rewrite H; clear H end; reflexivity.
Qed.

(** The encoder does not see the difference between borrowed and owned bytes. *)
#[export] Instance frame_to_vec_proper : Proper ((≡) ==> (=)) frame_to_vec.
Proof. intros f g [Hi Hp]. unfold frame_to_vec.
  rewrite (OpCode_from_proper _ _ Hp), (encode_payload_proper _ _ Hp), Hi. easy.
Qed.

Lemma cow_owned_equiv c : cow_owned c ≡ c.
Proof. easy. Qed.

Lemma payload_owned_equiv p : payload_owned p ≡ p.
Proof. destruct p; simpl; repeat split. Qed.

Lemma frame_owned_equiv f : frame_owned f ≡ f.
Proof. split; [easy|apply payload_owned_equiv]. Qed.

(** The first byte packs the version and the opcode in disjoint nibbles. *)
Lemma firstbyte_value op :
  Z.lor (OpCode_as_u8 op) (Z.shiftl PROTOCOL_VERSION_NUMBER 4) = 112 + OpCode_as_u8 op.
Proof. now destruct op. Qed.

Lemma opcode_roundtrip op : OpCode_try_from (OpCode_as_u8 op) = Ok op.
Proof. now destruct op. Qed.

Lemma bind_type_roundtrip t : BindType_try_from (BindType_as_u8 t) = Ok t.
Proof. now destruct t. Qed.

Lemma opcode_range op : 0 <= OpCode_as_u8 op <= 6.
Proof. destruct op; simpl; lia. Qed.

Lemma firstbyte_nibbles op :
  Z.shiftr (112 + OpCode_as_u8 op) 4 = 7 /\ Z.land (112 + OpCode_as_u8 op) 15 = OpCode_as_u8 op.
Proof. now destruct op. Qed.

Lemma frame_to_vec_eq f :
  frame_to_vec f
  = body ← encode_payload (frame_payload f);
    Ok ((112 + OpCode_as_u8 (OpCode_from (frame_payload f))) :: put_be 4 (frame_id f) ++ body).
Proof.
  unfold frame_to_vec. rewrite firstbyte_value.
  destruct (encode_payload (frame_payload f)); [|easy..]. cbn [mbind res_bind]. f_equal.
  pose proof (opcode_range (OpCode_from (frame_payload f))) as Hr. simpl app. f_equal.
  change 255 with (Z.ones 8). rewrite Z.shiftr_0_r, Z.land_ones, Z.mod_small; lia.
Qed.

Lemma check_remaining_ok data n : n <= blen data -> check_remaining data n = Ok tt.
Proof. unfold check_remaining. intros. case_bool; bool_prop; [lia|easy]. Qed.

Lemma check_remaining_short data n : blen data < n -> check_remaining data n = Err FrameTooShort.
Proof. unfold check_remaining. intros. case_bool; bool_prop; [easy|lia]. Qed.

Lemma check_remaining_cases data n :
  check_remaining data n = Ok tt \/ check_remaining data n = Err FrameTooShort.
Proof. unfold check_remaining. case_bool; auto. Qed.

(** The header part of the decoder on an encoded header. *)
Lemma frame_try_from_header op id body :
  u32_ok id ->
  frame_try_from ((112 + OpCode_as_u8 op) :: put_be 4 id ++ body)
  = payload ← decode_payload op body; Ok (MkFrame id payload).
Proof.
  intros Hid. unfold frame_try_from, frame_try_from_with; fold decode_payload.
  rewrite check_remaining_ok by (unfold blen; simpl; rewrite ?length_app; lia).
  cbn [mbind res_bind]. rewrite get_be_enough by (simpl; lia). cbn [mbind res_bind take drop].
  rewrite be_value_1.
  destruct (firstbyte_nibbles op) as [-> ->]. cbn [negb]. change (7 =? PROTOCOL_VERSION_NUMBER) with true.
  cbn [negb]. rewrite opcode_roundtrip. cbn [mbind res_bind].
  rewrite drop_0. now rewrite get_be_put_be by (unfold in_width in Hid; simpl; lia).
Qed.

Lemma wire_ok1 z : u8_ok z -> 0 <= z < 256 ^ Z.of_nat 1.
Proof. unfold in_width. simpl. lia. Qed.
Lemma wire_ok2 z : u16_ok z -> 0 <= z < 256 ^ Z.of_nat 2.
Proof. unfold in_width. simpl. lia. Qed.
Lemma wire_ok4 z : u32_ok z -> 0 <= z < 256 ^ Z.of_nat 4.
Proof. unfold in_width. simpl. lia. Qed.
#[export] Hint Resolve wire_ok1 wire_ok2 wire_ok4 : penguin.

Lemma bind_type_u8 t : u8_ok (BindType_as_u8 t).
Proof. destruct t; unfold in_width; simpl; lia. Qed.
#[export] Hint Resolve bind_type_u8 : penguin.

(** Size side conditions on explicit wire layouts. *)
Ltac wire_len := unfold blen; rewrite ?length_app, ?length_put_be; simpl length; lia.

(** Consume the leading field of a layout. *)
Ltac wire_step :=
  rewrite ?get_be_put_be by eauto with penguin; cbn [mbind res_bind].

(** A datagram decodes to its parts, whatever the octets of its host and data. *)
Lemma decode_encode_datagram port h d body :
  u16_ok port -> encode_payload (Datagram (MkDatagram port h d)) = Ok body -> 4 <= cow_len d ->
  decode_payload OpDatagram body = Ok (Datagram (MkDatagram port (cow_owned h) (cow_owned d))).
Proof.
  cbn [encode_payload decode_payload decode_payload_with dgm_target_port dgm_target_host dgm_data]. intros Hport Henc Hlong.
  unfold u8_try_from in Henc. rewrite !cow_len_ref in *.
  destruct (blen (cow_as_ref h) <? 256) eqn:Hh; [inj Henc|easy]. bool_prop.
  pose proof (blen_nonneg (cow_as_ref h)).
  rewrite check_remaining_ok by (unfold blen in *; rewrite !length_app, !length_put_be; lia).
  cbn [mbind res_bind]. rewrite get_be_put_be by (simpl; lia). cbn [mbind res_bind].
  rewrite check_remaining_ok by (unfold blen in *; rewrite !length_app, !length_put_be; lia).
  cbn [mbind res_bind]. wire_step. unfold blen at 1 3 4.
  rewrite Nat2Z.id, take_app_length, drop_app_length.
  case_bool; bool_prop; [|easy]. rewrite length_app in *. unfold blen in *. lia.
Qed.

(** The decoder undoes the encoder on every payload but a short datagram. *)
Lemma decode_encode_payload p body :
  payload_ok p -> encode_payload p = Ok body -> short_datagram (MkFrame 0 p) = false ->
  decode_payload (OpCode_from p) body = Ok (payload_owned p).
Proof.
  destruct p as [[r pt h]|n| | |x|[t pt h]|[pt h d]];
    cbn [encode_payload OpCode_from decode_payload decode_payload_with payload_ok payload_owned con_rwnd
         con_target_port con_target_host bnd_bind_type bnd_target_port bnd_target_host
         dgm_target_port dgm_target_host dgm_data]; intros Hok Henc Hshort.
  - destruct Hok as (? & ? & ?). inj Henc.
    rewrite check_remaining_ok by wire_len. cbn [mbind res_bind]. now do 2 wire_step.
  - inj Henc. rewrite check_remaining_ok by wire_len. cbn [mbind res_bind].
    rewrite <- (app_nil_r (put_be 4 n)). now wire_step.
  - now inj Henc.
  - now inj Henc.
  - now inj Henc.
  - destruct Hok as (? & ?). inj Henc.
    rewrite check_remaining_ok by wire_len. cbn [mbind res_bind].
    wire_step. rewrite bind_type_roundtrip. cbn [mbind res_bind]. now wire_step.
  - destruct Hok as (? & ? & ?). unfold short_datagram in Hshort. simpl in Hshort. bool_prop.
    now apply decode_encode_datagram.
Qed.

(** A datagram with fewer than four octets of data is always refused. *)
Lemma decode_short_datagram d body :
  encode_payload (Datagram d) = Ok body ->
  cow_len (dgm_data d) < 4 -> decode_payload OpDatagram body = Err FrameTooShort.
Proof.
  destruct d as [pt h d]. cbn [encode_payload dgm_target_port dgm_target_host dgm_data].
  intros Henc Hs. unfold u8_try_from in Henc. rewrite !cow_len_ref in *.
  destruct (blen (cow_as_ref h) <? 256) eqn:Hh; [inj Henc|easy]. bool_prop.
  pose proof (blen_nonneg (cow_as_ref h)). cbn [decode_payload decode_payload_with].
  destruct (check_remaining_cases (put_be 1 (blen (cow_as_ref h)) ++ put_be 2 pt
                                   ++ cow_as_ref h ++ cow_as_ref d) (1 + 6)) as [->| ->];
    [|easy]. cbn [mbind res_bind].
  rewrite get_be_put_be by (simpl; lia). cbn [mbind res_bind].
  rewrite check_remaining_short; [easy|].
  unfold blen in *. rewrite !length_app, !length_put_be. lia.
Qed.

Lemma encode_payload_encodable f :
  encodable f <-> exists body, encode_payload (frame_payload f) = Ok body.
Proof.
  unfold encodable. destruct (frame_payload f) as [| | | | | |d]; simpl; try (split; eauto; fail).
  unfold u8_try_from. case_bool; bool_prop; split; eauto; [lia|].
  intros [? ?]. easy.
Qed.

Lemma encode_payload_len p body : encode_payload p = Ok body -> blen body = Payload_len p.
Proof.
  destruct p as [c|n| | |x|q|d]; cbn [encode_payload Payload_len]; intros H;
    try (inj H; rewrite ?cow_len_ref, ?blen_app; unfold blen; rewrite ?length_put_be; simpl; lia).
  unfold u8_try_from in H. case_bool_in H; [inj H|easy]. rewrite ?cow_len_ref, ?blen_app.
  unfold blen. rewrite ?length_put_be. lia.
Qed.

Lemma encode_payload_no_err p e : encode_payload p <> Err e.
Proof. destruct p; simpl; try easy. now destruct (u8_try_from _). Qed.

Lemma frame_to_vec_Ok f bs :
  frame_to_vec f = Ok bs ->
  exists body, encode_payload (frame_payload f) = Ok body
    /\ bs = (112 + OpCode_as_u8 (OpCode_from (frame_payload f))) :: put_be 4 (frame_id f) ++ body.
Proof.
  rewrite frame_to_vec_eq. destruct (encode_payload (frame_payload f)); intros H; invc H. eauto.
Qed.

Lemma frame_to_vec_encodable f :
  encodable f -> exists bs, frame_to_vec f = Ok bs.
Proof.
  intros [body Hb]%encode_payload_encodable. rewrite frame_to_vec_eq, Hb. simpl. eauto.
Qed.

(** Decoding an encoded frame, in the form the other components use. *)
Lemma frame_try_from_to_vec f bs :
  frame_ok f -> frame_to_vec f = Ok bs -> short_datagram f = false ->
  frame_try_from bs = Ok (frame_owned f).
Proof.
  intros [Hid Hp] (body & Hb & ->)%frame_to_vec_Ok Hs.
  rewrite frame_try_from_header by easy. now rewrite (decode_encode_payload _ _ Hp Hb Hs).
Qed.

(** *** The decoder on arbitrary bytes *)

Lemma check_remaining_inv data n : check_remaining data n = Ok tt -> n <= blen data.
Proof. unfold check_remaining. case_bool; bool_prop; easy. Qed.

Lemma get_be_blen {E} n data : Z.of_nat n <= blen data -> exists z, @get_be E n data = Ok (z, drop n data).
Proof. intros H. unfold blen in H. rewrite get_be_enough by lia. eauto. Qed.

Lemma blen_drop n (bs : bytes) : Z.of_nat n <= blen bs -> blen (drop n bs) = blen bs - Z.of_nat n.
Proof. unfold blen. rewrite length_drop. lia. Qed.

(** Step through one successful check or field of a decoder in the goal. *)
Ltac decode_goal :=
  match goal with
  | |- context [check_remaining ?d ?n] =>
      let Hc := fresh "Hc" in
      destruct (check_remaining_cases d n) as [Hc|Hc]; rewrite Hc; cbn [mbind res_bind];
      [apply check_remaining_inv in Hc|]
  | |- context [get_be ?n ?d] =>
      let z := fresh "z" in let Hg := fresh "Hg" in
      destruct (@get_be_blen FrameError n d) as [z Hg];
      [rewrite ?blen_drop by lia; lia|rewrite Hg; cbn [mbind res_bind]]
  end.

Lemma bind_type_no_panic v : BindType_try_from v <> Panic.
Proof. unfold BindType_try_from. repeat case_bool; easy. Qed.

Lemma opcode_no_panic v : OpCode_try_from v <> Panic.
Proof. unfold OpCode_try_from. repeat case_bool; easy. Qed.

(** The decoder returns a payload of the kind it was asked for. *)
Lemma decode_payload_opcode op data p : decode_payload op data = Ok p -> OpCode_from p = op.
Proof.
  destruct op; cbn [decode_payload decode_payload_with]; intros H; try (now inj H);
    repeat (match type of H with
            | (_ ← ?c; _) = Ok _ => destruct c as [[]| |]; cbn [mbind res_bind] in H; try easy
            | (if ?c then _ else _) = Ok _ => destruct c; try easy
            end); now inj H.
Qed.

(** The opcode is read off the first octet. *)
Lemma frame_try_from_opcode op rest f :
  frame_try_from ((112 + OpCode_as_u8 op) :: rest) = Ok f -> OpCode_from (frame_payload f) = op.
Proof.
  unfold frame_try_from, frame_try_from_with; fold decode_payload. intros H. destruct (check_remaining _ _) as [[]| |]; cbn [mbind res_bind] in H; try easy.
  rewrite get_be_enough in H by (simpl; lia). cbn [mbind res_bind take drop] in H. rewrite be_value_1 in H.
  destruct (firstbyte_nibbles op) as [E1 E2]. rewrite E1, E2 in H.
  change (7 =? PROTOCOL_VERSION_NUMBER) with true in H. cbn [negb] in H. rewrite opcode_roundtrip in H.
  cbn [mbind res_bind] in H. destruct (get_be 4 _) as [[id data]| |]; cbn [mbind res_bind] in H; try easy.
  destruct (decode_payload op data) as [p| |] eqn:Hp; cbn [mbind res_bind] in H; try easy.
  injection H as <-. exact (decode_payload_opcode _ _ _ Hp).
Qed.

Lemma decode_payload_no_panic op data : decode_payload op data <> Panic.
Proof.
  destruct op; cbn [decode_payload decode_payload_with]; try easy; repeat (decode_goal; try easy).
  - destruct (BindType_try_from z) eqn:Ht; [easy..|now apply bind_type_no_panic in Ht].
  - case_bool; bool_prop; [|easy]. rewrite !blen_drop in * by (rewrite ?blen_drop; lia). lia.
Qed.

(** The decoder never panics. *)
Lemma frame_try_from_no_panic data : frame_try_from data <> Panic.
Proof.
  unfold frame_try_from, frame_try_from_with; fold decode_payload. repeat (decode_goal; try easy). case_bool; [easy|].
  destruct (OpCode_try_from _) as [op| |] eqn:Ho; cbn [mbind res_bind]; [|easy|now apply opcode_no_panic in Ho].
  destruct (decode_payload op _) eqn:Hd; [easy..|now apply decode_payload_no_panic in Hd].
Qed.

(** The datagram decoder refuses a frame that leaves fewer than four octets
    of data after the host. *)
Lemma decode_payload_long data p :
  decode_payload OpDatagram data = Ok p -> short_datagram (MkFrame 0 p) = false.
Proof.
  cbn [decode_payload decode_payload_with]. repeat (decode_goal; try easy). case_bool; [easy|].
  intros H. inj H. unfold short_datagram. cbn. bool_prop.
  apply Z.ltb_ge. unfold blen in *. rewrite !length_drop in *. lia.
Qed.

Lemma opcode_try_from_inv v op : OpCode_try_from v = Ok op -> v = OpCode_as_u8 op.
Proof.
  unfold OpCode_try_from. intros H. repeat (case_bool_in H; [inj H; bool_prop; easy|]). easy.
Qed.

Lemma bind_type_try_from_inv v t : BindType_try_from v = Ok t -> v = BindType_as_u8 t.
Proof.
  unfold BindType_try_from. intros H. repeat (case_bool_in H; [inj H; bool_prop; easy|]). easy.
Qed.

(** One field of the decoder, read backwards. *)
Ltac decode_field H :=
  match type of H with
  | context [check_remaining ?d ?n] =>
      let Hc := fresh "Hc" in
      destruct (check_remaining_cases d n) as [Hc|Hc]; rewrite Hc in H; cbn [mbind res_bind] in H;
      [apply check_remaining_inv in Hc; clear Hc|easy]
  | context [@get_be ?E ?n ?d] =>
      let z := fresh "z" in let r := fresh "r" in let Hg := fresh "Hg" in
      destruct (@get_be E n d) as [[z r]| |] eqn:Hg; cbn [mbind res_bind] in H; [|easy|easy];
      apply get_be_Ok in Hg; [|assumption];
      let Hz := fresh "Hz" in
      destruct Hg as (Hg & -> & ? & Hz & ?)
  end.

(** Opcodes whose decoder ignores what follows the fixed fields. *)
Definition ignores_trailing (op : OpCode) : bool :=
  match op with OpAcknowledge | OpReset | OpFinish => true | _ => false end.

Lemma width_of_256 n z : 0 <= z < 256 ^ Z.of_nat n -> in_width (8 * Z.of_nat n) z.
Proof. unfold in_width. now rewrite Z.pow_mul_r by lia. Qed.

(** Every payload the decoder returns is well formed, owned, and encodes to
    the bytes it was read from, up to the trailing bytes some opcodes ignore. *)
Lemma decode_payload_inv op data p :
  bytes_ok data -> decode_payload op data = Ok p ->
  payload_ok p /\ OpCode_from p = op /\ payload_owned p = p
  /\ exists body rest, encode_payload p = Ok body /\ data = body ++ rest
     /\ (ignores_trailing op = false -> rest = []).
Proof.
  intros Hok H. destruct op; cbn [decode_payload decode_payload_with] in H.
  - decode_field H. do 2 decode_field H. inj H.
    apply width_of_256 in Hz, Hz0. refine (conj _ (conj eq_refl (conj eq_refl _))); [easy|].
    eexists _, []. split; [reflexivity|]. split; [|easy]. cbn.
    rewrite !put_be_be_value, app_nil_r by (try apply Forall_take; easy).
    rewrite Hg at 1. now rewrite Hg0 at 1.
  - decode_field H. decode_field H. inj H. apply width_of_256 in Hz. refine (conj _ (conj eq_refl (conj eq_refl _))); [easy|].
    eexists _, r. split; [reflexivity|]. split; [|easy].
    rewrite put_be_be_value by (try apply Forall_take; easy). exact Hg.
  - inj H. refine (conj I (conj eq_refl (conj eq_refl _))). exists [], data. easy.
  - inj H. refine (conj I (conj eq_refl (conj eq_refl _))). exists [], data. easy.
  - inj H. refine (conj _ (conj eq_refl (conj eq_refl _))); [easy|]. exists data, []. rewrite app_nil_r. easy.
  - decode_field H. decode_field H.
    destruct (BindType_try_from _) eqn:Ht; cbn [mbind res_bind] in H; [|easy|easy].
    apply bind_type_try_from_inv in Ht.
    decode_field H. inj H. apply width_of_256 in Hz0. refine (conj _ (conj eq_refl (conj eq_refl _))); [easy|].
    eexists _, []. split; [reflexivity|]. split; [|easy]. cbn [bnd_bind_type bnd_target_port bnd_target_host cow_as_ref].
    rewrite <- Ht, !put_be_be_value, app_nil_r by (try apply Forall_take; easy).
    rewrite Hg at 1. now rewrite Hg0 at 1.
  - decode_field H. decode_field H. decode_field H. decode_field H.
    case_bool_in H; [easy|]. inj H. bool_prop. apply width_of_256 in Hz0.
    refine (conj _ (conj eq_refl (conj eq_refl _)));
      [split; [easy|split; [now apply Forall_take|now apply Forall_drop]]|].
    eexists _, []. split; [|split; [|easy]].
    + cbn [encode_payload dgm_target_port dgm_target_host dgm_data cow_len cow_as_ref].
      unfold u8_try_from. replace (blen (take _ r0)) with (be_value (take 1 data)).
      * rewrite (proj2 (Z.ltb_lt _ 256)) by (simpl in Hz; lia). reflexivity.
      * unfold blen in *. rewrite length_take. lia.
    + rewrite take_drop, !put_be_be_value, app_nil_r by (try apply Forall_take; easy).
      rewrite Hg at 1. now rewrite Hg0 at 1.
Qed.

Lemma payload_owned_encodable p body : encode_payload p = Ok body -> encodable (MkFrame 0 p).
Proof. intros H. apply encode_payload_encodable. eauto. Qed.

(** Header of a successful decode. *)
Lemma frame_try_from_inv data f :
  bytes_ok data -> frame_try_from data = Ok f ->
  exists op body, data = (112 + OpCode_as_u8 op) :: put_be 4 (frame_id f) ++ body
    /\ u32_ok (frame_id f) /\ bytes_ok body
    /\ decode_payload op body = Ok (frame_payload f).
Proof.
  unfold frame_try_from, frame_try_from_with; fold decode_payload. intros Hok H. decode_field H. decode_field H.
  case_bool_in H; [easy|]. bool_prop.
  destruct (OpCode_try_from _) as [op| |] eqn:Ho; cbn [mbind res_bind] in H; [|easy..].
  apply opcode_try_from_inv in Ho. decode_field H.
  destruct (decode_payload op r0) as [p| |] eqn:Hd; cbn [mbind res_bind] in H; [|easy..].
  inj H. exists op, r0. cbn [frame_id frame_payload].
  apply width_of_256 in Hz0. rewrite put_be_be_value by (try apply Forall_take; easy).
  split; [|easy]. rewrite <- Hg0.
  destruct data as [|x data]; [easy|]. simpl in Hg |- *. cbn [take] in *.
  rewrite be_value_1 in *. f_equal; [|now injection Hg].
  clear - Ho Heqb Hok. invc Hok. unfold in_width in *. change (2 ^ 8) with 256 in *.
  unfold PROTOCOL_VERSION_NUMBER in *. rewrite Z.shiftr_div_pow2 in Heqb by lia.
  change 15 with (Z.ones 4) in Ho. rewrite Z.land_ones in Ho by lia.
  pose proof (Z.div_mod x 16). change (2 ^ 4) with 16 in *. lia.
Qed.

(** ** Properties *)

(** C28: a well-formed frame whose host fits its one-byte length, and which is
    not a datagram of fewer than four data octets, is encoded to bytes the
    decoder reads back to an equal frame ([PartialEq] equality: contents of
    the byte strings, not their ownership). *)
Theorem frame_roundtrip f :
  frame_ok f -> encodable f -> short_datagram f = false ->
  exists bs g, frame_to_vec f = Ok bs /\ frame_try_from bs = Ok g /\ g ≡ f.
Proof.
  intros Hok He Hs. destruct (frame_to_vec_encodable f He) as [bs Hbs].
  exists bs, (frame_owned f). split; [easy|]. split; [|apply frame_owned_equiv].
  now apply frame_try_from_to_vec.
Qed.

Lemma frame_roundtrip_witness :
  exists bs g,
    frame_to_vec (new_connect [1; 2; 3] 5678 1234 512) = Ok bs
    /\ frame_try_from bs = Ok g /\ g ≡ new_connect [1; 2; 3] 5678 1234 512.
Proof.
  apply (frame_roundtrip (new_connect [1; 2; 3] 5678 1234 512)); [|easy|easy].
  solve_ranges.
Defined.

(** The encoder accepts a datagram with one to three (or no) data octets,
    and the decoder refuses what it produced as too short: such a datagram
    cannot cross the tunnel. *)
Theorem short_datagram_refused f :
  frame_ok f -> encodable f -> short_datagram f = true ->
  exists bs, frame_to_vec f = Ok bs /\ frame_try_from bs = Err FrameTooShort.
Proof.
  intros [Hid Hp] He Hs. destruct (frame_to_vec_encodable f He) as [bs Hbs].
  exists bs. split; [easy|]. apply frame_to_vec_Ok in Hbs as (body & Hb & ->).
  rewrite frame_try_from_header by easy. unfold short_datagram in Hs.
  destruct (frame_payload f) as [| | | | | |d]; try easy. bool_prop.
  cbn [OpCode_from]. now rewrite (decode_short_datagram d body Hb Hs).
Qed.

Lemma short_datagram_refused_witness :
  exists bs,
    frame_to_vec (new_datagram 7 [49] 53 [1; 2; 3]) = Ok bs
    /\ frame_try_from bs = Err FrameTooShort.
Proof.
  apply (short_datagram_refused (new_datagram 7 [49] 53 [1; 2; 3])); [|easy|easy].
  solve_ranges.
Defined.

(** *** The debug build *)

Lemma debug_bind {A B} (c : res FrameError A) (k : A -> res FrameError B) :
  debug_build (a ← c; k a) = (a ← debug_build c; debug_build (k a)).
Proof. now destruct c as [a|[]|]. Qed.

Lemma debug_check data n : check_remaining_debug data n = debug_build (check_remaining data n).
Proof. unfold check_remaining_debug, check_remaining. now case_bool. Qed.

Lemma debug_get n data : debug_build (get_be n data) = get_be n data.
Proof. unfold get_be. now case_bool. Qed.

Lemma debug_bind_type v : debug_build (BindType_try_from v) = BindType_try_from v.
Proof. unfold BindType_try_from. now repeat case_bool. Qed.

Lemma debug_opcode v : debug_build (OpCode_try_from v) = OpCode_try_from v.
Proof. unfold OpCode_try_from. now repeat case_bool. Qed.

(** Stepping through both builds. *)
Ltac same_steps := repeat (rewrite ?debug_bind, ?debug_check, ?debug_get, ?debug_bind_type, ?debug_opcode;
  match goal with |- context [a ← debug_build ?c; _] => destruct c as [[]|[]|]; cbn [debug_build mbind res_bind]; try reflexivity
  | |- context [a ← ?c; _] => destruct c as [?|?|]; cbn [debug_build mbind res_bind]; try reflexivity
  | x : _ * _ |- _ => destruct x end).

Lemma debug_payload op data : decode_payload_with check_remaining_debug op data = debug_build (decode_payload op data).
Proof.
  destruct op; cbn [decode_payload decode_payload_with]; same_steps; solve [reflexivity|now case_bool].
Qed.

Lemma debug_frame data : frame_try_from_debug data = debug_build (frame_try_from data).
Proof.
  unfold frame_try_from_debug, frame_try_from, frame_try_from_with. rewrite debug_bind, debug_check.
  destruct (debug_build (check_remaining data (1 + 4))) as [[]| |]; cbn [mbind res_bind]; [|easy..].
  rewrite debug_bind, debug_get. destruct (get_be 1 data) as [[firstbyte rest]| |]; cbn [mbind res_bind]; [|easy..].
  case_bool; [easy|]. rewrite debug_bind, debug_opcode. destruct (OpCode_try_from _) as [op| |]; cbn [mbind res_bind]; [|easy..].
  rewrite debug_bind, debug_get. destruct (get_be 4 rest) as [[id body]| |]; cbn [mbind res_bind]; [|easy..].
  rewrite debug_bind, debug_payload. fold decode_payload. now destruct (debug_build (decode_payload op body)).
Qed.

(** C29: on arbitrary received bytes the decoder of a release or fuzzing build
    never panics, and whatever frame it returns is well formed, encodes again,
    and its encoding is what was received up to trailing bytes that only
    [Acknowledge], [Reset] and [Finish] ignore.  A build with debug assertions
    answers the same, except that it panics exactly where the release build
    answers [FrameTooShort]. *)
Theorem decode_sound data :
  bytes_ok data ->
  frame_try_from data <> Panic
  /\ (forall f, frame_try_from data = Ok f ->
     frame_ok f /\ encodable f /\ short_datagram f = false
     /\ exists bs rest, frame_to_vec f = Ok bs /\ data = bs ++ rest
        /\ (ignores_trailing (OpCode_from (frame_payload f)) = false -> rest = []))
  /\ frame_try_from_debug data = debug_build (frame_try_from data).
Proof.
  intros Hok. split; [apply frame_try_from_no_panic|]. split; [|exact (debug_frame data)].
  intros [id p] (op & body & -> & Hid & Hbody & Hd)%frame_try_from_inv; [|easy].
  cbn [frame_id frame_payload] in *.
  destruct (decode_payload_inv op body p Hbody Hd) as (Hp & Hop & _ & b0 & rest & Hb0 & -> & Hrest).
  split; [easy|]. split; [exact (payload_owned_encodable _ _ Hb0)|]. split.
  + destruct op; try (destruct p; easy). exact (decode_payload_long _ _ Hd).
  + eexists _, rest. rewrite frame_to_vec_eq. cbn [frame_payload frame_id]. rewrite Hb0, Hop.
    split; [reflexivity|]. split; [|easy]. cbn [app]. now rewrite <- app_assoc.
Qed.

Lemma decode_sound_witness :
  frame_try_from [114; 0; 0; 5; 11; 9] <> Panic
  /\ (exists bs rest, frame_to_vec (new_reset 1291) = Ok bs /\ [114; 0; 0; 5; 11; 9] = bs ++ rest)
  /\ frame_try_from [114; 0; 0] = Err FrameTooShort /\ frame_try_from_debug [114; 0; 0] = Panic.
Proof.
  destruct (decode_sound [114; 0; 0; 5; 11; 9] ltac:(solve_ranges)) as (Hp & Hs & _).
  destruct (decode_sound [114; 0; 0] ltac:(solve_ranges)) as (_ & _ & Hd).
  split; [exact Hp|]. split; [|split; [reflexivity|exact Hd]].
  destruct (Hs (new_reset 1291) eq_refl) as (_ & _ & _ & bs & rest & Hb & E & _). now exists bs, rest.
Defined.

(** The encoder panics exactly on a datagram host longer than 255 octets;
    otherwise the size it computed in advance is the size it wrote (its
    [debug_assert_eq!]) and the opcode read off the finished frame is that of
    the payload. *)
Theorem encode_size_and_panic f :
  match frame_to_vec f with
  | Ok bs => encodable f /\ blen bs = 1 + 4 + Payload_len (frame_payload f)
             /\ finalized_opcode bs = Ok (OpCode_from (frame_payload f))
  | Err _ => False
  | Panic => ~ encodable f
  end.
Proof.
  pose proof (encode_payload_encodable f) as He. rewrite frame_to_vec_eq.
  destruct (encode_payload (frame_payload f)) as [body|e|] eqn:Hb; cbn [mbind res_bind].
  - split; [apply He; eauto|]. apply encode_payload_len in Hb. split.
    + rewrite <- Hb. unfold blen. cbn [length]. rewrite length_app, length_put_be. lia.
    + cbn [app finalized_opcode]. destruct (firstbyte_nibbles (OpCode_from (frame_payload f))) as [_ ->].
      apply opcode_roundtrip.
  - now apply encode_payload_no_err in Hb.
  - rewrite He. now intros [body ?].
Qed.

(** Which error a malformed header gives: too short before anything else,
    then the version nibble, then the opcode nibble. *)
Theorem decode_header_errors data :
  bytes_ok data ->
  if blen data <? 5 then frame_try_from data = Err FrameTooShort
  else if negb (nth 0 data 0 / 16 =? 7)
       then frame_try_from data = Err (FrameVersion (nth 0 data 0 / 16))
  else if 6 <? nth 0 data 0 mod 16
       then frame_try_from data = Err (InvalidOpCode (nth 0 data 0 mod 16))
  else exists op, OpCode_as_u8 op = nth 0 data 0 mod 16
       /\ frame_try_from data
          = payload ← decode_payload op (drop 5 data);
            Ok (MkFrame (be_value (take 4 (drop 1 data))) payload).
Proof.
  intros Hok. destruct (blen data <? 5) eqn:Hl; bool_prop.
  { unfold frame_try_from, frame_try_from_with; fold decode_payload. now rewrite check_remaining_short. }
  unfold frame_try_from, frame_try_from_with; fold decode_payload. rewrite check_remaining_ok by lia. cbn [mbind res_bind].
  destruct data as [|x data]; [unfold blen in Hl; simpl in Hl; lia|]. invc Hok.
  rewrite get_be_enough by (simpl; lia). cbn [mbind res_bind take drop nth].
  rewrite be_value_1, Z.shiftr_div_pow2 by lia. change (2 ^ 4) with 16.
  change 15 with (Z.ones 4). rewrite Z.land_ones by lia. change (2 ^ 4) with 16.
  change PROTOCOL_VERSION_NUMBER with 7. case_bool; [easy|].
  pose proof (Z.mod_pos_bound x 16 ltac:(lia)). rewrite drop_0.
  unfold blen in Hl. cbn [length] in Hl.
  rewrite get_be_enough by lia. cbn [mbind res_bind].
  unfold OpCode_try_from.
  case_bool; bool_prop; [repeat (case_bool; bool_prop; [lia|]); easy|].
  repeat (case_bool; bool_prop; [eexists; split; [|reflexivity]; simpl; lia|]). lia.
Qed.

Lemma decode_header_errors_witness :
  frame_try_from [0x60; 0; 0; 0; 0] = Err (FrameVersion 6).
Proof.
  exact (decode_header_errors [0x60; 0; 0; 0; 0] ltac:(solve_ranges)).
Defined.

(** *** The representation tests of the source *)

Example frame_repr_bind :
  frame_to_vec (new_bind 42132 BindDatagram [1; 2; 3; 4] 1234)
  = Ok [0x75; 0x00; 0x00; 0xa4; 0x94; 0x03; 0x04; 0xd2; 0x01; 0x02; 0x03; 0x04].
Proof. reflexivity. Qed.

Example frame_repr_datagram :
  frame_to_vec (new_datagram 2134 [1; 2; 3; 4] 1234 [1; 2; 3; 4])
  = Ok [0x76; 0x00; 0x00; 0x08; 0x56; 0x04; 0x04; 0xd2; 1; 2; 3; 4; 1; 2; 3; 4].
Proof. reflexivity. Qed.

Example frame_too_long :
  frame_to_vec (new_datagram 2134 (repeat 0 256) 1234 [1; 2; 3; 4]) = Panic.
Proof. reflexivity. Qed.
