(* ===== verification/Dissector.v ===== *)
(** * The packet dissector (src/tools/penguin-v7.lua)

    The repository has a second reader of the wire format: a Wireshark
    dissector.  It is translated over an interface of Wireshark's buffers, and
    compared with the decoder of Frame.v: it shows exactly the fields the
    decoder reads, and the one kind of frame it shows that the decoder refuses
    is the datagram with fewer than four octets of data. *)

From S2P Require Import Prelude Frame.

(** ** Wireshark's buffers

    [buffer(off, len)] and [buffer(off)], the rest from [off]; [None] is the
    error Lua raises for a range outside of the buffer, which aborts the
    dissector.  [uint()] is the value of one to four octets in network order,
    which is also what a numeric field shows for a range. *)
Class Tvb (R : Type) := {
  tvb_range : bytes -> Z -> option Z -> option R;
  range_bytes : R -> bytes;
  range_uint : R -> Z;
  tvb_range_in : forall data off len, 0 <= off -> 0 <= len -> off + len <= blen data ->
    range_bytes <$> tvb_range data off (Some len) = Some (take (Z.to_nat len) (drop (Z.to_nat off) data));
  tvb_range_out : forall data off len, 0 <= off -> 0 <= len -> blen data < off + len ->
    tvb_range data off (Some len) = None;
  tvb_range_rest : forall data off, 0 <= off <= blen data ->
    range_bytes <$> tvb_range data off None = Some (drop (Z.to_nat off) data);
  range_uint_value : forall r, 1 <= blen (range_bytes r) <= 4 -> range_uint r = be_value (range_bytes r);
}.

(** ** Definitions *)

(** The fields of the protocol, and what one of them shows in the tree. *)
Inductive field :=
| f_opcode | f_flow_id | f_rwnd | f_ack | f_target_port | f_target_host | f_host_len | f_bind_type | f_payload.

Inductive shown := Number (v : Z) | Octets (bs : bytes).

Definition item : Type := field * shown.

(** How a dissector ends: it returned nothing, which takes the packet; it
    returned 0, which disowns it; or Lua raised an error. *)
Inductive verdict := Taken | Disowned | LuaError.

(** [opcodes] and [bind_types]: the names of the values. *)
Definition opcodes (v : Z) : option string :=
  if v =? 0 then Some "Connect" else if v =? 1 then Some "Acknowledge" else if v =? 2 then Some "Reset"
  else if v =? 3 then Some "Finish" else if v =? 4 then Some "Push" else if v =? 5 then Some "Bind"
  else if v =? 6 then Some "Datagram" else None.

Definition bind_types (v : Z) : option string :=
  if v =? 1 then Some "TCP" else if v =? 3 then Some "UDP" else None.

Section Dissector.
Context {R : Type} `{!Tvb R}.

(** A run of Lua over the subtree: what was added to it, and the verdict if the
    function has ended. *)
Definition D (A : Type) : Type := list item -> list item * (A + verdict).

#[local] Instance D_ret : MRet D := fun _ a t => (t, inl a).
#[local] Instance D_bind : MBind D := fun _ _ k m t =>
  match m t with (t', inl a) => k a t' | (t', inr v) => (t', inr v) end.

Definition stop {A} (v : verdict) : D A := fun t => (t, inr v).

Definition buffer (data : bytes) (off : Z) (len : option Z) : D R := fun t =>
  (t, match tvb_range data off len with Some r => inl r | None => inr LuaError end).

(** [subtree:add(field, v)], and of a range under a numeric or another field. *)
Definition add (f : field) (s : shown) : D unit := fun t => (t ++ [(f, s)], inl tt).
Definition add_number (f : field) (data : bytes) (off len : Z) : D unit :=
  r ← buffer data off (Some len); add f (Number (range_uint r)).
Definition add_octets (f : field) (data : bytes) (off : Z) (len : option Z) : D unit :=
  r ← buffer data off len; add f (Octets (range_bytes r)).

Definition dissect_body (opcode : Z) (data : bytes) : D unit :=
  if opcode =? 0 then
    _ ← add_number f_rwnd data 5 4;
    _ ← add_number f_target_port data 9 2;
    add_octets f_target_host data 11 None
  else if opcode =? 1 then add_number f_ack data 5 4
  else if opcode =? 2 then mret tt
  else if opcode =? 3 then mret tt
  else if opcode =? 4 then add_octets f_payload data 5 None
  else if opcode =? 5 then
    r ← buffer data 5 (Some 1);
    let bind_type := range_uint r in
    match bind_types bind_type with
    | None => stop Disowned
    | Some _ =>
        _ ← add f_bind_type (Number bind_type);
        _ ← add_number f_target_port data 6 2;
        add_octets f_target_host data 8 None
    end
  else if opcode =? 6 then
    r ← buffer data 5 (Some 1);
    let host_len := range_uint r in
    _ ← add f_host_len (Number host_len);
    _ ← add_number f_target_port data 6 2;
    _ ← add_octets f_target_host data 8 (Some host_len);
    add_octets f_payload data (8 + host_len) None
  else stop Disowned.

Definition dissect (data : bytes) : D unit :=
  _ ← buffer data 0 None;
  r ← buffer data 0 (Some 1);
  let first_byte := range_uint r in
  if negb (Z.shiftr first_byte 4 =? 7) then stop Disowned
  else
    let opcode := Z.land first_byte 15 in
    _ ← add f_opcode (Number opcode);
    _ ← add_number f_flow_id data 1 4;
    dissect_body opcode data.

Definition dissector (data : bytes) : list item * verdict :=
  match dissect data [] with (t, inl _) => (t, Taken) | (t, inr v) => (t, v) end.

(** ** What is shown of a frame *)

Definition shown_payload (p : Payload) : list item :=
  match p with
  | Connect c =>
      [(f_rwnd, Number (con_rwnd c)); (f_target_port, Number (con_target_port c));
       (f_target_host, Octets (cow_as_ref (con_target_host c)))]
  | Acknowledge n => [(f_ack, Number n)]
  | Reset | Finish => []
  | Push data => [(f_payload, Octets (cow_as_ref data))]
  | Bind b =>
      [(f_bind_type, Number (BindType_as_u8 (bnd_bind_type b))); (f_target_port, Number (bnd_target_port b));
       (f_target_host, Octets (cow_as_ref (bnd_target_host b)))]
  | Datagram d =>
      [(f_host_len, Number (cow_len (dgm_target_host d))); (f_target_port, Number (dgm_target_port d));
       (f_target_host, Octets (cow_as_ref (dgm_target_host d))); (f_payload, Octets (cow_as_ref (dgm_data d)))]
  end.

Definition shown_frame (f : Frame) : list item :=
  (f_opcode, Number (OpCode_as_u8 (OpCode_from (frame_payload f))))
  :: (f_flow_id, Number (frame_id f)) :: shown_payload (frame_payload f).

(** ** Lemmas *)

(** *** Ranges of a packet with a header

    An octet, four of identifier, and the body: a range of the packet from the
    fifth octet on is one of the body. *)

Section Packet.
Variables (x : Z) (id body : bytes).
Hypothesis Hid : length id = 4%nat.

Let data : bytes := x :: id ++ body.

Lemma packet_len : blen data = 5 + blen body.
Proof. unfold data, blen. cbn [length]. rewrite length_app, Hid. lia. Qed.

Lemma packet_drop off : 5 <= off -> drop (Z.to_nat off) data = drop (Z.to_nat (off - 5)) body.
Proof.
  intros. unfold data. replace (Z.to_nat off) with (5 + Z.to_nat (off - 5))%nat by lia.
  change (drop (4 + Z.to_nat (off - 5)) (id ++ body) = drop (Z.to_nat (off - 5)) body).
  rewrite <- Hid, <- drop_drop. now rewrite drop_app_length.
Qed.

(** The range of [len] octets at [off] of the packet, in the body. *)
Definition body_at (off len : Z) : bytes := take (Z.to_nat len) (drop (Z.to_nat (off - 5)) body).

Lemma packet_range off len :
  5 <= off -> 0 <= len -> off + len <= 5 + blen body ->
  exists r, tvb_range data off (Some len) = Some r /\ range_bytes r = body_at off len
    /\ (1 <= len <= 4 -> range_uint r = be_value (body_at off len)).
Proof.
  intros. pose proof (tvb_range_in data off len) as H2.
  rewrite packet_len in H2. specialize (H2 ltac:(lia) ltac:(lia) ltac:(lia)).
  destruct (tvb_range data off (Some len)) as [r|]; [|easy]. injection H2 as H2.
  rewrite packet_drop in H2 by lia. exists r. split; [easy|]. split; [easy|]. intros.
  rewrite range_uint_value, H2; [easy|]. rewrite H2. unfold blen in *. rewrite length_take, length_drop. lia.
Qed.

Lemma buffer_in off len t :
  5 <= off -> 1 <= len <= 4 -> off + len <= 5 + blen body ->
  exists r, buffer data off (Some len) t = (t, inl r) /\ range_uint r = be_value (body_at off len).
Proof.
  intros. destruct (packet_range off len) as (r & Hr & _ & Hv); [lia..|]. unfold buffer. rewrite Hr. eauto.
Qed.

Lemma add_number_in f off len t :
  5 <= off -> 1 <= len <= 4 -> off + len <= 5 + blen body ->
  add_number f data off len t = (t ++ [(f, Number (be_value (body_at off len)))], inl tt).
Proof.
  intros. unfold add_number, mbind, D_bind. destruct (buffer_in off len t) as (r & -> & <-); [lia..|easy].
Qed.

Lemma add_octets_in f off len t :
  5 <= off -> 0 <= len -> off + len <= 5 + blen body ->
  add_octets f data off (Some len) t = (t ++ [(f, Octets (body_at off len))], inl tt).
Proof.
  intros. destruct (packet_range off len) as (r & Hr & Hb & _); [lia..|].
  unfold add_octets, mbind, D_bind, buffer, add. now rewrite Hr, Hb.
Qed.

Lemma add_octets_rest f off t :
  5 <= off <= 5 + blen body ->
  add_octets f data off None t = (t ++ [(f, Octets (drop (Z.to_nat (off - 5)) body))], inl tt).
Proof.
  intros. unfold add_octets, mbind, D_bind, buffer, add.
  pose proof (tvb_range_rest data off) as H2. rewrite packet_len in H2. specialize (H2 ltac:(lia)).
  destruct (tvb_range data off None) as [r|]; [|easy]. injection H2 as H2.
  now rewrite packet_drop, <- H2 in * by lia.
Qed.

Lemma buffer_out off len t :
  5 <= off -> 0 <= len -> 5 + blen body < off + len -> buffer data off (Some len) t = (t, inr LuaError).
Proof. intros. unfold buffer. rewrite tvb_range_out; [easy|lia..|rewrite packet_len; lia]. Qed.

Lemma add_number_out f off len t :
  5 <= off -> 0 <= len -> 5 + blen body < off + len -> add_number f data off len t = (t, inr LuaError).
Proof. intros. unfold add_number, mbind, D_bind. now rewrite buffer_out. Qed.

Lemma add_octets_out f off len t :
  5 <= off -> 0 <= len -> 5 + blen body < off + len -> add_octets f data off (Some len) t = (t, inr LuaError).
Proof. intros. unfold add_octets, mbind, D_bind. now rewrite buffer_out. Qed.

(** *** The body

    What the dissector does with the body of a frame, by what the decoder makes
    of it. *)
Definition body_agrees (op : OpCode) (t : list item) : Prop :=
  match decode_payload op body with
  | Ok p => dissect_body (OpCode_as_u8 op) data t = (t ++ shown_payload p, inl tt)
  | Err e =>
      (exists t' v, dissect_body (OpCode_as_u8 op) data t = (t', inr v) /\ v <> Taken
         /\ (v = LuaError -> e = FrameTooShort))
      \/ (exists d, op = OpDatagram /\ payload_ok (Datagram d) /\ encode_payload (Datagram d) = Ok body
         /\ cow_len (dgm_data d) < 4 /\ e = FrameTooShort
         /\ dissect_body (OpCode_as_u8 op) data t = (t ++ shown_payload (Datagram d), inl tt))
  | Panic => False
  end.

(** One step of the dissector, inside or outside of the packet. *)
Ltac dissect_step :=
  match goal with
  | |- context [add_number ?f data ?off ?len ?t] =>
      first [rewrite (add_number_in f off len t) by lia | rewrite (add_number_out f off len t) by lia]
  | |- context [add_octets ?f data ?off (Some ?len) ?t] =>
      first [rewrite (add_octets_in f off len t) by lia | rewrite (add_octets_out f off len t) by lia]
  | |- context [add_octets ?f data ?off None ?t] => rewrite (add_octets_rest f off t) by lia
  end; cbn beta iota.

Ltac dissect_steps := unfold dissect_body; cbn [OpCode_as_u8 Z.eqb Pos.eqb]; unfold mbind, D_bind; repeat dissect_step.

Lemma dissect_connect t : body_agrees OpConnect t.
Proof.
  pose proof (blen_nonneg body). unfold body_agrees. cbn [decode_payload decode_payload_with].
  destruct (Z_lt_le_dec (blen body) (4 + 2)) as [Hc|Hc].
  - rewrite check_remaining_short by easy. left.
    destruct (Z_lt_le_dec (blen body) 4); dissect_steps; eauto.
  - rewrite check_remaining_ok by easy. cbn [mbind res_bind]. unfold blen in Hc.
    rewrite get_be_enough by lia. cbn [mbind res_bind].
    rewrite get_be_enough by (rewrite length_drop; lia). cbn [mbind res_bind].
    fold (blen body) in Hc. dissect_steps. rewrite <- !app_assoc, drop_drop. reflexivity.
Qed.

Lemma dissect_acknowledge t : body_agrees OpAcknowledge t.
Proof.
  pose proof (blen_nonneg body). unfold body_agrees. cbn [decode_payload decode_payload_with].
  destruct (Z_lt_le_dec (blen body) 4) as [Hc|Hc].
  - rewrite check_remaining_short by easy. left. dissect_steps. eauto.
  - rewrite check_remaining_ok by easy. cbn [mbind res_bind]. unfold blen in Hc.
    rewrite get_be_enough by lia. cbn [mbind res_bind]. fold (blen body) in Hc. dissect_steps. reflexivity.
Qed.

Lemma dissect_push t : body_agrees OpPush t.
Proof. pose proof (blen_nonneg body). unfold body_agrees. cbn [decode_payload decode_payload_with]. now dissect_steps. Qed.

Lemma bind_types_known v : bind_types v = None <-> BindType_try_from v = Err (InvalidBindType v).
Proof. unfold bind_types, BindType_try_from. repeat case_bool; easy. Qed.

Lemma dissect_bind t : body_agrees OpBind t.
Proof.
  pose proof (blen_nonneg body). unfold body_agrees. cbn [decode_payload decode_payload_with].
  dissect_steps. destruct (Z_lt_le_dec (blen body) 1) as [H1|H1].
  { rewrite check_remaining_short, buffer_out by lia. left. eauto. }
  destruct (buffer_in 5 1 t) as (r & -> & ->); [lia..|].
  change (body_at 5 1) with (take 1 body).
  destruct (Z_lt_le_dec (blen body) (1 + 2)) as [Hc|Hc].
  - rewrite check_remaining_short by easy. left. cbn [mbind res_bind].
    destruct (bind_types _); [|now eexists _, Disowned]. cbn [add]. dissect_step. eauto.
  - rewrite check_remaining_ok by easy. cbn [mbind res_bind]. unfold blen in Hc.
    rewrite get_be_enough by lia. cbn [mbind res_bind].
    set (v := be_value (take 1 body)). fold (blen body) in Hc.
    destruct (bind_types v) eqn:Hb.
    + destruct (BindType_try_from v) as [ty|e|] eqn:Hv; cbn [mbind res_bind].
      * rewrite get_be_enough by (unfold blen in Hc; rewrite length_drop; lia). cbn [mbind res_bind add].
        apply bind_type_try_from_inv in Hv. repeat dissect_step. rewrite <- !app_assoc, drop_drop, Hv. reflexivity.
      * unfold BindType_try_from in Hv. unfold bind_types in Hb. repeat (case_bool_in Hv; [easy|]). exfalso. bool_prop.
        repeat (case_bool_in Hb; bool_prop; [easy|]). easy.
      * now apply bind_type_no_panic in Hv.
    + apply bind_types_known in Hb. rewrite Hb. cbn [mbind res_bind]. left. now eexists _, Disowned.
Qed.

(** The parts of a datagram whose host is all there. *)
Definition datagram_at (host_len : Z) : DatagramPayload :=
  MkDatagram (be_value (body_at 6 2)) (Owned (body_at 8 host_len)) (Owned (drop (Z.to_nat (3 + host_len)) body)).

Lemma datagram_at_encodes :
  bytes_ok body -> 3 + be_value (take 1 body) <= blen body ->
  encode_payload (Datagram (datagram_at (be_value (take 1 body)))) = Ok body.
Proof.
  intros Hok Hlen. pose proof (be_value_bound (take 1 body) (Forall_take _ _ _ Hok)) as Hb.
  assert (Hl1 : length (take 1 body) = 1%nat) by (unfold blen in Hlen; rewrite length_take; lia).
  rewrite Hl1 in Hb. set (n := be_value (take 1 body)) in *. change (256 ^ Z.of_nat 1) with 256 in Hb.
  assert (Hl2 : length (body_at 6 2) = 2%nat)
    by (unfold body_at; unfold blen in Hlen; rewrite length_take, length_drop; lia).
  cbn [encode_payload datagram_at dgm_target_host dgm_target_port dgm_data cow_len cow_as_ref].
  assert (Hh : blen (body_at 8 n) = n) by (unfold body_at, blen in *; rewrite length_take, length_drop; lia).
  rewrite Hh. unfold u8_try_from. rewrite (proj2 (Z.ltb_lt n 256)) by lia. f_equal.
  unfold n at 1. rewrite !put_be_be_value; [|apply Forall_take, Forall_drop, Hok|easy|apply Forall_take, Hok|easy].
  unfold body_at. change (Z.to_nat (6 - 5)) with 1%nat. change (Z.to_nat (8 - 5)) with 3%nat. change (Z.to_nat 2) with 2%nat.
  replace (Z.to_nat (3 + n)) with (3 + Z.to_nat n)%nat by lia.
  rewrite <- drop_drop, take_drop. change 3%nat with (1 + 2)%nat. rewrite <- drop_drop, !take_drop. easy.
Qed.

Lemma dissect_datagram t : bytes_ok body -> body_agrees OpDatagram t.
Proof.
  intros Hok. pose proof (blen_nonneg body). unfold body_agrees. dissect_steps.
  destruct (Z_lt_le_dec (blen body) 1) as [H1|H1].
  { cbn [decode_payload decode_payload_with]. rewrite check_remaining_short, buffer_out by lia. left. eauto. }
  destruct (buffer_in 5 1 t) as (r & -> & ->); [lia..|]. change (body_at 5 1) with (take 1 body). cbn [add].
  pose proof (be_value_bound (take 1 body) (Forall_take _ _ _ Hok)) as [Hb _].
  set (n := be_value (take 1 body)) in *.
  destruct (Z_lt_le_dec (blen body) 3) as [H3|H3].
  { cbn [decode_payload decode_payload_with]. rewrite check_remaining_short by lia. left. dissect_step. eauto. }
  destruct (Z_lt_le_dec (blen body) (3 + n)) as [Hn|Hn].
  { cbn [decode_payload decode_payload_with]. repeat dissect_step.
    destruct (check_remaining_cases body (1 + 6)) as [Hc|Hc]; rewrite Hc; cbn [mbind res_bind]; [|left; eauto].
    rewrite get_be_enough by (unfold blen in *; lia). cbn [mbind res_bind]. fold n.
    rewrite check_remaining_short by (unfold blen in *; rewrite length_drop; lia). left. eauto. }
  pose proof (datagram_at_encodes Hok Hn) as Henc. fold n in Henc. repeat dissect_step.
  rewrite <- !app_assoc. cbn [app].
  assert (Hshown : @eq (list item) [(f_host_len, Number n); (f_target_port, Number (be_value (body_at 6 2)));
                    (f_target_host, Octets (body_at 8 n)); (f_payload, Octets (drop (Z.to_nat (8 + n - 5)) body))]
                     (shown_payload (Datagram (datagram_at n)))).
  { unfold datagram_at. cbn [shown_payload dgm_target_host dgm_target_port dgm_data cow_len cow_as_ref].
    replace (blen (body_at 8 n)) with n by (unfold body_at, blen in *; rewrite length_take, length_drop; lia).
    now replace (8 + n - 5) with (3 + n) by lia. }
  unfold item in *. rewrite Hshown.
  assert (Hpay : payload_ok (Datagram (datagram_at n))).
  { split; [|split; unfold cow_ok; [now apply Forall_take, Forall_drop|now apply Forall_drop]].
    pose proof (be_value_bound (body_at 6 2)) as H62. unfold u16_ok, in_width. cbn.
    assert (length (body_at 6 2) = 2%nat) as Hl by (unfold body_at, blen in *; rewrite length_take, length_drop; lia).
    rewrite Hl in H62. apply H62. now apply Forall_take, Forall_drop. }
  destruct (Z_lt_le_dec (cow_len (dgm_data (datagram_at n))) 4) as [Hs|Hs].
  - rewrite (decode_short_datagram _ _ Henc Hs). right. exists (datagram_at n). easy.
  - rewrite (decode_encode_datagram _ _ _ _ (proj1 Hpay) Henc Hs). easy.
Qed.

Lemma dissect_body_agrees op t : bytes_ok body -> body_agrees op t.
Proof.
  intros Hok. destruct op.
  - apply dissect_connect.
  - apply dissect_acknowledge.
  - unfold body_agrees. cbn. now rewrite app_nil_r.
  - unfold body_agrees. cbn. now rewrite app_nil_r.
  - apply dissect_push.
  - apply dissect_bind.
  - now apply dissect_datagram.
Qed.

End Packet.

(** *** The header *)

Lemma packet_split data :
  5 <= blen data -> exists x id body, data = x :: id ++ body /\ length id = 4%nat.
Proof.
  intros H. destruct data as [|x data]; [easy|]. exists x, (take 4 data), (drop 4 data).
  rewrite take_drop, length_take. unfold blen in H. cbn [length] in H. split; [easy|lia].
Qed.

Lemma decode_packet x id body :
  length id = 4%nat ->
  frame_try_from (x :: id ++ body)
  = if negb (Z.shiftr x 4 =? 7) then Err (FrameVersion (Z.shiftr x 4))
    else opcode ← OpCode_try_from (Z.land x 15);
         payload ← decode_payload opcode body; Ok (MkFrame (be_value id) payload).
Proof.
  intros Hid. unfold frame_try_from, frame_try_from_with; fold decode_payload.
  rewrite check_remaining_ok by (unfold blen; cbn [length]; rewrite length_app; lia).
  cbn [mbind res_bind]. rewrite get_be_enough by (cbn [length]; lia). cbn [mbind res_bind take drop].
  rewrite take_0, be_value_1, drop_0. unfold PROTOCOL_VERSION_NUMBER. case_bool; [easy|].
  destruct (OpCode_try_from _); cbn [mbind res_bind]; [|easy..].
  rewrite get_be_enough by (rewrite length_app; lia). cbn [mbind res_bind].
  now rewrite <- Hid, take_app_length, drop_app_length.
Qed.

Lemma header_range x rest off len :
  0 <= off -> 1 <= len <= 4 -> off + len <= blen (x :: rest) ->
  exists r, tvb_range (x :: rest) off (Some len) = Some r
    /\ range_uint r = be_value (take (Z.to_nat len) (drop (Z.to_nat off) (x :: rest))).
Proof.
  intros. pose proof (tvb_range_in (x :: rest) off len) as H2. specialize (H2 ltac:(lia) ltac:(lia) ltac:(lia)).
  destruct (tvb_range _ _ _) as [r|]; [|easy]. injection H2 as H2. exists r. split; [easy|].
  rewrite range_uint_value, H2; [easy|]. rewrite H2. unfold blen in *. rewrite length_take, length_drop. lia.
Qed.

Lemma dissect_header x rest :
  dissect (x :: rest) []
  = if negb (Z.shiftr x 4 =? 7) then ([], inr Disowned)
    else (_ ← add_number f_flow_id (x :: rest) 1 4; dissect_body (Z.land x 15) (x :: rest)) [(f_opcode, Number (Z.land x 15))].
Proof.
  unfold dissect, mbind, D_bind, buffer at 1 2.
  pose proof (tvb_range_rest (x :: rest) 0 ltac:(unfold blen; lia)) as H0.
  destruct (tvb_range (x :: rest) 0 None) as [whole|]; [clear H0|easy].
  destruct (header_range x rest 0 1) as (r & -> & ->); [lia..|unfold blen; cbn [length]; lia|].
  change (be_value (take (Z.to_nat 1) (drop (Z.to_nat 0) (x :: rest)))) with (be_value [x]). rewrite be_value_1.
  case_bool; easy.
Qed.

Lemma dissect_packet x id body :
  length id = 4%nat ->
  dissect (x :: id ++ body) []
  = if negb (Z.shiftr x 4 =? 7) then ([], inr Disowned)
    else dissect_body (Z.land x 15) (x :: id ++ body) [(f_opcode, Number (Z.land x 15)); (f_flow_id, Number (be_value id))].
Proof.
  intros Hid. rewrite dissect_header. case_bool; [easy|]. unfold mbind, D_bind, add_number, buffer.
  destruct (header_range x (id ++ body) 1 4) as (r & Hr & Hv);
    [lia..|unfold blen; cbn [length]; rewrite length_app; lia|].
  unfold mbind, D_bind. rewrite Hr, Hv. change (drop (Z.to_nat 1) (x :: id ++ body)) with (id ++ body).
  change (Z.to_nat 4) with 4%nat. rewrite <- Hid at 1. rewrite take_app_length. easy.
Qed.

(** A packet that is too short for a header. *)
Lemma dissect_short data : blen data < 5 -> (dissector data).2 <> Taken.
Proof.
  intros H. unfold dissector. destruct data as [|x rest].
  - unfold dissect, mbind, D_bind, buffer. rewrite (tvb_range_out [] 0 1) by easy. now destruct (tvb_range [] 0 None).
  - rewrite dissect_header. case_bool; [easy|]. unfold mbind, D_bind, add_number, buffer. unfold mbind, D_bind.
    now rewrite tvb_range_out by lia.
Qed.

Lemma dissect_unknown v e data t : OpCode_try_from v = Err e -> dissect_body v data t = (t, inr Disowned).
Proof. unfold OpCode_try_from, dissect_body. intros H. repeat (case_bool_in H; [easy|]). now repeat case_bool. Qed.

Lemma datagram_octet x : u8_ok x -> Z.shiftr x 4 = 7 -> Z.land x 15 = OpCode_as_u8 OpDatagram -> x = 118.
Proof.
  unfold in_width. intros Hx Hs Hl. rewrite Z.shiftr_div_pow2 in Hs by lia. change 15 with (Z.ones 4) in Hl.
  rewrite Z.land_ones in Hl by lia. cbn in Hl. change (2 ^ 4) with 16 in *. pose proof (Z.div_mod x 16). lia.
Qed.

(** ** Properties *)

(** C30: The dissector agrees with the decoder of the program on every packet: of a
    frame the decoder reads it shows exactly the fields, and takes it; of
    anything else it disowns or fails, and fails only where the decoder finds
    too few octets - but for one kind of packet, the encoding of a datagram
    with fewer than four octets of data, which it shows in full and the
    program refuses. *)
Theorem dissector_agrees data :
  bytes_ok data ->
  match frame_try_from data with
  | Ok f => dissector data = (shown_frame f, Taken)
  | Err e =>
      ((dissector data).2 <> Taken /\ ((dissector data).2 = LuaError -> e = FrameTooShort))
      \/ (exists f, frame_ok f /\ frame_to_vec f = Ok data /\ short_datagram f = true /\ e = FrameTooShort
            /\ dissector data = (shown_frame f, Taken))
  | Panic => False
  end.
Proof.
  intros Hok. destruct (Z_lt_le_dec (blen data) 5) as [Hs|Hl].
  { pose proof (dissect_short _ Hs). unfold frame_try_from, frame_try_from_with; fold decode_payload. rewrite check_remaining_short by easy. now left. }
  destruct (packet_split _ Hl) as (x & id & body & -> & Hid). inversion_clear Hok as [|? ? Hx Hrest].
  apply Forall_app in Hrest as [Hidok Hbody].
  rewrite decode_packet by easy. unfold dissector. rewrite dissect_packet by easy.
  destruct (Z.shiftr x 4 =? 7) eqn:Hver; cbn [negb]; [bool_prop|now left].
  destruct (OpCode_try_from (Z.land x 15)) as [op|e|] eqn:Hop; cbn [mbind res_bind].
  3:{ now apply opcode_no_panic in Hop. }
  2:{ rewrite (dissect_unknown _ _ _ _ Hop). now left. }
  apply opcode_try_from_inv in Hop. rewrite Hop.
  pose proof (dissect_body_agrees x id body Hid op
    [(f_opcode, Number (OpCode_as_u8 op)); (f_flow_id, Number (be_value id))] Hbody) as H.
  unfold body_agrees in H. destruct (decode_payload op body) as [p|e|] eqn:Hd; cbn [mbind res_bind]; [|..|easy].
  - rewrite H. unfold shown_frame. cbn [frame_payload frame_id]. now rewrite (decode_payload_opcode _ _ _ Hd).
  - destruct H as [(t' & v & -> & Hv)|(d & -> & Hp & Henc & Hshort & -> & ->)]; [now left|right].
    exists (MkFrame (be_value id) (Datagram d)). pose proof (be_value_bound id Hidok) as Hb. rewrite Hid in Hb.
    apply width_of_256 in Hb. split; [easy|]. split.
    + rewrite frame_to_vec_eq. cbn [frame_payload frame_id]. rewrite Henc. cbn [mbind res_bind].
      rewrite put_be_be_value by easy. now rewrite (datagram_octet x Hx Hver Hop).
    + split; [now apply Z.ltb_lt|easy].
Qed.

End Dissector.

Arguments dissector {R _} data.

(** The names of the dissector are those of the opcodes and of nothing else. *)
Lemma opcodes_named v : is_Some (opcodes v) <-> exists op, OpCode_try_from v = Ok op.
Proof. unfold opcodes, OpCode_try_from. repeat case_bool; split; eauto; [intros []|intros []]; easy. Qed.

Lemma bind_types_named v : is_Some (bind_types v) <-> exists t, BindType_try_from v = Ok t.
Proof. unfold bind_types, BindType_try_from. repeat case_bool; split; eauto; [intros []|intros []]; easy. Qed.

(** ** A buffer on lists of octets *)

Definition list_range (data : bytes) (off : Z) (len : option Z) : option bytes :=
  match len with
  | Some len =>
      if off + len <=? blen data then Some (take (Z.to_nat len) (drop (Z.to_nat off) data)) else None
  | None => if off <=? blen data then Some (drop (Z.to_nat off) data) else None
  end.

#[export] Program Instance list_tvb : Tvb bytes := {
  tvb_range := list_range;
  range_bytes := id;
  range_uint := be_value;
}.
Next Obligation. intros. unfold list_range. now rewrite (proj2 (Z.leb_le _ _)) by easy. Qed.
Next Obligation. intros. unfold list_range. now rewrite (proj2 (Z.leb_gt _ _)) by easy. Qed.
Next Obligation. intros. unfold list_range. now rewrite (proj2 (Z.leb_le _ _)) by easy. Qed.
Next Obligation. easy. Qed.

Lemma dissector_agrees_witness :
  match frame_try_from [118; 0; 0; 0; 7; 1; 0; 53; 49; 9; 9] with
  | Ok f => dissector [118; 0; 0; 0; 7; 1; 0; 53; 49; 9; 9] = (shown_frame f, Taken)
  | Err e =>
      ((dissector [118; 0; 0; 0; 7; 1; 0; 53; 49; 9; 9]).2 <> Taken
       /\ ((dissector [118; 0; 0; 0; 7; 1; 0; 53; 49; 9; 9]).2 = LuaError -> e = FrameTooShort))
      \/ (exists f, frame_ok f /\ frame_to_vec f = Ok [118; 0; 0; 0; 7; 1; 0; 53; 49; 9; 9]
            /\ short_datagram f = true /\ e = FrameTooShort
            /\ dissector [118; 0; 0; 0; 7; 1; 0; 53; 49; 9; 9] = (shown_frame f, Taken))
  | Panic => False
  end.
Proof. apply (dissector_agrees [118; 0; 0; 0; 7; 1; 0; 53; 49; 9; 9]). solve_ranges. Defined.

(** Two octets to port 53 of the host named 1: shown, and refused. *)
Example short_datagram_shown :
  frame_try_from [118; 0; 0; 0; 7; 1; 0; 53; 49; 9; 9] = Err FrameTooShort
  /\ dissector [118; 0; 0; 0; 7; 1; 0; 53; 49; 9; 9]
     = ([(f_opcode, Number 6); (f_flow_id, Number 7); (f_host_len, Number 1); (f_target_port, Number 53);
         (f_target_host, Octets [49]); (f_payload, Octets [9; 9])], Taken).
Proof. vm_compute. easy. Qed.

(** The other ends of the dissector: an unknown version, a body cut short, a
    bind type of no name. *)
Example dissector_verdicts :
  (dissector [96; 0; 0; 0; 7]).2 = Disowned /\ (dissector [112; 0; 0; 0; 7; 0; 0]).2 = LuaError
  /\ (dissector [117; 0; 0; 0; 7; 2; 0; 80]).2 = Disowned /\ (dissector []).2 = LuaError.
Proof. vm_compute. easy. Qed.
