(* ===== verification/Timing.v ===== *)
(** * Timing utilities (src/src/mux/timing.rs)

    [Backoff], [OptionalDuration] and [OptionalInterval].  A [Duration] is its
    length in nanoseconds. *)

From S2P Require Import Prelude.

(** ** Definitions *)

Abbreviation Duration := Z.

(** [Duration::MAX]: [u64::MAX] seconds and 999999999 nanoseconds. *)
Definition duration_max : Z := 2 ^ 64 * 10 ^ 9 - 1.

Definition duration_from_secs (n : Z) : Duration := n * 10 ^ 9.
Definition duration_from_millis (n : Z) : Duration := n * 10 ^ 6.

(** [Duration * u32] panics on overflow. *)
Definition duration_mul (d mult : Z) : res unit Duration :=
  if duration_max <? d * mult then Panic else Ok (d * mult).

Record Backoff := MkBackoff {
  bo_initial : Duration;
  bo_max : Duration;
  bo_mult : Z;
  bo_max_count : Z;
  bo_current : Duration;
  bo_count : Z;
}.

Definition backoff_new (initial max : Duration) (mult max_count : Z) : Backoff :=
  MkBackoff initial max mult max_count initial 0.

(** [Backoff::advance]; the counter wraps as in a release build (it is only
    compared when [max_count] is not 0, and then it stays below it). *)
Definition backoff_advance (s : Backoff) : res unit (Backoff * option Duration) :=
  if negb (bo_max_count s =? 0) && (bo_max_count s <=? bo_count s) then Ok (s, None)
  else
    let count := wrapping_add32 (bo_count s) 1 in
    let old := Z.min (bo_current s) (bo_max s) in
    current ← duration_mul old (bo_mult s);
    Ok (MkBackoff (bo_initial s) (bo_max s) (bo_mult s) (bo_max_count s) current count, Some old).

Definition backoff_reset (s : Backoff) : Backoff :=
  MkBackoff (bo_initial s) (bo_max s) (bo_mult s) (bo_max_count s) (bo_initial s) 0.

(** Repeated advances, collecting what each returned. *)
Fixpoint backoff_run (n : nat) (s : Backoff) : res unit (Backoff * list (option Duration)) :=
  match n with
  | O => Ok (s, [])
  | S n' =>
      '(s1, d) ← backoff_advance s;
      '(s2, ds) ← backoff_run n' s1;
      Ok (s2, d :: ds)
  end.

(** [OptionalDuration]: [None] is "no timeout". *)
Definition OptionalDuration := option Duration.

Definition optional_duration_none : OptionalDuration := None.

Definition optional_from_secs (n : Z) : OptionalDuration := Some (duration_from_secs n).

(** [FromStr]: whole seconds as a [u64]; zero disables. *)
Definition optional_from_str (s : bytes) : res IntErrorKind OptionalDuration :=
  value ← parse_uint (2 ^ 64 - 1) s;
  if value =? 0 then Ok None else Ok (optional_from_secs value).

(** [From<Duration>]. *)
Definition optional_from_duration (d : Duration) : OptionalDuration :=
  if d =? 0 then None else Some d.

(** [Debug for Duration] without a precision, as [format!] calls it: the
    largest of the units with a whole part, and the digits of the fraction up
    to the last that is not zero. *)
Fixpoint trim_zeros (fuel : nat) (digits : nat) (n : Z) : nat * Z :=
  match fuel with
  | S fuel' => if (n mod 10 =? 0) && (0 <? digits)%nat then trim_zeros fuel' (digits - 1) (n / 10) else (digits, n)
  | O => (digits, n)
  end.

Definition fmt_decimal (integer fraction : Z) (digits : nat) (unit : bytes) : bytes :=
  if fraction =? 0 then show_uint integer ++ unit
  else
    let '(digits, fraction) := trim_zeros digits digits fraction in
    let text := show_uint fraction in
    show_uint integer ++ bytes_of_string "." ++ repeat 48 (digits - length text) ++ text ++ unit.

Definition show_duration (d : Duration) : bytes :=
  if 10 ^ 9 <=? d then fmt_decimal (d / 10 ^ 9) (d mod 10 ^ 9) 9 (bytes_of_string "s")
  else if 10 ^ 6 <=? d then fmt_decimal (d / 10 ^ 6) (d mod 10 ^ 6) 6 (bytes_of_string "ms")
  else if 10 ^ 3 <=? d then fmt_decimal (d / 10 ^ 3) (d mod 10 ^ 3) 3 (194 :: 181 :: bytes_of_string "s")
  else show_uint d ++ bytes_of_string "ns".

Example show_fraction : show_duration 1050000000 = bytes_of_string "1.05s" /\ show_duration 2500000 = bytes_of_string "2.5ms".
Proof. now split. Qed.

(** [Display for OptionalDuration]. *)
Definition optional_to_string (d : OptionalDuration) : bytes :=
  match d with Some duration => show_duration duration | None => bytes_of_string "indefinite" end.

(** [OptionalDuration::sleep]: the instant at which it returns, if ever. *)
Definition optional_sleep (d : OptionalDuration) (now : Z) : poll Z :=
  match d with Some duration => Ready (now + duration) | None => Pending end.

Section Futures.
(** [tokio::time::timeout] and awaiting a future, as the runtime provides them. *)
Context {Fut Out Elapsed : Type}.
Variable timeout : Duration -> Fut -> res Elapsed Out.
Variable await : Fut -> Out.

Definition optional_timeout (d : OptionalDuration) (future : Fut) : res Elapsed Out :=
  match d with
  | Some duration => timeout duration future
  | None => Ok (await future)
  end.
End Futures.

(** [OptionalInterval]: [From<OptionalDuration>] maps [tokio::time::interval]
    over the option; a missing interval never ticks. *)
Section Intervals.
Context {Interval : Type}.
Variable interval : Duration -> Interval.
Variable interval_tick : Interval -> Interval * poll Z.

Variable set_missed_tick_behavior : Z -> Interval -> Interval.

Definition optional_set_missed_tick_behavior (behavior : Z) (i : option Interval) : option Interval :=
  set_missed_tick_behavior behavior <$> i.

Definition optional_interval_from (d : OptionalDuration) : option Interval := interval <$> d.

Definition optional_tick (i : option Interval) : option Interval * poll Z :=
  match i with
  | Some i => let '(i', r) := interval_tick i in (Some i', r)
  | None => (None, Pending)
  end.
End Intervals.

(** Well-formed backoff parameters: the [u32]/[Duration] ranges, and a cap
    whose product does not overflow. *)
Definition backoff_ok (s : Backoff) : Prop :=
  0 <= bo_initial s /\ 0 <= bo_max s /\ 0 <= bo_mult s /\ u32_ok (bo_max_count s)
  /\ 0 <= bo_current s /\ u32_ok (bo_count s) /\ bo_max s * bo_mult s <= duration_max.

(** The reference: the [k]-th wait is the geometric sequence clamped at the
    maximum, until the count is used up. *)
Definition backoff_wait (initial max mult max_count k : Z) : option Duration :=
  if negb (max_count =? 0) && (max_count <=? k) then None
  else Some (Z.min (initial * mult ^ k) max).

(** ** Lemmas *)

Lemma backoff_advance_ok s :
  backoff_ok s -> exists s' d, backoff_advance s = Ok (s', d) /\ backoff_ok s'.
Proof.
  intros (? & ? & ? & ? & ? & ? & ?). unfold backoff_advance. case_bool.
  - exists s, None. easy.
  - unfold duration_mul. case_bool; bool_prop; [nia|]. cbn [mbind res_bind].
    eexists _, _. split; [reflexivity|]. unfold backoff_ok. cbn.
    split_and?; try easy; try nia; apply wrapping_add32_ok.
Qed.

(** State after [k] successful advances, up to the clamping of [current]. *)
Definition backoff_at (initial max mult max_count : Z) (k : Z) (s : Backoff) : Prop :=
  bo_initial s = initial /\ bo_max s = max /\ bo_mult s = mult /\ bo_max_count s = max_count
  /\ Z.min (bo_current s) max = Z.min (initial * mult ^ k) max
  /\ (max_count = 0 \/ bo_count s = k).

Lemma backoff_at_new i m mu mc : backoff_at i m mu mc 0 (backoff_new i m mu mc).
Proof. repeat split; auto. cbn. f_equal. lia. Qed.

Lemma clamp_step i m mu k :
  0 <= i -> 0 <= m -> 0 <= mu -> 0 <= k ->
  Z.min (Z.min (i * mu ^ k) m * mu) m = Z.min (i * mu ^ (k + 1)) m.
Proof.
  intros. rewrite Z.pow_add_r, Z.pow_1_r, Z.mul_assoc by lia.
  assert (0 <= mu ^ k) by (apply Z.pow_nonneg; lia).
  destruct (Z.eq_dec mu 0) as [->|]; [lia|].
  destruct (Z.min_spec (i * mu ^ k) m) as [[? ->]|[? ->]]; nia.
Qed.

Lemma backoff_advance_at i m mu mc k s :
  0 <= i -> 0 <= m -> 0 <= mu -> 0 <= mc < 2 ^ 32 -> m * mu <= duration_max -> 0 <= k ->
  backoff_at i m mu mc k s -> (mc = 0 \/ k <= mc) ->
  exists s', backoff_advance s = Ok (s', backoff_wait i m mu mc k)
    /\ match backoff_wait i m mu mc k with
       | Some _ => backoff_at i m mu mc (k + 1) s'
       | None => s' = s
       end.
Proof.
  intros Hi Hm Hmu Hmc Hov Hk (E1 & E2 & E3 & E4 & E5 & E6) Hle.
  unfold backoff_advance, backoff_wait. rewrite E2, E3, E4, E5.
  assert (negb (mc =? 0) && (mc <=? bo_count s) = negb (mc =? 0) && (mc <=? k)) as ->
    by (destruct E6 as [->| ->]; easy).
  case_bool; [eauto|]. unfold duration_mul. case_bool; bool_prop; [nia|].
  cbn [mbind res_bind]. eexists. split; [reflexivity|]. repeat split; cbn; auto.
  - now apply clamp_step.
  - destruct (Z.eq_dec mc 0) as [|Hz]; [now left|right].
    destruct E6 as [|Ec]; [easy|]. rewrite Ec. apply andb_false_iff in Heqb as [Hb|Hb];
      bool_prop; [lia|]. apply wrapping_add32_small; lia.
Qed.

(** ** Properties *)

(** From a fresh generator, [n] calls of [advance] return the geometric
    waits [initial * mult ^ k] clamped at the maximum, for [max_count] calls
    (forever when [max_count] is 0), then [None]; no call panics as long as
    the clamped wait times the multiplier fits a [Duration]. *)
Theorem backoff_schedule i m mu mc n :
  0 <= i -> 0 <= m -> 0 <= mu -> 0 <= mc < 2 ^ 32 -> m * mu <= duration_max ->
  exists s, backoff_run n (backoff_new i m mu mc)
            = Ok (s, map (fun k => backoff_wait i m mu mc (Z.of_nat k)) (seq 0 n))
         /\ backoff_reset s = backoff_new i m mu mc.
Proof.
  intros Hi Hm Hmu Hmc Hov.
  assert (Hdone : forall n k s, mc <> 0 -> mc <= Z.of_nat k -> bo_max_count s = mc -> mc <= bo_count s ->
    backoff_run n s = Ok (s, map (fun k => backoff_wait i m mu mc (Z.of_nat k)) (seq k n))).
  { clear - Hmc. induction n as [|n IH]; intros k s Hz Hk E1 E2; [easy|]. cbn [backoff_run seq map].
    unfold backoff_advance, backoff_wait at 1. rewrite E1.
    replace (mc =? 0) with false by lia. replace (mc <=? bo_count s) with true by lia.
    replace (mc <=? Z.of_nat k) with true by lia. cbn [negb andb mbind res_bind].
    rewrite (IH (S k)) by (easy || lia). easy. }
  assert (Hrun : forall n k s, backoff_at i m mu mc (Z.of_nat k) s -> (mc = 0 \/ Z.of_nat k <= mc) ->
    exists s', backoff_run n s = Ok (s', map (fun k => backoff_wait i m mu mc (Z.of_nat k)) (seq k n))
      /\ backoff_reset s' = backoff_new i m mu mc).
  { clear n. induction n as [|n IH]; intros k s Hat Hle.
    { exists s. split; [easy|]. destruct Hat as (? & ? & ? & ? & _). destruct s. now simpl in *; subst. }
    destruct (backoff_advance_at i m mu mc (Z.of_nat k) s) as (s1 & E & Hs1); try easy; try lia.
    cbn [backoff_run seq map]. rewrite E. cbn [mbind res_bind].
    destruct (backoff_wait i m mu mc (Z.of_nat k)) eqn:Hw.
    - destruct (IH (S k) s1) as (s2 & -> & Hs2); [now rewrite Nat2Z.inj_succ|..].
      + unfold backoff_wait in Hw. case_bool_in Hw; [easy|].
        apply andb_false_iff in Heqb as [Hb|Hb]; bool_prop; lia.
      + exists s2. easy.
    - subst s1. unfold backoff_wait in Hw. case_bool_in Hw; [|easy]. bool_prop.
      destruct Hat as (A1 & A2 & A3 & A4 & _ & A6).
      rewrite (Hdone n (S k) s) by (easy || lia). cbn [mbind res_bind].
      exists s. split; [easy|]. destruct s. now simpl in *; subst. }
  apply (Hrun n 0%nat); [apply backoff_at_new|lia].
Qed.

Lemma backoff_schedule_witness :
  exists s, backoff_run 6 (backoff_new (10 * 10 ^ 6) (10 ^ 9) 2 5)
    = Ok (s, map (fun k => backoff_wait (10 * 10 ^ 6) (10 ^ 9) 2 5 (Z.of_nat k)) (seq 0 6))
    /\ backoff_reset s = backoff_new (10 * 10 ^ 6) (10 ^ 9) 2 5.
Proof. apply (backoff_schedule (10 * 10 ^ 6) (10 ^ 9) 2 5 6); unfold duration_max; lia. Defined.

(** The textual form of an [OptionalDuration] is a [u64] of seconds, zero
    meaning none: printing [n] and parsing it gives the duration of [n]
    seconds, or none for zero, and nothing else than a [u64] is accepted. *)
Theorem optional_duration_parse n s d :
  0 <= n < 2 ^ 64 ->
  optional_from_str (show_uint n) = Ok (optional_from_duration (duration_from_secs n))
  /\ (optional_from_str s = Ok d ->
      exists v, 0 <= v < 2 ^ 64 /\ parse_uint (2 ^ 64 - 1) s = Ok v
                /\ d = optional_from_duration (duration_from_secs v)).
Proof.
  intros Hn.
  assert (Hconv : forall v, (if v =? 0 then @Ok IntErrorKind _ None else Ok (optional_from_secs v))
                            = Ok (optional_from_duration (duration_from_secs v))).
  { intros v. unfold optional_from_duration, optional_from_secs, duration_from_secs.
    repeat case_bool; bool_prop; try easy; lia. }
  split.
  - unfold optional_from_str. rewrite parse_show_uint by lia. apply Hconv.
  - unfold optional_from_str. destruct (parse_uint _ s) as [v| |] eqn:Hv; [|easy..].
    cbn [mbind res_bind]. rewrite Hconv. intros H. inj H. exists v.
    apply parse_uint_bound in Hv as ?; [|lia]. split; [lia|easy].
Qed.

Lemma optional_duration_parse_witness :
  optional_from_str (show_uint 20) = Ok (optional_from_duration (duration_from_secs 20))
  /\ (optional_from_str [48] = Ok None ->
      exists v, 0 <= v < 2 ^ 64 /\ parse_uint (2 ^ 64 - 1) [48] = Ok v
                /\ None = optional_from_duration (duration_from_secs v)).
Proof. apply (optional_duration_parse 20 [48] None). lia. Defined.

Example backoff_source_test :
  backoff_run 3 (backoff_new (duration_from_secs 10) (duration_from_secs 1) 2 0)
  = Ok (MkBackoff (10 * 10 ^ 9) (10 ^ 9) 2 0 (2 * 10 ^ 9) 3,
        [Some (10 ^ 9); Some (10 ^ 9); Some (10 ^ 9)]).
Proof. reflexivity. Qed.
