(* ===== verification/Config.v ===== *)
(** * Multiplexor options (src/src/mux/config.rs)

    The option record, its defaults and the builder methods with their
    assertions. *)

From S2P Require Import Prelude Timing.

(** ** Definitions *)

Record Options := MkOptions {
  opt_keepalive_interval : OptionalDuration;
  opt_datagram_buffer_size : Z;
  opt_stream_buffer_size : Z;
  opt_bind_buffer_size : Z;
  opt_max_flow_id_retries : Z;
  opt_rwnd : Z;
  opt_default_rwnd_threshold : Z;
}.

(** [Options::new] outside of the test configuration. *)
Definition options_new : Options :=
  MkOptions optional_duration_none (Z.shiftl 1 9) (Z.shiftl 1 4) 0 3 (Z.shiftl 1 9) (Z.shiftl 1 8).

Definition keepalive_interval (o : Options) (interval : OptionalDuration) : Options :=
  MkOptions interval (opt_datagram_buffer_size o) (opt_stream_buffer_size o)
    (opt_bind_buffer_size o) (opt_max_flow_id_retries o) (opt_rwnd o) (opt_default_rwnd_threshold o).

(** [assert!]. *)
Definition assert (c : bool) : res unit unit := if c then Ok tt else Panic.

Definition datagram_buffer_size (o : Options) (size : Z) : res unit Options :=
  _ ← assert (0 <? size);
  Ok (MkOptions (opt_keepalive_interval o) size (opt_stream_buffer_size o)
        (opt_bind_buffer_size o) (opt_max_flow_id_retries o) (opt_rwnd o) (opt_default_rwnd_threshold o)).

Definition stream_buffer_size (o : Options) (size : Z) : res unit Options :=
  _ ← assert (0 <? size);
  Ok (MkOptions (opt_keepalive_interval o) (opt_datagram_buffer_size o) size
        (opt_bind_buffer_size o) (opt_max_flow_id_retries o) (opt_rwnd o) (opt_default_rwnd_threshold o)).

Definition bind_buffer_size (o : Options) (size : Z) : Options :=
  MkOptions (opt_keepalive_interval o) (opt_datagram_buffer_size o) (opt_stream_buffer_size o)
    size (opt_max_flow_id_retries o) (opt_rwnd o) (opt_default_rwnd_threshold o).

Definition max_flow_id_retries (o : Options) (retries : Z) : res unit Options :=
  _ ← assert (0 <? retries);
  Ok (MkOptions (opt_keepalive_interval o) (opt_datagram_buffer_size o) (opt_stream_buffer_size o)
        (opt_bind_buffer_size o) retries (opt_rwnd o) (opt_default_rwnd_threshold o)).

(** [usize] of the target; the casts of [rwnd] go through it. *)
Definition rwnd (usize_bits : Z) (o : Options) (rwnd : Z) : res unit Options :=
  _ ← assert (((rwnd mod 2 ^ usize_bits) mod 2 ^ 32) =? rwnd);
  _ ← assert (0 <? rwnd);
  Ok (MkOptions (opt_keepalive_interval o) (opt_datagram_buffer_size o) (opt_stream_buffer_size o)
        (opt_bind_buffer_size o) (opt_max_flow_id_retries o) rwnd (opt_default_rwnd_threshold o)).

Definition default_rwnd_threshold (o : Options) (threshold : Z) : res unit Options :=
  _ ← assert (0 <? threshold);
  Ok (MkOptions (opt_keepalive_interval o) (opt_datagram_buffer_size o) (opt_stream_buffer_size o)
        (opt_bind_buffer_size o) (opt_max_flow_id_retries o) (opt_rwnd o) threshold).

(** The options a program can hold: the defaults, then any sequence of
    builder calls that did not panic (arguments in the range of their type). *)
Inductive options_built (usize_bits : Z) : Options -> Prop :=
| built_new : options_built usize_bits options_new
| built_keepalive o d :
    options_built usize_bits o -> options_built usize_bits (keepalive_interval o d)
| built_datagram o n o' :
    options_built usize_bits o -> in_width usize_bits n -> datagram_buffer_size o n = Ok o' ->
    options_built usize_bits o'
| built_stream o n o' :
    options_built usize_bits o -> in_width usize_bits n -> stream_buffer_size o n = Ok o' ->
    options_built usize_bits o'
| built_bind o n :
    options_built usize_bits o -> in_width usize_bits n -> options_built usize_bits (bind_buffer_size o n)
| built_retries o n o' :
    options_built usize_bits o -> in_width usize_bits n -> max_flow_id_retries o n = Ok o' ->
    options_built usize_bits o'
| built_rwnd o n o' :
    options_built usize_bits o -> u32_ok n -> rwnd usize_bits o n = Ok o' ->
    options_built usize_bits o'
| built_threshold o n o' :
    options_built usize_bits o -> u32_ok n -> default_rwnd_threshold o n = Ok o' ->
    options_built usize_bits o'.

(** What the multiplexor relies on: every bounded channel it opens has a
    positive capacity ([mpsc::channel(0)] panics), at least one attempt at a
    flow identifier, and positive windows that fit a [usize]. *)
Definition options_ok (usize_bits : Z) (o : Options) : Prop :=
  0 < opt_datagram_buffer_size o /\ 0 < opt_stream_buffer_size o
  /\ 0 <= opt_bind_buffer_size o /\ 0 < opt_max_flow_id_retries o
  /\ 0 < opt_rwnd o < 2 ^ 32 /\ opt_rwnd o < 2 ^ usize_bits
  /\ 0 < opt_default_rwnd_threshold o < 2 ^ 32.

(** ** Lemmas *)

Lemma assert_inv c u : assert c = Ok u -> c = true.
Proof. unfold assert. now case_bool. Qed.

Ltac assert_field H :=
  match type of H with
  | context [assert ?c] =>
      destruct (assert c) eqn:?; cbn [mbind res_bind] in H; [|easy..];
      match goal with E : assert c = Ok _ |- _ => apply assert_inv in E end
  end.

(** ** Properties *)

(** Whatever builder calls produced them, the options a multiplexor is
    created with have positive buffer sizes, retries and thresholds and a
    window in [u32] that also fits a [usize]; but no call relates the
    threshold to the window. *)
Theorem options_built_ok usize_bits o :
  16 <= usize_bits -> options_built usize_bits o -> options_ok usize_bits o.
Proof.
  intros Hbits. unfold options_ok.
  assert (2 ^ 16 <= 2 ^ usize_bits) by (apply Z.pow_le_mono_r; lia).
  induction 1 as [|o d Ho IH|o n o' Ho IH Hn H1|o n o' Ho IH Hn H1|o n Ho IH Hn|o n o' Ho IH Hn H1
                 |o n o' Ho IH Hn H1|o n o' Ho IH Hn H1].
  - unfold options_new. change (Z.shiftl 1 9) with 512. change (Z.shiftl 1 4) with 16.
    change (Z.shiftl 1 8) with 256. cbn. lia.
  - cbn in *. lia.
  - unfold datagram_buffer_size in H1. assert_field H1. inj H1. bool_prop. cbn in *. lia.
  - unfold stream_buffer_size in H1. assert_field H1. inj H1. bool_prop. cbn in *. lia.
  - cbn in *. unfold in_width in Hn. lia.
  - unfold max_flow_id_retries in H1. assert_field H1. inj H1. bool_prop. cbn in *. lia.
  - unfold rwnd in H1. assert_field H1. assert_field H1. inj H1. bool_prop. cbn in *.
    unfold in_width in Hn.
    assert (n < 2 ^ usize_bits); [|lia].
    destruct (Z.lt_ge_cases n (2 ^ usize_bits)) as [|Hge]; [easy|exfalso].
    pose proof (Z.mod_pos_bound n (2 ^ usize_bits) ltac:(lia)).
    pose proof (Z.mod_le (n mod 2 ^ usize_bits) (2 ^ 32) ltac:(lia) ltac:(lia)). lia.
  - unfold default_rwnd_threshold in H1. assert_field H1. inj H1. bool_prop. cbn in *.
    unfold in_width in Hn. lia.
Qed.

Lemma options_built_ok_witness : options_ok 64 (bind_buffer_size options_new 16).
Proof. apply (options_built_ok 64); [lia|]. apply built_bind; [apply built_new|]. solve_ranges. Defined.
