(* ===== verification/Stream.v ===== *)
(** * Logical streams (src/src/mux/stream.rs)

    [MuxStream] with its [AsyncRead], [AsyncWrite] and [AsyncBufRead]
    implementations, the shared counters behind it, and the bidirectional
    copier [CopyBidirectional]. *)

From S2P Require Import Prelude Runtime Frame.

(** ** Definitions *)

(** The [MuxStream] object.  What it shares with the multiplexor task through
    [Arc]s and channel halves lives in a [Shared] cell; [ms_cell] says which. *)
Record MuxStream := MkMuxStream {
  ms_cell : nat;
  ms_flow_id : Z;
  ms_dest_host : bytes;
  ms_dest_port : Z;
  ms_psh_recvd_since : Z;
  ms_buf : bytes;
  ms_rwnd_threshold : Z;
}.

Definition set_buf (s : MuxStream) (buf : bytes) : MuxStream :=
  MkMuxStream (ms_cell s) (ms_flow_id s) (ms_dest_host s) (ms_dest_port s)
    (ms_psh_recvd_since s) buf (ms_rwnd_threshold s).

Definition set_recvd (s : MuxStream) (n : Z) : MuxStream :=
  MkMuxStream (ms_cell s) (ms_flow_id s) (ms_dest_host s) (ms_dest_port s)
    n (ms_buf s) (ms_rwnd_threshold s).

(** What can happen to [psh_send_remaining] between the load and the
    compare-exchange of the writer: a spurious failure of the weak exchange,
    or an [Acknowledge] processed by the task on another thread. *)
Inductive interference := Spurious | AckMeanwhile (n : Z).

Inductive ReadState := RTransferring (n : Z) | ShuttingDown (n : Z) | RDone (n : Z).
Inductive WriteState := WTransferring (n : Z) | WDone (n : Z).

(** The other side of a bidirectional copy: [AsyncBufRead + AsyncWrite], with
    the contract of those traits.  [rw_in] is everything the peer has still to
    deliver through [poll_fill_buf], [rw_out] what [poll_write] accepted. *)
Class BufRW (RW : Type) := {
  rw_fill_buf : RW -> RW * poll (res IoErrorKind bytes);
  rw_consume : nat -> RW -> RW;
  rw_write : bytes -> RW -> RW * poll (res IoErrorKind Z);
  rw_flush : RW -> RW * poll (res IoErrorKind unit);
  rw_shutdown : RW -> RW * poll (res IoErrorKind unit);
  rw_in : RW -> bytes;
  rw_out : RW -> bytes;
  rw_avail : RW -> bytes;
  fill_buf_views : forall o, rw_in (rw_fill_buf o).1 = rw_in o /\ rw_out (rw_fill_buf o).1 = rw_out o;
  fill_buf_prefix : forall o bs, (rw_fill_buf o).2 = Ready (Ok bs) ->
    rw_avail (rw_fill_buf o).1 = bs /\ bs `prefix_of` rw_in o /\ (bs = [] -> rw_in o = []);
  consume_views : forall n o, (n <= length (rw_avail o))%nat ->
    rw_in (rw_consume n o) = drop n (rw_in o) /\ rw_out (rw_consume n o) = rw_out o;
  write_views : forall bs o, rw_in (rw_write bs o).1 = rw_in o /\
    match (rw_write bs o).2 with
    | Ready (Ok n) => 0 <= n <= blen bs /\ rw_out (rw_write bs o).1 = rw_out o ++ take (Z.to_nat n) bs
    | _ => rw_out (rw_write bs o).1 = rw_out o
    end;
  flush_views : forall o, rw_in (rw_flush o).1 = rw_in o /\ rw_out (rw_flush o).1 = rw_out o
    /\ rw_avail (rw_flush o).1 = rw_avail o;
  shutdown_views : forall o, rw_in (rw_shutdown o).1 = rw_in o /\ rw_out (rw_shutdown o).1 = rw_out o;
}.

Section Stream.
Context {C : Type -> Type} `{!Mpsc C} {W : Type} `{!Waker W}.

(** The cell shared by a [MuxStream] and its [FlowSlot]: the bounded channel of
    received payloads and the three [Arc]s. *)
Record Shared := MkShared {
  sh_frames : C bytes;
  sh_finish_sent : bool;
  sh_psh_send_remaining : Z;
  sh_writer_waker : W;
}.

Definition set_frames (s : Shared) (c : C bytes) : Shared :=
  MkShared c (sh_finish_sent s) (sh_psh_send_remaining s) (sh_writer_waker s).
Definition set_finish (s : Shared) (f : bool) : Shared :=
  MkShared (sh_frames s) f (sh_psh_send_remaining s) (sh_writer_waker s).
Definition set_remaining (s : Shared) (n : Z) : Shared :=
  MkShared (sh_frames s) (sh_finish_sent s) n (sh_writer_waker s).
Definition set_waker (s : Shared) (w : W) : Shared :=
  MkShared (sh_frames s) (sh_finish_sent s) (sh_psh_send_remaining s) w.

(** Everything reachable from a [MuxStream]: the object, its shared cell, the
    queue of outgoing frames and the queue of dropped flow identifiers. *)
Record Ctx := MkCtx {
  cx_stream : MuxStream;
  cx_shared : Shared;
  cx_tx : C bytes;
  cx_dropped : C Z;
}.

Definition with_stream (c : Ctx) (s : MuxStream) : Ctx := MkCtx s (cx_shared c) (cx_tx c) (cx_dropped c).
Definition with_shared (c : Ctx) (s : Shared) : Ctx := MkCtx (cx_stream c) s (cx_tx c) (cx_dropped c).
Definition with_tx (c : Ctx) (t : C bytes) : Ctx := MkCtx (cx_stream c) (cx_shared c) t (cx_dropped c).

(** [frame_tx.send(frame.finalize())]. *)
Definition tx_send (f : Frame) (tx : C bytes) : C bytes * res TrySendError unit :=
  match finalize f with
  | Ok encoded =>
      let '(tx', e) := try_send encoded tx in
      (tx', match e with None => Ok tt | Some e => Err e end)
  | _ => (tx, Panic)
  end.

(** [Drop for MuxStream]: announce the flow identifier; the receiving half of
    the channel goes with the object. *)
Definition stream_drop (c : Ctx) : Ctx :=
  MkCtx (cx_stream c) (set_frames (cx_shared c) (rx_drop (sh_frames (cx_shared c))))
    (cx_tx c) (try_send (ms_flow_id (cx_stream c)) (cx_dropped c)).1.

Definition increment_psh_recvd_since (c : Ctx) : Ctx :=
  let s := cx_stream c in
  let new := wrapping_add32 (ms_psh_recvd_since s) 1 in
  if ms_rwnd_threshold s <=? new then
    MkCtx (set_recvd s 0) (cx_shared c)
      (tx_send (new_acknowledge (ms_flow_id s) new) (cx_tx c)).1 (cx_dropped c)
  else with_stream c (set_recvd s new).

(** [AsyncBufRead::poll_fill_buf]; an empty answer is end of file. *)
Definition poll_fill_buf (c : Ctx) : Ctx * poll (res IoErrorKind bytes) :=
  let s := cx_stream c in
  match ms_buf s with
  | [] =>
      let '(frames, r) := poll_recv (sh_frames (cx_shared c)) in
      match r with
      | Pending => (with_shared c (set_frames (cx_shared c) frames), Pending)
      | Ready None =>
          (with_shared c (set_frames (cx_shared c) (rx_close frames)), Ready (Ok []))
      | Ready (Some next) =>
          let c1 := with_shared c (set_frames (cx_shared c) frames) in
          let c2 := increment_psh_recvd_since (with_stream c1 (set_buf s next)) in
          (c2, Ready (Ok (ms_buf (cx_stream c2))))
      end
  | buf => (c, Ready (Ok buf))
  end.

(** [AsyncBufRead::consume]: [Bytes::advance] panics past the end. *)
Definition consume (amt : Z) (c : Ctx) : res IoErrorKind Ctx :=
  let s := cx_stream c in
  if blen (ms_buf s) <? amt then Panic
  else Ok (with_stream c (set_buf s (drop (Z.to_nat amt) (ms_buf s)))).

(** [AsyncRead::poll_read] into a buffer with [remaining] free octets; the
    answer is what it put there. *)
Definition poll_read (remaining : Z) (c : Ctx) : Ctx * poll (res IoErrorKind bytes) :=
  let '(c1, r) := poll_fill_buf c in
  match r with
  | Ready (Ok got) =>
      let amt := Z.min (blen got) remaining in
      match consume amt c1 with
      | Ok c2 => (c2, Ready (Ok (take (Z.to_nat amt) got)))
      | _ => (c1, Ready Panic)
      end
  | Ready (Err e) => (c1, Ready (Err e))
  | Ready Panic => (c1, Ready Panic)
  | Pending => (c1, Pending)
  end.

(** The compare-exchange loop of [poll_obtain_write_permission]. *)
Fixpoint obtain_loop (meanwhile : list interference) (s : Shared) : Shared * poll (res IoErrorKind unit) :=
  let original := sh_psh_send_remaining s in
  if original =? 0 then (set_waker s (register (sh_writer_waker s)), Pending)
  else
    let new := original - 1 in
    match meanwhile with
    | [] => (set_remaining s new, Ready (Ok tt))
    | Spurious :: rest => obtain_loop rest s
    | AckMeanwhile n :: rest =>
        let changed := wrapping_add32 original n in
        if changed =? original then (set_remaining s new, Ready (Ok tt))
        else obtain_loop rest (set_remaining s changed)
    end.

Definition poll_obtain_write_permission (meanwhile : list interference) (s : Shared)
  : Shared * poll (res IoErrorKind unit) :=
  if sh_finish_sent s then (s, Ready (Err BrokenPipe)) else obtain_loop meanwhile s.

(** [AsyncWrite::poll_write]. *)
Definition poll_write (meanwhile : list interference) (buf : bytes) (c : Ctx)
  : Ctx * poll (res IoErrorKind Z) :=
  let '(sh, r) := poll_obtain_write_permission meanwhile (cx_shared c) in
  let c1 := with_shared c sh in
  match r with
  | Pending => (c1, Pending)
  | Ready (Err e) => (c1, Ready (Err e))
  | Ready Panic => (c1, Ready Panic)
  | Ready (Ok _) =>
      let '(tx, e) := tx_send (new_push (ms_flow_id (cx_stream c)) buf) (cx_tx c) in
      (with_tx c1 tx,
       Ready match e with Ok _ => Ok (blen buf) | Err _ => Err BrokenPipe | Panic => Panic end)
  end.

(** [AsyncWrite::poll_flush]. *)
Definition poll_flush (c : Ctx) : Ctx * poll (res IoErrorKind unit) := (c, Ready (Ok tt)).

Definition shutdown_inner (c : Ctx) : Ctx * res IoErrorKind unit :=
  let s := cx_shared c in
  if sh_finish_sent s then (c, Ok tt)
  else
    let '(tx, e) := tx_send (new_finish (ms_flow_id (cx_stream c))) (cx_tx c) in
    (with_tx (with_shared c (set_finish s true)) tx,
     match e with Ok _ => Ok tt | Err _ => Err BrokenPipe | Panic => Panic end).

(** [AsyncWrite::poll_shutdown]. *)
Definition poll_shutdown (c : Ctx) : Ctx * poll (res IoErrorKind unit) :=
  let '(c', r) := shutdown_inner c in (c', Ready r).

(** ** Reference notions used by the statements *)

(** The encoding of a frame that cannot fail to encode. *)
Definition encoded (f : Frame) : bytes := match finalize f with Ok e => e | _ => [] end.

(** The octets an encoded frame carries if it is a [Push]. *)
Definition push_data (e : bytes) : bytes :=
  match frame_try_from e with
  | Ok (MkFrame _ (Push d)) => cow_as_ref d
  | _ => []
  end.

(** All octets pushed on a queue of encoded frames, in order. *)
Definition pushed (q : list bytes) : bytes := concat (map push_data q).

(** Octets received and not yet handed to the reader, in order. *)
Definition unread (c : Ctx) : bytes :=
  ms_buf (cx_stream c) ++ concat (queue (sh_frames (cx_shared c))).

(** A series of [poll_read] calls and everything they handed out. *)
Fixpoint read_run (sizes : list Z) (c : Ctx) : Ctx * bytes :=
  match sizes with
  | [] => (c, [])
  | n :: rest =>
      let '(c1, r) := poll_read n c in
      let '(c2, out) := read_run rest c1 in
      (c2, match r with Ready (Ok got) => got | _ => [] end ++ out)
  end.

(** A series of [poll_write] calls and their results. *)
Fixpoint write_run (bufs : list bytes) (c : Ctx) : Ctx * list (poll (res IoErrorKind Z)) :=
  match bufs with
  | [] => (c, [])
  | buf :: rest =>
      let '(c1, r) := poll_write [] buf c in
      let '(c2, rs) := write_run rest c1 in (c2, r :: rs)
  end.

(** The window after some interference, as the task's [fetch_add]s leave it. *)
Fixpoint window_after (meanwhile : list interference) (w : Z) : Z :=
  match meanwhile with
  | [] => w
  | Spurious :: rest => window_after rest w
  | AckMeanwhile n :: rest => window_after rest (wrapping_add32 w n)
  end.

(** The threshold in force: the code compares after incrementing, so a
    threshold of 0 acts as 1. *)
Definition ack_every (s : MuxStream) : Z := Z.max 1 (ms_rwnd_threshold s).

(** Well-formed counters of a stream. *)
Definition stream_wf (c : Ctx) : Prop :=
  u32_ok (ms_flow_id (cx_stream c)) /\ u32_ok (ms_rwnd_threshold (cx_stream c))
  /\ 0 <= ms_psh_recvd_since (cx_stream c) < ack_every (cx_stream c).

(** The outgoing queue is the unbounded one of a live task. *)
Definition tx_live (c : Ctx) : Prop := rx_open (cx_tx c) = true /\ capacity (cx_tx c) = None.

End Stream.

Arguments Shared : clear implicits.
Arguments Ctx : clear implicits.

(** *** [CopyBidirectional] *)

Section Copy.
Context {C : Type -> Type} `{!Mpsc C} {W : Type} `{!Waker W} {RW : Type} `{!BufRW RW}.

Record CopyBidirectional := MkCopy {
  cb_us : Ctx C W;
  cb_other : RW;
  cb_read_state : ReadState;
  cb_write_state : WriteState;
}.

Definition into_copy_bidirectional_with_buf (us : Ctx C W) (other : RW) : CopyBidirectional :=
  MkCopy us other (RTransferring 0) (WTransferring 0).

(** The [ShuttingDown] leg, shared by the end of the loop and a later poll. *)
Definition poll_shutdown_other (c : CopyBidirectional) (read_amt : Z)
  : CopyBidirectional * poll (res IoErrorKind Z) :=
  let '(other, r) := rw_shutdown (cb_other c) in
  match r with
  | Pending => (MkCopy (cb_us c) other (ShuttingDown read_amt) (cb_write_state c), Pending)
  | Ready (Ok _) =>
      (MkCopy (cb_us c) other (RDone read_amt) (cb_write_state c), Ready (Ok read_amt))
  | Ready (Err e) =>
      (MkCopy (cb_us c) other (ShuttingDown read_amt) (cb_write_state c), Ready (Err e))
  | Ready Panic => (MkCopy (cb_us c) other (ShuttingDown read_amt) (cb_write_state c), Ready Panic)
  end.

(** The loop of [poll_read_us]; [None] when the fuel does not suffice. *)
Fixpoint read_us_loop (fuel : nat) (c : CopyBidirectional) (read_amt : Z)
  : CopyBidirectional * option (poll (res IoErrorKind Z)) :=
  match fuel with
  | O => (c, None)
  | S fuel' =>
      let '(us1, r) := poll_fill_buf (cb_us c) in
      let c1 := MkCopy us1 (cb_other c) (cb_read_state c) (cb_write_state c) in
      match r with
      | Pending => (c1, Some Pending)
      | Ready (Err e) => (c1, Some (Ready (Err e)))
      | Ready Panic => (c1, Some (Ready Panic))
      | Ready (Ok []) =>
          let '(c2, r2) := poll_shutdown_other c1 read_amt in (c2, Some r2)
      | Ready (Ok new_buf) =>
          let '(other, w) := rw_write new_buf (cb_other c) in
          let c2 := MkCopy us1 other (cb_read_state c) (cb_write_state c) in
          match w with
          | Pending => (c2, Some Pending)
          | Ready (Err e) => (c2, Some (Ready (Err e)))
          | Ready Panic => (c2, Some (Ready Panic))
          | Ready (Ok processed) =>
              match consume processed us1 with
              | Ok us2 =>
                  read_us_loop fuel'
                    (MkCopy us2 other (RTransferring (read_amt + processed)) (cb_write_state c))
                    (read_amt + processed)
              | _ => (c2, Some (Ready Panic))
              end
          end
      end
  end.

Definition poll_read_us (fuel : nat) (c : CopyBidirectional)
  : CopyBidirectional * option (poll (res IoErrorKind Z)) :=
  match cb_read_state c with
  | RTransferring read_amt => read_us_loop fuel c read_amt
  | ShuttingDown read_amt => let '(c', r) := poll_shutdown_other c read_amt in (c', Some r)
  | RDone read_amt => (c, Some (Ready (Ok read_amt)))
  end.

(** The loop of [poll_write_us]. *)
Fixpoint write_us_loop (fuel : nat) (c : CopyBidirectional) (written_amt : Z)
  : CopyBidirectional * option (poll (res IoErrorKind Z)) :=
  match fuel with
  | O => (c, None)
  | S fuel' =>
      let '(other, r) := rw_fill_buf (cb_other c) in
      let c1 := MkCopy (cb_us c) other (cb_read_state c) (cb_write_state c) in
      match r with
      | Pending =>
          let '(other2, f) := rw_flush other in
          (MkCopy (cb_us c) other2 (cb_read_state c) (cb_write_state c),
           Some match f with
                | Ready (Err e) => Ready (Err e) | Ready Panic => Ready Panic | _ => Pending
                end)
      | Ready (Err e) => (c1, Some (Ready (Err e)))
      | Ready Panic => (c1, Some (Ready Panic))
      | Ready (Ok []) =>
          let '(us, e) := shutdown_inner (cb_us c) in
          match e with
          | Ok _ =>
              (MkCopy us other (cb_read_state c) (WDone written_amt), Some (Ready (Ok written_amt)))
          | Err e => (MkCopy us other (cb_read_state c) (cb_write_state c), Some (Ready (Err e)))
          | Panic => (MkCopy us other (cb_read_state c) (cb_write_state c), Some (Ready Panic))
          end
      | Ready (Ok new_buf) =>
          (* permission, then the [Push] frame: the body of [poll_write] *)
          let '(us, w) := poll_write [] new_buf (cb_us c) in
          match w with
          | Pending => (MkCopy us other (cb_read_state c) (cb_write_state c), Some Pending)
          | Ready (Err e) =>
              (MkCopy us other (cb_read_state c) (cb_write_state c), Some (Ready (Err e)))
          | Ready Panic =>
              (MkCopy us other (cb_read_state c) (cb_write_state c), Some (Ready Panic))
          | Ready (Ok processed) =>
              write_us_loop fuel'
                (MkCopy us (rw_consume (length new_buf) other) (cb_read_state c)
                   (WTransferring (written_amt + processed)))
                (written_amt + processed)
          end
      end
  end.

Definition poll_write_us (fuel : nat) (c : CopyBidirectional)
  : CopyBidirectional * option (poll (res IoErrorKind Z)) :=
  match cb_write_state c with
  | WTransferring written_amt => write_us_loop fuel c written_amt
  | WDone written_amt => (c, Some (Ready (Ok written_amt)))
  end.

(** [Future::poll for CopyBidirectional]: both directions are polled, then
    [ready!(r)?] before [ready!(w)?]. *)
Definition copy_poll (fuel : nat) (c : CopyBidirectional)
  : CopyBidirectional * option (poll (res IoErrorKind (Z * Z))) :=
  let '(c1, r) := poll_read_us fuel c in
  let '(c2, w) := poll_write_us fuel c1 in
  (c2,
   match r, w with
   | None, _ | _, None => None
   | Some Pending, _ => Some Pending
   | Some (Ready (Err e)), _ => Some (Ready (Err e))
   | Some (Ready Panic), _ => Some (Ready Panic)
   | Some (Ready (Ok _)), Some Pending => Some Pending
   | Some (Ready (Ok _)), Some (Ready (Err e)) => Some (Ready (Err e))
   | Some (Ready (Ok _)), Some (Ready Panic) => Some (Ready Panic)
   | Some (Ready (Ok a)), Some (Ready (Ok n)) => Some (Ready (Ok (a, n)))
   end).

End Copy.

Arguments CopyBidirectional : clear implicits.

Arguments tx_send : simpl never.
Arguments encoded : simpl never.

(** ** Lemmas *)

Lemma finalize_encoded f : encodable f -> finalize f = Ok (encoded f).
Proof. intros [bs Hf]%frame_to_vec_encodable. unfold encoded, finalize. now rewrite Hf. Qed.

(** Encoded frames whose payload is not a datagram decode to themselves. *)
Lemma decode_encoded f :
  frame_ok f -> OpCode_from (frame_payload f) <> OpDatagram ->
  frame_try_from (encoded f) = Ok (frame_owned f).
Proof.
  intros Hok Hop. assert (He : encodable f) by (unfold encodable; now destruct (frame_payload f)).
  apply frame_try_from_to_vec; [easy|now apply finalize_encoded|].
  unfold short_datagram. now destruct (frame_payload f).
Qed.

(** A [Push] decodes to its octets, whatever they are. *)
Lemma decode_push id data :
  u32_ok id -> frame_try_from (encoded (new_push id data)) = Ok (MkFrame id (Push (Owned data))).
Proof.
  intros Hid. unfold encoded, finalize. rewrite frame_to_vec_eq. cbn [encode_payload mbind res_bind].
  exact (frame_try_from_header OpPush id data Hid).
Qed.

Lemma push_data_push id data : u32_ok id -> push_data (encoded (new_push id data)) = data.
Proof. intros Hid. unfold push_data. now rewrite decode_push. Qed.

Lemma push_data_other f :
  frame_ok f -> OpCode_from (frame_payload f) <> OpDatagram ->
  OpCode_from (frame_payload f) <> OpPush -> push_data (encoded f) = [].
Proof.
  intros Hok Hd Hp. unfold push_data. rewrite decode_encoded by easy. unfold frame_owned.
  now destruct (frame_payload f).
Qed.

Lemma pushed_app xs ys : pushed (xs ++ ys) = pushed xs ++ pushed ys.
Proof. unfold pushed. now rewrite map_app, concat_app. Qed.

Lemma pushed_one e : pushed [e] = push_data e.
Proof. apply app_nil_r. Qed.

Section StreamLemmas.
Context {C : Type -> Type} `{!Mpsc C} {W : Type} `{!Waker W}.

(** The frame queue is unbounded: a send either appends or finds the task gone. *)
Lemma tx_send_spec f (tx : C bytes) :
  encodable f -> capacity tx = None ->
  queue (tx_send f tx).1 = queue tx ++ (if rx_open tx then [encoded f] else [])
  /\ rx_open (tx_send f tx).1 = rx_open tx /\ capacity (tx_send f tx).1 = None
  /\ (tx_send f tx).2 = if rx_open tx then Ok tt else Err TrySendClosed.
Proof.
  intros He Hc. unfold tx_send. rewrite (finalize_encoded _ He).
  destruct (try_send (encoded f) tx) as [tx' e] eqn:Ht.
  pose proof (view_try_send _ (encoded f) tx) as Hv. pose proof (res_try_send _ (encoded f) tx) as Hr.
  rewrite Ht in *. simpl in *. rewrite spec_send_unbounded in * by easy.
  rewrite Hv, Hr. destruct (rx_open tx) eqn:Ho; simpl; rewrite ?app_nil_r; auto.
Qed.

(** The same without the queue being unbounded: nothing but [f] is added. *)
Lemma tx_send_pushed f (tx : C bytes) :
  encodable f ->
  pushed (queue (tx_send f tx).1)
  = pushed (queue tx) ++ match (tx_send f tx).2 with Ok _ => push_data (encoded f) | _ => [] end
  /\ (tx_send f tx).2 <> Panic.
Proof.
  intros He. unfold tx_send. rewrite (finalize_encoded _ He).
  destruct (try_send (encoded f) tx) as [tx' e] eqn:Ht.
  pose proof (view_try_send _ (encoded f) tx) as Hv. pose proof (res_try_send _ (encoded f) tx) as Hr.
  rewrite Ht in *. simpl in *. rewrite Hv, spec_send_queue, <- Hr.
  destruct e; simpl; rewrite ?app_nil_r, ?pushed_app, ?pushed_one; easy.
Qed.

(** What one call of [poll_fill_buf] takes off the queue. *)
Lemma poll_fill_buf_cases (c c1 : Ctx C W) r :
  poll_fill_buf c = (c1, r) ->
  (exists x b, ms_buf (cx_stream c) = x :: b /\ c1 = c /\ r = Ready (Ok (x :: b)))
  \/ ms_buf (cx_stream c) = [] /\
     ((exists next q, queue (sh_frames (cx_shared c)) = next :: q
        /\ r = Ready (Ok next)
        /\ exists fr, c1 = increment_psh_recvd_since
                             (with_stream (with_shared c (set_frames (cx_shared c) fr))
                                (set_buf (cx_stream c) next))
           /\ queue fr = q)
      \/ queue (sh_frames (cx_shared c)) = [] /\ (r = Pending \/ r = Ready (Ok []))
         /\ exists fr, c1 = with_shared c (set_frames (cx_shared c) fr) /\ queue fr = []).
Proof.
  unfold poll_fill_buf. destruct (ms_buf (cx_stream c)) as [|x b] eqn:Hb.
  2: intros [= <- <-]; left; eauto.
  intros H. right. split; [easy|].
  destruct (poll_recv (sh_frames (cx_shared c))) as [fr pr] eqn:Hp.
  pose proof (view_poll_recv _ (sh_frames (cx_shared c))) as Hv.
  pose proof (res_poll_recv _ (sh_frames (cx_shared c))) as Hr. rewrite Hp in *. simpl in *.
  unfold spec_recv in *. destruct (queue (sh_frames (cx_shared c))) as [|next q] eqn:Hq; simpl in *.
  - right. split; [easy|]. subst pr. destruct (_ && _); injection H as <- <-.
    + split; [auto|]. exists fr. split; [easy|]. now rewrite Hv.
    + split; [auto|]. exists (rx_close fr). split; [easy|]. rewrite view_rx_close. simpl. now rewrite Hv.
  - left. subst pr. injection H as <- <-. exists next, q. split; [easy|]. split.
    + unfold increment_psh_recvd_since. now destruct (_ <=? _).
    + exists fr. split; [easy|]. now rewrite Hv.
Qed.

(** [increment_psh_recvd_since] on a well-formed stream: the counter never
    wraps, and an [Acknowledge] carries exactly what was counted. *)
Lemma increment_spec (c : Ctx C W) :
  stream_wf c -> tx_live c ->
  let s := cx_stream c in
  let c' := increment_psh_recvd_since c in
  let full := ms_psh_recvd_since s + 1 =? ack_every s in
  cx_shared c' = cx_shared c /\ tx_live c'
  /\ cx_stream c' = set_recvd s (if full then 0 else ms_psh_recvd_since s + 1)
  /\ queue (cx_tx c')
     = queue (cx_tx c) ++ if full then [encoded (new_acknowledge (ms_flow_id s) (ack_every s))] else [].
Proof.
  intros (Hid & Ht & Hr) [Ho Hc]. cbv zeta. unfold increment_psh_recvd_since, ack_every in *.
  unfold in_width in *. rewrite wrapping_add32_small by lia.
  destruct (Z.leb_spec (ms_rwnd_threshold (cx_stream c)) (ms_psh_recvd_since (cx_stream c) + 1)) as [Hle|Hgt].
  - assert (Heq : ms_psh_recvd_since (cx_stream c) + 1 = Z.max 1 (ms_rwnd_threshold (cx_stream c))) by lia.
    rewrite Heq, Z.eqb_refl.
    edestruct (tx_send_spec (new_acknowledge (ms_flow_id (cx_stream c))
      (Z.max 1 (ms_rwnd_threshold (cx_stream c)))) (cx_tx c)) as (Hq & Ho' & Hc' & _); [easy..|].
    rewrite Ho in Hq, Ho'. easy.
  - destruct (Z.eqb_spec (ms_psh_recvd_since (cx_stream c) + 1) (Z.max 1 (ms_rwnd_threshold (cx_stream c)))); [lia|].
    cbn. rewrite app_nil_r. easy.
Qed.

(** [poll_fill_buf] moves octets from the queue to the buffer without
    touching their order, whatever the state of the counters. *)
Lemma poll_fill_buf_unread (c : Ctx C W) :
  unread (poll_fill_buf c).1 = unread c
  /\ forall bs, (poll_fill_buf c).2 = Ready (Ok bs) ->
     bs = ms_buf (cx_stream (poll_fill_buf c).1).
Proof.
  destruct (poll_fill_buf c) as [c1 r] eqn:H. simpl. unfold unread.
  destruct (poll_fill_buf_cases _ _ _ H) as [(x & b & Hb & -> & ->)|[Hb [(next & q & Hq & -> & fr & -> & Hf)|(Hq & Hr & fr & -> & Hf)]]].
  - rewrite Hb. split; [easy|]. intros ? [= <-]. easy.
  - unfold increment_psh_recvd_since. rewrite Hb, Hq. destruct (_ <=? _); cbn; rewrite Hf.
    all: split; [easy|]; intros ? [= <-]; easy.
  - cbn. rewrite Hb, Hq, Hf. split; [easy|]. intros bs ->. destruct Hr as [|[= ->]]; easy.
Qed.

Definition poll_octets (r : poll (res IoErrorKind bytes)) : bytes :=
  match r with Ready (Ok got) => got | _ => [] end.

Lemma consume_ok n (c : Ctx C W) :
  0 <= n <= blen (ms_buf (cx_stream c)) ->
  consume n c = Ok (with_stream c (set_buf (cx_stream c) (drop (Z.to_nat n) (ms_buf (cx_stream c))))).
Proof. intros H. unfold consume. case_bool; bool_prop; [lia|easy]. Qed.

(** [poll_read] is [poll_fill_buf] and the removal of a prefix. *)
Lemma poll_read_spec n (c : Ctx C W) :
  0 <= n ->
  let c1 := (poll_fill_buf c).1 in
  exists k, (k <= length (ms_buf (cx_stream c1)))%nat
    /\ (poll_read n c).1 = with_stream c1 (set_buf (cx_stream c1) (drop k (ms_buf (cx_stream c1))))
    /\ poll_octets (poll_read n c).2 = take k (ms_buf (cx_stream c1))
    /\ (poll_read n c).2 <> Ready Panic.
Proof.
  intros Hn c1. subst c1. unfold poll_read.
  destruct (poll_fill_buf c) as [c1 r] eqn:H. destruct (poll_fill_buf_unread c) as [_ Hbs].
  rewrite H in Hbs. simpl in *.
  assert (Hself : c1 = with_stream c1 (set_buf (cx_stream c1) (drop 0 (ms_buf (cx_stream c1))))).
  { rewrite drop_0. destruct c1 as [[] ? ? ?]. easy. }
  destruct r as [[got|e|]|].
  - rewrite (Hbs got eq_refl) in *. clear Hbs got.
    set (got := ms_buf (cx_stream c1)) in *.
    rewrite consume_ok by (fold got; unfold blen; lia). fold got.
    exists (Z.to_nat (Z.min (blen got) n)). unfold blen. repeat split; [lia|easy].
  - exists 0%nat. repeat split; [lia|easy..].
  - exfalso. destruct (poll_fill_buf_cases _ _ _ H)
      as [(?&?&?&?&?)|[? [(?&?&?&?&?)|(?&[|]&?)]]]; easy.
  - exists 0%nat. repeat split; [lia|easy..].
Qed.

(** One [poll_read]: octets out in order, frames counted, acknowledgements
    sent, invariant kept. *)
Lemma poll_read_step n (c : Ctx C W) :
  0 <= n -> stream_wf c -> tx_live c ->
  let c' := (poll_read n c).1 in
  poll_octets (poll_read n c).2 ++ unread c' = unread c
  /\ stream_wf c' /\ tx_live c'
  /\ ms_flow_id (cx_stream c') = ms_flow_id (cx_stream c) /\ ack_every (cx_stream c') = ack_every (cx_stream c)
  /\ exists m : nat,
     queue (cx_tx c')
     = queue (cx_tx c)
       ++ replicate m (encoded (new_acknowledge (ms_flow_id (cx_stream c)) (ack_every (cx_stream c))))
     /\ Z.of_nat m * ack_every (cx_stream c) + ms_psh_recvd_since (cx_stream c')
        + Z.of_nat (length (queue (sh_frames (cx_shared c'))))
        = ms_psh_recvd_since (cx_stream c) + Z.of_nat (length (queue (sh_frames (cx_shared c)))).
Proof.
  intros Hn Hwf Htx c'. destruct (poll_read_spec n c Hn) as (k & Hk & He & Ho & _).
  destruct (poll_fill_buf_unread c) as [Hu _]. subst c'. rewrite He, Ho.
  split.
  { unfold unread in *. cbn. rewrite app_assoc, take_drop. easy. }
  clear He Ho Hu Hk. destruct (poll_fill_buf c) as [c1 r] eqn:H. cbn [fst].
  destruct (poll_fill_buf_cases _ _ _ H)
    as [(x & b & Hb & -> & ->)|[Hb [(next & q & Hq & -> & fr & -> & Hf)|(Hq & Hr & fr & -> & Hf)]]].
  - do 4 (split; [easy|]). exists 0%nat. cbn. rewrite app_nil_r. split; [easy|lia].
  - match goal with |- context [increment_psh_recvd_since ?d] =>
      destruct (increment_spec d) as (Hsh & Hl & Hs & Hqx); [easy..|] end.
    destruct Hwf as (? & ? & Hr).
    cbn in Hs, Hqx, Hsh. unfold stream_wf, tx_live, ack_every in *. cbn. rewrite Hs, Hsh, Hqx. cbn. rewrite Hf, Hq.
    split; [split_and!; [easy..|case_bool; bool_prop; lia|case_bool; bool_prop; lia]|].
    split; [easy|]. do 2 (split; [easy|]).
    case_bool; bool_prop; [exists 1%nat|exists 0%nat]; (split; [easy|cbn; lia]).
  - do 4 (split; [easy|]). exists 0%nat. cbn. rewrite app_nil_r, Hf, Hq. split; [easy|lia].
Qed.

(** *** Writing *)

Lemma obtain_loop_spec meanwhile (s : Shared C W) :
  u32_ok (sh_psh_send_remaining s) ->
  exists k, (k <= length meanwhile)%nat /\
    let w := window_after (take k meanwhile) (sh_psh_send_remaining s) in
    obtain_loop meanwhile s
    = if w =? 0 then (set_waker (set_remaining s w) (register (sh_writer_waker s)), Pending)
      else (set_remaining s (w - 1), Ready (Ok tt)).
Proof.
  revert s. induction meanwhile as [|[|n] rest IH]; intros s Hs; cbn [obtain_loop].
  - exists 0%nat. split; [easy|]. cbn. case_bool; [|easy]. now destruct s.
  - case_bool.
    + exists 0%nat. split; [lia|]. cbn [take window_after]. cbv zeta. rewrite Heqb.
      bool_prop. destruct s. cbn in *. now subst.
    + destruct (IH s Hs) as (k & Hk & ->). exists (S k). split; [simpl; lia|easy].
  - destruct (sh_psh_send_remaining s =? 0) eqn:H0.
    + exists 0%nat. split; [lia|]. cbn [take window_after]. cbv zeta. rewrite H0.
      bool_prop. destruct s. cbn in *. now subst.
    + destruct (Z.eqb_spec (wrapping_add32 (sh_psh_send_remaining s) n) (sh_psh_send_remaining s)) as [He|Hne].
      * exists 1%nat. split; [simpl; lia|]. cbv zeta. cbn [take window_after]. rewrite take_0. cbn [window_after]. rewrite He, H0. easy.
      * destruct (IH (set_remaining s (wrapping_add32 (sh_psh_send_remaining s) n))) as (k & Hk & ->);
          [apply wrapping_add32_ok|].
        exists (S k). split; [simpl; lia|]. cbn. case_bool; easy.
Qed.

(** An uncontended write on an open stream with a live task. *)
Lemma poll_write_open buf (c : Ctx C W) :
  sh_finish_sent (cx_shared c) = false -> tx_live c ->
  let w := sh_psh_send_remaining (cx_shared c) in
  let c' := (poll_write [] buf c).1 in
  tx_live c' /\ cx_stream c' = cx_stream c /\ sh_finish_sent (cx_shared c') = false
  /\ sh_frames (cx_shared c') = sh_frames (cx_shared c)
  /\ (w = 0 -> (poll_write [] buf c).2 = Pending /\ cx_tx c' = cx_tx c
      /\ sh_psh_send_remaining (cx_shared c') = 0 /\ waker_view (sh_writer_waker (cx_shared c')) = true)
  /\ (w <> 0 -> (poll_write [] buf c).2 = Ready (Ok (blen buf))
      /\ queue (cx_tx c') = queue (cx_tx c) ++ [encoded (new_push (ms_flow_id (cx_stream c)) buf)]
      /\ sh_psh_send_remaining (cx_shared c') = w - 1).
Proof.
  intros Hf [Ho Hc]. cbv zeta. unfold poll_write, poll_obtain_write_permission. rewrite Hf. cbn [obtain_loop].
  destruct (Z.eqb_spec (sh_psh_send_remaining (cx_shared c)) 0) as [Hw|Hw]; cbn.
  - rewrite view_register. unfold tx_live. cbn. split_and!; easy.
  - destruct (tx_send_spec (new_push (ms_flow_id (cx_stream c)) buf) (cx_tx c)) as (Hq & Ho' & Hc' & Hr); [easy..|].
    destruct (tx_send _ _) as [tx e]. cbn in *. rewrite Ho in Hq, Ho', Hr. subst e. unfold tx_live. cbn. split_and!; easy.
Qed.

(** Once a finish was sent nothing more can be written. *)
Lemma poll_write_finished meanwhile buf (c : Ctx C W) :
  sh_finish_sent (cx_shared c) = true -> poll_write meanwhile buf c = (c, Ready (Err BrokenPipe)).
Proof.
  intros Hf. unfold poll_write, poll_obtain_write_permission. rewrite Hf. now destruct c.
Qed.

End StreamLemmas.

(** *** Copying *)

(** An in-memory peer: what it has to say, what it heard, how much it takes
    per write, and whether more could come. *)
Record MemRW := MkMemRW { mem_in : bytes; mem_out : bytes; mem_limit : nat; mem_eof : bool }.

Definition mem_write (bs : bytes) (m : MemRW) : MemRW * poll (res IoErrorKind Z) :=
  (MkMemRW (mem_in m) (mem_out m ++ take (mem_limit m) bs) (mem_limit m) (mem_eof m),
   Ready (Ok (blen (take (mem_limit m) bs)))).

Definition mem_fill (m : MemRW) : MemRW * poll (res IoErrorKind bytes) :=
  (m, match mem_in m with
      | [] => if mem_eof m then Ready (Ok []) else Pending
      | bs => Ready (Ok bs)
      end).

#[local] Obligation Tactic := idtac.

#[export] Program Instance mem_bufrw : BufRW MemRW := {
  rw_fill_buf := mem_fill;
  rw_consume n m := MkMemRW (drop n (mem_in m)) (mem_out m) (mem_limit m) (mem_eof m);
  rw_write := mem_write;
  rw_flush m := (m, Ready (Ok tt));
  rw_shutdown m := (m, Ready (Ok tt));
  rw_in := mem_in;
  rw_out := mem_out;
  rw_avail := mem_in;
}.
Next Obligation. easy. Qed.
Next Obligation.
  intros m bs H. cbn in *. destruct (mem_in m) as [|x l] eqn:Hm.
  - destruct (mem_eof m); [|easy]. now injection H as <-.
  - injection H as <-. easy.
Qed.
Next Obligation. easy. Qed.
Next Obligation.
  intros bs m. cbn. split; [easy|]. unfold blen. rewrite Nat2Z.id, length_take. split; [lia|].
  f_equal. destruct (Nat.min_spec (mem_limit m) (length bs)) as [[? ->]|[? ->]]; [easy|].
  now rewrite !take_ge by lia.
Qed.
Next Obligation. easy. Qed.
Next Obligation. easy. Qed.

Definition read_amount (s : ReadState) : Z :=
  match s with RTransferring n | ShuttingDown n | RDone n => n end.

Definition write_amount (s : WriteState) : Z :=
  match s with WTransferring n | WDone n => n end.

Section CopyLemmas.
Context {C : Type -> Type} `{!Mpsc C} {W : Type} `{!Waker W} {RW : Type} `{!BufRW RW}.

(** What a copier conserves: the octets that left or are to leave the stream
    towards the other side, the octets that left or are to leave the other
    side towards the stream, and the two running totals. *)
Definition copy_ledger (c : CopyBidirectional C W RW) : bytes * bytes * Z * Z :=
  (rw_out (cb_other c) ++ unread (cb_us c),
   pushed (queue (cx_tx (cb_us c))) ++ rw_in (cb_other c),
   blen (rw_out (cb_other c)) - read_amount (cb_read_state c),
   blen (pushed (queue (cx_tx (cb_us c)))) - write_amount (cb_write_state c)).

(** The copier's flow identifier is a [u32], and it only says it is done with
    the other side when nothing is left there. *)
Definition copy_wf (c : CopyBidirectional C W RW) : Prop :=
  u32_ok (ms_flow_id (cx_stream (cb_us c)))
  /\ match cb_write_state c with WDone _ => rw_in (cb_other c) = [] | _ => True end.

(** Reading changes neither what was pushed nor the identity of the stream. *)
Lemma poll_fill_buf_tx (c : Ctx C W) :
  u32_ok (ms_flow_id (cx_stream c)) ->
  pushed (queue (cx_tx (poll_fill_buf c).1)) = pushed (queue (cx_tx c))
  /\ ms_flow_id (cx_stream (poll_fill_buf c).1) = ms_flow_id (cx_stream c)
  /\ sh_finish_sent (cx_shared (poll_fill_buf c).1) = sh_finish_sent (cx_shared c).
Proof.
  intros Hid. destruct (poll_fill_buf c) as [c1 r] eqn:H. cbn [fst].
  destruct (poll_fill_buf_cases _ _ _ H)
    as [(x & b & Hb & -> & ->)|[Hb [(next & q & Hq & -> & fr & -> & Hf)|(Hq & Hr & fr & -> & Hf)]]]; [easy| |easy].
  unfold increment_psh_recvd_since. case_bool; [|easy]. cbn. split; [|easy].
  match goal with |- context [tx_send ?f ?t] => destruct (tx_send_pushed f t) as [-> _]; [easy|] end.
  rewrite push_data_other; [destruct (tx_send _ _).2; apply app_nil_r|split|easy..].
  - easy.
  - apply wrapping_add32_ok.
Qed.

Lemma poll_write_pushed buf (c : Ctx C W) :
  u32_ok (ms_flow_id (cx_stream c)) ->
  let c' := (poll_write [] buf c).1 in
  cx_stream c' = cx_stream c /\ sh_frames (cx_shared c') = sh_frames (cx_shared c)
  /\ match (poll_write [] buf c).2 with
     | Ready (Ok n) => n = blen buf /\ pushed (queue (cx_tx c')) = pushed (queue (cx_tx c)) ++ buf
     | Ready Panic => False
     | _ => pushed (queue (cx_tx c')) = pushed (queue (cx_tx c))
     end.
Proof.
  intros Hid. cbv zeta. unfold poll_write, poll_obtain_write_permission.
  destruct (sh_finish_sent _); [easy|]. cbn [obtain_loop]. case_bool; [easy|].
  destruct (tx_send_pushed (new_push (ms_flow_id (cx_stream c)) buf) (cx_tx c)) as [Hp Hn]; [easy|].
  rewrite push_data_push in Hp by easy. destruct (tx_send _ _) as [tx [| |]]; cbn in *; [|rewrite app_nil_r in Hp|]; easy.
Qed.

Lemma shutdown_inner_pushed (c : Ctx C W) :
  u32_ok (ms_flow_id (cx_stream c)) ->
  let c' := (shutdown_inner c).1 in
  cx_stream c' = cx_stream c /\ sh_frames (cx_shared c') = sh_frames (cx_shared c)
  /\ pushed (queue (cx_tx c')) = pushed (queue (cx_tx c)) /\ (shutdown_inner c).2 <> Panic.
Proof.
  intros Hid. cbv zeta. unfold shutdown_inner. destruct (sh_finish_sent _); [easy|].
  destruct (tx_send_pushed (new_finish (ms_flow_id (cx_stream c))) (cx_tx c)) as [Hp Hn]; [easy|].
  rewrite push_data_other in Hp by easy. destruct (tx_send _ _) as [tx [| |]]; cbn in *; rewrite ?app_nil_r in Hp; easy.
Qed.

(** What one direction of a poll leaves alone or accounts for. *)
Definition read_leg_ok (c c' : CopyBidirectional C W RW) (r : option (poll (res IoErrorKind Z))) : Prop :=
  copy_ledger c' = copy_ledger c /\ cb_write_state c' = cb_write_state c
  /\ rw_in (cb_other c') = rw_in (cb_other c)
  /\ ms_flow_id (cx_stream (cb_us c')) = ms_flow_id (cx_stream (cb_us c))
  /\ match r with Some (Ready (Ok n)) => cb_read_state c' = RDone n | _ => True end.

Lemma poll_shutdown_other_ok c n :
  read_amount (cb_read_state c) = n ->
  read_leg_ok c (poll_shutdown_other c n).1 (Some (poll_shutdown_other c n).2).
Proof.
  intros Hn. unfold poll_shutdown_other, read_leg_ok, copy_ledger.
  destruct (shutdown_views (cb_other c)) as [Hi Ho]. destruct (rw_shutdown (cb_other c)) as [o r].
  cbn [fst snd] in *. rewrite <- Hn. destruct r as [[| |]|]; cbn; rewrite Hi, Ho; easy.
Qed.

(** Moving one buffer from the stream to the other side. *)
Lemma fill_write_consume (c : CopyBidirectional C W RW) us1 bs o w :
  u32_ok (ms_flow_id (cx_stream (cb_us c))) ->
  poll_fill_buf (cb_us c) = (us1, Ready (Ok bs)) -> rw_write bs (cb_other c) = (o, w) ->
  rw_in o = rw_in (cb_other c)
  /\ match w with
     | Ready (Ok n) => 0 <= n <= blen bs
         /\ exists us2, consume n us1 = Ok us2
            /\ rw_out o ++ unread us2 = rw_out (cb_other c) ++ unread (cb_us c)
            /\ blen (rw_out o) = blen (rw_out (cb_other c)) + n
            /\ pushed (queue (cx_tx us2)) = pushed (queue (cx_tx (cb_us c)))
            /\ ms_flow_id (cx_stream us2) = ms_flow_id (cx_stream (cb_us c))
            /\ blen (unread us2) = blen (unread (cb_us c)) - n
     | _ => rw_out o = rw_out (cb_other c)
     end.
Proof.
  intros Hid Hf Hw.
  destruct (poll_fill_buf_unread (cb_us c)) as [Hu Hb]. destruct (poll_fill_buf_tx (cb_us c) Hid) as (Hp & Hi & _).
  destruct (write_views bs (cb_other c)) as [Hin Hout]. rewrite Hf in Hu, Hb, Hp, Hi. rewrite Hw in Hin, Hout.
  cbn [fst snd] in *. specialize (Hb bs eq_refl). split; [easy|].
  destruct w as [[n| |]|]; try easy. destruct Hout as [Hn Hout]. split; [easy|].
  rewrite consume_ok by (rewrite <- Hb; easy). eexists. split; [reflexivity|].
  assert (Hsplit : unread us1 = take (Z.to_nat n) bs
    ++ unread (with_stream us1 (set_buf (cx_stream us1) (drop (Z.to_nat n) (ms_buf (cx_stream us1)))))).
  { unfold unread. cbn. rewrite <- Hb, app_assoc, take_drop. easy. }
  assert (Hl : blen (take (Z.to_nat n) bs) = n) by (unfold blen in *; rewrite length_take; lia).
  rewrite <- Hu, Hsplit, Hout, blen_app, Hl, <- app_assoc. split_and!; try easy.
  rewrite blen_app, Hl. lia.
Qed.

Lemma read_us_loop_ok fuel c n :
  u32_ok (ms_flow_id (cx_stream (cb_us c))) -> cb_read_state c = RTransferring n ->
  read_leg_ok c (read_us_loop fuel c n).1 (read_us_loop fuel c n).2.
Proof.
  revert c n. induction fuel as [|fuel IH]; intros c n Hid Hn; [easy|]. cbn [read_us_loop].
  destruct (poll_fill_buf (cb_us c)) as [us1 r] eqn:Hf.
  destruct (poll_fill_buf_unread (cb_us c)) as [Hu _]. destruct (poll_fill_buf_tx (cb_us c) Hid) as (Hp & Hi & _).
  rewrite Hf in Hu, Hp, Hi. cbn [fst] in *.
  assert (Hstop : forall o s, read_amount s = n -> rw_in o = rw_in (cb_other c) -> rw_out o = rw_out (cb_other c) ->
    copy_ledger (MkCopy us1 o s (cb_write_state c)) = copy_ledger c).
  { intros o s Hs Hoi Hoo. unfold copy_ledger. cbn. now rewrite Hu, Hp, Hoi, Hoo, Hs, Hn. }
  destruct r as [[[|x bs]|e|]|]; cbn [fst snd];
    try (split_and!; [apply Hstop; [now rewrite Hn|easy..]|easy..]; fail).
  - pose proof (poll_shutdown_other_ok (MkCopy us1 (cb_other c) (cb_read_state c) (cb_write_state c)) n) as H.
    destruct (poll_shutdown_other _ n) as [c2 r2]. cbn in *. rewrite Hn in H.
    destruct H as (Hl & ? & ? & Hi2 & ?); [easy|]. cbn in Hi2. split_and!; [|easy|easy|congruence|easy].
    rewrite Hl. now apply Hstop.
  - destruct (rw_write (x :: bs) (cb_other c)) as [o w] eqn:Hw.
    destruct (fill_write_consume c us1 (x :: bs) o w Hid Hf Hw) as [Hin Hc].
    destruct w as [[m| |]|]; cbn [fst snd];
      try (split_and!; [apply Hstop; [now rewrite Hn|easy..]|easy..]; fail).
    destruct Hc as (Hm & us2 & -> & Ho & Hl & Hp2 & Hi2 & _).
    destruct (IH (MkCopy us2 o (RTransferring (n + m)) (cb_write_state c)) (n + m)) as (Hl2 & Hws & Hin2 & Hi3 & Hr);
      [cbn; now rewrite Hi2|easy|].
    destruct (read_us_loop fuel _ _) as [c2 r2]. cbn in *. split_and!; [|easy|congruence|congruence|easy].
    rewrite Hl2. unfold copy_ledger. cbn. rewrite Ho, Hp2, Hin, Hl, Hn. cbn. do 2 f_equal. lia.
Qed.

Lemma poll_read_us_ok fuel c :
  u32_ok (ms_flow_id (cx_stream (cb_us c))) ->
  read_leg_ok c (poll_read_us fuel c).1 (poll_read_us fuel c).2.
Proof.
  intros Hid. unfold poll_read_us. destruct (cb_read_state c) as [n|n|n] eqn:Hs.
  - now apply read_us_loop_ok.
  - pose proof (poll_shutdown_other_ok c n) as H. rewrite Hs in H. specialize (H eq_refl).
    destruct (poll_shutdown_other c n). exact H.
  - easy.
Qed.

(** What the other direction leaves alone or accounts for. *)
Definition write_leg_ok (c c' : CopyBidirectional C W RW) (r : option (poll (res IoErrorKind Z))) : Prop :=
  copy_ledger c' = copy_ledger c /\ cb_read_state c' = cb_read_state c
  /\ cx_stream (cb_us c') = cx_stream (cb_us c) /\ copy_wf c'
  /\ match r with Some (Ready (Ok n)) => cb_write_state c' = WDone n | _ => True end.

Lemma write_us_loop_ok fuel c n :
  copy_wf c -> cb_write_state c = WTransferring n ->
  write_leg_ok c (write_us_loop fuel c n).1 (write_us_loop fuel c n).2.
Proof.
  revert c n. induction fuel as [|fuel IH]; intros c n Hwf Hn; [easy|]. cbn [write_us_loop].
  destruct Hwf as [Hid Hwf].
  destruct (fill_buf_views (cb_other c)) as [Hin Hout]. pose proof (fill_buf_prefix (cb_other c)) as Hpre.
  destruct (rw_fill_buf (cb_other c)) as [o r]. cbn [fst snd] in *.
  assert (Hstop : forall us2 o2 s, write_amount s = n -> rw_in o2 = rw_in (cb_other c) -> rw_out o2 = rw_out (cb_other c) ->
    cx_stream us2 = cx_stream (cb_us c) -> sh_frames (cx_shared us2) = sh_frames (cx_shared (cb_us c)) ->
    pushed (queue (cx_tx us2)) = pushed (queue (cx_tx (cb_us c))) ->
    copy_ledger (MkCopy us2 o2 (cb_read_state c) s) = copy_ledger c).
  { intros us2 o2 s Hs Hi Ho Hst Hfr Hp. unfold copy_ledger, unread. cbn. now rewrite Hi, Ho, Hst, Hfr, Hp, Hs, Hn. }
  assert (Hkeep : forall us2 o2, cx_stream us2 = cx_stream (cb_us c) ->
    copy_wf (MkCopy us2 o2 (cb_read_state c) (cb_write_state c))).
  { intros us2 o2 Hst. unfold copy_wf. cbn. now rewrite Hst, Hn. }
  destruct r as [[[|x bs]|e|]|];
    try (split_and!; [apply Hstop; [now rewrite Hn|easy..]|easy|easy|now apply Hkeep|easy]; fail).
  - destruct (shutdown_inner_pushed (cb_us c) Hid) as (Hst & Hfr & Hp & _).
    destruct (shutdown_inner (cb_us c)) as [us2 [| |]]; cbn [fst snd] in *;
      try (split_and!; [apply Hstop; [now rewrite Hn|easy..]|easy|easy|now apply Hkeep|easy]; fail).
    split_and!; [now apply Hstop|easy|easy| |easy]. split; [cbn; now rewrite Hst|].
    cbn. rewrite Hin. now apply (Hpre []).
  - destruct (poll_write_pushed (x :: bs) (cb_us c) Hid) as (Hst & Hfr & Hp).
    destruct (poll_write [] (x :: bs) (cb_us c)) as [us2 [[m| |]|]]; cbn [fst snd] in *;
      try (split_and!; [apply Hstop; [now rewrite Hn|easy..]|easy|easy|now apply Hkeep|easy]; fail).
    destruct Hp as [-> Hp]. destruct (Hpre (x :: bs) eq_refl) as (Hav & [rest Hrest] & _).
    destruct (consume_views (length (x :: bs)) o) as [Hci Hco]; [now rewrite Hav|].
    destruct (IH (MkCopy us2 (rw_consume (length (x :: bs)) o) (cb_read_state c) (WTransferring (n + blen (x :: bs))))
      (n + blen (x :: bs))) as (Hl & Hrs & Hst2 & Hwf2 & Hr); [split; [cbn; now rewrite Hst|easy]|easy|].
    destruct (write_us_loop fuel _ _) as [c2 r2]. cbn [fst snd] in *. split_and!; [|easy|now rewrite Hst2|easy..].
    rewrite Hl. unfold copy_ledger, unread. cbn [cb_us cb_other cb_read_state cb_write_state write_amount].
    rewrite Hst, Hfr, Hp, Hci, Hco, Hout, Hin, Hn, Hrest, drop_app_length, blen_app, <- app_assoc.
    cbn [write_amount]. apply f_equal. lia.
  - destruct (flush_views o) as (Hfi & Hfo & _). destruct (rw_flush o) as [o2 f]. cbn [fst snd] in *.
    split_and!; [apply Hstop; [now rewrite Hn|congruence..|easy|easy|easy]|easy|easy|now apply Hkeep|].
    destruct f as [[| |]|]; easy.
Qed.

Lemma poll_write_us_ok fuel c :
  copy_wf c -> write_leg_ok c (poll_write_us fuel c).1 (poll_write_us fuel c).2.
Proof.
  intros Hwf. unfold poll_write_us. destruct (cb_write_state c) as [n|n] eqn:Hs; [now apply write_us_loop_ok|].
  split_and!; easy.
Qed.

(** Each round of the read loop hands over at least one octet, unless the
    other side accepts nothing. *)
Lemma read_us_loop_fuel fuel (c : CopyBidirectional C W RW) n :
  (forall bs o, bs <> [] -> (rw_write bs o).2 <> Ready (Ok 0)) ->
  u32_ok (ms_flow_id (cx_stream (cb_us c))) ->
  (length (unread (cb_us c)) < fuel)%nat -> (read_us_loop fuel c n).2 <> None.
Proof.
  intros Hpos. revert c n. induction fuel as [|fuel IH]; intros c n Hid Hf; [lia|]. cbn [read_us_loop].
  destruct (poll_fill_buf (cb_us c)) as [us1 r] eqn:Hfill.
  destruct r as [[[|x bs]|e|]|]; try easy; [destruct (poll_shutdown_other _ n); easy|].
  destruct (rw_write (x :: bs) (cb_other c)) as [o w] eqn:Hw.
  destruct (fill_write_consume c us1 (x :: bs) o w Hid Hfill Hw) as [_ Hc].
  pose proof (Hpos (x :: bs) (cb_other c)) as Hne. rewrite Hw in Hne.
  destruct w as [[m| |]|]; try easy. destruct Hc as (Hm & us2 & -> & _ & _ & _ & Hi2 & Hl).
  apply IH; [cbn; now rewrite Hi2|]. cbn. unfold blen in *.
  destruct (Z.eq_dec m 0) as [->|]; [now destruct Hne|]. lia.
Qed.

Lemma write_us_loop_fuel fuel (c : CopyBidirectional C W RW) n :
  u32_ok (ms_flow_id (cx_stream (cb_us c))) ->
  (length (rw_in (cb_other c)) < fuel)%nat -> (write_us_loop fuel c n).2 <> None.
Proof.
  revert c n. induction fuel as [|fuel IH]; intros c n Hid Hf; [lia|]. cbn [write_us_loop].
  destruct (fill_buf_views (cb_other c)) as [Hin Hout]. pose proof (fill_buf_prefix (cb_other c)) as Hpre.
  destruct (rw_fill_buf (cb_other c)) as [o r]. cbn [fst snd] in *.
  destruct r as [[[|x bs]|e|]|]; try easy.
  - destruct (shutdown_inner (cb_us c)) as [us [| |]]; easy.
  - destruct (poll_write_pushed (x :: bs) (cb_us c) Hid) as (Hst & _ & _).
    destruct (poll_write [] (x :: bs) (cb_us c)) as [us [[m| |]|]]; cbn [fst snd] in *; try easy.
    destruct (Hpre (x :: bs) eq_refl) as (Hav & [rest Hrest] & _).
    destruct (consume_views (length (x :: bs)) o) as [Hci _]; [now rewrite Hav|].
    apply IH; [cbn; now rewrite Hst|]. cbn [cb_other]. rewrite Hci, Hin, Hrest, drop_app_length.
    rewrite Hrest, length_app in Hf. simpl in Hf. lia.
  - destruct (rw_flush o) as [? [[]|]]; easy.
Qed.

End CopyLemmas.

(** ** Properties *)

(** C15: reading delivers, in order and without loss or duplication, exactly
    the octets of the received [Push] frames, whatever the sizes of the read
    buffers; every [Acknowledge] sent meanwhile counts exactly the threshold,
    no frame is counted twice or forgotten, and the counter never reaches the
    threshold (so it cannot overflow). *)
Theorem stream_read_in_order {C : Type -> Type} `{!Mpsc C} {W : Type} (sizes : list Z) (c : Ctx C W) :
  Forall (fun n => 0 <= n) sizes -> stream_wf c -> tx_live c ->
  let c' := (read_run sizes c).1 in
  let every := ack_every (cx_stream c) in
  (read_run sizes c).2 ++ unread c' = unread c
  /\ stream_wf c'
  /\ exists m : nat,
     queue (cx_tx c') = queue (cx_tx c) ++ replicate m (encoded (new_acknowledge (ms_flow_id (cx_stream c)) every))
     /\ Z.of_nat m * every + ms_psh_recvd_since (cx_stream c') + Z.of_nat (length (queue (sh_frames (cx_shared c'))))
        = ms_psh_recvd_since (cx_stream c) + Z.of_nat (length (queue (sh_frames (cx_shared c)))).
Proof.
  revert c. induction sizes as [|n sizes IH]; intros c Hs Hwf Htx; cbn [read_run].
  - split; [easy|]. split; [easy|]. exists 0%nat. cbn. rewrite app_nil_r. split; [easy|lia].
  - invc Hs. destruct (poll_read_step n c) as (Hu & Hwf1 & Htx1 & Hid & Hev & m1 & Hq1 & Hc1); [easy..|].
    destruct (poll_read n c) as [c1 r]. cbn [fst snd] in *.
    destruct (IH c1) as (Hu2 & Hwf2 & m2 & Hq2 & Hc2); [easy..|].
    destruct (read_run sizes c1) as [c2 out]. cbn [fst snd] in *. split; [|split; [easy|]].
    + rewrite <- app_assoc, Hu2. exact Hu.
    + exists (m1 + m2)%nat. rewrite Hq2, Hq1, Hid, Hev, replicate_add, app_assoc. split; [easy|].
      rewrite Hev in Hc2. lia.
Qed.

Definition example_stream : MuxStream := MkMuxStream 0 17 (bytes_of_string "host") 80 0 [] 2.
Definition example_ctx : Ctx chan_state bool :=
  MkCtx example_stream
    (MkShared (ChanState [[1; 2; 3]; [4]; [5; 6]] (Some 8%nat) true true) false 2 false)
    (ChanState [] None true true) (ChanState [] None true true).

Lemma stream_read_in_order_witness :
  (read_run [2; 5; 1; 9] example_ctx).2 = [1; 2; 3; 4; 5; 6]
  /\ (read_run [2; 5; 1; 9] example_ctx).2 ++ unread (read_run [2; 5; 1; 9] example_ctx).1 = unread example_ctx.
Proof.
  split; [reflexivity|].
  refine (proj1 (stream_read_in_order [2; 5; 1; 9] example_ctx _ _ _)).
  - repeat constructor; lia.
  - split; [|split]; unfold in_width, ack_every; cbn; lia.
  - split; reflexivity.
Defined.

(** C16: a write permission is granted exactly when the stream is open and
    the send window is not empty, whatever acknowledgements and spurious
    failures interfere with the compare-exchange loop: the window then goes
    down by exactly one; an empty window parks the writer with its waker
    registered and leaves the window alone; a finished stream answers
    [BrokenPipe] and changes nothing. *)
Theorem write_permission_exact {C : Type -> Type} {W : Type} `{!Waker W}
    (meanwhile : list interference) (s : Shared C W) :
  u32_ok (sh_psh_send_remaining s) ->
  let '(s', r) := poll_obtain_write_permission meanwhile s in
  sh_frames s' = sh_frames s /\ sh_finish_sent s' = sh_finish_sent s /\ u32_ok (sh_psh_send_remaining s')
  /\ if sh_finish_sent s then r = Ready (Err BrokenPipe) /\ s' = s
     else exists k, (k <= length meanwhile)%nat /\
       let w := window_after (take k meanwhile) (sh_psh_send_remaining s) in
       if w =? 0
       then r = Pending /\ sh_psh_send_remaining s' = 0 /\ waker_view (sh_writer_waker s') = true
       else r = Ready (Ok tt) /\ sh_psh_send_remaining s' = w - 1
            /\ sh_writer_waker s' = sh_writer_waker s.
Proof.
  intros Hs. unfold poll_obtain_write_permission.
  destruct (sh_finish_sent s) eqn:Hf; [easy|].
  destruct (obtain_loop_spec meanwhile s Hs) as (k & Hk & ->).
  assert (Hw : u32_ok (window_after (take k meanwhile) (sh_psh_send_remaining s))).
  { clear Hk. revert k Hs. generalize (sh_psh_send_remaining s).
    induction meanwhile as [|[|n] rest IH]; intros w [|k] Hw; cbn; auto using wrapping_add32_ok. }
  unfold in_width in *. cbv zeta. destruct (Z.eqb_spec (window_after (take k meanwhile) (sh_psh_send_remaining s)) 0) as [H0|H0]; cbn.
  - split_and!; [easy..|lia|lia|]. exists k. split; [easy|]. rewrite H0, view_register. easy.
  - split_and!; [easy..|lia|lia|]. exists k. split; [easy|]. case_bool; bool_prop; easy.
Qed.

Lemma write_permission_exact_witness :
  poll_obtain_write_permission [Spurious; AckMeanwhile 3] (cx_shared example_ctx)
  = (set_remaining (cx_shared example_ctx) 4, Ready (Ok tt))
  /\ let '(s', r) := poll_obtain_write_permission [Spurious; AckMeanwhile 3] (cx_shared example_ctx) in
     sh_finish_sent s' = false.
Proof.
  split; [reflexivity|].
  exact (proj1 (proj2 (write_permission_exact [Spurious; AckMeanwhile 3] (cx_shared example_ctx)
    ltac:(unfold in_width; cbn; lia)))).
Defined.

(** Writes on an open stream send one [Push] frame per accepted buffer,
    in order and unaltered, and exactly as many as the window allows; the
    others are [Pending] and send nothing. *)
Theorem writes_fill_window {C : Type -> Type} `{!Mpsc C} {W : Type} `{!Waker W}
    (bufs : list bytes) (c : Ctx C W) :
  sh_finish_sent (cx_shared c) = false -> tx_live c -> u32_ok (sh_psh_send_remaining (cx_shared c)) ->
  let n := Nat.min (length bufs) (Z.to_nat (sh_psh_send_remaining (cx_shared c))) in
  let c' := (write_run bufs c).1 in
  queue (cx_tx c')
  = queue (cx_tx c) ++ map (fun d => encoded (new_push (ms_flow_id (cx_stream c)) d)) (take n bufs)
  /\ (write_run bufs c).2
     = map (fun d => Ready (Ok (blen d))) (take n bufs) ++ replicate (length bufs - n) Pending
  /\ sh_psh_send_remaining (cx_shared c') = sh_psh_send_remaining (cx_shared c) - Z.of_nat n.
Proof.
  revert c. induction bufs as [|buf bufs IH]; intros c Hf Htx Hu; cbn [write_run].
  - cbn. rewrite app_nil_r. split_and!; [easy..|lia].
  - destruct (poll_write_open buf c) as (Htx1 & Hs1 & Hf1 & _ & Hp & Hr); [easy..|].
    destruct (poll_write [] buf c) as [c1 r]. cbn [fst snd] in *. unfold in_width in *.
    specialize (IH c1 Hf1 Htx1). rewrite Hs1 in IH.
    destruct (decide (sh_psh_send_remaining (cx_shared c) = 0)) as [H0|H0].
    + destruct (Hp H0) as (-> & Ht & H01 & _). rewrite H01 in IH. destruct IH as (Hq & Hrs & Hw); [lia|].
      destruct (write_run bufs c1) as [c2 rs]. cbn [fst snd] in *. rewrite H0, Hq, Hrs, Hw, Ht.
      change (Z.to_nat 0) with 0%nat. rewrite !Nat.min_0_r. cbn. rewrite Nat.sub_0_r. easy.
    + destruct (Hr H0) as (-> & Ht & H1). rewrite H1 in IH. destruct IH as (Hq & Hrs & Hw); [lia|].
      destruct (write_run bufs c1) as [c2 rs]. cbn [fst snd] in *. rewrite Hq, Hrs, Hw, Ht.
      replace (Z.to_nat (sh_psh_send_remaining (cx_shared c)))
        with (S (Z.to_nat (sh_psh_send_remaining (cx_shared c) - 1))) by lia.
      simpl length. rewrite <- Nat.succ_min_distr. cbn [take map]. rewrite <- app_assoc.
      split_and!; [easy..|lia].
Qed.

Lemma writes_fill_window_witness :
  (write_run [[1]; [2; 2]; [3]] example_ctx).2 = [Ready (Ok 1); Ready (Ok 2); Pending]
  /\ sh_psh_send_remaining (cx_shared (write_run [[1]; [2; 2]; [3]] example_ctx).1) = 2 - 2.
Proof.
  split; [reflexivity|].
  exact (proj2 (proj2 (writes_fill_window [[1]; [2; 2]; [3]] example_ctx eq_refl
    (conj eq_refl eq_refl) ltac:(unfold in_width; cbn; lia)))).
Defined.

(** A series of shutdowns and writes after the first shutdown. *)
Fixpoint after_shutdown {C : Type -> Type} `{!Mpsc C} {W : Type} `{!Waker W}
    (ops : list (option (list interference * bytes))) (c : Ctx C W) : Ctx C W * list (res IoErrorKind Z) :=
  match ops with
  | [] => (c, [])
  | op :: rest =>
      let '(c1, r) :=
        match op with
        | None => let '(c1, r) := shutdown_inner c in
                  (c1, match r with Ok _ => Ok 0 | Err e => Err e | Panic => Panic end)
        | Some (meanwhile, buf) =>
            let '(c1, r) := poll_write meanwhile buf c in
            (c1, match r with Ready r => r | Pending => Panic end)
        end in
      let '(c2, rs) := after_shutdown rest c1 in (c2, r :: rs)
  end.

(** Shutting a stream down sends exactly one [Finish] frame and closes
    the write side for good: later shutdowns succeed silently, every later
    write fails with [BrokenPipe], and neither sends anything. *)
Theorem shutdown_once {C : Type -> Type} `{!Mpsc C} {W : Type} `{!Waker W}
    (ops : list (option (list interference * bytes))) (c : Ctx C W) :
  sh_finish_sent (cx_shared c) = false -> tx_live c ->
  let c1 := (shutdown_inner c).1 in
  (shutdown_inner c).2 = Ok tt
  /\ queue (cx_tx c1) = queue (cx_tx c) ++ [encoded (new_finish (ms_flow_id (cx_stream c)))]
  /\ sh_frames (cx_shared c1) = sh_frames (cx_shared c)
  /\ after_shutdown ops c1 = (c1, map (fun op => match op with None => Ok 0 | Some _ => Err BrokenPipe end) ops).
Proof.
  intros Hf [Ho Hc]. unfold shutdown_inner. rewrite Hf.
  destruct (tx_send_spec (new_finish (ms_flow_id (cx_stream c))) (cx_tx c)) as (Hq & _ & _ & Hr); [easy..|].
  destruct (tx_send _ _) as [tx e]. cbn in *. rewrite Ho in Hq, Hr. subst e. split_and!; [easy..|].
  match goal with |- after_shutdown _ ?c1 = _ => assert (Hf1 : sh_finish_sent (cx_shared c1) = true) by easy; revert Hf1; generalize c1 end.
  clear. intros c Hf. induction ops as [|[[meanwhile buf]|] ops IH]; cbn [after_shutdown map]; [easy|..].
  - rewrite poll_write_finished, IH by easy. easy.
  - unfold shutdown_inner. rewrite Hf, IH. easy.
Qed.

Lemma shutdown_once_witness :
  after_shutdown [None; Some ([AckMeanwhile 9], [7])] (shutdown_inner example_ctx).1
  = ((shutdown_inner example_ctx).1, [Ok 0; Err BrokenPipe]).
Proof.
  exact (proj2 (proj2 (proj2 (shutdown_once [None; Some ([AckMeanwhile 9], [7])] example_ctx
    eq_refl (conj eq_refl eq_refl))))).
Defined.

(** A poll of the bidirectional copier, whatever its outcome and however
    the other side behaves within its contract, neither loses, duplicates nor
    reorders an octet in either direction and keeps both totals exact; when it
    completes, the totals are the answer and the other side was read to its
    end. *)
Theorem copy_conserves {C : Type -> Type} `{!Mpsc C} {W : Type} `{!Waker W} {RW : Type} `{!BufRW RW}
    (fuel : nat) (c : CopyBidirectional C W RW) :
  copy_wf c ->
  let '(c', r) := copy_poll fuel c in
  copy_ledger c' = copy_ledger c /\ copy_wf c'
  /\ match r with
     | Some (Ready (Ok (a, n))) =>
         cb_read_state c' = RDone a /\ cb_write_state c' = WDone n /\ rw_in (cb_other c') = []
     | _ => True
     end.
Proof.
  intros Hwf. destruct Hwf as [Hid Hw]. unfold copy_poll.
  destruct (poll_read_us_ok fuel c Hid) as (Hl1 & Hws & Hin & Hfid & Hr1).
  destruct (poll_read_us fuel c) as [c1 r]. cbn [fst snd] in *.
  assert (Hwf1 : copy_wf c1) by (split; [now rewrite Hfid|now rewrite Hws, Hin]).
  destruct (poll_write_us_ok fuel c1 Hwf1) as (Hl2 & Hrs & _ & Hwf2 & Hr2).
  destruct (poll_write_us fuel c1) as [c2 w]. cbn [fst snd] in *.
  split; [congruence|]. split; [easy|].
  destruct r as [[[a| |]|]|]; try easy; destruct w as [[[n| |]|]|]; try easy.
  rewrite Hrs. split_and!; [easy..|]. destruct Hwf2 as [_ Hdone]. now rewrite Hr2 in Hdone.
Qed.

Definition example_copy : CopyBidirectional chan_state bool MemRW :=
  into_copy_bidirectional_with_buf
    (MkCtx example_stream
       (MkShared (ChanState [[1; 2; 3]; [4]] (Some 8%nat) true false) false 2 false)
       (ChanState [] None true true) (ChanState [] None true true))
    (MkMemRW [7; 8; 9] [] 2 true).

Lemma copy_conserves_witness :
  (copy_poll 9 example_copy).2 = Some (Ready (Ok (4, 3)))
  /\ rw_out (cb_other (copy_poll 9 example_copy).1) = [1; 2; 3; 4]
  /\ let '(c', r) := copy_poll 9 example_copy in copy_ledger c' = copy_ledger example_copy.
Proof.
  split; [vm_compute; reflexivity|]. split; [vm_compute; reflexivity|].
  assert (Hwf : copy_wf example_copy) by (split; [unfold in_width; cbn; lia|exact I]).
  pose proof (copy_conserves 9 example_copy Hwf) as H.
  destruct (copy_poll 9 example_copy) as [c' r]. exact (proj1 H).
Defined.

(** C31: a poll of the copier terminates: with one round more than the octets
    at hand in each direction the loops finish, provided the other side never
    answers a non-empty write with zero octets. *)
Theorem copy_poll_terminates {C : Type -> Type} `{!Mpsc C} {W : Type} `{!Waker W} {RW : Type} `{!BufRW RW}
    (fuel : nat) (c : CopyBidirectional C W RW) :
  (forall bs o, bs <> [] -> (rw_write bs o).2 <> Ready (Ok 0)) ->
  u32_ok (ms_flow_id (cx_stream (cb_us c))) ->
  (length (unread (cb_us c)) < fuel)%nat -> (length (rw_in (cb_other c)) < fuel)%nat ->
  (copy_poll fuel c).2 <> None.
Proof.
  intros Hpos Hid Hr Hw. unfold copy_poll.
  assert (H1 : (poll_read_us fuel c).2 <> None).
  { unfold poll_read_us. destruct (cb_read_state c); [now apply read_us_loop_fuel| |easy].
    now destruct (poll_shutdown_other _ _). }
  destruct (poll_read_us_ok fuel c Hid) as (_ & _ & Hin & Hfid & _).
  destruct (poll_read_us fuel c) as [c1 r]. cbn [fst snd] in *.
  assert (H2 : (poll_write_us fuel c1).2 <> None).
  { unfold poll_write_us. destruct (cb_write_state c1); [|easy].
    apply write_us_loop_fuel; [now rewrite Hfid|now rewrite Hin]. }
  destruct (poll_write_us fuel c1) as [c2 w]. cbn [fst snd] in *.
  destruct r as [[[]|]|]; try easy; destruct w as [[[]|]|]; easy.
Qed.

(** A peer that accepts one octet per write. *)
#[local] Program Instance one_octet_rw : BufRW MemRW := {
  rw_fill_buf := mem_fill;
  rw_consume n m := MkMemRW (drop n (mem_in m)) (mem_out m) (mem_limit m) (mem_eof m);
  rw_write bs m := (MkMemRW (mem_in m) (mem_out m ++ take 1 bs) (mem_limit m) (mem_eof m),
                    Ready (Ok (blen (take 1 bs))));
  rw_flush m := (m, Ready (Ok tt));
  rw_shutdown m := (m, Ready (Ok tt));
  rw_in := mem_in;
  rw_out := mem_out;
  rw_avail := mem_in;
}.
Next Obligation. exact (fun m => fill_buf_views (BufRW := mem_bufrw) m). Qed.
Next Obligation. exact (fun m => fill_buf_prefix (BufRW := mem_bufrw) m). Qed.
Next Obligation. easy. Qed.
Next Obligation. intros [|x bs] m; cbn; unfold blen; simpl; split; easy || (split; [lia|easy]). Qed.
Next Obligation. easy. Qed.
Next Obligation. easy. Qed.

Lemma copy_poll_terminates_witness :
  (copy_poll 5 (RW := MemRW) (BufRW0 := one_octet_rw) example_copy).2 <> None.
Proof.
  apply (copy_poll_terminates (BufRW0 := one_octet_rw) 5 example_copy).
  - intros [|x bs] o Hne; [congruence|]. cbn. discriminate.
  - unfold in_width; cbn; lia.
  - cbn; lia.
  - cbn; lia.
Defined.

(** Without that proviso the copier spins: facing a writer that answers
    zero octets (which [AsyncWrite] allows, and [tokio]'s own copy turns into
    a [WriteZero] error) the read loop never returns while a buffer is left. *)
Theorem copy_zero_write_spins {C : Type -> Type} `{!Mpsc C} {W : Type} `{!Waker W} {RW : Type} `{!BufRW RW}
    (c : CopyBidirectional C W RW) (n : Z) :
  (forall bs o, (rw_write bs o).2 = Ready (Ok 0)) ->
  ms_buf (cx_stream (cb_us c)) <> [] -> cb_read_state c = RTransferring n ->
  forall fuel, (copy_poll fuel c).2 = None.
Proof.
  intros Hz Hb Hs fuel. unfold copy_poll, poll_read_us. rewrite Hs. clear Hs.
  assert (H : (read_us_loop fuel c n).2 = None).
  { revert c n Hb. induction fuel as [|fuel IH]; intros c n Hb; [easy|]. cbn [read_us_loop].
    unfold poll_fill_buf. destruct (ms_buf (cx_stream (cb_us c))) as [|x bs] eqn:Hx; [easy|].
    pose proof (Hz (x :: bs) (cb_other c)) as Hw. destruct (rw_write _ _) as [o w]. cbn in Hw. subst w.
    rewrite consume_ok by (rewrite Hx; unfold blen; simpl; lia). apply IH. cbn. rewrite Hx. easy. }
  destruct (read_us_loop fuel c n) as [c1 r]. cbn in H. subst r. now destruct (poll_write_us fuel c1).
Qed.

(** A peer that accepts nothing. *)
#[local] Program Instance full_rw : BufRW MemRW := {
  rw_fill_buf := mem_fill;
  rw_consume n m := MkMemRW (drop n (mem_in m)) (mem_out m) (mem_limit m) (mem_eof m);
  rw_write bs m := (m, Ready (Ok 0));
  rw_flush m := (m, Ready (Ok tt));
  rw_shutdown m := (m, Ready (Ok tt));
  rw_in := mem_in;
  rw_out := mem_out;
  rw_avail := mem_in;
}.
Next Obligation. exact (fun m => fill_buf_views (BufRW := mem_bufrw) m). Qed.
Next Obligation. exact (fun m => fill_buf_prefix (BufRW := mem_bufrw) m). Qed.
Next Obligation. easy. Qed.
Next Obligation. intros bs m; cbn. unfold blen. rewrite app_nil_r. split; [easy|split; [lia|easy]]. Qed.
Next Obligation. easy. Qed.
Next Obligation. easy. Qed.

Lemma copy_zero_write_spins_witness :
  (copy_poll 1000 (BufRW0 := full_rw)
     (MkCopy (with_stream example_ctx (set_buf example_stream [1])) (MkMemRW [] [] 0 true)
        (RTransferring 0) (WTransferring 0))).2 = None.
Proof.
  refine (copy_zero_write_spins (BufRW0 := full_rw) _ 0 _ _ _ 1000).
  - reflexivity.
  - discriminate.
  - reflexivity.
Defined.

(** The error of the write direction is not reported while the read direction
    is pending: the task is gone, the other side has data, and the copier just
    stays pending. *)
Example copy_write_error_deferred :
  let us := MkCtx example_stream
              (MkShared (ChanState [] (Some 8%nat) true true) false 2 false)
              (ChanState [] None false true) (ChanState [] None false true) in
  let c := into_copy_bidirectional_with_buf us (MkMemRW [7] [] 2 true) in
  (poll_write_us 9 c).2 = Some (Ready (Err BrokenPipe)) /\ (copy_poll 9 c).2 = Some Pending.
Proof. vm_compute. split; reflexivity. Qed.
