(* ===== verification/Buffered.v ===== *)
(** * A buffered stream as the other side of a copy (mux/stream.rs)

    [into_copy_bidirectional] takes any reader and writer and puts a
    [BufReader] around it.  Here are the interface of such a stream (a TCP
    connection, the standard streams), the buffer, and that the two together
    keep the contract the copier relies on ([BufRW]): so what Duplex.v,
    Completion.v and Among.v prove of a copy holds for a copy with any of
    them. *)

From S2P Require Import Prelude Runtime Stream.

(** ** Definitions *)

(** [AsyncRead + AsyncWrite], with the contract of those traits: [io_rest] is
    what has still to be read, [io_done] what was written. *)
Class AsyncRW (S : Type) := {
  io_poll_read : nat -> S -> S * poll (res IoErrorKind bytes);      (* into so many octets *)
  io_poll_write : bytes -> S -> S * poll (res IoErrorKind Z);
  io_poll_flush : S -> S * poll (res IoErrorKind unit);
  io_poll_shutdown : S -> S * poll (res IoErrorKind unit);
  io_rest : S -> bytes;
  io_done : S -> bytes;
  io_read_views : forall n s, (0 < n)%nat -> io_done (io_poll_read n s).1 = io_done s /\
    match (io_poll_read n s).2 with
    | Ready (Ok bs) => io_rest s = bs ++ io_rest (io_poll_read n s).1 /\ (bs = [] -> io_rest s = [])
    | _ => io_rest (io_poll_read n s).1 = io_rest s
    end;
  io_write_views : forall bs s, io_rest (io_poll_write bs s).1 = io_rest s /\
    match (io_poll_write bs s).2 with
    | Ready (Ok n) => 0 <= n <= blen bs /\ io_done (io_poll_write bs s).1 = io_done s ++ take (Z.to_nat n) bs
    | _ => io_done (io_poll_write bs s).1 = io_done s
    end;
  io_flush_views : forall s, io_rest (io_poll_flush s).1 = io_rest s /\ io_done (io_poll_flush s).1 = io_done s;
  io_shutdown_views : forall s, io_rest (io_poll_shutdown s).1 = io_rest s /\ io_done (io_poll_shutdown s).1 = io_done s;
}.

Section Buffered.
Context {S : Type} `{!AsyncRW S}.

(** [BufReader]: the octets in its buffer and what it is around. *)
Record BufReader := MkBufReader { bf_buffer : bytes; bf_inner : S }.

Definition DEFAULT_BUF_SIZE : nat := Z.to_nat 8192.

(** [BufReader::new]. *)
Definition buf_reader_new (inner : S) : BufReader := MkBufReader [] inner.

Definition buf_poll_fill_buf (b : BufReader) : BufReader * poll (res IoErrorKind bytes) :=
  match bf_buffer b with
  | [] =>
      let '(s, r) := io_poll_read DEFAULT_BUF_SIZE (bf_inner b) in
      (MkBufReader (match r with Ready (Ok bs) => bs | _ => [] end) s, r)
  | buffered => (b, Ready (Ok buffered))
  end.

Definition on_inner {A} (f : S -> S * A) (b : BufReader) : BufReader * A :=
  let '(s, a) := f (bf_inner b) in (MkBufReader (bf_buffer b) s, a).

(** ** The buffer keeps the contract of the copier *)

#[local] Obligation Tactic := idtac.

#[export] Program Instance buffered_bufrw : BufRW BufReader := {
  rw_fill_buf := buf_poll_fill_buf;
  rw_consume n b := MkBufReader (drop n (bf_buffer b)) (bf_inner b);
  rw_write bs := on_inner (io_poll_write bs);
  rw_flush := on_inner io_poll_flush;
  rw_shutdown := on_inner io_poll_shutdown;
  rw_in b := bf_buffer b ++ io_rest (bf_inner b);
  rw_out b := io_done (bf_inner b);
  rw_avail := bf_buffer;
}.
Next Obligation.
  intros [[|x buf] s]; cbn; [|easy]. unfold buf_poll_fill_buf. cbn [bf_buffer bf_inner].
  destruct (io_read_views DEFAULT_BUF_SIZE s) as [Hd H]; [unfold DEFAULT_BUF_SIZE; lia|].
  destruct (io_poll_read DEFAULT_BUF_SIZE s) as [s' [[bs|e|]|]]; cbn in *; easy.
Qed.
Next Obligation.
  intros [[|x buf] s] bs; unfold buf_poll_fill_buf; cbn [bf_buffer bf_inner].
  - destruct (io_read_views DEFAULT_BUF_SIZE s) as [_ H]; [unfold DEFAULT_BUF_SIZE; lia|].
    destruct (io_poll_read DEFAULT_BUF_SIZE s) as [s' [[got|e|]|]]; cbn in *; try easy. intros [= ->].
    destruct H as [Hrest Hend]. split; [easy|]. split; [rewrite Hrest; now eexists|easy].
  - cbn. intros [= <-]. split; [easy|]. split; [now eexists|easy].
Qed.
Next Obligation. intros n b H. cbn in *. now rewrite drop_app_le by easy. Qed.
Next Obligation.
  intros bs [buf s]. destruct (io_write_views bs s) as [Hr H]. unfold on_inner. cbn in *.
  destruct (io_poll_write bs s) as [s' [[n|e|]|]]; cbn in *; now rewrite Hr.
Qed.
Next Obligation.
  intros [buf s]. destruct (io_flush_views s) as [Hr Hd]. unfold on_inner. cbn in *.
  destruct (io_poll_flush s) as [s' r]. cbn in *. now rewrite Hr.
Qed.
Next Obligation.
  intros [buf s]. destruct (io_shutdown_views s) as [Hr Hd]. unfold on_inner. cbn in *.
  destruct (io_poll_shutdown s) as [s' r]. cbn in *. now rewrite Hr.
Qed.

(** ** [into_copy_bidirectional] *)

Context {C : Type -> Type} `{!Mpsc C} {W : Type} `{!Waker W}.

Definition into_copy_bidirectional (us : Ctx C W) (other : S) : CopyBidirectional C W BufReader :=
  into_copy_bidirectional_with_buf us (buf_reader_new other).

(** The buffer starts empty: nothing of the other side is read, counted or
    written before the first poll. *)
Lemma into_copy_bidirectional_fresh us other :
  let c := into_copy_bidirectional us other in
  cb_us c = us /\ rw_in (cb_other c) = io_rest other /\ rw_out (cb_other c) = io_done other
  /\ rw_avail (cb_other c) = [] /\ cb_read_state c = RTransferring 0 /\ cb_write_state c = WTransferring 0.
Proof. easy. Qed.

End Buffered.

Arguments BufReader : clear implicits.
