(* ===== verification/Mux.v ===== *)
(** * The multiplexor (src/src/mux/lib.rs, src/src/mux/task.rs, src/src/mux/ws.rs)

    [Multiplexor], its task and the streams share a flow table, a heap of the
    cells behind streams, one-shot channels and message channels.  They are one
    state here, [Mux]; every method, handler and task loop body is a function
    of a small state and error monad over it. *)

From S2P Require Import Prelude Runtime Frame Timing Config Stream.

(** ** Definitions *)

(** *** Errors and messages *)

(** What the program distinguishes in [tungstenite::Error]. *)
Inductive WsProtocolError :=
| ReceivedAfterClosing | ResetWithoutClosingHandshake | SendAfterClosing | HandshakeIncomplete
| OtherProtocolError.

Inductive WsError :=
| WsIo (kind : IoErrorKind)
| WsAlreadyClosed
| WsConnectionClosed
| WsProtocol (e : WsProtocolError)
| WsOther.

Inductive Error :=
| SendStreamToClient | Closed | PeerUnsupportedOperation | UnsupportedOperation
| FlowIdRejected
| WebSocketError (e : WsError)
| DatagramHostTooLong
| InvalidFrame (e : FrameError)
| TextMessage | ConnAckGone
| ChannelClosed (which : bytes).

Inductive Message := MsgBinary (data : bytes) | MsgPing | MsgPong | MsgClose.

(** [tungstenite::Message]. *)
Inductive TungsteniteMessage :=
| TgBinary (data : bytes) | TgText (data : bytes) | TgPing (data : bytes) | TgPong (data : bytes)
| TgClose (frame : option bytes) | TgFrame.

(** [From<tungstenite::Message> for Message]; a raw [Frame] is [unreachable!]. *)
Definition message_from_tungstenite (m : TungsteniteMessage) : res Error Message :=
  match m with
  | TgBinary data => Ok (MsgBinary data)
  | TgText text => Ok (MsgBinary text)
  | TgPing _ => Ok MsgPing
  | TgPong _ => Ok MsgPong
  | TgClose _ => Ok MsgClose
  | TgFrame => Panic
  end.

(** [From<Message> for tungstenite::Message]. *)
Definition message_to_tungstenite (m : Message) : TungsteniteMessage :=
  match m with
  | MsgBinary data => TgBinary data
  | MsgPing => TgPing []
  | MsgPong => TgPong []
  | MsgClose => TgClose None
  end.

(** The [WebSocket] trait. *)
Class WebSocket (S : Type) := {
  ws_poll_ready : S -> S * poll (res Error unit);
  ws_start_send : Message -> S -> S * res Error unit;
  ws_poll_flush : S -> S * poll (res Error unit);
  ws_poll_close : S -> S * poll (res Error unit);
  ws_poll_next : S -> S * poll (option (res Error Message));
}.

(** [Sink] and [Stream] of [WebSocketStream]. *)
Class TungsteniteStream (S : Type) := {
  tg_poll_ready : S -> S * poll (WsError + unit);
  tg_start_send : TungsteniteMessage -> S -> S * (WsError + unit);
  tg_poll_flush : S -> S * poll (WsError + unit);
  tg_poll_close : S -> S * poll (WsError + unit);
  tg_poll_next : S -> S * poll (option (WsError + TungsteniteMessage));
}.

(** [From<tungstenite::Error> for Error], with [map_err]. *)
Definition map_ws_err {A} (r : WsError + A) : res Error A :=
  match r with inl e => Err (WebSocketError e) | inr a => Ok a end.

Definition map_poll {A B} (f : A -> B) (p : poll A) : poll B :=
  match p with Pending => Pending | Ready a => Ready (f a) end.

(** [impl WebSocket for WebSocketStream]. *)
Definition tungstenite_websocket {S} `{!TungsteniteStream S} : WebSocket S := {|
  ws_poll_ready s := let '(s, p) := tg_poll_ready s in (s, map_poll map_ws_err p);
  ws_start_send item s := let '(s, r) := tg_start_send (message_to_tungstenite item) s in (s, map_ws_err r);
  ws_poll_flush s := let '(s, p) := tg_poll_flush s in (s, map_poll map_ws_err p);
  ws_poll_close s := let '(s, p) := tg_poll_close s in (s, map_poll map_ws_err p);
  ws_poll_next s :=
    let '(s, p) := tg_poll_next s in
    (s, map_poll (fmap (fun r => m ← map_ws_err r; message_from_tungstenite m)) p);
|}.

Record MuxDatagram := MkMuxDatagram {
  dg_flow_id : Z;
  dg_target_host : bytes;
  dg_target_port : Z;
  dg_data : bytes;
}.

Record BindRequest := MkBindRequest { br_flow_id : Z; br_payload : BindPayload }.

(** What the user reads of a request. *)
Module BindRequests.
Definition flow_id (r : BindRequest) : Z := br_flow_id r.
Definition bind_type (r : BindRequest) : BindType := bnd_bind_type (br_payload r).
Definition host (r : BindRequest) : bytes := cow_as_ref (bnd_target_host (br_payload r)).
Definition port (r : BindRequest) : Z := bnd_target_port (br_payload r).
End BindRequests.

(** *** Flow slots *)

(** The multiplexor's half of a stream: the sender, if [Finish] has not taken
    it, and the cell of the shared counters. *)
Record EstablishedStreamData := MkEsd { esd_sender : bool; esd_cell : nat }.

(** Slots name the one-shot channel of the requester by its index. *)
Inductive FlowSlot :=
| Requested (sender : nat)
| Established (data : EstablishedStreamData)
| BindRequested (sender : nat).

(** [FlowSlot::establish]: the new slot and the requester's sender. *)
Definition establish (slot : FlowSlot) (data : EstablishedStreamData) : option (FlowSlot * nat) :=
  match slot with
  | Established _ | BindRequested _ => None
  | Requested sender => Some (Established data, sender)
  end.

(** *** The flow identifier generator *)

(** [IntKey::next_available_key] for [u32] over a supply of draws of
    [random_range(1..u32::MAX)]; [None] when the supply ends first. *)
Fixpoint next_available_key {V} (draws : list Z) (map : gmap Z V) : option Z :=
  match draws with
  | [] => None
  | i :: rest => if decide (is_Some (map !! i)) then next_available_key rest map else Some i
  end.

(** A value [random_range(MIN..MAX)] can return: the range is half open. *)
Definition valid_draw (i : Z) : Prop := 1 <= i < u32_max.

Section Mux.
Context {C : Type -> Type} `{!Mpsc C} {O : Type -> Type} `{!Oneshot O}
    {W : Type} `{!Waker W} {S : Type} `{!WebSocket S}.

Record Mux := MkMux {
  mx_flows : gmap Z FlowSlot;
  mx_cells : gmap nat (Shared C W);
  mx_next_cell : nat;
  mx_streams_shots : gmap nat (O (option MuxStream));
  mx_bind_shots : gmap nat (O bool);
  mx_next_shot : nat;
  mx_tx_frame : C bytes;
  mx_dropped_ports : C Z;
  mx_con_recv : C MuxStream;
  mx_datagrams : C MuxDatagram;
  mx_bnd : option (C BindRequest);
  mx_ws : S;
  mx_rwnd : Z;
  mx_default_rwnd_threshold : Z;
  mx_max_flow_id_retries : nat;
}.

Definition set_flows (x : Mux) (f : gmap Z FlowSlot) : Mux :=
  MkMux f (mx_cells x) (mx_next_cell x) (mx_streams_shots x) (mx_bind_shots x) (mx_next_shot x)
    (mx_tx_frame x) (mx_dropped_ports x) (mx_con_recv x) (mx_datagrams x) (mx_bnd x) (mx_ws x)
    (mx_rwnd x) (mx_default_rwnd_threshold x) (mx_max_flow_id_retries x).
Definition set_cells (x : Mux) (c : gmap nat (Shared C W)) (n : nat) : Mux :=
  MkMux (mx_flows x) c n (mx_streams_shots x) (mx_bind_shots x) (mx_next_shot x)
    (mx_tx_frame x) (mx_dropped_ports x) (mx_con_recv x) (mx_datagrams x) (mx_bnd x) (mx_ws x)
    (mx_rwnd x) (mx_default_rwnd_threshold x) (mx_max_flow_id_retries x).
Definition set_shots (x : Mux) (s : gmap nat (O (option MuxStream))) (b : gmap nat (O bool)) (n : nat) : Mux :=
  MkMux (mx_flows x) (mx_cells x) (mx_next_cell x) s b n
    (mx_tx_frame x) (mx_dropped_ports x) (mx_con_recv x) (mx_datagrams x) (mx_bnd x) (mx_ws x)
    (mx_rwnd x) (mx_default_rwnd_threshold x) (mx_max_flow_id_retries x).
Definition set_tx (x : Mux) (t : C bytes) : Mux :=
  MkMux (mx_flows x) (mx_cells x) (mx_next_cell x) (mx_streams_shots x) (mx_bind_shots x) (mx_next_shot x)
    t (mx_dropped_ports x) (mx_con_recv x) (mx_datagrams x) (mx_bnd x) (mx_ws x)
    (mx_rwnd x) (mx_default_rwnd_threshold x) (mx_max_flow_id_retries x).
Definition set_dropped (x : Mux) (d : C Z) : Mux :=
  MkMux (mx_flows x) (mx_cells x) (mx_next_cell x) (mx_streams_shots x) (mx_bind_shots x) (mx_next_shot x)
    (mx_tx_frame x) d (mx_con_recv x) (mx_datagrams x) (mx_bnd x) (mx_ws x)
    (mx_rwnd x) (mx_default_rwnd_threshold x) (mx_max_flow_id_retries x).
Definition set_queues (x : Mux) (r : C MuxStream) (d : C MuxDatagram) (b : option (C BindRequest)) : Mux :=
  MkMux (mx_flows x) (mx_cells x) (mx_next_cell x) (mx_streams_shots x) (mx_bind_shots x) (mx_next_shot x)
    (mx_tx_frame x) (mx_dropped_ports x) r d b (mx_ws x)
    (mx_rwnd x) (mx_default_rwnd_threshold x) (mx_max_flow_id_retries x).
Definition set_ws (x : Mux) (w : S) : Mux :=
  MkMux (mx_flows x) (mx_cells x) (mx_next_cell x) (mx_streams_shots x) (mx_bind_shots x) (mx_next_shot x)
    (mx_tx_frame x) (mx_dropped_ports x) (mx_con_recv x) (mx_datagrams x) (mx_bnd x) w
    (mx_rwnd x) (mx_default_rwnd_threshold x) (mx_max_flow_id_retries x).

(** *** The monad of the task and of the user's calls *)

(** Where an [async] function can be left waiting. *)
Inductive pending :=
| OnStreamQueue (s : MuxStream)
| OnBindQueue (r : BindRequest)
| OnWebSocket
| OnShot (retries : nat) (shot : nat)
| OnQueue.

Inductive outcome (A : Type) :=
| Ret (a : A)
| Fail (e : Error)
| Panicked
| Parked (p : pending).
Arguments Ret {A} _.
Arguments Fail {A} _.
Arguments Panicked {A}.
Arguments Parked {A} _.

Definition M (A : Type) : Type := Mux -> Mux * outcome A.

#[global] Instance M_ret : MRet M := fun _ a x => (x, Ret a).
#[global] Instance M_bind : MBind M := fun _ _ k m x =>
  match m x with
  | (x', Ret a) => k a x'
  | (x', Fail e) => (x', Fail e)
  | (x', Panicked) => (x', Panicked)
  | (x', Parked p) => (x', Parked p)
  end.

Definition get : M Mux := fun x => (x, Ret x).
Definition modify (f : Mux -> Mux) : M unit := fun x => (f x, Ret tt).
Definition throw {A} (e : Error) : M A := fun x => (x, Fail e).
Definition park {A} (p : pending) : M A := fun x => (x, Parked p).
Definition lift {A} (r : res Error A) : M A :=
  fun x => (x, match r with Ok a => Ret a | Err e => Fail e | Panic => Panicked end).

(** [tx_frame_tx.send(frame.finalize())]: whether the task still listens. *)
Definition send_frame (f : Frame) : M bool := fun x =>
  let '(tx, r) := tx_send f (mx_tx_frame x) in
  (set_tx x tx, match r with Ok _ => Ret true | Err _ => Ret false | Panic => Panicked end).

Definition put_flow (flow_id : Z) (slot : FlowSlot) : M unit :=
  modify (fun x => set_flows x (<[flow_id := slot]> (mx_flows x))).

Definition remove_flow (flow_id : Z) : M (option FlowSlot) := fun x =>
  (set_flows x (delete flow_id (mx_flows x)), Ret (mx_flows x !! flow_id)).

Definition update_cell (cell : nat) (f : Shared C W -> Shared C W) : M unit :=
  modify (fun x => set_cells x (alter f cell (mx_cells x)) (mx_next_cell x)).

(** A method of the stream object [s] run on its share of the state. *)
Definition on_stream {A} (s : MuxStream) (f : Ctx C W -> Ctx C W * A) : M (option (MuxStream * A)) := fun x =>
  match mx_cells x !! ms_cell s with
  | None => (x, Ret None)
  | Some sh =>
      let '(c, a) := f (MkCtx s sh (mx_tx_frame x) (mx_dropped_ports x)) in
      (set_dropped (set_tx (set_cells x (<[ms_cell s := cx_shared c]> (mx_cells x)) (mx_next_cell x))
         (cx_tx c)) (cx_dropped c), Ret (Some (cx_stream c, a)))
  end.

(** Dropping a [MuxStream] value, wherever it is held. *)
Definition drop_stream (s : MuxStream) : M unit :=
  _ ← on_stream s (fun c => (stream_drop c, tt)); mret tt.

(** *** [EstablishedStreamData] *)

(** [disallow_read] followed by the drop of the sender it takes out. *)
Definition disallow_read (data : EstablishedStreamData) : M EstablishedStreamData :=
  if esd_sender data then
    _ ← update_cell (esd_cell data) (fun c => set_frames c (tx_drop (sh_frames c)));
    mret (MkEsd false (esd_cell data))
  else mret data.

Definition acknowledge_cell (acknowledged : Z) (c : Shared C W) : Shared C W :=
  set_waker (set_remaining c (wrapping_add32 (sh_psh_send_remaining c) acknowledged))
    (wake (sh_writer_waker c)).1.

Definition acknowledge (data : EstablishedStreamData) (acknowledged : Z) : M unit :=
  update_cell (esd_cell data) (acknowledge_cell acknowledged).

Definition disallow_write_cell (c : Shared C W) : Shared C W :=
  set_waker (set_finish c true) (wake (sh_writer_waker c)).1.

Definition disallow_write (data : EstablishedStreamData) : M bool := fun x =>
  let old := match mx_cells x !! esd_cell data with Some c => sh_finish_sent c | None => true end in
  (_ ← update_cell (esd_cell data) disallow_write_cell; mret old) x.

(** [FlowSlot::dispatch]; the inner answer is [try_send]'s. *)
Definition dispatch (slot : FlowSlot) (data : bytes) : M (option (option TrySendError)) := fun x =>
  match slot with
  | Established d =>
      if esd_sender d then
        match mx_cells x !! esd_cell d with
        | Some c =>
            let '(fr, e) := try_send data (sh_frames c) in
            (set_cells x (<[esd_cell d := set_frames c fr]> (mx_cells x)) (mx_next_cell x), Ret (Some e))
        | None => (x, Ret None)
        end
      else (x, Ret None)
  | _ => (x, Ret None)
  end.

(** *** [Task]: streams coming and going *)

(** [sender.send(..)] on a one-shot channel, its result as [is_ok()]. *)
Definition send_stream_shot (sender : nat) (v : option MuxStream) : M bool := fun x =>
  match mx_streams_shots x !! sender with
  | None => (x, Ret false)
  | Some o =>
      let '(o', ok) := shot_send v o in
      (set_shots x (<[sender := o']> (mx_streams_shots x)) (mx_bind_shots x) (mx_next_shot x), Ret ok)
  end.

Definition send_bind_shot (sender : nat) (v : bool) : M bool := fun x =>
  match mx_bind_shots x !! sender with
  | None => (x, Ret false)
  | Some o =>
      let '(o', ok) := shot_send v o in
      (set_shots x (mx_streams_shots x) (<[sender := o']> (mx_bind_shots x)) (mx_next_shot x), Ret ok)
  end.

(** [close_port_local] on a slot already out of the table. *)
Definition close_port_local (removed : FlowSlot) (flow_id : Z) (inhibit_rst : bool) : M unit :=
  match removed with
  | Established stream_data =>
      finish_sent ← disallow_write stream_data;
      _ ← (if negb finish_sent && negb inhibit_rst
           then _ ← send_frame (new_reset flow_id); mret tt else mret tt);
      _ ← disallow_read stream_data;
      mret tt
  | Requested sender => _ ← send_stream_shot sender None; mret tt
  | BindRequested sender => _ ← send_bind_shot sender false; mret tt
  end.

Definition close_port (flow_id : Z) (inhibit_rst : bool) : M unit :=
  value ← remove_flow flow_id;
  match value with
  | Some removed => close_port_local removed flow_id inhibit_rst
  | None => mret tt
  end.

(** [new_stream_shared]: [mpsc::channel] panics on a zero capacity. *)
Definition new_stream_shared (flow_id peer_rwnd : Z) (dest_host : bytes) (dest_port : Z)
  : M (MuxStream * EstablishedStreamData) := fun x =>
  if mx_rwnd x =? 0 then (x, Panicked)
  else
    let cell := mx_next_cell x in
    let shared := MkShared (channel (Z.to_nat (mx_rwnd x))) false peer_rwnd new_waker in
    let stream :=
      MkMuxStream cell flow_id dest_host dest_port 0 [] (Z.min (mx_default_rwnd_threshold x) peer_rwnd) in
    (set_cells x (<[cell := shared]> (mx_cells x)) (Datatypes.S cell), Ret (stream, MkEsd true cell)).

(** [con_recv_stream_tx.send(stream).await]: waits while the queue is full. *)
Definition send_to_user (stream : MuxStream) : M unit := fun x =>
  let '(q, e) := try_send stream (mx_con_recv x) in
  match e with
  | None => (set_queues x q (mx_datagrams x) (mx_bnd x), Ret tt)
  | Some TrySendFull => (x, Parked (OnStreamQueue stream))
  | Some TrySendClosed => (_ ← drop_stream stream; throw SendStreamToClient) x
  end.

Definition con_recv_new_stream (flow_id : Z) (dest_host : bytes) (dest_port peer_rwnd : Z) : M unit :=
  x ← get;
  if decide (is_Some (mx_flows x !! flow_id)) then
    _ ← send_frame (new_reset flow_id); mret tt
  else
    '(stream, stream_data) ← new_stream_shared flow_id peer_rwnd dest_host dest_port;
    _ ← put_flow flow_id (Established stream_data);
    sent ← send_frame (new_acknowledge flow_id (mx_rwnd x));
    if (sent : bool) then send_to_user stream else (_ ← drop_stream stream; throw Closed).

Definition ack_recv_new_stream (flow_id peer_rwnd : Z) : M unit :=
  '(stream, stream_data) ← new_stream_shared flow_id peer_rwnd [] 0;
  x ← get;
  match mx_flows x !! flow_id with
  | None => _ ← drop_stream stream; _ ← disallow_read stream_data; throw ConnAckGone
  | Some slot =>
      match establish slot stream_data with
      | None => _ ← drop_stream stream; _ ← disallow_read stream_data; throw ConnAckGone
      | Some (slot', sender) =>
          _ ← put_flow flow_id slot';
          ok ← send_stream_shot sender (Some stream);
          if (ok : bool) then mret tt else (_ ← drop_stream stream; throw SendStreamToClient)
      end
  end.

(** *** [Task]: frames and messages *)

(** Dropping a [BindRequest] and the user's [reply]. *)
Definition bind_reply (r : BindRequest) (accepted : bool) : M unit :=
  sent ← (if accepted then send_frame (new_finish (br_flow_id r)) else send_frame (new_reset (br_flow_id r)));
  if (sent : bool) then mret tt else throw Closed.

Definition bind_drop (r : BindRequest) : M unit := fun x =>
  match bind_reply r false x with
  | (x', Fail _) => (x', Ret tt)
  | other => other
  end.

(** [sender.send(request).await] of a bind request: a closed queue drops it. *)
Definition send_bind_request (r : BindRequest) : M unit := fun x =>
  match mx_bnd x with
  | None => (x, Ret tt)
  | Some q =>
      let '(q', e) := try_send r q in
      match e with
      | None => (set_queues x (mx_con_recv x) (mx_datagrams x) (Some q'), Ret tt)
      | Some TrySendFull => (x, Parked (OnBindQueue r))
      | Some TrySendClosed => bind_drop r x
      end
  end.

Definition process_frame (frame : Frame) (ignore_bind : bool) : M unit :=
  let flow_id := frame_id frame in
  let send_rst := _ ← send_frame (new_reset flow_id); mret tt in
  match frame_payload frame with
  | Connect c =>
      con_recv_new_stream flow_id (cow_into_owned (con_target_host c)) (con_target_port c) (con_rwnd c)
  | Acknowledge payload =>
      x ← get;
      match mx_flows x !! flow_id with
      | Some (Established stream_data) => acknowledge stream_data payload
      | Some (Requested _) => ack_recv_new_stream flow_id payload
      | Some (BindRequested _) => send_rst
      | None => send_rst
      end
  | Finish =>
      x ← get;
      match mx_flows x !! flow_id with
      | None => send_rst
      | Some (BindRequested sender) =>
          _ ← remove_flow flow_id;
          _ ← send_bind_shot sender true;
          mret tt
      | Some (Requested sender) =>
          _ ← remove_flow flow_id;
          _ ← modify (fun x => set_shots x (alter shot_tx_drop sender (mx_streams_shots x))
                                 (mx_bind_shots x) (mx_next_shot x));
          send_rst
      | Some (Established stream_data) =>
          data' ← disallow_read stream_data;
          put_flow flow_id (Established data')
      end
  | Reset => close_port flow_id true
  | Push data =>
      x ← get;
      result ← match mx_flows x !! flow_id with
               | Some slot => dispatch slot (cow_into_owned data)
               | None => mret None
               end;
      match result with
      | Some None => mret tt
      | Some (Some TrySendFull) => close_port flow_id false
      | Some (Some TrySendClosed) => mret tt
      | None => send_rst
      end
  | Bind payload =>
      x ← get;
      match mx_bnd x with
      | Some _ =>
          if ignore_bind then mret tt
          else send_bind_request (MkBindRequest flow_id payload)
      | None => send_rst
      end
  | Datagram payload =>
      x ← get;
      let datagram :=
        MkMuxDatagram flow_id (cow_into_owned (dgm_target_host payload)) (dgm_target_port payload)
          (cow_into_owned (dgm_data payload)) in
      let '(q, e) := try_send datagram (mx_datagrams x) in
      match e with
      | None => modify (fun x => set_queues x (mx_con_recv x) q (mx_bnd x))
      | Some TrySendFull => mret tt
      | Some TrySendClosed => throw Closed
      end
  end.

Definition process_message (msg : Message) (ignore_bind : bool) : M bool :=
  match msg with
  | MsgBinary data =>
      frame ← lift (map_err InvalidFrame (frame_try_from data));
      _ ← process_frame frame ignore_bind;
      mret false
  | MsgPing | MsgPong => mret false
  | MsgClose => mret true
  end.

(** *** [Task]: the three loops

    The loops run under [select!] and may be left waiting at every [await].
    [polls] bounds how often one [await] is polled and [fuel] how many rounds a
    loop makes before the task yields; in both cases the outcome is [Parked],
    as it is when a poll stays pending. *)

(** [poll_fn(|cx| self.ws.lock().p(cx)).await]. *)
Fixpoint ws_await {A} (polls : nat) (p : S -> S * poll A) : M A :=
  match polls with
  | 0%nat => park OnWebSocket
  | Datatypes.S polls' => fun x =>
      let '(ws, r) := p (mx_ws x) in
      match r with
      | Ready a => (set_ws x ws, Ret a)
      | Pending => ws_await polls' p (set_ws x ws)
      end
  end.

Definition ws_start_send_m (m : Message) : M (res Error unit) := fun x =>
  let '(ws, r) := ws_start_send m (mx_ws x) in (set_ws x ws, Ret r).

Fixpoint process_dropped_ports_task (fuel : nat) : M unit :=
  match fuel with
  | 0%nat => park OnQueue
  | Datatypes.S fuel' => fun x =>
      let '(q, r) := poll_recv (mx_dropped_ports x) in
      let x := set_dropped x q in
      match r with
      | Pending => (x, Parked OnQueue)
      | Ready None => (x, Fail (ChannelClosed (bytes_of_string "dropped_ports_rx")))
      | Ready (Some flow_id) =>
          if flow_id =? 0 then (x, Ret tt)
          else (_ ← close_port flow_id false; process_dropped_ports_task fuel') x
      end
  end.

Definition poll_reserve_space_recv_frame : M (poll unit) := fun x =>
  let '(ws, ready) := ws_poll_ready (mx_ws x) in
  let x := set_ws x ws in
  match ready with
  | Pending => (x, Ret Pending)
  | Ready (Err e) => (x, Fail e)
  | Ready Panic => (x, Panicked)
  | Ready (Ok _) =>
      let '(q, r) := poll_recv (mx_tx_frame x) in
      let x := set_tx x q in
      match r with
      | Pending => (x, Ret Pending)
      | Ready None => (x, Fail (ChannelClosed (bytes_of_string "frame_rx")))
      | Ready (Some frame) =>
          (r ← ws_start_send_m (MsgBinary frame); _ ← lift r; mret (Ready tt)) x
      end
  end.

(** One list element per round: whether the keepalive interval has ticked when
    the frame branch is pending. *)
Fixpoint process_frame_recv_task (polls : nat) (ticks : list bool) : M unit :=
  match ticks with
  | [] => park OnQueue
  | tick :: ticks' =>
      r ← poll_reserve_space_recv_frame;
      _ ← match r with
          | Ready _ => mret tt
          | Pending =>
              if tick then
                ready ← ws_await polls ws_poll_ready;
                _ ← lift ready;
                r ← ws_start_send_m MsgPing;
                lift r
              else park OnQueue
          end;
      flushed ← ws_await polls ws_poll_flush;
      _ ← lift flushed;
      process_frame_recv_task polls ticks'
  end.

Fixpoint process_ws_next (polls fuel : nat) : M unit :=
  match fuel with
  | 0%nat => park OnWebSocket
  | Datatypes.S fuel' =>
      m ← ws_await polls ws_poll_next;
      match m with
      | None => mret tt
      | Some m =>
          msg ← lift m;
          closed ← process_message msg false;
          if (closed : bool) then mret tt else process_ws_next polls fuel'
      end
  end.

(** *** [Task]: winding down *)

Fixpoint for_each {A} (f : A -> M unit) (l : list A) : M unit :=
  match l with
  | [] => mret tt
  | a :: l' => _ ← f a; for_each f l'
  end.

(** Send what is left on the frame queue; an error of the sink ends it. *)
Fixpoint drain_frames (polls fuel : nat) : M unit :=
  match fuel with
  | 0%nat => park OnQueue
  | Datatypes.S fuel' => fun x =>
      let '(q, r) := poll_recv (mx_tx_frame x) in
      let x := set_tx x q in
      match r with
      | Pending => (x, Parked OnQueue)
      | Ready None => (x, Ret tt)
      | Ready (Some frame) =>
          (ready ← ws_await polls ws_poll_ready;
           r ← match ready with Ok _ => ws_start_send_m (MsgBinary frame) | other => mret other end;
           match r with Ok _ => drain_frames polls fuel' | Err _ => mret tt | Panic => lift Panic end) x
      end
  end.

(** Process what the peer sent before the close took effect. *)
Fixpoint drain_source (polls fuel : nat) : M unit :=
  match fuel with
  | 0%nat => park OnWebSocket
  | Datatypes.S fuel' =>
      m ← ws_await polls ws_poll_next;
      match m with
      | Some (Ok msg) => _ ← process_message msg true; drain_source polls fuel'
      | Some Panic => lift Panic
      | _ => mret tt
      end
  end.

Definition disallow_write_slot (entry : Z * FlowSlot) : M unit :=
  match entry.2 with
  | Established stream_data => _ ← disallow_write stream_data; mret tt
  | _ => mret tt
  end.

(** [flows.write().drain().for_each(..)]. *)
Definition drain_flows : M unit :=
  x ← get;
  _ ← modify (fun x => set_flows x ∅);
  for_each (fun entry => close_port_local entry.2 entry.1 true) (map_to_list (mx_flows x)).

(** The [yield_now] in the middle lets other tasks run; it changes nothing. *)
Definition wind_down (polls fuel : nat) (should_drain_frame_rx : bool) : M unit :=
  x ← get;
  _ ← for_each disallow_write_slot (map_to_list (mx_flows x));
  _ ← modify (fun x => set_tx x (rx_close (mx_tx_frame x)));
  _ ← (if should_drain_frame_rx then drain_frames polls fuel else mret tt);
  _ ← ws_await polls ws_poll_close;
  _ ← drain_source polls fuel;
  drain_flows.

(** *** [Task::start] *)

(** The branch of the [select!] that finishes first. *)
Inductive select_branch :=
| DroppedPortsBranch
| FrameRecvBranch (ticks : list bool)
| WsNextBranch.

Definition run_branch (polls fuel : nat) (br : select_branch) : M unit :=
  match br with
  | DroppedPortsBranch => process_dropped_ports_task fuel
  | FrameRecvBranch ticks => process_frame_recv_task polls ticks
  | WsNextBranch => process_ws_next polls fuel
  end.

(** A branch that did not finish is dropped where it waits. *)
Definition cancel (p : pending) : M unit :=
  match p with
  | OnStreamQueue s => drop_stream s
  | OnBindQueue r => bind_drop r
  | _ => mret tt
  end.

(** Returning from [start] drops the [Task] and its ends of the channels. *)
Definition task_exit (x : Mux) : Mux :=
  set_dropped
    (set_tx
       (set_queues x (tx_drop (mx_con_recv x)) (tx_drop (mx_datagrams x)) (option_map tx_drop (mx_bnd x)))
       (rx_drop (mx_tx_frame x)))
    (rx_drop (mx_dropped_ports x)).

(** What [start] does once a branch has finished: the other branches are
    dropped, then everything is wound down. *)
Definition after_select (polls fuel : nat) (br : select_branch) (others : list pending) : M unit :=
  _ ← for_each cancel others;
  wind_down polls fuel (match br with DroppedPortsBranch => true | _ => false end).

Definition start (polls fuel : nat) (br : select_branch) (others : list pending) : M unit := fun x =>
  let '(x1, r) := run_branch polls fuel br x in
  match r with
  | Ret _ | Fail _ =>
      let '(x2, w) := after_select polls fuel br others x1 in
      match w with
      | Ret _ => (task_exit x2, r)
      | Fail e => (task_exit x2, Fail e)
      | other => (x2, other)
      end
  | other => (x1, other)
  end.

(** *** [Multiplexor] *)

Definition mux_new (ws : S) (options : option Options) : res unit Mux :=
  let options := default options_new options in
  let mpsc_channel (n : Z) := if n =? 0 then Panic else Ok (Z.to_nat n) in
  datagram ← mpsc_channel (opt_datagram_buffer_size options);
  con_recv ← mpsc_channel (opt_stream_buffer_size options);
  let bnd := if 0 <? opt_bind_buffer_size options
             then Some (channel (Z.to_nat (opt_bind_buffer_size options))) else None in
  Ok (MkMux ∅ ∅ 0 ∅ ∅ 0 unbounded_channel unbounded_channel (channel con_recv) (channel datagram) bnd ws
        (opt_rwnd options) (opt_default_rwnd_threshold options)
        (Z.to_nat (opt_max_flow_id_retries options))).

(** One round of [new_stream_channel] up to its [await]: the index of the
    one-shot channel it waits on.  The channel and the draw of the identifier
    do not depend on each other; while the supply of draws has no free
    identifier the call stays in the generator's loop. *)
Definition new_stream_attempt (draws : list Z) (host : bytes) (port : Z) : M nat :=
  x ← get;
  let shot := mx_next_shot x in
  match next_available_key draws (mx_flows x) with
  | None => park OnQueue
  | Some flow_id =>
      _ ← modify (fun x => set_shots x (<[shot := oneshot]> (mx_streams_shots x)) (mx_bind_shots x)
                             (Datatypes.S shot));
      _ ← put_flow flow_id (Requested shot);
      sent ← send_frame (new_connect host port flow_id (mx_rwnd x));
      if (sent : bool) then mret shot
      else
        _ ← modify (fun x => set_shots x (alter shot_rx_drop shot (mx_streams_shots x)) (mx_bind_shots x)
                               (mx_next_shot x));
        throw Closed
  end.

(** [stream_rx.await], its answer taken out of the channel. *)
Definition await_stream_shot (retries shot : nat) : M (option MuxStream) := fun x =>
  match mx_streams_shots x !! shot with
  | None => (x, Fail Closed)
  | Some o =>
      match shot_recv o with
      | Pending => (x, Parked (OnShot retries shot))
      | Ready None => (x, Fail Closed)
      | Ready (Some v) =>
          (set_shots x (alter shot_rx_drop shot (mx_streams_shots x)) (mx_bind_shots x) (mx_next_shot x), Ret v)
      end
  end.

(** [meanwhile] is what everything else does while the call waits. *)
Fixpoint new_stream_loop (retries : nat) (draws : nat -> list Z) (meanwhile : Mux -> Mux)
    (host : bytes) (port : Z) : M MuxStream :=
  match retries with
  | 0%nat => throw FlowIdRejected
  | Datatypes.S retries' =>
      shot ← new_stream_attempt (draws retries') host port;
      _ ← modify meanwhile;
      stream ← await_stream_shot retries' shot;
      match stream with
      | Some s => mret s
      | None => new_stream_loop retries' draws meanwhile host port
      end
  end.

Definition new_stream_channel (draws : nat -> list Z) (meanwhile : Mux -> Mux) (host : bytes) (port : Z)
  : M MuxStream :=
  x ← get; new_stream_loop (mx_max_flow_id_retries x) draws meanwhile host port.

(** Dropping the future of [new_stream_channel] while it waits; a stream that
    was already sent goes with the channel. *)
Definition cancel_new_stream (shot : nat) : M unit := fun x =>
  let x' := set_shots x (alter shot_rx_drop shot (mx_streams_shots x)) (mx_bind_shots x) (mx_next_shot x) in
  match mx_streams_shots x !! shot with
  | Some o => match shot_recv o with
              | Ready (Some (Some s)) => drop_stream s x'
              | _ => (x', Ret tt)
              end
  | None => (x', Ret tt)
  end.

Definition recv_or_closed {A} (r : poll (option A)) : outcome A :=
  match r with Ready (Some a) => Ret a | Ready None => Fail Closed | Pending => Parked OnQueue end.

Definition accept_stream_channel : M MuxStream := fun x =>
  let '(q, r) := poll_recv (mx_con_recv x) in
  (set_queues x q (mx_datagrams x) (mx_bnd x), recv_or_closed r).

Definition get_datagram : M MuxDatagram := fun x =>
  let '(q, r) := poll_recv (mx_datagrams x) in
  (set_queues x (mx_con_recv x) q (mx_bnd x), recv_or_closed r).

Definition next_bind_request : M BindRequest := fun x =>
  match mx_bnd x with
  | None => (x, Fail UnsupportedOperation)
  | Some q => let '(q', r) := poll_recv q in
              (set_queues x (mx_con_recv x) (mx_datagrams x) (Some q'), recv_or_closed r)
  end.

Definition send_datagram (datagram : MuxDatagram) : M unit :=
  if 255 <? blen (dg_target_host datagram) then throw DatagramHostTooLong
  else
    sent ← send_frame (new_datagram_owned (dg_flow_id datagram) (dg_target_host datagram)
                         (dg_target_port datagram) (dg_data datagram));
    if (sent : bool) then mret tt else throw Closed.

(** [result_rx.await]. *)
Definition await_bind_shot (shot : nat) : M bool := fun x =>
  match mx_bind_shots x !! shot with
  | None => (x, Fail Closed)
  | Some o =>
      match shot_recv o with
      | Pending => (x, Parked (OnShot 0 shot))
      | Ready None => (x, Fail Closed)
      | Ready (Some accepted) =>
          (set_shots x (mx_streams_shots x) (alter shot_rx_drop shot (mx_bind_shots x)) (mx_next_shot x),
           Ret accepted)
      end
  end.

(** [request_bind] up to its [await]. *)
Definition request_bind_attempt (draws : list Z) (host : bytes) (port : Z) (bind_type : BindType) : M nat :=
  x ← get;
  let shot := mx_next_shot x in
  match next_available_key draws (mx_flows x) with
  | None => park OnQueue
  | Some flow_id =>
      _ ← modify (fun x => set_shots x (mx_streams_shots x) (<[shot := oneshot]> (mx_bind_shots x))
                             (Datatypes.S shot));
      _ ← put_flow flow_id (BindRequested shot);
      sent ← send_frame (new_bind flow_id bind_type host port);
      if (sent : bool) then mret shot
      else
        _ ← modify (fun x => set_shots x (mx_streams_shots x) (alter shot_rx_drop shot (mx_bind_shots x))
                               (mx_next_shot x));
        throw Closed
  end.

Definition request_bind (draws : list Z) (meanwhile : Mux -> Mux) (host : bytes) (port : Z) (bind_type : BindType)
  : M bool :=
  shot ← request_bind_attempt draws host port bind_type;
  _ ← modify meanwhile;
  await_bind_shot shot.

(** [Drop for Multiplexor], then its fields: the streams still queued for the
    user are dropped with the receiving end, and so are bind requests. *)
Definition mux_drop : M unit :=
  _ ← modify (fun x => set_dropped x (try_send 0 (mx_dropped_ports x)).1);
  x ← get;
  _ ← modify (fun x => set_queues x (rx_drop (mx_con_recv x)) (rx_drop (mx_datagrams x)) (option_map rx_drop (mx_bnd x)));
  _ ← for_each drop_stream (queue (mx_con_recv x));
  match mx_bnd x with
  | Some q => for_each bind_drop (queue q)
  | None => mret tt
  end.

End Mux.

Arguments Mux : clear implicits.
Arguments outcome : clear implicits.
Arguments Ret {A} _.
Arguments Fail {A} _.
Arguments Panicked {A}.
Arguments Parked {A} _.

(** *** A WebSocket in memory

    What the peer will still say, and what was sent to it. *)
Record MemWs := MkMemWs { mw_in : list (res Error Message); mw_out : list Message }.

#[export] Instance mem_ws : WebSocket MemWs := {
  ws_poll_ready w := (w, Ready (Ok tt));
  ws_start_send m w := (MkMemWs (mw_in w) (mw_out w ++ [m]), Ok tt);
  ws_poll_flush w := (w, Ready (Ok tt));
  ws_poll_close w := (w, Ready (Ok tt));
  ws_poll_next w := match mw_in w with
                    | [] => (w, Ready None)
                    | m :: rest => (MkMemWs rest (mw_out w), Ready (Some m))
                    end;
}.
