(* ===== verification/MuxInv.v ===== *)
(** * Invariant of the multiplexor

    Three kinds of resources hang off the flow table: the cells behind streams
    and the one-shot channels of pending [Connect] and [Bind] requests.  Each
    is owned by at most one slot and is resolved as soon as no slot owns it:
    an unowned cell answers end of file and [BrokenPipe], an unowned one-shot
    channel has an answer or lost a half.  [Table] is the generic part, [mux_wf]
    the invariant, and the rest of the file shows that every operation of
    [Mux.v] keeps it. *)

From S2P Require Import Prelude Runtime Frame Timing Config Stream Mux.

(** ** Ownership tables *)

Section Table.
Context {R : Type} (own : FlowSlot -> option nat) (live : FlowSlot -> R -> Prop) (resolved : R -> Prop).

(** The slots of [flows] own entries of [heap], injectively; what no slot owns
    is resolved; indices from [next] on are free. *)
Record table_wf (flows : gmap Z FlowSlot) (heap : gmap nat R) (next : nat) : Prop := {
  tw_owned : forall id slot n, flows !! id = Some slot -> own slot = Some n ->
    exists r, heap !! n = Some r /\ live slot r;
  tw_inj : forall id1 id2 s1 s2 n, flows !! id1 = Some s1 -> flows !! id2 = Some s2 ->
    own s1 = Some n -> own s2 = Some n -> id1 = id2;
  tw_orphan : forall n r, heap !! n = Some r ->
    (exists id slot, flows !! id = Some slot /\ own slot = Some n) \/ resolved r;
  tw_fresh : forall n, is_Some (heap !! n) -> (n < next)%nat;
}.

Lemma table_empty : table_wf ∅ ∅ 0.
Proof. split; intros *; rewrite ?lookup_empty; try easy. intros [? [=]]. Qed.

(** A slot that owns nothing can come and go freely. *)
Lemma table_insert_none flows heap next id slot :
  own slot = None -> flows !! id = None -> table_wf flows heap next ->
  table_wf (<[id := slot]> flows) heap next.
Proof.
  intros Hs Hid []. split; [| | |easy].
  - intros i s n [[<- <-]|[Hne Hi]]%lookup_insert_Some Hn; [congruence|eauto].
  - intros i1 i2 s1 s2 n [[<- <-]|[Hne1 H1]]%lookup_insert_Some [[<- <-]|[Hne2 H2]]%lookup_insert_Some Hn1 Hn2;
      [congruence..|eauto].
  - intros n r Hr. destruct (tw_orphan0 n r Hr) as [(i & s & Hi & Hn)|]; [left|auto].
    exists i, s. split; [|easy]. rewrite lookup_insert_ne; congruence.
Qed.

Lemma table_delete_none flows heap next id slot :
  own slot = None -> flows !! id = None -> table_wf (<[id := slot]> flows) heap next ->
  table_wf flows heap next.
Proof.
  intros Hs Hid []. split; [| | |easy].
  - intros i s n Hi. apply (tw_owned0 i). rewrite lookup_insert_ne; congruence.
  - intros i1 i2 s1 s2 n H1 H2. apply (tw_inj0 i1 i2 s1 s2 n); rewrite lookup_insert_ne; congruence.
  - intros n r Hr. destruct (tw_orphan0 n r Hr) as [(i & s & [[<- <-]|[Hne Hi]]%lookup_insert_Some & Hn)|];
      [congruence|left; eauto|auto].
Qed.

(** A new entry owned by a new slot. *)
Lemma table_insert_new flows heap next id slot r :
  own slot = Some next -> live slot r -> flows !! id = None -> table_wf flows heap next ->
  table_wf (<[id := slot]> flows) (<[next := r]> heap) (S next).
Proof.
  intros Hs Hr Hid [].
  assert (Hnew : heap !! next = None).
  { destruct (heap !! next) eqn:He; [|easy]. specialize (tw_fresh0 next (mk_is_Some _ _ He)). lia. }
  assert (Hne : forall i s, flows !! i = Some s -> own s <> Some next).
  { intros i s Hi Ho. destruct (tw_owned0 i s next Hi Ho) as (? & ? & ?). congruence. }
  split.
  - intros i s n [[<- <-]|[Hi Hf]]%lookup_insert_Some Hn.
    + exists r. assert (n = next) as -> by congruence. now rewrite lookup_insert_eq.
    + destruct (tw_owned0 i s n Hf Hn) as (r' & ? & ?). exists r'. rewrite lookup_insert_ne by congruence. easy.
  - intros i1 i2 s1 s2 n [[<- <-]|[? H1]]%lookup_insert_Some [[<- <-]|[? H2]]%lookup_insert_Some Hn1 Hn2;
      [easy|destruct (Hne i2 s2 H2); congruence|destruct (Hne i1 s1 H1); congruence|eauto].
  - intros n r' [[<- <-]|[? Hn]]%lookup_insert_Some.
    + left. exists id, slot. now rewrite lookup_insert_eq.
    + destruct (tw_orphan0 n r' Hn) as [(i & s & Hi & ?)|]; [left|auto].
      exists i, s. rewrite lookup_insert_ne by congruence. easy.
  - intros n [r' [[<- <-]|[? Hn]]%lookup_insert_Some]; [lia|].
    specialize (tw_fresh0 n (mk_is_Some _ _ Hn)). lia.
Qed.

(** A new entry that nobody will own. *)
Lemma table_insert_resolved flows heap next r :
  resolved r -> table_wf flows heap next -> table_wf flows (<[next := r]> heap) (S next).
Proof.
  intros Hr [].
  assert (Hnew : heap !! next = None).
  { destruct (heap !! next) eqn:He; [|easy]. specialize (tw_fresh0 next (mk_is_Some _ _ He)). lia. }
  split; [|easy| |].
  - intros i s n Hf Hn. destruct (tw_owned0 i s n Hf Hn) as (r' & ? & ?). exists r'.
    rewrite lookup_insert_ne by congruence. easy.
  - intros n r' [[<- <-]|[? Hn]]%lookup_insert_Some; [auto|eauto].
  - intros n [r' [[<- <-]|[? Hn]]%lookup_insert_Some]; [lia|].
    specialize (tw_fresh0 n (mk_is_Some _ _ Hn)). lia.
Qed.

(** Giving up a slot: its entry must be resolved at once. *)
Lemma table_delete flows heap next id slot n r :
  own slot = Some n -> resolved r -> flows !! id = None -> table_wf (<[id := slot]> flows) heap next ->
  table_wf flows (<[n := r]> heap) next.
Proof.
  intros Hs Hr Hid [].
  destruct (tw_owned0 id slot n (lookup_insert_eq _ _ _) Hs) as (r0 & Hn0 & _).
  assert (Hin : forall i s, flows !! i = Some s -> <[id := slot]> flows !! i = Some s).
  { intros i s Hi. rewrite lookup_insert_ne; congruence. }
  assert (Hne : forall i s m, flows !! i = Some s -> own s = Some m -> m <> n).
  { intros i s m Hi Ho ->. assert (i = id) as -> by exact (tw_inj0 i id s slot n (Hin i s Hi) (lookup_insert_eq _ _ _) Ho Hs). congruence. }
  split.
  - intros i s m Hi Ho. destruct (tw_owned0 i s m (Hin i s Hi) Ho) as (r' & ? & ?). exists r'.
    rewrite lookup_insert_ne by (symmetry; eauto). easy.
  - intros i1 i2 s1 s2 m H1 H2. apply tw_inj0; auto.
  - intros m r' [[<- <-]|[? Hm]]%lookup_insert_Some; [auto|].
    destruct (tw_orphan0 m r' Hm) as [(i & s & [[<- <-]|[? Hi]]%lookup_insert_Some & Ho)|]; [congruence|left; eauto|auto].
  - intros m [r' [[<- <-]|[? Hm]]%lookup_insert_Some]; eauto.
Qed.

(** Changing the slot in place, with its entry. *)
Lemma table_update flows heap next id slot slot' n r :
  own slot = Some n -> own slot' = Some n -> live slot' r -> flows !! id = Some slot -> table_wf flows heap next ->
  table_wf (<[id := slot']> flows) (<[n := r]> heap) next.
Proof.
  intros Hs Hs' Hr Hid [].
  destruct (tw_owned0 id slot n Hid Hs) as (r0 & Hn0 & _).
  assert (Hne : forall i s, flows !! i = Some s -> i <> id -> own s <> Some n).
  { intros i s Hi Hd Ho. destruct Hd. eauto. }
  split.
  - intros i s m [[<- <-]|[? Hi]]%lookup_insert_Some Hn.
    + exists r. assert (m = n) as -> by congruence. now rewrite lookup_insert_eq.
    + destruct (tw_owned0 i s m Hi Hn) as (r' & ? & ?). exists r'. rewrite lookup_insert_ne; [easy|].
      intros ->. now apply (Hne i s).
  - intros i1 i2 s1 s2 m [[<- <-]|[? H1]]%lookup_insert_Some [[<- <-]|[? H2]]%lookup_insert_Some Hn1 Hn2;
      [easy|destruct (Hne i2 s2 H2); congruence|destruct (Hne i1 s1 H1); congruence|eauto].
  - intros m r' [[<- <-]|[? Hm]]%lookup_insert_Some.
    + left. exists id, slot'. now rewrite lookup_insert_eq.
    + destruct (tw_orphan0 m r' Hm) as [(i & s & Hi & ?)|]; [left|auto].
      destruct (decide (i = id)) as [->|]; [|exists i, s; rewrite lookup_insert_ne by congruence; easy].
      congruence.
  - intros m [r' [[<- <-]|[? Hm]]%lookup_insert_Some]; eauto.
Qed.

(** An update of one entry that keeps what its owner, or its orphanhood,
    says about it. *)
Lemma table_heap flows heap next n r r' :
  heap !! n = Some r -> (forall slot, live slot r -> live slot r') -> (resolved r -> resolved r') ->
  table_wf flows heap next -> table_wf flows (<[n := r']> heap) next.
Proof.
  intros Hn Hl Hr []. split; [|easy| |].
  - intros i s m Hi Ho. destruct (tw_owned0 i s m Hi Ho) as (x & Hx & ?).
    destruct (decide (m = n)) as [->|]; [|exists x; rewrite lookup_insert_ne by easy; easy].
    exists r'. rewrite lookup_insert_eq. split; [easy|]. apply Hl. congruence.
  - intros m x [[<- <-]|[? Hm]]%lookup_insert_Some; [|eauto].
    destruct (tw_orphan0 n r Hn); auto.
  - intros m [x [[<- <-]|[? Hm]]%lookup_insert_Some]; eauto.
Qed.

Lemma table_alter flows heap next n f :
  (forall r slot, live slot r -> live slot (f r)) -> (forall r, resolved r -> resolved (f r)) ->
  table_wf flows heap next -> table_wf flows (alter f n heap) next.
Proof.
  intros Hl Hr Hwf. destruct (heap !! n) as [r|] eqn:Hn.
  - replace (alter f n heap) with (<[n := f r]> heap); [now apply (table_heap _ _ _ _ r); auto|].
    apply map_eq. intros m. destruct (decide (n = m)) as [<-|].
    + now rewrite lookup_insert_eq, lookup_alter_eq, Hn.
    + now rewrite lookup_insert_ne, lookup_alter_ne.
  - replace (alter f n heap) with heap; [easy|]. symmetry. apply map_eq. intros m.
    destruct (decide (n = m)) as [<-|]; [now rewrite lookup_alter_eq, Hn|now rewrite lookup_alter_ne].
Qed.

End Table.

Lemma table_next {R} own live resolved flows (heap : gmap nat R) next next' :
  (next <= next')%nat -> table_wf own live resolved flows heap next ->
  table_wf own live resolved flows heap next'.
Proof. intros Hle []. split; try easy. intros n Hn. specialize (tw_fresh0 n Hn). lia. Qed.

(** ** The invariant *)

Definition slot_cell (s : FlowSlot) : option nat :=
  match s with Established d => Some (esd_cell d) | _ => None end.
Definition slot_shot (s : FlowSlot) : option nat :=
  match s with Requested n => Some n | _ => None end.
Definition slot_bind (s : FlowSlot) : option nat :=
  match s with BindRequested n => Some n | _ => None end.

Section Inv.
Context {C : Type -> Type} `{!Mpsc C} {O : Type -> Type} `{!Oneshot O}
    {W : Type} `{!Waker W} {S : Type} `{!WebSocket S}.

#[local] Abbreviation Mux := (Mux C O W S).

Definition cell_live (s : FlowSlot) (c : Shared C W) : Prop :=
  match s with Established d => tx_open (sh_frames c) = esd_sender d | _ => False end.

(** A cell no slot owns: its reader gets end of file, its writer [BrokenPipe]. *)
Definition cell_resolved (c : Shared C W) : Prop :=
  tx_open (sh_frames c) = false /\ sh_finish_sent c = true.

Definition cell_ok (rwnd : Z) (c : Shared C W) : Prop :=
  u32_ok (sh_psh_send_remaining c) /\ capacity (sh_frames c) = Some (Z.to_nat rwnd)
  /\ chan_bounded (chan_view (sh_frames c)).

(** A requester that still waits, or gave up. *)
Definition shot_live {A} (s : FlowSlot) (o : O A) : Prop :=
  shot_view o = ShotOpen \/ shot_view o = ShotRxDropped.

(** A requester that got its answer, or never will wait for one again. *)
Definition shot_resolved {A} (o : O A) : Prop := shot_view o <> ShotOpen.

Record wf_with (m : gmap Z FlowSlot) (x : Mux) : Prop := {
  wf_ids : map_Forall (fun id _ => u32_ok id) m;
  wf_cells : table_wf slot_cell cell_live cell_resolved m (mx_cells x) (mx_next_cell x);
  wf_shots : table_wf slot_shot shot_live shot_resolved m (mx_streams_shots x) (mx_next_shot x);
  wf_binds : table_wf slot_bind shot_live shot_resolved m (mx_bind_shots x) (mx_next_shot x);
  wf_cell_ok : map_Forall (fun _ c => cell_ok (mx_rwnd x) c) (mx_cells x);
  wf_params : 0 < mx_rwnd x < 2 ^ 32 /\ u32_ok (mx_default_rwnd_threshold x);
  wf_queues : capacity (mx_tx_frame x) = None /\ capacity (mx_dropped_ports x) = None;
}.

Definition mux_wf (x : Mux) : Prop := wf_with (mx_flows x) x.

(** A computation that keeps the invariant, whatever its outcome. *)
Definition preserves {A} (m : @M C O W S A) : Prop := forall x, mux_wf x -> mux_wf (m x).1.

(** The same for the parts of a slot's life during which the table is already
    changed: such a computation does not look at the table. *)
Definition preserves_with {A} (m1 m2 : gmap Z FlowSlot) (p : @M C O W S A) : Prop :=
  forall x, wf_with m1 x -> wf_with m2 (p x).1.

(** *** Composition *)

Lemma preserves_ret {A} (a : A) : preserves (mret a).
Proof. easy. Qed.

Lemma preserves_bind {A B} (m : @M C O W S A) (k : A -> @M C O W S B) :
  preserves m -> (forall a, preserves (k a)) -> preserves (mbind k m).
Proof.
  intros Hm Hk x Hx. unfold mbind, M_bind. specialize (Hm x Hx).
  destruct (m x) as [x' [a| | |]]; try easy. now apply Hk.
Qed.

Lemma bind_get {A} (k : Mux -> @M C O W S A) x : (mbind k get) x = k x x.
Proof. easy. Qed.

Lemma preserves_get : preserves get.
Proof. easy. Qed.

Lemma preserves_throw {A} e : preserves (@throw C O W S A e).
Proof. easy. Qed.

Lemma preserves_park {A} p : preserves (@park C O W S A p).
Proof. easy. Qed.

Lemma preserves_lift {A} r : preserves (@lift C O W S A r).
Proof. easy. Qed.

Lemma preserves_lift_ok {A B} (a : A) (k : A -> @M C O W S B) : preserves (k a) -> preserves (mbind k (lift (Ok a))).
Proof. easy. Qed.

Lemma preserves_for_each {A} (f : A -> @M C O W S unit) l : (forall a, preserves (f a)) -> preserves (for_each f l).
Proof.
  intros Hf. induction l as [|a l IH]; [apply preserves_ret|].
  apply preserves_bind; [apply Hf|]. intros _. apply IH.
Qed.

(** *** State changes the invariant does not see *)

Lemma wf_set_flows m m' x : wf_with m x -> wf_with m (set_flows x m').
Proof. intros []. now split. Qed.

Lemma wf_set_queues m x r d q : wf_with m x -> wf_with m (set_queues x r d q).
Proof. intros []. now split. Qed.

Lemma wf_set_ws m x w : wf_with m x -> wf_with m (set_ws x w).
Proof. intros []. now split. Qed.

Lemma wf_set_tx m x t : capacity t = None -> wf_with m x -> wf_with m (set_tx x t).
Proof. intros Ht [? ? ? ? ? ? []]. now split. Qed.

Lemma wf_set_dropped m x d : capacity d = None -> wf_with m x -> wf_with m (set_dropped x d).
Proof. intros Ht [? ? ? ? ? ? []]. now split. Qed.

(** A change of one cell that its owner cannot object to. *)
Definition cell_step (c c' : Shared C W) : Prop :=
  tx_open (sh_frames c') = tx_open (sh_frames c)
  /\ (sh_finish_sent c = true -> sh_finish_sent c' = true)
  /\ (u32_ok (sh_psh_send_remaining c) -> u32_ok (sh_psh_send_remaining c'))
  /\ capacity (sh_frames c') = capacity (sh_frames c)
  /\ (chan_bounded (chan_view (sh_frames c)) -> chan_bounded (chan_view (sh_frames c'))).

Lemma cell_step_ok rwnd c c' : cell_step c c' -> cell_ok rwnd c -> cell_ok rwnd c'.
Proof. intros (_ & _ & Hr & Hc & Hb) (? & ? & ?). split_and!; [auto|congruence|auto]. Qed.

Lemma cell_step_live s c c' : cell_step c c' -> cell_live s c -> cell_live s c'.
Proof. intros (Ht & _). destruct s; simpl; congruence. Qed.

Lemma cell_step_resolved c c' : cell_step c c' -> cell_resolved c -> cell_resolved c'.
Proof. intros (Ht & Hf & _) [? ?]. split; [congruence|auto]. Qed.

Lemma wf_set_cell m x n c c' :
  mx_cells x !! n = Some c -> cell_step c c' -> wf_with m x ->
  wf_with m (set_cells x (<[n := c']> (mx_cells x)) (mx_next_cell x)).
Proof.
  intros Hn Hs []. split; try easy.
  - eapply table_heap; [exact Hn|intros ?; apply cell_step_live, Hs|apply cell_step_resolved, Hs|easy].
  - apply map_Forall_insert_2; [|easy]. eapply cell_step_ok; [exact Hs|]. now apply (wf_cell_ok0 n).
Qed.

Lemma alter_as_insert {V} (heap : gmap nat V) n f :
  alter f n heap = match heap !! n with Some v => <[n := f v]> heap | None => heap end.
Proof.
  apply map_eq. intros k. destruct (decide (n = k)) as [<-|Hne].
  - rewrite lookup_alter_eq. destruct (heap !! n) eqn:He; simpl; [now rewrite lookup_insert_eq|now rewrite He].
  - rewrite lookup_alter_ne by easy. destruct (heap !! n); [|easy]. now rewrite lookup_insert_ne.
Qed.

Lemma wf_update_cell m n f : (forall c, cell_step c (f c)) -> preserves_with m m (update_cell n f).
Proof.
  intros Hf x Hx. unfold update_cell, modify. cbn [fst]. rewrite alter_as_insert.
  destruct (mx_cells x !! n) as [c|] eqn:Hn; [now apply (wf_set_cell _ _ _ c)|].
  destruct Hx. now split.
Qed.

(** *** Primitive operations *)

Lemma tx_send_capacity f (tx : C bytes) : capacity tx = None -> capacity (tx_send f tx).1 = None.
Proof.
  intros Hc. unfold tx_send. destruct (finalize f); [|easy..].
  pose proof (view_try_send _ a tx) as Hv. destruct (try_send a tx) as [tx' e]. cbn in *.
  rewrite Hv. now rewrite (proj2 (proj2 (spec_send_flags a (chan_view tx)))).
Qed.

Lemma wf_send_frame m f : preserves_with m m (send_frame f).
Proof.
  intros x Hx. unfold send_frame. pose proof (tx_send_capacity f (mx_tx_frame x) (proj1 (wf_queues _ _ Hx))) as Hc.
  destruct (tx_send f (mx_tx_frame x)) as [tx r]. now apply wf_set_tx.
Qed.

Lemma send_frame_flows f x : mx_flows (send_frame (C := C) (O := O) (W := W) (S := S) f x).1 = mx_flows x.
Proof. unfold send_frame. now destruct (tx_send _ _). Qed.

Lemma preserves_send_frame f : preserves (send_frame f).
Proof. intros x Hx. unfold mux_wf. rewrite send_frame_flows. now apply wf_send_frame. Qed.

Lemma preserves_update_cell n f : (forall c, cell_step c (f c)) -> preserves (update_cell n f).
Proof. intros Hf x Hx. now apply (wf_update_cell (mx_flows x)). Qed.

Lemma acknowledge_step n c : cell_step c (acknowledge_cell n c).
Proof. unfold cell_step; cbn. split_and!; try easy. intros _. apply wrapping_add32_ok. Qed.

Lemma disallow_write_step c : cell_step c (disallow_write_cell c).
Proof. unfold cell_step; cbn. split_and!; easy. Qed.

Lemma preserves_acknowledge d n : preserves (acknowledge d n).
Proof. apply preserves_update_cell. intros. apply acknowledge_step. Qed.

Lemma wf_disallow_write m d : preserves_with m m (disallow_write d).
Proof.
  intros x Hx. unfold disallow_write, mbind, M_bind.
  pose proof (wf_update_cell m (esd_cell d) _ disallow_write_step x Hx) as H.
  destruct (update_cell _ _ x) as [x' []]; exact H.
Qed.

Lemma preserves_disallow_write d : preserves (disallow_write d).
Proof. intros x Hx. apply (wf_disallow_write (mx_flows x) d x Hx). Qed.

Lemma send_step data c : cell_step c (set_frames c (try_send data (sh_frames c)).1).
Proof.
  unfold cell_step. cbn. rewrite view_try_send.
  destruct (spec_send_flags data (chan_view (sh_frames c))) as (_ & -> & ->).
  split_and!; try easy. apply spec_send_bounded.
Qed.

Lemma preserves_dispatch s data : preserves (dispatch s data).
Proof.
  intros x Hx. unfold dispatch. destruct s as [|d|]; try easy. destruct (esd_sender d); [|easy].
  destruct (mx_cells x !! esd_cell d) as [c|] eqn:Hc; [|easy].
  pose proof (send_step data c) as Hs. destruct (try_send data (sh_frames c)) as [fr e].
  now apply (wf_set_cell _ _ _ c).
Qed.

(** *** Stream objects *)

Definition ctx_step (c c' : Ctx C W) : Prop :=
  cell_step (cx_shared c) (cx_shared c')
  /\ (capacity (cx_tx c) = None -> capacity (cx_tx c') = None)
  /\ (capacity (cx_dropped c) = None -> capacity (cx_dropped c') = None).

Lemma wf_on_stream {A} m s (f : Ctx C W -> Ctx C W * A) :
  (forall c, ctx_step c (f c).1) -> preserves_with m m (on_stream s f).
Proof.
  intros Hf x Hx. unfold on_stream. destruct (mx_cells x !! ms_cell s) as [sh|] eqn:Hs; [|easy].
  set (c0 := MkCtx s sh (mx_tx_frame x) (mx_dropped_ports x)).
  destruct (Hf c0) as (H1 & H2 & H3). destruct (f c0) as [c a]. cbn in *.
  destruct (wf_queues _ _ Hx) as [Ht Hd].
  apply wf_set_dropped; [now apply H3|]. apply wf_set_tx; [now apply H2|]. now apply (wf_set_cell _ _ _ sh).
Qed.

Lemma on_stream_flows {A} s (f : Ctx C W -> Ctx C W * A) (x : Mux) :
  mx_flows (on_stream s f x).1 = mx_flows x.
Proof. unfold on_stream. destruct (mx_cells x !! ms_cell s); [|easy]. now destruct (f _). Qed.

Lemma preserves_on_stream {A} s (f : Ctx C W -> Ctx C W * A) :
  (forall c, ctx_step c (f c).1) -> preserves (on_stream s f).
Proof. intros Hf x Hx. unfold mux_wf. rewrite on_stream_flows. now apply wf_on_stream. Qed.

Lemma cell_step_refl c : cell_step c c.
Proof. unfold cell_step. now split_and!. Qed.

Lemma ctx_step_refl c : ctx_step c c.
Proof. split; [apply cell_step_refl|easy]. Qed.

Lemma ctx_step_trans a c d : ctx_step a c -> ctx_step c d -> ctx_step a d.
Proof.
  intros ((? & ? & ? & ? & ?) & ? & ?) ((? & ? & ? & ? & ?) & ? & ?).
  unfold ctx_step, cell_step. split_and!; try congruence; eauto.
Qed.

(** Only the frames of the cell changed, as a receiver's operation does. *)
Lemma frames_step c fr :
  tx_open fr = tx_open (sh_frames c) -> capacity fr = capacity (sh_frames c) ->
  (chan_bounded (chan_view (sh_frames c)) -> chan_bounded (chan_view fr)) ->
  cell_step c (set_frames c fr).
Proof. intros. unfold cell_step. now split_and!. Qed.

Lemma stream_drop_step c : ctx_step c (stream_drop c).
Proof.
  split; [|split; [easy|]].
  - apply frames_step; rewrite view_rx_drop; [easy..|]. unfold chan_bounded. cbn. destruct (cs_cap _); [lia|easy].
  - intros Hd. cbn. rewrite view_try_send. now rewrite (proj2 (proj2 (spec_send_flags _ _))).
Qed.

Lemma increment_step c : ctx_step c (increment_psh_recvd_since c).
Proof.
  unfold increment_psh_recvd_since. case_bool; [|split; [apply cell_step_refl|easy]].
  split; [apply cell_step_refl|split; [|easy]]. cbn. apply tx_send_capacity.
Qed.

Lemma poll_fill_buf_step c : ctx_step c (poll_fill_buf c).1.
Proof.
  unfold poll_fill_buf. destruct (ms_buf (cx_stream c)); [|apply ctx_step_refl].
  pose proof (view_poll_recv _ (sh_frames (cx_shared c))) as Hv.
  destruct (poll_recv (sh_frames (cx_shared c))) as [fr r]. cbn in Hv.
  assert (Hs : cell_step (cx_shared c) (set_frames (cx_shared c) fr)).
  { destruct (spec_recv_flags (chan_view (sh_frames (cx_shared c)))) as (_ & Ht & Hc).
    apply frames_step; rewrite Hv; try easy. apply spec_recv_bounded. }
  destruct r as [[next|]|].
  - cbn [fst]. eapply ctx_step_trans; [|apply increment_step]. now split.
  - split; [|easy]. cbn. destruct Hs as (? & ? & ? & ? & ?). cbn in *.
    apply frames_step; rewrite view_rx_close; cbn; easy.
  - now split.
Qed.

Lemma poll_read_ctx_step n c : ctx_step c (poll_read n c).1.
Proof.
  unfold poll_read. pose proof (poll_fill_buf_step c) as H. destruct (poll_fill_buf c) as [c1 r]. cbn in *.
  destruct r as [[bs| |]|]; try easy. unfold consume. case_bool; [easy|].
  eapply ctx_step_trans; [exact H|]. split; [apply cell_step_refl|easy].
Qed.

Lemma obtain_loop_shape meanwhile (s : Shared C W) :
  exists n w, (obtain_loop meanwhile s).1 = MkShared (sh_frames s) (sh_finish_sent s) n w
    /\ (u32_ok (sh_psh_send_remaining s) -> u32_ok n).
Proof.
  revert s. induction meanwhile as [|[|k] rest IH]; intros s; cbn;
    (destruct (Z.eqb_spec (sh_psh_send_remaining s) 0); [now eexists _, _|]).
  - eexists _, _. split; [easy|]. unfold in_width. lia.
  - apply IH.
  - case_bool; [eexists _, _; split; [easy|]; unfold in_width; lia|].
    destruct (IH (set_remaining s (wrapping_add32 (sh_psh_send_remaining s) k))) as (n' & w & -> & Hn).
    eexists _, _. split; [easy|]. intros _. apply Hn, wrapping_add32_ok.
Qed.

Lemma obtain_step meanwhile (s : Shared C W) :
  cell_step s (poll_obtain_write_permission meanwhile s).1.
Proof.
  unfold poll_obtain_write_permission. destruct (sh_finish_sent s) eqn:Hf; [apply cell_step_refl|].
  destruct (obtain_loop_shape meanwhile s) as (n & w & -> & Hn). unfold cell_step. cbn. now split_and!.
Qed.

Lemma poll_write_step meanwhile buf c : ctx_step c (poll_write meanwhile buf c).1.
Proof.
  unfold poll_write. pose proof (obtain_step meanwhile (cx_shared c)) as Hs.
  destruct (poll_obtain_write_permission _ _) as [sh r].
  destruct r as [[u| |]|]; try (now split).
  pose proof (tx_send_capacity (new_push (ms_flow_id (cx_stream c)) buf) (cx_tx c)) as Ht.
  destruct (tx_send _ _) as [tx e]. now split.
Qed.

Lemma shutdown_step c : ctx_step c (shutdown_inner c).1.
Proof.
  unfold shutdown_inner. destruct (sh_finish_sent (cx_shared c)); [apply ctx_step_refl|].
  pose proof (tx_send_capacity (new_finish (ms_flow_id (cx_stream c))) (cx_tx c)) as Ht.
  destruct (tx_send _ _) as [tx e]. split; [|easy]. unfold cell_step. now split_and!.
Qed.

Lemma wf_drop_stream m s : preserves_with m m (drop_stream s).
Proof.
  intros x Hx. unfold drop_stream, mbind, M_bind.
  assert (Hstep : forall c : Ctx C W, ctx_step c (stream_drop c, tt).1) by (intros; apply stream_drop_step).
  pose proof (wf_on_stream m s _ Hstep x Hx) as H. now destruct (on_stream s _ x) as [x' []].
Qed.

Lemma drop_stream_flows s (x : Mux) : mx_flows (drop_stream s x).1 = mx_flows x.
Proof.
  unfold drop_stream, mbind, M_bind. pose proof (on_stream_flows s (fun c => (stream_drop c, tt)) x) as H.
  now destruct (on_stream s _ x) as [x' []].
Qed.

Lemma preserves_drop_stream s : preserves (drop_stream s).
Proof. intros x Hx. unfold mux_wf. rewrite drop_stream_flows. now apply wf_drop_stream. Qed.

(** *** Closing *)

Lemma shot_send_resolved {A} (v : A) (o : O A) : shot_resolved (shot_send v o).1.
Proof. unfold shot_resolved. rewrite view_shot_send. now destruct (shot_view o). Qed.

Lemma shot_drop_resolved {A} (o : O A) : shot_resolved (shot_tx_drop o).
Proof. unfold shot_resolved. rewrite view_shot_tx_drop. now destruct (shot_view o). Qed.

Lemma ids_delete (m : gmap Z FlowSlot) id s :
  m !! id = None -> map_Forall (fun id _ => u32_ok id) (<[id := s]> m) -> map_Forall (fun id (_ : FlowSlot) => u32_ok id) m.
Proof. intros Hid H. now apply map_Forall_insert_1_2 in H. Qed.

(** Resolving the requester of a slot that is already out of the table. *)
Lemma wf_close_shot m id n (x : Mux) o o' :
  m !! id = None -> mx_streams_shots x !! n = Some o -> shot_resolved o' ->
  wf_with (<[id := Requested n]> m) x ->
  wf_with m (set_shots x (<[n := o']> (mx_streams_shots x)) (mx_bind_shots x) (mx_next_shot x)).
Proof.
  intros Hid Ho Hr []. split; try easy.
  - now apply (ids_delete m id (Requested n)).
  - now apply (table_delete_none _ _ _ _ _ _ id (Requested n)).
  - now apply (table_delete _ _ _ _ _ _ id (Requested n)).
  - now apply (table_delete_none _ _ _ _ _ _ id (Requested n)).
Qed.

Lemma wf_close_bind m id n (x : Mux) o o' :
  m !! id = None -> mx_bind_shots x !! n = Some o -> shot_resolved o' ->
  wf_with (<[id := BindRequested n]> m) x ->
  wf_with m (set_shots x (mx_streams_shots x) (<[n := o']> (mx_bind_shots x)) (mx_next_shot x)).
Proof.
  intros Hid Ho Hr []. split; try easy.
  - now apply (ids_delete m id (BindRequested n)).
  - now apply (table_delete_none _ _ _ _ _ _ id (BindRequested n)).
  - now apply (table_delete_none _ _ _ _ _ _ id (BindRequested n)).
  - now apply (table_delete _ _ _ _ _ _ id (BindRequested n)).
Qed.

Lemma tx_drop_ok rwnd c : cell_ok rwnd c -> cell_ok rwnd (set_frames c (tx_drop (sh_frames c))).
Proof. intros (? & ? & ?). unfold cell_ok, chan_bounded in *. cbn. rewrite view_tx_drop. now cbn. Qed.

(** Taking the write side down, then the read side, of a removed stream. *)
Lemma wf_close_cell m id d (x : Mux) c :
  m !! id = None -> mx_cells x !! esd_cell d = Some c -> sh_finish_sent c = true ->
  wf_with (<[id := Established d]> m) x -> wf_with m (disallow_read d x).1.
Proof.
  intros Hid Hc Hf Hwf. pose proof Hwf as []. unfold disallow_read.
  destruct (tw_owned _ _ _ _ _ _ wf_cells0 id (Established d) _ (lookup_insert_eq _ _ _) eq_refl) as (c' & Hc' & Hl).
  assert (c' = c) as -> by congruence. cbn in Hl.
  set (c2 := if esd_sender d then set_frames c (tx_drop (sh_frames c)) else c).
  assert (H2 : cell_resolved c2 /\ cell_ok (mx_rwnd x) c2).
  { pose proof (wf_cell_ok0 _ _ Hc) as Hok. unfold c2, cell_resolved. destruct (esd_sender d); [|easy].
    cbn. rewrite view_tx_drop. split; [easy|]. now apply tx_drop_ok. }
  assert (Hx : (if esd_sender d
     then _ ← update_cell (esd_cell d) (fun c => set_frames c (tx_drop (sh_frames c))); mret (MkEsd false (esd_cell d))
     else mret d) x = (set_cells x (<[esd_cell d := c2]> (mx_cells x)) (mx_next_cell x),
       Ret (MkEsd false (esd_cell d)))).
  { unfold c2. destruct d as [[] n]; cbn in *.
    - unfold mbind, M_bind, update_cell, modify. now rewrite alter_as_insert, Hc.
    - rewrite insert_id by easy. now destruct x. }
  rewrite Hx. cbn [fst]. split; try easy.
  - now apply (ids_delete m id (Established d)).
  - now apply (table_delete _ _ _ _ _ _ id (Established d)).
  - now apply (table_delete_none _ _ _ _ _ _ id (Established d)).
  - now apply (table_delete_none _ _ _ _ _ _ id (Established d)).
  - apply map_Forall_insert_2; easy.
Qed.

(** Sending a frame that can be encoded never panics. *)
Lemma send_frame_ret f (x : Mux) :
  encodable f -> exists t b, send_frame f x = (set_tx x t, Ret b)
    /\ (capacity (mx_tx_frame x) = None -> capacity t = None).
Proof.
  intros He. unfold send_frame. pose proof (tx_send_capacity f (mx_tx_frame x)) as Hc.
  destruct (tx_send_pushed f (mx_tx_frame x) He) as [_ Hn].
  destruct (tx_send f (mx_tx_frame x)) as [t [| |]]; cbn in *; [eauto|eauto|easy].
Qed.

Lemma wf_close_established m id d inhibit (x : Mux) :
  m !! id = None -> wf_with (<[id := Established d]> m) x ->
  wf_with m (close_port_local (Established d) id inhibit x).1.
Proof.
  intros Hid Hwf. unfold close_port_local, mbind at 1, M_bind at 1.
  pose proof (wf_disallow_write _ d x Hwf) as Hwf1.
  destruct (tw_owned _ _ _ _ _ _ (wf_cells _ _ Hwf) id (Established d) _ (lookup_insert_eq _ _ _) eq_refl)
    as (c & Hc & _).
  assert (Hdw : disallow_write d x
    = (set_cells x (<[esd_cell d := disallow_write_cell c]> (mx_cells x)) (mx_next_cell x), Ret (sh_finish_sent c))).
  { unfold disallow_write, mbind, M_bind, update_cell, modify. now rewrite alter_as_insert, Hc. }
  rewrite Hdw in *. clear Hdw. cbn [fst] in Hwf1.
  set (x1 := set_cells x _ _) in *.
  assert (Hc1 : mx_cells x1 !! esd_cell d = Some (disallow_write_cell c)) by apply lookup_insert_eq.
  assert (Hend : forall x2, mx_cells x2 = mx_cells x1 -> wf_with (<[id := Established d]> m) x2 ->
    wf_with m ((_ ← disallow_read d; mret tt) x2).1).
  { intros x2 Hx2 Hwf2. pose proof (wf_close_cell m id d x2 (disallow_write_cell c) Hid) as H.
    rewrite Hx2 in H. specialize (H Hc1 eq_refl Hwf2). unfold mbind, M_bind. destruct (disallow_read d x2) as [? []]; easy. }
  destruct (negb (sh_finish_sent c) && negb inhibit); [|now apply Hend].
  unfold mbind at 1, M_bind at 1. unfold mbind at 1, M_bind at 1.
  destruct (send_frame_ret (new_reset id) x1 I) as (t & b & -> & Ht). cbn.
  apply Hend; [easy|]. apply wf_set_tx; [|easy]. apply Ht, (wf_queues _ _ Hwf1).
Qed.

(** Closing a slot that is out of the table restores the invariant. *)
Lemma wf_close_local m id slot inhibit (x : Mux) :
  m !! id = None -> wf_with (<[id := slot]> m) x -> wf_with m (close_port_local slot id inhibit x).1.
Proof.
  intros Hid Hwf. destruct slot as [n|d|n]; [|now apply wf_close_established|].
  - destruct (tw_owned _ _ _ _ _ _ (wf_shots _ _ Hwf) id _ n (lookup_insert_eq _ _ _) eq_refl) as (o & Ho & _).
    unfold close_port_local, mbind, M_bind, send_stream_shot. rewrite Ho.
    pose proof (shot_send_resolved None o) as Hr. destruct (shot_send None o) as [o' b].
    now apply (wf_close_shot _ id n x o).
  - destruct (tw_owned _ _ _ _ _ _ (wf_binds _ _ Hwf) id _ n (lookup_insert_eq _ _ _) eq_refl) as (o & Ho & _).
    unfold close_port_local, mbind, M_bind, send_bind_shot. rewrite Ho.
    pose proof (shot_send_resolved false o) as Hr. destruct (shot_send false o) as [o' b].
    now apply (wf_close_bind _ id n x o).
Qed.

Lemma close_port_local_flows slot id inhibit (x : Mux) :
  mx_flows (close_port_local slot id inhibit x).1 = mx_flows x.
Proof.
  destruct slot as [n|d|n]; unfold close_port_local.
  - unfold mbind, M_bind, send_stream_shot. destruct (mx_streams_shots x !! n); [|easy]. now destruct (shot_send _ _).
  - unfold mbind, M_bind, disallow_write, update_cell, modify, mbind, M_bind, disallow_read. cbn.
    destruct (negb _ && _); cbn; unfold send_frame; [destruct (tx_send _ _) as [? []]|]; destruct (esd_sender d); easy.
  - unfold mbind, M_bind, send_bind_shot. destruct (mx_bind_shots x !! n); [|easy]. now destruct (shot_send _ _).
Qed.

Lemma preserves_close_port id inhibit : preserves (close_port id inhibit).
Proof.
  intros x Hx. unfold close_port, mbind, M_bind, remove_flow.
  destruct (mx_flows x !! id) as [slot|] eqn:Hs.
  - unfold mux_wf. rewrite close_port_local_flows. apply wf_close_local; cbn; [apply lookup_delete_eq|].
    apply wf_set_flows. rewrite insert_delete_id by easy. exact Hx.
  - unfold mux_wf. cbn. rewrite delete_id by easy. now apply wf_set_flows.
Qed.

(** *** Opening *)

Definition new_cell (x : Mux) (peer_rwnd : Z) : Shared C W :=
  MkShared (channel (Z.to_nat (mx_rwnd x))) false peer_rwnd new_waker.

Definition new_stream_of (x : Mux) (flow_id peer_rwnd : Z) (host : bytes) (port : Z) : MuxStream :=
  MkMuxStream (mx_next_cell x) flow_id host port 0 [] (Z.min (mx_default_rwnd_threshold x) peer_rwnd).

(** The state with a fresh stream in the table. *)
Definition with_new_stream (x : Mux) (flow_id peer_rwnd : Z) : Mux :=
  set_flows (set_cells x (<[mx_next_cell x := new_cell x peer_rwnd]> (mx_cells x)) (Datatypes.S (mx_next_cell x)))
    (<[flow_id := Established (MkEsd true (mx_next_cell x))]> (mx_flows x)).

Lemma new_cell_ok x w : mux_wf x -> u32_ok w -> cell_ok (mx_rwnd x) (new_cell x w).
Proof.
  intros Hx Hw. unfold cell_ok, chan_bounded. cbn. rewrite view_channel. cbn. split_and!; [easy..|lia].
Qed.

Lemma with_new_stream_wf x id w :
  u32_ok id -> u32_ok w -> mx_flows x !! id = None -> mux_wf x -> mux_wf (with_new_stream x id w).
Proof.
  intros Hid Hw Hn Hx. pose proof (new_cell_ok x w Hx Hw) as Hok. destruct Hx. split; try easy; cbn.
  - now apply map_Forall_insert_2.
  - apply table_insert_new; try easy. cbn. now rewrite view_channel.
  - now apply table_insert_none.
  - now apply table_insert_none.
  - now apply map_Forall_insert_2.
Qed.

Lemma new_stream_shared_eq x id w host port :
  mux_wf x ->
  new_stream_shared id w host port x
  = (set_cells x (<[mx_next_cell x := new_cell x w]> (mx_cells x)) (Datatypes.S (mx_next_cell x)),
     Ret (new_stream_of x id w host port, MkEsd true (mx_next_cell x))).
Proof. intros [? ? ? ? ? [? _] ?]. unfold new_stream_shared. case_bool; bool_prop; [lia|easy]. Qed.

Lemma preserves_send_to_user s : preserves (send_to_user s).
Proof.
  intros x Hx. unfold send_to_user. destruct (try_send s (mx_con_recv x)) as [q [[]|]]; [easy| |].
  - apply (preserves_bind _ _ (preserves_drop_stream s)); [intros; apply preserves_throw|easy].
  - now apply wf_set_queues.
Qed.

(** [con_recv_new_stream] on a free flow identifier. *)
Lemma con_recv_new_eq x id host port w :
  mux_wf x -> mx_flows x !! id = None ->
  con_recv_new_stream id host port w x
  = (sent ← send_frame (new_acknowledge id (mx_rwnd x));
     if (sent : bool) then send_to_user (new_stream_of x id w host port)
     else (_ ← drop_stream (new_stream_of x id w host port); throw Closed)) (with_new_stream x id w).
Proof.
  intros Hx Hid. unfold con_recv_new_stream. unfold mbind at 1, M_bind at 1, get.
  destruct (decide (is_Some (mx_flows x !! id))) as [[? Hs]|_]; [congruence|].
  unfold mbind at 1, M_bind at 1. rewrite new_stream_shared_eq by easy. reflexivity.
Qed.

Lemma preserves_con_recv id host port w :
  u32_ok id -> u32_ok w -> preserves (con_recv_new_stream id host port w).
Proof.
  intros Hid Hw x Hx. destruct (mx_flows x !! id) eqn:Hn.
  - unfold con_recv_new_stream, mbind at 1, M_bind at 1, get.
    destruct (decide _) as [_|Hd]; [|destruct Hd; eauto].
    apply (preserves_bind _ _ (preserves_send_frame _)); [intros; apply preserves_ret|easy].
  - rewrite con_recv_new_eq by easy. pose proof (with_new_stream_wf x id w Hid Hw Hn Hx) as H. revert H.
    generalize (with_new_stream x id w). apply preserves_bind; [apply preserves_send_frame|].
    intros [|]; [apply preserves_send_to_user|].
    apply preserves_bind; [apply preserves_drop_stream|intros; apply preserves_throw].
Qed.

(** Replacing the slot of a requester by an established stream. *)
Lemma ack_establish_wf x id n o o' w :
  u32_ok w -> mux_wf x -> mx_flows x !! id = Some (Requested n) -> mx_streams_shots x !! n = Some o ->
  shot_resolved o' ->
  mux_wf (set_shots (with_new_stream x id w) (<[n := o']> (mx_streams_shots x)) (mx_bind_shots x) (mx_next_shot x)).
Proof.
  intros Hw Hx Hs Ho Hr.
  assert (Hid : u32_ok id) by exact (wf_ids _ _ Hx id _ Hs).
  set (m := delete id (mx_flows x)).
  assert (Hm : m !! id = None) by apply lookup_delete_eq.
  assert (Hx1 : wf_with m (set_shots x (<[n := o']> (mx_streams_shots x)) (mx_bind_shots x) (mx_next_shot x))).
  { apply (wf_close_shot _ id n x o); try easy. unfold m. rewrite insert_delete_id by easy. exact Hx. }
  set (x1 := set_shots x (<[n := o']> (mx_streams_shots x)) (mx_bind_shots x) (mx_next_shot x)) in *.
  assert (Hx2 : mux_wf (set_flows x1 m)) by now apply wf_set_flows.
  pose proof (with_new_stream_wf (set_flows x1 m) id w Hid Hw Hm Hx2) as H.
  unfold with_new_stream, m in H. cbn in H. rewrite insert_delete_eq in H. exact H.
Qed.

Lemma ack_recv_eq x id n o w :
  mux_wf x -> mx_flows x !! id = Some (Requested n) -> mx_streams_shots x !! n = Some o ->
  let s := new_stream_of x id w [] 0 in
  let x' := set_shots (with_new_stream x id w) (<[n := (shot_send (Some s) o).1]> (mx_streams_shots x))
              (mx_bind_shots x) (mx_next_shot x) in
  ack_recv_new_stream id w x
  = if (shot_send (Some s) o).2 then (x', Ret tt)
    else (_ ← drop_stream s; throw SendStreamToClient) x'.
Proof.
  intros Hx Hs Ho. cbv zeta. unfold ack_recv_new_stream. unfold mbind at 1, M_bind at 1.
  rewrite new_stream_shared_eq by easy. unfold mbind at 1, M_bind at 1, get. cbn [mx_flows set_cells].
  rewrite Hs. cbn [establish]. unfold mbind at 1, M_bind at 1, put_flow, modify.
  unfold mbind at 1, M_bind at 1, send_stream_shot. cbn [mx_streams_shots set_flows set_cells]. rewrite Ho.
  destruct (shot_send _ o) as [o' []]; reflexivity.
Qed.

Lemma preserves_ack_recv x id n w :
  u32_ok w -> mux_wf x -> mx_flows x !! id = Some (Requested n) -> mux_wf (ack_recv_new_stream id w x).1.
Proof.
  intros Hw Hx Hs.
  destruct (tw_owned _ _ _ _ _ _ (wf_shots _ _ Hx) id _ n Hs eq_refl) as (o & Ho & _).
  rewrite (ack_recv_eq x id n o w) by easy.
  pose proof (ack_establish_wf x id n o _ w Hw Hx Hs Ho (shot_send_resolved (Some (new_stream_of x id w [] 0)) o)) as H.
  destruct (shot_send _ o).2; [exact H|]. revert H.
  generalize (set_shots (with_new_stream x id w) (<[n:=(shot_send (Some (new_stream_of x id w [] 0)) o).1]> (mx_streams_shots x))
    (mx_bind_shots x) (mx_next_shot x)).
  apply preserves_bind; [apply preserves_drop_stream|intros; apply preserves_throw].
Qed.

(** *** The handlers *)

(** [Finish] on an established stream takes the sender out, in place. *)
Lemma finish_established_wf x id d :
  mux_wf x -> mx_flows x !! id = Some (Established d) ->
  mux_wf ((data' ← disallow_read d; put_flow id (Established data')) x).1.
Proof.
  intros Hx Hs. pose proof Hx as [].
  destruct (tw_owned _ _ _ _ _ _ wf_cells0 id _ _ Hs eq_refl) as (c & Hc & Hl). cbn in Hl.
  unfold mbind, M_bind, disallow_read. destruct d as [[] n]; cbn in *.
  - unfold mbind, M_bind, update_cell, modify, put_flow, modify, mret, M_ret. cbn.
    rewrite alter_as_insert, Hc.
    pose proof (tx_drop_ok _ _ (wf_cell_ok0 _ _ Hc)) as Hok.
    split; try easy; cbn.
    + now apply map_Forall_insert_2; [apply (wf_ids0 _ _ Hs)|].
    + apply (table_update _ _ _ _ _ _ id (Established (MkEsd true n))); try easy. cbn. now rewrite view_tx_drop.
    + rewrite <- (insert_delete_id _ _ _ Hs), insert_insert_eq.
      apply table_insert_none; [easy|apply lookup_delete_eq|].
      apply (table_delete_none _ _ _ _ _ _ id (Established (MkEsd true n))); [easy|apply lookup_delete_eq|].
      now rewrite insert_delete_id.
    + rewrite <- (insert_delete_id _ _ _ Hs), insert_insert_eq.
      apply table_insert_none; [easy|apply lookup_delete_eq|].
      apply (table_delete_none _ _ _ _ _ _ id (Established (MkEsd true n))); [easy|apply lookup_delete_eq|].
      now rewrite insert_delete_id.
    + now apply map_Forall_insert_2.
  - unfold put_flow, modify, mux_wf. cbn. rewrite insert_id by easy. now apply wf_set_flows.
Qed.

(** Removing a requester's slot and resolving its channel. *)
Lemma remove_requested_wf x id n o o' :
  mux_wf x -> mx_flows x !! id = Some (Requested n) -> mx_streams_shots x !! n = Some o -> shot_resolved o' ->
  mux_wf (set_shots (set_flows x (delete id (mx_flows x))) (<[n := o']> (mx_streams_shots x))
            (mx_bind_shots x) (mx_next_shot x)).
Proof.
  intros Hx Hs Ho Hr. refine (wf_set_flows (delete id (mx_flows x)) (delete id (mx_flows x))
    (set_shots x (<[n := o']> (mx_streams_shots x)) (mx_bind_shots x) (mx_next_shot x)) _).
  apply (wf_close_shot _ id n x o); try easy; [apply lookup_delete_eq|].
  rewrite insert_delete_id by easy. exact Hx.
Qed.

Lemma remove_bind_wf x id n o o' :
  mux_wf x -> mx_flows x !! id = Some (BindRequested n) -> mx_bind_shots x !! n = Some o -> shot_resolved o' ->
  mux_wf (set_shots (set_flows x (delete id (mx_flows x))) (mx_streams_shots x) (<[n := o']> (mx_bind_shots x))
            (mx_next_shot x)).
Proof.
  intros Hx Hs Ho Hr. refine (wf_set_flows (delete id (mx_flows x)) (delete id (mx_flows x))
    (set_shots x (mx_streams_shots x) (<[n := o']> (mx_bind_shots x)) (mx_next_shot x)) _).
  apply (wf_close_bind _ id n x o); try easy; [apply lookup_delete_eq|].
  rewrite insert_delete_id by easy. exact Hx.
Qed.

Lemma preserves_send_rst id : preserves (_ ← send_frame (new_reset id); mret tt).
Proof. apply preserves_bind; [apply preserves_send_frame|intros; apply preserves_ret]. Qed.

Lemma preserves_bind_reply r accepted : preserves (bind_reply r accepted).
Proof.
  apply preserves_bind; [destruct accepted; apply preserves_send_frame|].
  intros []; [apply preserves_ret|apply preserves_throw].
Qed.

Lemma preserves_bind_drop r : preserves (bind_drop r).
Proof.
  intros x Hx. unfold bind_drop. pose proof (preserves_bind_reply r false x Hx) as H.
  now destruct (bind_reply r false x) as [x' []].
Qed.

Lemma preserves_send_bind_request r : preserves (send_bind_request r).
Proof.
  intros x Hx. unfold send_bind_request. destruct (mx_bnd x) as [q|]; [|easy].
  destruct (try_send r q) as [q' [[]|]]; [easy|now apply preserves_bind_drop|now apply wf_set_queues].
Qed.

Lemma process_finish_wf id x :
  mux_wf x ->
  mux_wf (process_frame (MkFrame id Finish) false x).1.
Proof.
  intros Hx. unfold process_frame. cbn [frame_payload frame_id]. rewrite bind_get.
  destruct (mx_flows x !! id) as [[n|d|n]|] eqn:Hs.
  - destruct (tw_owned _ _ _ _ _ _ (wf_shots _ _ Hx) id _ n Hs eq_refl) as (o & Ho & _).
    unfold mbind at 1, M_bind at 1, remove_flow. unfold mbind at 1, M_bind at 1, modify. cbn [mx_streams_shots set_flows].
    rewrite alter_as_insert, Ho. apply (preserves_send_rst id).
    exact (remove_requested_wf x id n o _ Hx Hs Ho (shot_drop_resolved o)).
  - exact (finish_established_wf x id d Hx Hs).
  - destruct (tw_owned _ _ _ _ _ _ (wf_binds _ _ Hx) id _ n Hs eq_refl) as (o & Ho & _).
    unfold mbind, M_bind, remove_flow, send_bind_shot. cbn [mx_bind_shots set_flows]. rewrite Ho.
    pose proof (remove_bind_wf x id n o _ Hx Hs Ho (shot_send_resolved true o)) as H.
    destruct (shot_send true o) as [o' b]. exact H.
  - now apply (preserves_send_rst id).
Qed.

Lemma preserves_process_frame f ignore : frame_ok f -> preserves (process_frame f ignore).
Proof.
  intros [Hid Hp] x Hx. destruct f as [id [c|n| | |data|b|dg]]; cbn in Hid, Hp.
  - apply preserves_con_recv; [easy|apply Hp|easy].
  - unfold process_frame. cbn [frame_payload frame_id]. rewrite bind_get.
    destruct (mx_flows x !! id) as [[k|d|k]|] eqn:Hs.
    + now apply (preserves_ack_recv x id k).
    + now apply preserves_acknowledge.
    + now apply (preserves_send_rst id).
    + now apply (preserves_send_rst id).
  - now apply preserves_close_port.
  - now apply process_finish_wf.
  - unfold process_frame. cbn [frame_payload frame_id]. rewrite bind_get.
    revert x Hx. intros x. revert x. assert (H : forall y : Mux, preserves (result ← match mx_flows y !! id with
        | Some slot => dispatch slot (cow_into_owned data) | None => mret None end;
      match result with
      | Some None => mret tt | Some (Some TrySendFull) => close_port id false
      | Some (Some TrySendClosed) => mret tt | None => _ ← send_frame (new_reset id); mret tt end)).
    { intros y. apply preserves_bind.
      - destruct (mx_flows y !! id); [apply preserves_dispatch|apply preserves_ret].
      - intros [[[]|]|]; first [apply preserves_close_port|apply preserves_ret|apply preserves_send_rst]. }
    intros x. apply H.
  - unfold process_frame. cbn [frame_payload frame_id]. rewrite bind_get.
    destruct (mx_bnd x); [|now apply (preserves_send_rst id)]. destruct ignore; [easy|].
    now apply preserves_send_bind_request.
  - unfold process_frame. cbn [frame_payload frame_id]. rewrite bind_get.
    destruct (try_send _ (mx_datagrams x)) as [q [[]|]]; [easy..|]. now apply wf_set_queues.
Qed.

(** What the decoder accepts is well formed, so messages are no exception. *)
Lemma preserves_process_message msg ignore :
  match msg with MsgBinary data => bytes_ok data | _ => True end -> preserves (process_message msg ignore).
Proof.
  intros Hok. destruct msg as [data| | |]; try apply preserves_ret.
  unfold process_message. intros x Hx. unfold mbind at 1, M_bind at 1, lift.
  destruct (frame_try_from data) as [f| |] eqn:Hf; [|easy..]. cbn [map_err].
  assert (Hfo : frame_ok f).
  { destruct (frame_try_from_inv data f Hok Hf) as (op & body & _ & Hid & Hb & Hd).
    split; [easy|]. now apply (decode_payload_inv op body). }
  revert x Hx. apply preserves_bind; [now apply preserves_process_frame|intros; apply preserves_ret].
Qed.

(** *** The loops of the task *)

Lemma preserves_ws_await {A} polls (p : S -> S * poll A) : preserves (ws_await polls p).
Proof.
  induction polls as [|n IH]; [apply preserves_park|]. intros x Hx. cbn.
  destruct (p (mx_ws x)) as [ws [a|]]; [now apply wf_set_ws|]. apply IH. now apply wf_set_ws.
Qed.

Lemma ws_await_result {A} polls (p : S -> S * poll A) (x : Mux) a :
  (ws_await polls p x).2 = Ret a -> exists s, (p s).2 = Ready a.
Proof.
  revert x. induction polls as [|n IH]; intros x; [easy|]. cbn.
  destruct (p (mx_ws x)) as [ws [b|]] eqn:Hp; [|apply IH].
  intros [= ->]. exists (mx_ws x). now rewrite Hp.
Qed.

Lemma preserves_bind_res {A B} (P : A -> Prop) (m : @M C O W S A) (k : A -> @M C O W S B) :
  preserves m -> (forall x a, (m x).2 = Ret a -> P a) -> (forall a, P a -> preserves (k a)) ->
  preserves (mbind k m).
Proof.
  intros Hm HP Hk x Hx. unfold mbind, M_bind. specialize (Hm x Hx). specialize (HP x).
  destruct (m x) as [x' [a| | |]]; try easy. apply Hk; [|easy]. now apply HP.
Qed.

Lemma preserves_ws_start_send m : preserves (ws_start_send_m m).
Proof.
  intros x Hx. unfold ws_start_send_m. destruct (ws_start_send m (mx_ws x)). now apply wf_set_ws.
Qed.

Lemma preserves_dropped_ports fuel : preserves (process_dropped_ports_task fuel).
Proof.
  induction fuel as [|n IH]; [apply preserves_park|]. intros x Hx. cbn.
  pose proof (view_poll_recv _ (mx_dropped_ports x)) as Hv. destruct (poll_recv (mx_dropped_ports x)) as [q r].
  assert (Hx1 : mux_wf (set_dropped x q)).
  { apply wf_set_dropped; [|easy]. cbn in Hv. rewrite Hv, (proj2 (proj2 (spec_recv_flags _))).
    apply (wf_queues _ _ Hx). }
  destruct r as [[id|]|]; [|easy..]. case_bool; [easy|].
  apply (preserves_bind _ _ (preserves_close_port id false)); [intros; apply IH|easy].
Qed.

Lemma recv_tx_capacity x : mux_wf x -> capacity (poll_recv (mx_tx_frame x)).1 = None.
Proof.
  intros Hx. rewrite view_poll_recv, (proj2 (proj2 (spec_recv_flags _))). apply (wf_queues _ _ Hx).
Qed.

Lemma preserves_reserve : preserves poll_reserve_space_recv_frame.
Proof.
  intros x Hx. unfold poll_reserve_space_recv_frame. destruct (ws_poll_ready (mx_ws x)) as [ws [[u| |]|]];
    try (now apply wf_set_ws).
  cbn [mx_tx_frame set_ws]. pose proof (recv_tx_capacity x Hx) as Hc. destruct (poll_recv (mx_tx_frame x)) as [q r].
  assert (Hx1 : mux_wf (set_tx (set_ws x ws) q)) by (apply wf_set_tx; [easy|now apply wf_set_ws]).
  destruct r as [[f|]|]; [|easy..]. revert Hx1. generalize (set_tx (set_ws x ws) q).
  apply preserves_bind; [apply preserves_ws_start_send|]. intros r.
  apply preserves_bind; [apply preserves_lift|intros; apply preserves_ret].
Qed.

Lemma preserves_frame_recv polls ticks : preserves (process_frame_recv_task polls ticks).
Proof.
  induction ticks as [|tick ticks IH]; [apply preserves_park|].
  apply preserves_bind; [apply preserves_reserve|]. intros r. apply preserves_bind.
  - destruct r; [apply preserves_ret|]. destruct tick; [|apply preserves_park].
    apply preserves_bind; [apply preserves_ws_await|]. intros ready.
    apply preserves_bind; [apply preserves_lift|]. intros _.
    apply preserves_bind; [apply preserves_ws_start_send|intros; apply preserves_lift].
  - intros _. apply preserves_bind; [apply preserves_ws_await|]. intros fl.
    apply preserves_bind; [apply preserves_lift|]. intros _. apply IH.
Qed.

(** The bytes of a message are bytes. *)
Definition ws_typed : Prop :=
  forall s data, (ws_poll_next s).2 = Ready (Some (Ok (MsgBinary data))) -> bytes_ok data.

Definition message_typed (m : option (res Error Message)) : Prop :=
  match m with Some (Ok (MsgBinary data)) => bytes_ok data | _ => True end.

Lemma ws_next_typed polls (x : Mux) m : ws_typed -> (ws_await polls ws_poll_next x).2 = Ret m -> message_typed m.
Proof.
  intros Ht Hm. apply ws_await_result in Hm as [s Hs]. unfold message_typed.
  destruct m as [[[]| |]|]; try easy. now apply (Ht s).
Qed.

Lemma preserves_ws_next polls fuel : ws_typed -> preserves (process_ws_next polls fuel).
Proof.
  intros Ht. induction fuel as [|n IH]; [apply preserves_park|]. cbn [process_ws_next].
  apply (preserves_bind_res message_typed); [apply preserves_ws_await|intros; now apply (ws_next_typed polls x)|].
  intros [[msg| |]|] Hm; try easy. apply preserves_lift_ok.
  apply preserves_bind; [now apply preserves_process_message|]. intros []; [apply preserves_ret|apply IH].
Qed.

(** *** Winding down *)

(** Closing a slot always completes. *)
Lemma close_port_local_ret slot id inhibit (x : Mux) :
  exists x', close_port_local slot id inhibit x = (x', Ret tt).
Proof.
  destruct slot as [n|d|n]; unfold close_port_local.
  - unfold mbind, M_bind, send_stream_shot. destruct (mx_streams_shots x !! n); [|eauto].
    destruct (shot_send _ _). eauto.
  - assert (Hw : exists (x1 : Mux) old, disallow_write d x = (x1, Ret old)) by (unfold disallow_write, update_cell, modify; eauto).
    assert (Hr : forall y : Mux, exists (y' : Mux) d', disallow_read d y = (y', Ret d')).
    { intros y. unfold disallow_read, update_cell, modify. destruct (esd_sender d); eauto. }
    destruct Hw as (x1 & old & Hw). unfold mbind, M_bind. rewrite Hw.
    destruct (negb old && negb inhibit).
    + destruct (send_frame_ret (new_reset id) x1 I) as (t & b & -> & _). cbn.
      destruct (Hr (set_tx x1 t)) as (y' & d' & ->). eauto.
    + cbn. destruct (Hr x1) as (y' & d' & ->). eauto.
  - unfold mbind, M_bind, send_bind_shot. destruct (mx_bind_shots x !! n); [|eauto].
    destruct (shot_send _ _). eauto.
Qed.

Lemma preserves_drain_frames polls fuel : preserves (drain_frames polls fuel).
Proof.
  induction fuel as [|n IH]; [apply preserves_park|]. intros x Hx. cbn.
  pose proof (recv_tx_capacity x Hx) as Hc. destruct (poll_recv (mx_tx_frame x)) as [q r].
  assert (Hx1 : mux_wf (set_tx x q)) by now apply wf_set_tx.
  destruct r as [[f|]|]; [|easy..]. revert Hx1. generalize (set_tx x q).
  apply preserves_bind; [apply preserves_ws_await|]. intros ready.
  apply preserves_bind; [destruct ready; [apply preserves_ws_start_send|apply preserves_ret..]|].
  intros [| |]; [apply IH|apply preserves_ret|apply preserves_lift].
Qed.

Lemma preserves_drain_source polls fuel : ws_typed -> preserves (drain_source polls fuel).
Proof.
  intros Ht. induction fuel as [|n IH]; [apply preserves_park|]. cbn [drain_source].
  apply (preserves_bind_res message_typed); [apply preserves_ws_await|intros; now apply (ws_next_typed polls x)|].
  intros [[msg| |]|] Hm; try apply preserves_ret; try apply preserves_lift.
  apply preserves_bind; [now apply preserves_process_message|intros; apply IH].
Qed.

(** Closing every slot of a list of slots that are out of the table. *)
Lemma close_all_wf (l : list (Z * FlowSlot)) (x : Mux) :
  NoDup l.*1 -> wf_with (list_to_map l) x ->
  mx_flows x = ∅ ->
  let x' := (for_each (fun e => close_port_local e.2 e.1 true) l x).1 in
  wf_with ∅ x' /\ mx_flows x' = ∅.
Proof.
  revert x. induction l as [|[id slot] l IH]; intros x Hnd Hwf Hf; [easy|]. cbn [for_each].
  invc Hnd. cbn [list_to_map foldr fst snd] in Hwf.
  assert (Hid : (list_to_map l : gmap Z FlowSlot) !! id = None) by now apply not_elem_of_list_to_map_1.
  pose proof (wf_close_local _ id slot true x Hid Hwf) as Hwf1.
  pose proof (close_port_local_flows slot id true x) as Hf1.
  unfold mbind, M_bind. cbn [fst snd]. destruct (close_port_local_ret slot id true x) as (x1 & Hret).
  rewrite Hret in *. cbn [fst] in *. apply IH; [easy..|congruence].
Qed.

Lemma preserves_drain_flows : preserves drain_flows.
Proof.
  intros x Hx. unfold drain_flows. rewrite bind_get. unfold mbind, M_bind, modify.
  destruct (close_all_wf (map_to_list (mx_flows x)) (set_flows x ∅)) as [Hwf Hf].
  - apply NoDup_fst_map_to_list.
  - rewrite list_to_map_to_list. now apply wf_set_flows.
  - easy.
  - unfold mux_wf. now rewrite Hf.
Qed.

Lemma preserves_disallow_write_slot e : preserves (disallow_write_slot e).
Proof.
  destruct e as [id [| |]]; try apply preserves_ret.
  apply preserves_bind; [apply preserves_disallow_write|intros; apply preserves_ret].
Qed.

Lemma preserves_close_tx : preserves (modify (fun x => set_tx x (rx_close (mx_tx_frame x)))).
Proof.
  intros x Hx. apply wf_set_tx; [|easy]. rewrite view_rx_close. apply (wf_queues _ _ Hx).
Qed.

Lemma preserves_wind_down polls fuel drain : ws_typed -> preserves (wind_down polls fuel drain).
Proof.
  intros Ht x Hx. unfold wind_down. rewrite bind_get. generalize (map_to_list (mx_flows x)).
  intros l. revert x Hx.
  apply preserves_bind; [apply preserves_for_each, preserves_disallow_write_slot|]. intros _.
  apply preserves_bind; [apply preserves_close_tx|]. intros _.
  apply preserves_bind; [destruct drain; [apply preserves_drain_frames|apply preserves_ret]|]. intros _.
  apply preserves_bind; [apply preserves_ws_await|]. intros _.
  apply preserves_bind; [now apply preserves_drain_source|intros; apply preserves_drain_flows].
Qed.

Lemma preserves_cancel p : preserves (cancel p).
Proof.
  destruct p; try apply preserves_ret; [apply preserves_drop_stream|apply preserves_bind_drop].
Qed.

Lemma preserves_run_branch polls fuel br : ws_typed -> preserves (run_branch polls fuel br).
Proof.
  intros Ht. destruct br; [apply preserves_dropped_ports|apply preserves_frame_recv|now apply preserves_ws_next].
Qed.

Lemma task_exit_wf x : mux_wf x -> mux_wf (task_exit x).
Proof.
  intros Hx. destruct (wf_queues _ _ Hx) as [Ht Hd].
  apply wf_set_dropped; [now rewrite view_rx_drop|]. apply wf_set_tx; [now rewrite view_rx_drop|].
  now apply wf_set_queues.
Qed.

Lemma preserves_start polls fuel br others : ws_typed -> preserves (start polls fuel br others).
Proof.
  intros Ht x Hx. unfold start. pose proof (preserves_run_branch polls fuel br Ht x Hx) as Hb.
  destruct (run_branch polls fuel br x) as [x1 r]. cbn in Hb.
  assert (Hw : preserves (after_select polls fuel br others)).
  { apply preserves_bind; [apply preserves_for_each, preserves_cancel|intros; now apply preserves_wind_down]. }
  specialize (Hw x1 Hb). destruct (after_select polls fuel br others x1) as [x2 w]. cbn in Hw.
  destruct r; try easy; destruct w; cbn; try easy; now apply task_exit_wf.
Qed.

(** *** The user's calls *)

Lemma next_available_key_spec {V} draws (map : gmap Z V) i :
  next_available_key draws map = Some i -> i ∈ draws /\ map !! i = None.
Proof.
  induction draws as [|d draws IH]; [easy|]. cbn. destruct (decide (is_Some (map !! d))) as [|Hn].
  - intros [? ?]%IH. split; [now right|easy].
  - intros [= <-]. split; [left|now apply eq_None_not_Some].
Qed.

Lemma valid_draw_u32 i : valid_draw i -> u32_ok i.
Proof. unfold valid_draw, in_width, u32_max. lia. Qed.

Lemma view_new_shot {A} (s : FlowSlot) : shot_live s (@oneshot O _ A).
Proof. left. apply view_oneshot. Qed.

(** Receiving, or giving up, on either side of the invariant. *)
Lemma shot_rx_drop_live {A} (o : O A) s : shot_live s o -> shot_live s (shot_rx_drop o).
Proof. right. now rewrite view_shot_rx_drop. Qed.

Lemma shot_rx_drop_resolved {A} (o : O A) : shot_resolved (shot_rx_drop o).
Proof. unfold shot_resolved. now rewrite view_shot_rx_drop. Qed.

Lemma preserves_drop_stream_rx shot :
  preserves (modify (fun x => set_shots x (alter shot_rx_drop shot (mx_streams_shots x)) (mx_bind_shots x) (mx_next_shot x))).
Proof.
  intros x []. split; try easy. cbn. apply table_alter; [|intros; apply shot_rx_drop_resolved|easy].
  intros. now apply shot_rx_drop_live.
Qed.

Lemma preserves_drop_bind_rx shot :
  preserves (modify (fun x => set_shots x (mx_streams_shots x) (alter shot_rx_drop shot (mx_bind_shots x)) (mx_next_shot x))).
Proof.
  intros x []. split; try easy. cbn. apply table_alter; [|intros; apply shot_rx_drop_resolved|easy].
  intros. now apply shot_rx_drop_live.
Qed.

Lemma with_request_wf x id :
  u32_ok id -> mx_flows x !! id = None -> mux_wf x ->
  let n := mx_next_shot x in
  mux_wf (set_flows (set_shots x (<[n := oneshot]> (mx_streams_shots x)) (mx_bind_shots x) (Datatypes.S n))
            (<[id := Requested n]> (mx_flows x))).
Proof.
  intros Hid Hn []. split; try easy; cbn.
  - now apply map_Forall_insert_2.
  - now apply table_insert_none.
  - apply table_insert_new; try easy. apply view_new_shot.
  - apply table_insert_none; [easy..|]. now apply (table_next _ _ _ _ _ (mx_next_shot x)); [lia|].
Qed.

Lemma with_bind_request_wf x id :
  u32_ok id -> mx_flows x !! id = None -> mux_wf x ->
  let n := mx_next_shot x in
  mux_wf (set_flows (set_shots x (mx_streams_shots x) (<[n := oneshot]> (mx_bind_shots x)) (Datatypes.S n))
            (<[id := BindRequested n]> (mx_flows x))).
Proof.
  intros Hid Hn []. split; try easy; cbn.
  - now apply map_Forall_insert_2.
  - now apply table_insert_none.
  - apply table_insert_none; [easy..|]. now apply (table_next _ _ _ _ _ (mx_next_shot x)); [lia|].
  - apply table_insert_new; try easy. apply view_new_shot.
Qed.

Lemma preserves_new_stream_attempt draws host port :
  Forall valid_draw draws -> preserves (new_stream_attempt draws host port).
Proof.
  intros Hd x Hx. unfold new_stream_attempt. rewrite bind_get.
  destruct (next_available_key draws (mx_flows x)) as [id|] eqn:Hk; [|easy].
  apply next_available_key_spec in Hk as [Hin%list_elem_of_In Hn]. rewrite Forall_forall in Hd.
  pose proof (with_request_wf x id (valid_draw_u32 _ (Hd _ Hin)) Hn Hx) as H. cbv zeta in *.
  unfold mbind at 1, M_bind at 1, modify at 1. unfold mbind at 1, M_bind at 1, put_flow, modify at 1.
  cbn [mx_flows set_shots]. revert H. generalize (set_flows (set_shots x (<[mx_next_shot x := oneshot]> (mx_streams_shots x))
    (mx_bind_shots x) (Datatypes.S (mx_next_shot x))) (<[id := Requested (mx_next_shot x)]> (mx_flows x))).
  apply preserves_bind; [apply preserves_send_frame|]. intros []; [apply preserves_ret|].
  apply preserves_bind; [apply preserves_drop_stream_rx|intros; apply preserves_throw].
Qed.

Lemma preserves_bind_attempt draws host port bt :
  Forall valid_draw draws -> preserves (request_bind_attempt draws host port bt).
Proof.
  intros Hd x Hx. unfold request_bind_attempt. rewrite bind_get.
  destruct (next_available_key draws (mx_flows x)) as [id|] eqn:Hk; [|easy].
  apply next_available_key_spec in Hk as [Hin%list_elem_of_In Hn]. rewrite Forall_forall in Hd.
  pose proof (with_bind_request_wf x id (valid_draw_u32 _ (Hd _ Hin)) Hn Hx) as H. cbv zeta in *.
  unfold mbind at 1, M_bind at 1, modify at 1. unfold mbind at 1, M_bind at 1, put_flow, modify at 1.
  cbn [mx_flows set_shots]. revert H. generalize (set_flows (set_shots x (mx_streams_shots x)
    (<[mx_next_shot x := oneshot]> (mx_bind_shots x)) (Datatypes.S (mx_next_shot x)))
    (<[id := BindRequested (mx_next_shot x)]> (mx_flows x))).
  apply preserves_bind; [apply preserves_send_frame|]. intros []; [apply preserves_ret|].
  apply preserves_bind; [apply preserves_drop_bind_rx|intros; apply preserves_throw].
Qed.

Lemma preserves_await_stream r shot : preserves (await_stream_shot r shot).
Proof.
  intros x Hx. unfold await_stream_shot. destruct (mx_streams_shots x !! shot) as [o|]; [|easy].
  destruct (shot_recv o) as [[v|]|]; [|easy..]. exact (preserves_drop_stream_rx shot x Hx).
Qed.

Lemma preserves_await_bind shot : preserves (await_bind_shot shot).
Proof.
  intros x Hx. unfold await_bind_shot. destruct (mx_bind_shots x !! shot) as [o|]; [|easy].
  destruct (shot_recv o) as [[v|]|]; [|easy..]. exact (preserves_drop_bind_rx shot x Hx).
Qed.

Lemma preserves_cancel_new_stream shot : preserves (cancel_new_stream shot).
Proof.
  intros x Hx. pose proof (preserves_drop_stream_rx shot x Hx) as H. cbn in H. unfold cancel_new_stream.
  destruct (mx_streams_shots x !! shot) as [o|]; [|exact H].
  destruct (shot_recv o) as [[[s|]|]|]; try exact H. now apply preserves_drop_stream.
Qed.

Lemma preserves_accept : preserves accept_stream_channel.
Proof. intros x Hx. unfold accept_stream_channel. destruct (poll_recv _). now apply wf_set_queues. Qed.

Lemma preserves_get_datagram : preserves get_datagram.
Proof. intros x Hx. unfold get_datagram. destruct (poll_recv _). now apply wf_set_queues. Qed.

Lemma preserves_next_bind : preserves next_bind_request.
Proof.
  intros x Hx. unfold next_bind_request. destruct (mx_bnd x); [|easy]. destruct (poll_recv _).
  now apply wf_set_queues.
Qed.

Lemma preserves_send_datagram d : preserves (send_datagram d).
Proof.
  unfold send_datagram. case_bool; [apply preserves_throw|].
  apply preserves_bind; [apply preserves_send_frame|]. intros []; [apply preserves_ret|apply preserves_throw].
Qed.

Lemma preserves_mux_drop : preserves mux_drop.
Proof.
  unfold mux_drop. apply preserves_bind.
  - intros x Hx. apply wf_set_dropped; [|easy]. rewrite view_try_send, (proj2 (proj2 (spec_send_flags _ _))).
    apply (wf_queues _ _ Hx).
  - intros _ x Hx. rewrite bind_get. revert Hx.
    set (l := queue (mx_con_recv x)). set (q := mx_bnd x). clearbody l q. revert x.
    apply preserves_bind; [intros x Hx; now apply wf_set_queues|]. intros _.
    apply preserves_bind; [apply preserves_for_each, preserves_drop_stream|]. intros _.
    destruct q; [apply preserves_for_each, preserves_bind_drop|apply preserves_ret].
Qed.

(** *** Everything that can happen to a multiplexor *)

Inductive mux_op :=
| OpBranch (polls fuel : nat) (br : select_branch)
| OpResume (p : pending)
| OpStart (polls fuel : nat) (br : select_branch) (others : list pending)
| OpNewStream (draws : list Z) (host : bytes) (port : Z)
| OpAwaitStream (shot : nat)
| OpCancelNewStream (shot : nat)
| OpRequestBind (draws : list Z) (host : bytes) (port : Z) (bt : BindType)
| OpAwaitBind (shot : nat)
| OpAccept | OpGetDatagram | OpNextBind
| OpSendDatagram (d : MuxDatagram)
| OpBindReply (r : BindRequest) (accepted : bool)
| OpBindDrop (r : BindRequest)
| OpRead (s : MuxStream) (n : Z)
| OpWrite (s : MuxStream) (meanwhile : list interference) (buf : bytes)
| OpShutdown (s : MuxStream)
| OpDropStream (s : MuxStream)
| OpMuxDrop.

Definition ignore_result {A} (m : @M C O W S A) : @M C O W S unit := fun x =>
  match m x with
  | (x', Ret _) => (x', Ret tt)
  | (x', Fail e) => (x', Fail e)
  | (x', Panicked) => (x', Panicked)
  | (x', Parked p) => (x', Parked p)
  end.

Definition run_op (op : mux_op) : @M C O W S unit :=
  match op with
  | OpBranch polls fuel br => run_branch polls fuel br
  | OpResume (OnStreamQueue s) => send_to_user s
  | OpResume (OnBindQueue r) => send_bind_request r
  | OpResume _ => mret tt
  | OpStart polls fuel br others => start polls fuel br others
  | OpNewStream draws host port => ignore_result (new_stream_attempt draws host port)
  | OpAwaitStream shot => ignore_result (await_stream_shot 0 shot)
  | OpCancelNewStream shot => cancel_new_stream shot
  | OpRequestBind draws host port bt => ignore_result (request_bind_attempt draws host port bt)
  | OpAwaitBind shot => ignore_result (await_bind_shot shot)
  | OpAccept => ignore_result accept_stream_channel
  | OpGetDatagram => ignore_result get_datagram
  | OpNextBind => ignore_result next_bind_request
  | OpSendDatagram d => send_datagram d
  | OpBindReply r accepted => bind_reply r accepted
  | OpBindDrop r => bind_drop r
  | OpRead s n => ignore_result (on_stream s (poll_read n))
  | OpWrite s meanwhile buf => ignore_result (on_stream s (poll_write meanwhile buf))
  | OpShutdown s => ignore_result (on_stream s shutdown_inner)
  | OpDropStream s => drop_stream s
  | OpMuxDrop => mux_drop
  end.

(** The only side condition of an operation: random draws are in the range of
    the generator. *)
Definition op_ok (op : mux_op) : Prop :=
  match op with
  | OpNewStream draws _ _ | OpRequestBind draws _ _ _ => Forall valid_draw draws
  | _ => True
  end.

Fixpoint run_ops (ops : list mux_op) (x : Mux) : Mux :=
  match ops with
  | [] => x
  | op :: rest => run_ops rest (run_op op x).1
  end.

Lemma preserves_ignore {A} (m : @M C O W S A) : preserves m -> preserves (ignore_result m).
Proof. intros Hm x Hx. unfold ignore_result. specialize (Hm x Hx). now destruct (m x) as [x' []]. Qed.

Lemma preserves_run_op op : ws_typed -> op_ok op -> preserves (run_op op).
Proof.
  intros Ht Hop. destruct op; cbn [run_op].
  - now apply preserves_run_branch.
  - destruct p; try apply preserves_ret; [apply preserves_send_to_user|apply preserves_send_bind_request].
  - now apply preserves_start.
  - now apply preserves_ignore, preserves_new_stream_attempt.
  - apply preserves_ignore, preserves_await_stream.
  - apply preserves_cancel_new_stream.
  - now apply preserves_ignore, preserves_bind_attempt.
  - apply preserves_ignore, preserves_await_bind.
  - apply preserves_ignore, preserves_accept.
  - apply preserves_ignore, preserves_get_datagram.
  - apply preserves_ignore, preserves_next_bind.
  - apply preserves_send_datagram.
  - apply preserves_bind_reply.
  - apply preserves_bind_drop.
  - apply preserves_ignore, preserves_on_stream, poll_read_ctx_step.
  - apply preserves_ignore, preserves_on_stream. intros. apply poll_write_step.
  - apply preserves_ignore, preserves_on_stream, shutdown_step.
  - apply preserves_drop_stream.
  - apply preserves_mux_drop.
Qed.

Lemma preserves_run_ops ops x : ws_typed -> Forall op_ok ops -> mux_wf x -> mux_wf (run_ops ops x).
Proof.
  intros Hws Hops. revert x. induction Hops as [|op ops Hop _ IH]; intros x Hwf; [easy|].
  cbn [run_ops]. apply IH. now apply preserves_run_op.
Qed.

Lemma mux_new_wf ws o x :
  0 < opt_rwnd (default options_new o) < 2 ^ 32 -> u32_ok (opt_default_rwnd_threshold (default options_new o)) ->
  mux_new ws o = Ok x -> mux_wf x /\ mx_flows x = ∅.
Proof.
  intros Hr Ht H. unfold mux_new in H. cbn in H.
  destruct (opt_datagram_buffer_size _ =? 0); cbn in H; [easy|].
  destruct (opt_stream_buffer_size _ =? 0); cbn in H; [easy|]. inj H.
  split; [|easy]. split; cbn; try easy; try apply table_empty.
  now rewrite !view_unbounded.
Qed.

End Inv.
