(* ===== verification/Bounds.v ===== *)
(** * What a multiplexor can hold

    The queues a multiplexor keeps for its users and the streams it hands out
    never outgrow the sizes it was made with, and nothing changes the sizes:
    every call, every frame and every end of the task keeps them. *)

From S2P Require Import Prelude Runtime Frame Timing Config Stream Mux MuxInv.

(** ** Definitions *)

Section Fits.
Context {C : Type -> Type} `{!Mpsc C} {O : Type -> Type} `{!Oneshot O} {W : Type} `{!Waker W} {S : Type} `{!WebSocket S}.

#[local] Abbreviation Mux := (Mux C O W S).

(** A queue as large as it was, and no fuller than it can be. *)
Definition same_size {A} (q q' : C A) : Prop :=
  capacity q' = capacity q /\ (chan_bounded (chan_view q) -> chan_bounded (chan_view q')).

(** The sizes of a multiplexor. *)
Record fits (x x' : Mux) : Prop := {
  ft_streams : same_size (mx_con_recv x) (mx_con_recv x');
  ft_datagrams : same_size (mx_datagrams x) (mx_datagrams x');
  ft_binds : option_Forall2 same_size (mx_bnd x) (mx_bnd x');
  ft_rwnd : mx_rwnd x' = mx_rwnd x;
  ft_threshold : mx_default_rwnd_threshold x' = mx_default_rwnd_threshold x;
  ft_retries : mx_max_flow_id_retries x' = mx_max_flow_id_retries x;
}.

Definition fitting {A} (m : @M C O W S A) : Prop := forall x, fits x (m x).1.

(** How many items a queue holds. *)
Definition occupancy {A} (q : C A) : Z := Z.of_nat (length (queue q)).

(** Made with [o], and nothing beyond that in any queue or window. *)
Record within (o : Options) (x : Mux) : Prop := {
  wi_streams : occupancy (mx_con_recv x) <= opt_stream_buffer_size o;
  wi_datagrams : occupancy (mx_datagrams x) <= opt_datagram_buffer_size o;
  wi_binds : match mx_bnd x with
             | Some q => occupancy q <= opt_bind_buffer_size o
             | None => opt_bind_buffer_size o = 0
             end;
  wi_rwnd : mx_rwnd x = opt_rwnd o;
  wi_threshold : mx_default_rwnd_threshold x = opt_default_rwnd_threshold o;
  wi_frames : map_Forall (fun _ c => occupancy (sh_frames c) <= opt_rwnd o) (mx_cells x);
  wi_windows : map_Forall (fun _ c => 0 <= sh_psh_send_remaining c < 2 ^ 32) (mx_cells x);
  wi_flows : map_Forall (fun id _ => 0 <= id < 2 ^ 32) (mx_flows x);
}.

(** ** Lemmas *)

(** *** Queues *)

Lemma size_refl {A} (q : C A) : same_size q q.
Proof. easy. Qed.

Lemma size_trans {A} (p q r : C A) : same_size p q -> same_size q r -> same_size p r.
Proof. intros [H1 H2] [H3 H4]. split; [congruence|auto]. Qed.

Lemma size_send {A} (a : A) (q : C A) : same_size q (try_send a q).1.
Proof.
  unfold same_size. rewrite view_try_send. destruct (spec_send_flags a (chan_view q)) as (_ & _ & ->). split; [easy|apply spec_send_bounded].
Qed.

Lemma size_recv {A} (q : C A) : same_size q (poll_recv q).1.
Proof.
  unfold same_size. rewrite view_poll_recv. destruct (spec_recv_flags (chan_view q)) as (_ & _ & ->). split; [easy|apply spec_recv_bounded].
Qed.

Lemma size_tx_drop {A} (q : C A) : same_size q (tx_drop q).
Proof. unfold same_size. now rewrite view_tx_drop. Qed.

Lemma size_rx_drop {A} (q : C A) : same_size q (rx_drop q).
Proof. unfold same_size. rewrite view_rx_drop. split; [easy|]. unfold chan_bounded. cbn. destruct (cs_cap _); [lia|easy]. Qed.

Lemma sizes_refl {A} (q : option (C A)) : option_Forall2 same_size q q.
Proof. destruct q; constructor. apply size_refl. Qed.

(** *** Steps *)

Lemma fits_refl x : fits x x.
Proof. split; auto using size_refl, sizes_refl. Qed.

Lemma fits_trans x y z : fits x y -> fits y z -> fits x z.
Proof.
  intros [A1 A2 A3 A4 A5 A6] [B1 B2 B3 B4 B5 B6]. split; [eauto using size_trans..| |congruence|congruence|congruence].
  destruct A3 as [p q H|]; inversion B3; constructor. eauto using size_trans.
Qed.

#[export] Instance fits_preorder : PreOrder fits.
Proof. split; [exact fits_refl|exact fits_trans]. Qed.

(** Only the queues and the parameters count. *)
Lemma fits_same (x x' : Mux) :
  mx_con_recv x' = mx_con_recv x -> mx_datagrams x' = mx_datagrams x -> mx_bnd x' = mx_bnd x -> mx_rwnd x' = mx_rwnd x ->
  mx_default_rwnd_threshold x' = mx_default_rwnd_threshold x -> mx_max_flow_id_retries x' = mx_max_flow_id_retries x -> fits x x'.
Proof. intros H1 H2 H3 H4 H5 H6. split; rewrite ?H1, ?H2, ?H3; auto using size_refl, sizes_refl. Qed.

Lemma fits_queues (x : Mux) r d b :
  same_size (mx_con_recv x) r -> same_size (mx_datagrams x) d -> option_Forall2 same_size (mx_bnd x) b -> fits x (set_queues x r d b).
Proof. intros. now split. Qed.

(** *** Computations *)

Lemma fitting_ret {A} (a : A) : fitting (mret a).
Proof. intros x. apply fits_refl. Qed.
Lemma fitting_throw {A} e : fitting (@throw C O W S A e).
Proof. intros x. apply fits_refl. Qed.
Lemma fitting_park {A} p : fitting (@park C O W S A p).
Proof. intros x. apply fits_refl. Qed.
Lemma fitting_lift {A} (r : res Error A) : fitting (lift r).
Proof. intros x. apply fits_refl. Qed.
Lemma fitting_get : fitting get.
Proof. intros x. apply fits_refl. Qed.

Lemma fitting_bind {A B} (m : @M C O W S A) (k : A -> @M C O W S B) : fitting m -> (forall a, fitting (k a)) -> fitting (mbind k m).
Proof.
  intros Hm Hk x. unfold mbind, M_bind. specialize (Hm x). destruct (m x) as [x' [a| | |]]; try exact Hm.
  etransitivity; [exact Hm|apply Hk].
Qed.

Lemma fitting_modify f : (forall x, fits x (f x)) -> fitting (modify f).
Proof. intros H x. apply H. Qed.

Lemma fitting_for_each {A} (f : A -> @M C O W S unit) l : (forall a, fitting (f a)) -> fitting (for_each f l).
Proof.
  intros Hf. induction l as [|a l IH]; [apply fitting_ret|]. apply fitting_bind; [apply Hf|]. intros _. apply IH.
Qed.

Lemma fitting_ignore {A} (m : @M C O W S A) : fitting m -> fitting (ignore_result m).
Proof. intros Hm x. unfold ignore_result. specialize (Hm x). now destruct (m x) as [x' []]. Qed.

Lemma fitting_send_frame f : fitting (send_frame f).
Proof. intros x. unfold send_frame. destruct (tx_send f (mx_tx_frame x)). now apply fits_same. Qed.

Lemma fitting_put_flow i s : fitting (put_flow i s).
Proof. intros x. now apply fits_same. Qed.

Lemma fitting_remove_flow i : fitting (remove_flow i).
Proof. intros x. now apply fits_same. Qed.

Lemma fitting_update_cell n f : fitting (update_cell n f).
Proof. intros x. now apply fits_same. Qed.

Lemma fitting_on_stream {A} s (f : Ctx C W -> Ctx C W * A) : fitting (on_stream s f).
Proof. intros x. unfold on_stream. destruct (mx_cells x !! ms_cell s); [|apply fits_refl]. destruct (f _). now apply fits_same. Qed.

Lemma fitting_send_stream_shot n v : fitting (send_stream_shot n v).
Proof.
  intros x. unfold send_stream_shot. destruct (mx_streams_shots x !! n) as [o|]; [|apply fits_refl]. destruct (shot_send v o). now apply fits_same.
Qed.

Lemma fitting_send_bind_shot n v : fitting (send_bind_shot n v).
Proof.
  intros x. unfold send_bind_shot. destruct (mx_bind_shots x !! n) as [o|]; [|apply fits_refl]. destruct (shot_send v o). now apply fits_same.
Qed.

Lemma fitting_disallow_write d : fitting (disallow_write d).
Proof. intros x. now apply fits_same. Qed.

Lemma fitting_dispatch slot data : fitting (dispatch slot data).
Proof.
  intros x. unfold dispatch. destruct slot as [|d|]; try apply fits_refl. destruct (esd_sender d); [|apply fits_refl].
  destruct (mx_cells x !! esd_cell d); [|apply fits_refl]. destruct (try_send _ _). now apply fits_same.
Qed.

Lemma fitting_new_stream_shared i w host port : fitting (new_stream_shared i w host port).
Proof. intros x. unfold new_stream_shared. case_bool; [apply fits_refl|now apply fits_same]. Qed.

End Fits.

Create HintDb fits.
#[export] Hint Resolve fitting_ret fitting_throw fitting_park fitting_lift fitting_get fitting_send_frame fitting_put_flow fitting_remove_flow
  fitting_update_cell fitting_on_stream fitting_send_stream_shot fitting_send_bind_shot fitting_disallow_write fitting_dispatch
  fitting_new_stream_shared : fits.
#[export] Hint Resolve size_refl size_send size_recv size_tx_drop size_rx_drop sizes_refl : fits.

Ltac fits_go :=
  repeat (intros; match goal with
    | |- fitting (mbind _ _) => apply fitting_bind
    | |- fitting (modify _) => apply fitting_modify; intros; now apply fits_same
    | |- fitting (for_each _ _) => apply fitting_for_each
    | |- fitting (ignore_result _) => apply fitting_ignore
    | |- fitting (match ?e with _ => _ end) => destruct e
    | |- fitting _ => solve [auto with fits]
    end).

(** *** Every operation *)

Section Operations.
Context {C : Type -> Type} `{!Mpsc C} {O : Type -> Type} `{!Oneshot O} {W : Type} `{!Waker W} {S : Type} `{!WebSocket S}.

#[local] Abbreviation Mux := (Mux C O W S).
#[local] Abbreviation fitting := (@fitting C _ O W S).

Lemma fitting_disallow_read d : fitting (disallow_read d).
Proof. unfold disallow_read. fits_go. Qed.

Lemma fitting_drop_stream s : fitting (drop_stream s).
Proof. unfold drop_stream. fits_go. Qed.

#[local] Hint Resolve fitting_disallow_read fitting_drop_stream : fits.

Lemma fitting_close_port_local s i inhibit : fitting (close_port_local s i inhibit).
Proof. unfold close_port_local. fits_go. Qed.

#[local] Hint Resolve fitting_close_port_local : fits.

Lemma fitting_close_port i inhibit : fitting (close_port i inhibit).
Proof. unfold close_port. fits_go. Qed.

Lemma fitting_send_to_user s : fitting (send_to_user s).
Proof.
  intros x. unfold send_to_user. pose proof (size_send s (mx_con_recv x)) as H. destruct (try_send s (mx_con_recv x)) as [q [[]|]].
  - apply fits_refl.
  - apply (fitting_bind (drop_stream s) (fun _ => throw SendStreamToClient)); auto with fits.
  - apply fits_queues; auto with fits.
Qed.

#[local] Hint Resolve fitting_close_port fitting_send_to_user : fits.

Lemma fitting_con_recv i host port w : fitting (con_recv_new_stream i host port w).
Proof. unfold con_recv_new_stream. fits_go. Qed.

Lemma fitting_ack_recv i w : fitting (ack_recv_new_stream i w).
Proof. unfold ack_recv_new_stream. fits_go. Qed.

Lemma fitting_bind_reply r accepted : fitting (bind_reply r accepted).
Proof. unfold bind_reply. fits_go. Qed.

Lemma fitting_bind_drop r : fitting (bind_drop r).
Proof. intros x. unfold bind_drop. pose proof (fitting_bind_reply r false x) as H. now destruct (bind_reply r false x) as [x' []]. Qed.

#[local] Hint Resolve fitting_con_recv fitting_ack_recv fitting_bind_reply fitting_bind_drop : fits.

Lemma fitting_send_bind_request r : fitting (send_bind_request r).
Proof.
  intros x. unfold send_bind_request. destruct (mx_bnd x) as [q|] eqn:Hq; [|apply fits_refl].
  pose proof (size_send r q) as H. destruct (try_send r q) as [q' [[]|]]; [apply fits_refl|apply fitting_bind_drop|].
  apply fits_queues; auto with fits. rewrite Hq. now constructor.
Qed.

#[local] Hint Resolve fitting_send_bind_request : fits.

Lemma fitting_process_frame f ignore : fitting (process_frame f ignore).
Proof.
  unfold process_frame, acknowledge. destruct (frame_payload f) as [c|n| | |data|b|dg]; try solve [fits_go].
  intros x. rewrite bind_get. set (d := MkMuxDatagram _ _ _ _). pose proof (size_send d (mx_datagrams x)) as H.
  destruct (try_send d (mx_datagrams x)) as [q [[]|]]; [apply fits_refl..|]. apply fits_queues; auto with fits.
Qed.

#[local] Hint Resolve fitting_process_frame : fits.

Lemma fitting_process_message msg ignore : fitting (process_message msg ignore).
Proof. unfold process_message. fits_go. Qed.

Lemma fitting_ws_await {A} polls (p : S -> S * poll A) : fitting (ws_await polls p).
Proof.
  induction polls as [|n IH]; [apply fitting_park|]. intros x. cbn. destruct (p (mx_ws x)) as [ws [a|]]; [now apply fits_same|].
  transitivity (set_ws x ws); [now apply fits_same|apply IH].
Qed.

Lemma fitting_ws_send m : fitting (ws_start_send_m m).
Proof. intros x. unfold ws_start_send_m. destruct (ws_start_send m (mx_ws x)). now apply fits_same. Qed.

#[local] Hint Resolve fitting_process_message fitting_ws_await fitting_ws_send : fits.

Lemma fitting_dropped_ports fuel : fitting (process_dropped_ports_task fuel).
Proof.
  induction fuel as [|n IH]; [apply fitting_park|]. intros x. cbn [process_dropped_ports_task].
  destruct (poll_recv (mx_dropped_ports x)) as [q [[j|]|]]; try now apply fits_same. transitivity (set_dropped x q); [now apply fits_same|].
  case_bool; [apply fits_refl|]. apply (fitting_bind (close_port j false)); auto with fits.
Qed.

Lemma fitting_frame_recv polls ticks : fitting (process_frame_recv_task polls ticks).
Proof.
  induction ticks as [|tick ticks IH]; [apply fitting_park|]. cbn [process_frame_recv_task]. apply fitting_bind; [|fits_go].
  intros x. unfold poll_reserve_space_recv_frame. destruct (ws_poll_ready (mx_ws x)) as [ws [[| |]|]]; try now apply fits_same.
  cbn [mx_tx_frame set_ws]. destruct (poll_recv (mx_tx_frame x)) as [q [[e|]|]]; try now apply fits_same.
  transitivity (set_tx (set_ws x ws) q); [now apply fits_same|].
  assert (H : fitting (r ← ws_start_send_m (MsgBinary e); _ ← lift r; mret (Ready tt))) by fits_go. apply H.
Qed.

Lemma fitting_ws_next polls fuel : fitting (process_ws_next polls fuel).
Proof. induction fuel as [|n IH]; [apply fitting_park|]. cbn [process_ws_next]. fits_go. Qed.

Lemma fitting_drain_frames polls fuel : fitting (drain_frames polls fuel).
Proof.
  induction fuel as [|n IH]; [apply fitting_park|]. intros x. cbn [drain_frames].
  destruct (poll_recv (mx_tx_frame x)) as [q [[e|]|]]; try now apply fits_same. transitivity (set_tx x q); [now apply fits_same|].
  match goal with |- fits _ (?m _).1 => assert (H : fitting m) by fits_go; apply H end.
Qed.

Lemma fitting_drain_source polls fuel : fitting (drain_source polls fuel).
Proof. induction fuel as [|n IH]; [apply fitting_park|]. cbn [drain_source]. fits_go. Qed.

#[local] Hint Resolve fitting_dropped_ports fitting_frame_recv fitting_ws_next fitting_drain_frames fitting_drain_source : fits.

Lemma fitting_wind_down polls fuel drain : fitting (wind_down polls fuel drain).
Proof. unfold wind_down, drain_flows, disallow_write_slot. fits_go. Qed.

Lemma fitting_after_select polls fuel br others : fitting (after_select polls fuel br others).
Proof. unfold after_select, cancel. pose proof fitting_wind_down. fits_go. Qed.

Lemma fits_task_exit (x : Mux) : fits x (task_exit x).
Proof. split; try easy; cbn; auto with fits. destruct (mx_bnd x); constructor. auto with fits. Qed.

Lemma fitting_start polls fuel br others : fitting (start polls fuel br others).
Proof.
  intros x. unfold start. assert (H1 : fits x (run_branch polls fuel br x).1) by (destruct br; cbn [run_branch]; [apply fitting_dropped_ports|apply fitting_frame_recv|apply fitting_ws_next]).
  destruct (run_branch polls fuel br x) as [x1 r]. cbn [fst] in H1. pose proof (fitting_after_select polls fuel br others x1) as H2.
  pose proof (fits_trans _ _ _ H1 H2) as H3. destruct (after_select polls fuel br others x1) as [x2 w]. cbn [fst] in *.
  pose proof (fits_trans _ _ _ H3 (fits_task_exit x2)) as H4. destruct r; try exact H1; destruct w; auto.
Qed.

Lemma fitting_mux_drop : fitting mux_drop.
Proof.
  unfold mux_drop. apply fitting_bind; [fits_go|]. intros _. apply fitting_bind; [fits_go|]. intros x.
  apply fitting_bind; [|fits_go]. apply fitting_modify. intros y. apply fits_queues; auto with fits.
  destruct (mx_bnd y); constructor. auto with fits.
Qed.

Lemma fitting_run_op op : fitting (run_op op).
Proof.
  destruct op; cbn [run_op]; auto using fitting_start, fitting_mux_drop with fits.
  - destruct br; cbn [run_branch]; auto with fits.
  - destruct p; auto with fits.
  - unfold new_stream_attempt. fits_go.
  - apply fitting_ignore. intros x. unfold await_stream_shot. destruct (mx_streams_shots x !! shot) as [o|]; [|apply fits_refl].
    destruct (shot_recv o) as [[v|]|]; now apply fits_same.
  - intros x. unfold cancel_new_stream. set (x' := set_shots _ _ _ _). assert (H : fits x x') by now apply fits_same.
    destruct (mx_streams_shots x !! shot) as [o|]; [|exact H]. destruct (shot_recv o) as [[[s|]|]|]; try exact H.
    transitivity x'; [exact H|apply fitting_drop_stream].
  - unfold request_bind_attempt. fits_go.
  - apply fitting_ignore. intros x. unfold await_bind_shot. destruct (mx_bind_shots x !! shot) as [o|]; [|apply fits_refl].
    destruct (shot_recv o) as [[v|]|]; now apply fits_same.
  - apply fitting_ignore. intros x. unfold accept_stream_channel. pose proof (size_recv (mx_con_recv x)) as H.
    destruct (poll_recv (mx_con_recv x)) as [q r]. apply fits_queues; auto with fits.
  - apply fitting_ignore. intros x. unfold get_datagram. pose proof (size_recv (mx_datagrams x)) as H.
    destruct (poll_recv (mx_datagrams x)) as [q r]. apply fits_queues; auto with fits.
  - apply fitting_ignore. intros x. unfold next_bind_request. destruct (mx_bnd x) as [q|] eqn:Hq; [|apply fits_refl].
    pose proof (size_recv q) as H. destruct (poll_recv q) as [q' r]. apply fits_queues; auto with fits. rewrite Hq. now constructor.
  - unfold send_datagram. fits_go.
  - apply fitting_ignore. auto with fits.
  - apply fitting_ignore. auto with fits.
  - apply fitting_ignore. auto with fits.
Qed.

Lemma fits_run_ops ops (x : Mux) : fits x (run_ops ops x).
Proof.
  revert x. induction ops as [|op ops IH]; intros x; [apply fits_refl|]. cbn [run_ops]. transitivity (run_op op x).1; [apply fitting_run_op|apply IH].
Qed.

(** *** The sizes a multiplexor is made with *)

Lemma same_size_occupancy {A} (q q' : C A) n :
  chan_view q = ChanState [] (Some n) true true -> same_size q q' -> occupancy q' <= Z.of_nat n.
Proof.
  intros Hq [Hc Hb]. rewrite Hq in *. unfold chan_bounded in Hb. cbn in Hc, Hb. rewrite Hc in Hb. unfold occupancy. specialize (Hb ltac:(lia)). lia.
Qed.

Lemma cell_ok_occupancy rwnd (c : Shared C W) : 0 <= rwnd -> cell_ok rwnd c -> occupancy (sh_frames c) <= rwnd /\ 0 <= sh_psh_send_remaining c < 2 ^ 32.
Proof. intros Hr (Hu & Hc & Hb). unfold chan_bounded in Hb. rewrite Hc in Hb. unfold occupancy. unfold in_width in Hu. lia. Qed.

Lemma mux_new_sizes ws options x ops :
  mux_new ws options = Ok x ->
  let o := default options_new options in
  let y := run_ops ops x in
  opt_stream_buffer_size o <> 0 /\ opt_datagram_buffer_size o <> 0
  /\ same_size (channel (Z.to_nat (opt_stream_buffer_size o))) (mx_con_recv y)
  /\ same_size (channel (Z.to_nat (opt_datagram_buffer_size o))) (mx_datagrams y)
  /\ option_Forall2 same_size (if 0 <? opt_bind_buffer_size o then Some (channel (Z.to_nat (opt_bind_buffer_size o))) else None) (mx_bnd y)
  /\ mx_rwnd y = opt_rwnd o /\ mx_default_rwnd_threshold y = opt_default_rwnd_threshold o.
Proof.
  intros Hx o y. destruct (fits_run_ops ops x) as [F1 F2 F3 F4 F5 _]. fold y in F1, F2, F3, F4, F5.
  assert (Hok : forall a b : Mux, Ok a = Ok b :> res unit Mux -> a = b) by congruence.
  unfold mux_new in Hx. cbn in Hx. fold o in Hx. destruct (Z.eqb_spec (opt_datagram_buffer_size o) 0); cbn in Hx; [easy|].
  destruct (Z.eqb_spec (opt_stream_buffer_size o) 0); cbn in Hx; [easy|]. apply Hok in Hx. subst x. now split_and!.
Qed.

End Operations.

(** ** Properties *)

(** C7: what a multiplexor holds is bounded by the options it was made with,
    along every run of its task, of users and of streams, the winding down
    included: streams and bind requests that wait for a user, datagrams, the
    frames that wait in each stream - never more than the receive window the
    peer was granted, acknowledged or not - and every window and identifier is
    of 32 bits.  A multiplexor for which no bind requests are to wait never
    gets a queue for them.  Only the queue of outgoing frames has no bound. *)
Theorem buffers_bounded {C : Type -> Type} `{!Mpsc C} {O : Type -> Type} `{!Oneshot O}
    {W : Type} `{!Waker W} {S : Type} `{!WebSocket S}
    (ws : S) (options : option Options) (x : Mux C O W S) (ops : list mux_op) :
  let o := default options_new options in
  mux_new ws options = Ok x ->
  0 <= opt_datagram_buffer_size o -> 0 <= opt_stream_buffer_size o -> 0 <= opt_bind_buffer_size o ->
  0 < opt_rwnd o < 2 ^ 32 -> u32_ok (opt_default_rwnd_threshold o) ->
  ws_typed (S := S) -> Forall op_ok ops ->
  within o (run_ops ops x).
Proof.
  intros o Hx Hd Hs Hb Hr Ht Hws Hops. destruct (mux_new_wf ws options x Hr Ht Hx) as [Hwf _].
  destruct (preserves_run_ops ops x Hws Hops Hwf) as [Hids _ _ _ Hcells _ _].
  destruct (mux_new_sizes ws options x ops Hx) as (_ & _ & F1 & F2 & F3 & F4 & F5). fold o in F1, F2, F3, F4, F5.
  set (y := run_ops ops x) in *. rewrite F4 in Hcells. split; [| | |exact F4|exact F5| | |exact Hids].
  - apply (same_size_occupancy _ _ _ (view_channel _ _)) in F1. lia.
  - apply (same_size_occupancy _ _ _ (view_channel _ _)) in F2. lia.
  - destruct (Z.ltb_spec 0 (opt_bind_buffer_size o)); inversion F3 as [q q' H1 Hq E|Hq E]; [|lia].
    apply (same_size_occupancy _ _ _ (view_channel _ _)) in H1. lia.
  - intros n c Hc. apply (cell_ok_occupancy (opt_rwnd o)); [lia|exact (Hcells n c Hc)].
  - intros n c Hc. apply (cell_ok_occupancy (opt_rwnd o)); [lia|exact (Hcells n c Hc)].
Qed.

(** Two streams, one datagram, windows of three frames and no bind requests;
    and a peer that asks for three streams, after two datagrams. *)
Definition small : Options := MkOptions optional_duration_none 1 2 0 3 3 2.

Definition script : list bytes :=
  Eval vm_compute in
    flat_map (fun f => match frame_to_vec f with Ok bs => [bs] | _ => [] end)
      [new_datagram_owned 9 [] 53 [1; 2; 3; 4]; new_datagram_owned 9 [] 53 [5; 6; 7; 8];
       new_connect [] 80 1 4; new_connect [] 80 2 4; new_connect [] 80 3 4].

#[local] Instance script_ws : WebSocket nat := {
  ws_poll_ready n := (n, Ready (Ok tt));
  ws_start_send m n := (n, Ok tt);
  ws_poll_flush n := (n, Ready (Ok tt));
  ws_poll_close n := (n, Ready (Ok tt));
  ws_poll_next n := (S n, Ready (match script !! n with Some bs => Some (Ok (MsgBinary bs)) | None => None end));
}.

Definition small_mux : Mux chan_state shot_state bool nat :=
  MkMux ∅ ∅ 0 ∅ ∅ 0 unbounded_channel unbounded_channel (channel 2) (channel 1) None 0%nat 3 2 3.

Definition asked : Mux chan_state shot_state bool nat := run_ops [OpBranch 1 9 WsNextBranch] small_mux.

Lemma buffers_bounded_witness : within small asked /\ occupancy (mx_con_recv asked) = 2 /\ occupancy (mx_datagrams asked) = 1 /\ mx_bnd asked = None.
Proof.
  split; [|vm_compute; repeat split; reflexivity].
  refine (buffers_bounded 0%nat (Some small) small_mux [OpBranch 1 9 WsNextBranch] eq_refl _ _ _ _ _ _ _); try (cbn; lia).
  - split; reflexivity || discriminate.
  - intros n data H. cbn in H. destruct (script !! n) as [bs|] eqn:Hs; [|easy].
    assert (Hok : Forall bytes_ok script) by (repeat constructor; unfold in_width; lia).
    rewrite Forall_lookup in Hok. specialize (Hok n bs Hs). congruence.
  - repeat constructor.
Defined.
