(* ===== verification/MuxProps.v ===== *)
(** * What the multiplexor guarantees

    The properties of [Mux.v]: the invariant along every run, the effect of
    each kind of frame on the flow it names and on no other, the handshake,
    the release of everything on winding down, and the corner cases in which
    one flow brings the whole multiplexor down. *)

From S2P Require Import Prelude Runtime Frame Timing Config Stream Mux MuxInv.

Section MuxLemmas.
Context {C : Type -> Type} `{!Mpsc C} {O : Type -> Type} `{!Oneshot O}
    {W : Type} `{!Waker W} {S : Type} `{!WebSocket S}.

#[local] Abbreviation Mux := (Mux C O W S).

(** ** Lemmas *)

(** The frame queue of a task that still runs. *)
Definition mux_live (x : Mux) : Prop := rx_open (mx_tx_frame x) = true /\ capacity (mx_tx_frame x) = None.

Lemma send_frame_live f (x : Mux) :
  encodable f -> mux_live x ->
  exists t, send_frame f x = (set_tx x t, Ret true) /\ queue t = queue (mx_tx_frame x) ++ [encoded f]
    /\ rx_open t = true /\ capacity t = None.
Proof.
  intros He [Ho Hc]. unfold send_frame. destruct (tx_send_spec f (mx_tx_frame x) He Hc) as (Hq & Hr & Hc' & Hres).
  rewrite Ho in *. destruct (tx_send f (mx_tx_frame x)) as [t e]. cbn in *. subst e. exists t. auto.
Qed.

(** Nothing but the cell [n], the frame queue and the queue of dropped ports
    differs. *)
Definition only_cell (n : nat) (x x' : Mux) : Prop :=
  mx_flows x' = mx_flows x /\ mx_streams_shots x' = mx_streams_shots x /\ mx_bind_shots x' = mx_bind_shots x
  /\ forall k, k <> n -> mx_cells x' !! k = mx_cells x !! k.

Lemma only_cell_trans n x y z : only_cell n x y -> only_cell n y z -> only_cell n x z.
Proof.
  intros (? & ? & ? & Hc1) (? & ? & ? & Hc2). split_and!; [congruence..|].
  intros k Hk. now rewrite Hc2, Hc1.
Qed.

Lemma only_cell_send n f (x : Mux) : only_cell n x (send_frame f x).1.
Proof. unfold send_frame. now destruct (tx_send _ _). Qed.

Lemma only_cell_drop s (x : Mux) : only_cell (ms_cell s) x (drop_stream s x).1.
Proof.
  unfold drop_stream, mbind, M_bind, on_stream. destruct (mx_cells x !! ms_cell s); [|easy]. cbn.
  split_and!; [easy..|]. intros k Hk. now apply lookup_insert_ne.
Qed.

Lemma only_cell_bind {A B} n (m : @M C O W S A) (k : A -> @M C O W S B) (x : Mux) :
  only_cell n x (m x).1 -> (forall a y, only_cell n y (k a y).1) -> only_cell n x (mbind k m x).1.
Proof.
  intros Hm Hk. unfold mbind, M_bind. destruct (m x) as [x' [a| | |]]; try exact Hm.
  eapply only_cell_trans; [exact Hm|apply Hk].
Qed.

Lemma only_cell_update n f (x : Mux) : only_cell n x (update_cell n f x).1.
Proof.
  split_and!; [easy..|]. intros k Hk. cbn. now apply lookup_alter_ne.
Qed.

Lemma only_cell_send_to_user s (x : Mux) : only_cell (ms_cell s) x (send_to_user s x).1.
Proof.
  unfold send_to_user. destruct (try_send s (mx_con_recv x)) as [q [[]|]]; [easy| |easy].
  apply only_cell_bind; [apply only_cell_drop|easy].
Qed.

(** What belongs to the other flows. *)
Definition untouched (id : Z) (x x' : Mux) : Prop :=
  forall i s, i <> id -> mx_flows x !! i = Some s ->
    mx_flows x' !! i = Some s
    /\ (forall n, slot_cell s = Some n -> mx_cells x' !! n = mx_cells x !! n)
    /\ (forall n, slot_shot s = Some n -> mx_streams_shots x' !! n = mx_streams_shots x !! n)
    /\ (forall n, slot_bind s = Some n -> mx_bind_shots x' !! n = mx_bind_shots x !! n).

Lemma untouched_cell id n (x x' : Mux) :
  (forall i s, i <> id -> mx_flows x !! i = Some s -> slot_cell s <> Some n) ->
  only_cell n x x' -> untouched id x x'.
Proof.
  intros Hn (Hf & Hs & Hb & Hc) i s Hi Hx. rewrite Hf, Hs, Hb. split_and!; try easy.
  intros k Hk. apply Hc. intros ->. now apply (Hn i s).
Qed.

Lemma untouched_trans_cell id n (x y z : Mux) :
  (forall i s, i <> id -> mx_flows x !! i = Some s -> slot_cell s <> Some n) ->
  untouched id x y -> only_cell n y z -> untouched id x z.
Proof.
  intros Hn Hxy (Hf & Hs & Hb & Hc) i s Hi Hx. destruct (Hxy i s Hi Hx) as (Hy & H1 & H2 & H3).
  rewrite Hf, Hs, Hb. split_and!; try easy. intros k Hk. rewrite Hc; [now apply H1|].
  intros ->. now apply (Hn i s).
Qed.

(** The entries of two slots are different. *)
Lemma other_cell (x : Mux) id d i s :
  mux_wf x -> mx_flows x !! id = Some (Established d) -> i <> id -> mx_flows x !! i = Some s ->
  slot_cell s <> Some (esd_cell d).
Proof.
  intros Hx Hid Hi Hs Hc. apply Hi. now apply (tw_inj _ _ _ _ _ _ (wf_cells _ _ Hx) i id s (Established d) (esd_cell d)).
Qed.

Lemma other_shot (x : Mux) id n i s :
  mux_wf x -> mx_flows x !! id = Some (Requested n) -> i <> id -> mx_flows x !! i = Some s -> slot_shot s <> Some n.
Proof.
  intros Hx Hid Hi Hs Hc. apply Hi. now apply (tw_inj _ _ _ _ _ _ (wf_shots _ _ Hx) i id s (Requested n) n).
Qed.

Lemma other_bind (x : Mux) id n i s :
  mux_wf x -> mx_flows x !! id = Some (BindRequested n) -> i <> id -> mx_flows x !! i = Some s -> slot_bind s <> Some n.
Proof.
  intros Hx Hid Hi Hs Hc. apply Hi. now apply (tw_inj _ _ _ _ _ _ (wf_binds _ _ Hx) i id s (BindRequested n) n).
Qed.

(** Nobody owns the next cell yet. *)
Lemma next_cell_free (x : Mux) i s :
  mux_wf x -> mx_flows x !! i = Some s -> slot_cell s <> Some (mx_next_cell x).
Proof.
  intros Hx Hs Hc. destruct (tw_owned _ _ _ _ _ _ (wf_cells _ _ Hx) i s _ Hs Hc) as (c & Hn & _).
  pose proof (tw_fresh _ _ _ _ _ _ (wf_cells _ _ Hx) _ (mk_is_Some _ _ Hn)). lia.
Qed.

Lemma untouched_close (x : Mux) id slot inhibit :
  mux_wf x -> mx_flows x !! id = Some slot -> untouched id x (close_port id inhibit x).1.
Proof.
  intros Hx Hs. unfold close_port, mbind at 1, M_bind at 1, remove_flow. rewrite Hs.
  set (x1 := set_flows x (delete id (mx_flows x))).
  assert (H1 : untouched id x x1).
  { intros i s Hi Hfi. split_and!; [|easy..]. cbn. now rewrite lookup_delete_ne. }
  destruct slot as [n|d|n]; cbn [close_port_local].
  - unfold mbind, M_bind, send_stream_shot. destruct (mx_streams_shots x1 !! n) as [o|]; [|exact H1].
    destruct (shot_send None o) as [o' b]. intros i s Hi Hfi. destruct (H1 i s Hi Hfi) as (? & ? & ? & ?). cbn.
    split_and!; try easy. intros k Hk. rewrite lookup_insert_ne; [easy|]. intros <-. now apply (other_shot x id n i s).
  - eapply (untouched_trans_cell id (esd_cell d)); [|exact H1|].
    + intros i s Hi Hfi. now apply (other_cell x id d i s).
    + apply only_cell_bind.
      * unfold disallow_write. apply (only_cell_bind (A := unit) _ _ (fun _ => mret _)); [apply only_cell_update|easy].
      * intros old y. apply only_cell_bind.
        { case_bool; [|easy]. apply only_cell_bind; [apply only_cell_send|easy]. }
        intros _ z. apply only_cell_bind; [|easy]. unfold disallow_read. destruct (esd_sender d); [|easy].
        apply only_cell_bind; [apply only_cell_update|easy].
  - unfold mbind, M_bind, send_bind_shot. destruct (mx_bind_shots x1 !! n) as [o|]; [|exact H1].
    destruct (shot_send false o) as [o' b]. intros i s Hi Hfi. destruct (H1 i s Hi Hfi) as (? & ? & ? & ?). cbn.
    split_and!; try easy. intros k Hk. rewrite lookup_insert_ne; [easy|]. intros <-. now apply (other_bind x id n i s).
Qed.

Lemma untouched_trans id (x y z : Mux) : untouched id x y -> untouched id y z -> untouched id x z.
Proof.
  intros Hxy Hyz i s Hi Hs. destruct (Hxy i s Hi Hs) as (Hy & A1 & A2 & A3).
  destruct (Hyz i s Hi Hy) as (Hz & B1 & B2 & B3).
  split_and!; [easy|..]; intros n Hn; [rewrite B1|rewrite B2|rewrite B3]; auto.
Qed.

Lemma untouched_refl id (x : Mux) : untouched id x x.
Proof. now intros i s Hi Hs. Qed.

Lemma untouched_send id f (x : Mux) : untouched id x (send_frame f x).1.
Proof. unfold send_frame. destruct (tx_send _ _). now intros i s Hi Hs. Qed.

Lemma untouched_rst id (x : Mux) : untouched id x ((_ ← send_frame (new_reset id); mret tt) x).1.
Proof. unfold mbind, M_bind. pose proof (untouched_send id (new_reset id) x) as H. destruct (send_frame _ x) as [? []]; exact H. Qed.

Lemma untouched_with_new (x : Mux) id w : mux_wf x -> untouched id x (with_new_stream x id w).
Proof.
  intros Hx i s Hi Hs. split_and!; try easy; cbn.
  - now rewrite lookup_insert_ne.
  - intros n Hn. rewrite lookup_insert_ne; [easy|]. intros <-. now apply (next_cell_free x i s).
Qed.

Lemma untouched_con_recv (x : Mux) id host port w :
  mux_wf x -> untouched id x (con_recv_new_stream id host port w x).1.
Proof.
  intros Hx. destruct (mx_flows x !! id) eqn:Hs.
  - unfold con_recv_new_stream. rewrite bind_get. destruct (decide _) as [_|Hd]; [apply untouched_rst|destruct Hd; eauto].
  - rewrite con_recv_new_eq by easy.
    apply (untouched_trans_cell id (mx_next_cell x) x (with_new_stream x id w)).
    + intros i s _ Hfi. now apply next_cell_free with i.
    + now apply untouched_with_new.
    + apply only_cell_bind; [apply only_cell_send|]. intros [] y; [apply only_cell_send_to_user|].
      apply only_cell_bind; [apply (only_cell_drop (new_stream_of x id w host port))|easy].
Qed.

Lemma untouched_ack_recv (x : Mux) id n w :
  mux_wf x -> mx_flows x !! id = Some (Requested n) -> untouched id x (ack_recv_new_stream id w x).1.
Proof.
  intros Hx Hs. destruct (tw_owned _ _ _ _ _ _ (wf_shots _ _ Hx) id _ n Hs eq_refl) as (o & Ho & _).
  rewrite (ack_recv_eq x id n o w) by easy. cbv zeta.
  set (st := new_stream_of x id w [] 0). set (x' := set_shots _ _ _ _).
  assert (H1 : untouched id x x').
  { intros i s Hi Hfi. destruct (untouched_with_new x id w Hx i s Hi Hfi) as (? & ? & ? & ?). split_and!; try easy.
    cbn. intros k Hk. rewrite lookup_insert_ne; [easy|]. intros <-. now apply (other_shot x id n i s). }
  destruct (shot_send _ o).2; [exact H1|].
  apply (untouched_trans_cell id (mx_next_cell x) x x'); [|exact H1|].
  - intros i s _ Hfi. now apply next_cell_free with i.
  - apply only_cell_bind; [apply (only_cell_drop st)|easy].
Qed.

Lemma untouched_finish (x : Mux) id : mux_wf x -> untouched id x (process_frame (MkFrame id Finish) false x).1.
Proof.
  intros Hx. unfold process_frame. cbn [frame_payload frame_id]. rewrite bind_get.
  destruct (mx_flows x !! id) as [[n|d|n]|] eqn:Hs; [| | |apply untouched_rst].
  - unfold mbind at 1, M_bind at 1, remove_flow. unfold mbind at 1, M_bind at 1, modify.
    match goal with |- untouched id x (_ ?y).1 => set (x' := y) end.
    assert (H1 : untouched id x x').
    { intros i s Hi Hfi. split_and!; try easy; cbn; [now rewrite lookup_delete_ne|].
      intros k Hk. rewrite lookup_alter_ne; [easy|]. intros <-. now apply (other_shot x id n i s). }
    eapply untouched_trans; [exact H1|apply untouched_rst].
  - apply (untouched_trans_cell id (esd_cell d) x (set_flows x (<[id := Established (MkEsd false (esd_cell d))]> (mx_flows x)))).
    + intros i s Hi Hfi. now apply (other_cell x id d i s).
    + intros i s Hi Hfi. split_and!; try easy. cbn. now rewrite lookup_insert_ne.
    + unfold mbind, M_bind, disallow_read. destruct d as [[] c]; cbn.
      * split_and!; try easy. intros k Hk. cbn. now apply lookup_alter_ne.
      * now split_and!.
  - unfold mbind, M_bind, remove_flow, send_bind_shot. cbn [mx_bind_shots set_flows].
    assert (H1 : untouched id x (set_flows x (delete id (mx_flows x)))).
    { intros i s Hi Hfi. split_and!; try easy. cbn. now rewrite lookup_delete_ne. }
    destruct (mx_bind_shots x !! n) as [o|]; [|exact H1]. destruct (shot_send true o) as [o' b].
    intros i s Hi Hfi. destruct (H1 i s Hi Hfi) as (? & ? & ? & ?). split_and!; try easy. cbn.
    intros k Hk. rewrite lookup_insert_ne; [easy|]. intros <-. now apply (other_bind x id n i s).
Qed.

Lemma only_cell_dispatch d data (x : Mux) : only_cell (esd_cell d) x (dispatch (Established d) data x).1.
Proof.
  unfold dispatch. destruct (esd_sender d); [|easy]. destruct (mx_cells x !! esd_cell d); [|easy].
  destruct (try_send _ _). split_and!; [easy..|]. intros k Hk. cbn. now apply lookup_insert_ne.
Qed.

Lemma dispatch_wf_flows s data (x : Mux) :
  mux_wf x -> mux_wf (dispatch s data x).1 /\ mx_flows (dispatch s data x).1 = mx_flows x.
Proof.
  intros Hx. split; [now apply preserves_dispatch|].
  unfold dispatch. destruct s as [|d|]; try easy. destruct (esd_sender d); [|easy].
  destruct (mx_cells x !! esd_cell d); [|easy]. now destruct (try_send _ _).
Qed.

Lemma untouched_push (x : Mux) id data :
  mux_wf x -> untouched id x (process_frame (MkFrame id (Push data)) false x).1.
Proof.
  intros Hx. unfold process_frame. cbn [frame_payload frame_id]. rewrite bind_get. unfold mbind at 1, M_bind at 1.
  destruct (mx_flows x !! id) as [slot|] eqn:Hs; [|apply untouched_rst].
  destruct (dispatch_wf_flows slot (cow_into_owned data) x Hx) as [Hwf Hf].
  assert (H1 : untouched id x (dispatch slot (cow_into_owned data) x).1).
  { destruct slot as [|d|]; try apply untouched_refl. apply (untouched_cell id (esd_cell d)).
    - intros i s Hi Hfi. now apply (other_cell x id d i s).
    - apply only_cell_dispatch. }
  destruct (dispatch slot _ x) as [y r]. cbn [fst] in *.
  destruct r as [[[[]|]|]| | |]; try exact H1; apply (untouched_trans id x y); try exact H1; [|apply untouched_rst].
  apply (untouched_close y id slot); [easy|]. now rewrite Hf.
Qed.

Lemma untouched_bind_request id r (x : Mux) : untouched id x (send_bind_request r x).1.
Proof.
  unfold send_bind_request. destruct (mx_bnd x) as [q|]; [|apply untouched_refl].
  destruct (try_send r q) as [q' [[]|]]; [apply untouched_refl| |now intros i s Hi Hs].
  unfold bind_drop, bind_reply, mbind, M_bind. pose proof (untouched_send id (new_reset (br_flow_id r)) x) as H.
  now destruct (send_frame _ x) as [? [[]| | |]].
Qed.

Lemma untouched_process_frame f ignore (x : Mux) :
  mux_wf x -> untouched (frame_id f) x (process_frame f ignore x).1.
Proof.
  intros Hx. destruct f as [id [c|n| | |data|b|dg]]; cbn [frame_id].
  - now apply untouched_con_recv.
  - unfold process_frame. cbn [frame_payload frame_id]. rewrite bind_get.
    destruct (mx_flows x !! id) as [[k|d|k]|] eqn:Hs; try apply untouched_rst; [now apply (untouched_ack_recv x id k)|].
    apply (untouched_cell id (esd_cell d)); [intros i s Hi Hfi; now apply (other_cell x id d i s)|].
    apply only_cell_update.
  - unfold process_frame. cbn [frame_payload frame_id]. destruct (mx_flows x !! id) as [slot|] eqn:Hs.
    + now apply (untouched_close x id slot).
    + unfold close_port, mbind, M_bind, remove_flow. rewrite Hs. intros i s Hi Hfi. split_and!; try easy.
      cbn. now rewrite lookup_delete_ne.
  - exact (untouched_finish x id Hx).
  - exact (untouched_push x id data Hx).
  - unfold process_frame. cbn [frame_payload frame_id]. rewrite bind_get.
    destruct (mx_bnd x); [|apply untouched_rst]. destruct ignore; [apply untouched_refl|apply untouched_bind_request].
  - unfold process_frame. cbn [frame_payload frame_id]. rewrite bind_get.
    destruct (try_send _ (mx_datagrams x)) as [q [[]|]]; now intros i s Hi Hs.
Qed.

(** *** What goes out *)

(** The reply a frame deserves, from the slot its flow identifier names: the
    table of the protocol. *)
Definition expected_reply (x : Mux) (f : Frame) (ignore_bind : bool) : list Frame :=
  let id := frame_id f in
  match frame_payload f, mx_flows x !! id with
  | Connect _, None => [new_acknowledge id (mx_rwnd x)]
  | Connect _, Some _ => [new_reset id]
  | Acknowledge _, (None | Some (BindRequested _)) => [new_reset id]
  | Acknowledge _, _ => []
  | Reset, _ => []
  | Finish, (None | Some (Requested _)) => [new_reset id]
  | Finish, _ => []
  | Push _, Some (Established d) =>
      if esd_sender d then
        match mx_cells x !! esd_cell d with
        | Some c => if rx_open (sh_frames c) && chan_full (chan_view (sh_frames c)) && negb (sh_finish_sent c)
                    then [new_reset id] else []
        | None => [new_reset id]
        end
      else [new_reset id]
  | Push _, _ => [new_reset id]
  | Bind _, _ =>
      match mx_bnd x with
      | None => [new_reset id]
      | Some q => if ignore_bind || rx_open q then [] else [new_reset id]
      end
  | Datagram _, _ => []
  end.

Definition sends (l : list Frame) (x x' : Mux) : Prop :=
  mux_live x -> queue (mx_tx_frame x') = queue (mx_tx_frame x) ++ map encoded l /\ mux_live x'.

Lemma sends_nothing x x' : mx_tx_frame x' = mx_tx_frame x -> sends [] x x'.
Proof. unfold sends, mux_live. intros -> Hx. now rewrite app_nil_r. Qed.

Lemma sends_trans l1 l2 x y z : sends l1 x y -> sends l2 y z -> sends (l1 ++ l2) x z.
Proof.
  intros Hxy Hyz Hx. destruct (Hxy Hx) as [H1 Hy]. destruct (Hyz Hy) as [H2 Hz].
  split; [|easy]. now rewrite H2, H1, map_app, app_assoc.
Qed.

Lemma sends_frame f (x : Mux) : encodable f -> sends [f] x (send_frame f x).1.
Proof.
  intros He Hx. destruct (send_frame_live f x He Hx) as (t & -> & Hq & ? & ?). cbn. now split.
Qed.

Lemma sends_rst id (x : Mux) : sends [new_reset id] x ((_ ← send_frame (new_reset id); mret tt) x).1.
Proof.
  intros Hx. unfold mbind, M_bind. destruct (send_frame_live (new_reset id) x I Hx) as (t & -> & Hq & ? & ?).
  cbn. now split.
Qed.

(** Sending a frame and going on. *)
Lemma sends_then {A} f l (k : bool -> @M C O W S A) (x : Mux) :
  encodable f -> (forall y, mx_cells y = mx_cells x -> sends l y (k true y).1) ->
  sends (f :: l) x (mbind k (send_frame f) x).1.
Proof.
  intros He Hk Hx. unfold mbind, M_bind.
  destruct (send_frame_live f x He Hx) as (t & -> & Hq & Hr & Hc).
  assert (Hs : sends [f] x (set_tx x t)) by (intros _; now split).
  exact (sends_trans [f] l x (set_tx x t) _ Hs (Hk (set_tx x t) eq_refl) Hx).
Qed.

Lemma drop_stream_tx s (x : Mux) : mx_tx_frame (drop_stream s x).1 = mx_tx_frame x.
Proof. unfold drop_stream, mbind, M_bind, on_stream. now destruct (mx_cells x !! ms_cell s). Qed.

Lemma send_to_user_tx s (x : Mux) : mx_tx_frame (send_to_user s x).1 = mx_tx_frame x.
Proof.
  unfold send_to_user. destruct (try_send s (mx_con_recv x)) as [q [[]|]]; try easy.
  unfold mbind, M_bind. pose proof (drop_stream_tx s x) as H. now destruct (drop_stream s x) as [y []].
Qed.

Lemma sends_con_recv (x : Mux) id c :
  mux_wf x ->
  sends (expected_reply x (MkFrame id (Connect c)) false) x
    (process_frame (MkFrame id (Connect c)) false x).1.
Proof.
  intros Hx. unfold process_frame, expected_reply. cbn [frame_payload frame_id].
  destruct (mx_flows x !! id) eqn:Hs.
  - unfold con_recv_new_stream. rewrite bind_get. destruct (decide _) as [_|Hd]; [apply sends_rst|destruct Hd; eauto].
  - rewrite con_recv_new_eq by easy.
    apply (sends_then (new_acknowledge id (mx_rwnd x)) [] _ (with_new_stream x id (con_rwnd c))); [easy|].
    intros y _. apply sends_nothing, send_to_user_tx.
Qed.

Lemma sends_ack (x : Mux) id n :
  mux_wf x ->
  sends (expected_reply x (MkFrame id (Acknowledge n)) false) x
    (process_frame (MkFrame id (Acknowledge n)) false x).1.
Proof.
  intros Hx. unfold process_frame, expected_reply. cbn [frame_payload frame_id]. rewrite bind_get.
  destruct (mx_flows x !! id) as [[k|d|k]|] eqn:Hs; [|now apply sends_nothing|apply sends_rst..].
  destruct (tw_owned _ _ _ _ _ _ (wf_shots _ _ Hx) id _ k Hs eq_refl) as (o & Ho & _).
  rewrite (ack_recv_eq x id k o n) by easy. cbv zeta. apply sends_nothing.
  destruct (shot_send _ o).2; [easy|]. unfold mbind, M_bind.
  match goal with |- context [drop_stream ?s ?y] => pose proof (drop_stream_tx s y) as H; destruct (drop_stream s y) as [z []] end;
    cbn in *; now rewrite H.
Qed.

(** [close_port] on an established stream, step by step. *)
Lemma close_established_eq (x : Mux) id d c inhibit :
  mx_flows x !! id = Some (Established d) -> mx_cells x !! esd_cell d = Some c ->
  close_port id inhibit x
  = (if negb (sh_finish_sent c) && negb inhibit
     then _ ← send_frame (new_reset id); _ ← disallow_read d; mret tt
     else _ ← disallow_read d; mret tt)
      (set_cells (set_flows x (delete id (mx_flows x)))
         (alter disallow_write_cell (esd_cell d) (mx_cells x)) (mx_next_cell x)).
Proof.
  intros Hs Hc. unfold close_port, mbind, M_bind, remove_flow. rewrite Hs. cbn [close_port_local].
  unfold disallow_write, mbind, M_bind. cbn [mx_cells set_flows]. rewrite Hc. unfold update_cell, modify. cbn.
  destruct (negb (sh_finish_sent c) && negb inhibit); [|easy].
  now destruct (send_frame _ _) as [? []].
Qed.

Lemma disallow_read_tx d (x : Mux) : mx_tx_frame ((_ ← disallow_read d; mret tt) x).1 = mx_tx_frame x.
Proof. unfold disallow_read, mbind, M_bind. now destruct (esd_sender d). Qed.

(** Closing a stream answers with [Reset] if it was not finished. *)
Lemma sends_close_established (x : Mux) id d c inhibit :
  mx_flows x !! id = Some (Established d) -> mx_cells x !! esd_cell d = Some c ->
  sends (if negb (sh_finish_sent c) && negb inhibit then [new_reset id] else []) x (close_port id inhibit x).1.
Proof.
  intros Hs Hc. rewrite (close_established_eq x id d c inhibit Hs Hc).
  match goal with |- sends _ x (_ ?y).1 => set (x1 := y) end.
  destruct (negb _ && negb _).
  - apply (sends_then (new_reset id) [] (fun _ => _ ← disallow_read d; mret tt) x1); [easy|].
    intros y _. apply sends_nothing, disallow_read_tx.
  - apply sends_nothing. now rewrite disallow_read_tx.
Qed.

Lemma sends_close_inhibited (x : Mux) id : mux_wf x -> sends [] x (close_port id true x).1.
Proof.
  intros Hx. destruct (mx_flows x !! id) as [[n|d|n]|] eqn:Hs.
  - apply sends_nothing. unfold close_port, mbind, M_bind, remove_flow. rewrite Hs. cbn. unfold mbind, M_bind, send_stream_shot.
    destruct (mx_streams_shots _ !! n); [|easy]. now destruct (shot_send _ _).
  - destruct (tw_owned _ _ _ _ _ _ (wf_cells _ _ Hx) id _ _ Hs eq_refl) as (c & Hc & _).
    pose proof (sends_close_established x id d c true Hs Hc) as H. now rewrite andb_false_r in H.
  - apply sends_nothing. unfold close_port, mbind, M_bind, remove_flow. rewrite Hs. cbn. unfold mbind, M_bind, send_bind_shot.
    destruct (mx_bind_shots _ !! n); [|easy]. now destruct (shot_send _ _).
  - apply sends_nothing. unfold close_port, mbind, M_bind, remove_flow. now rewrite Hs.
Qed.

Lemma sends_finish (x : Mux) id :
  sends (expected_reply x (MkFrame id Finish) false) x (process_frame (MkFrame id Finish) false x).1.
Proof.
  unfold process_frame, expected_reply. cbn [frame_payload frame_id]. rewrite bind_get.
  destruct (mx_flows x !! id) as [[n|d|n]|] eqn:Hs; [| | |apply sends_rst].
  - unfold mbind at 1, M_bind at 1, remove_flow. unfold mbind at 1, M_bind at 1, modify.
    match goal with |- sends _ x (_ ?y).1 => exact (sends_rst id y) end.
  - apply sends_nothing. unfold mbind, M_bind, disallow_read. now destruct (esd_sender d).
  - apply sends_nothing. unfold mbind, M_bind, remove_flow, send_bind_shot.
    destruct (mx_bind_shots _ !! n); [|easy]. now destruct (shot_send _ _).
Qed.

Lemma dispatch_eq d data (x : Mux) c :
  esd_sender d = true -> mx_cells x !! esd_cell d = Some c ->
  dispatch (Established d) data x
  = (set_cells x (<[esd_cell d := set_frames c (try_send data (sh_frames c)).1]> (mx_cells x)) (mx_next_cell x),
     Ret (Some (spec_send data (chan_view (sh_frames c))).2)).
Proof.
  intros Hd Hc. unfold dispatch. rewrite Hd, Hc, <- res_try_send. now destruct (try_send data (sh_frames c)).
Qed.

Lemma sends_push (x : Mux) id data :
  mux_wf x ->
  sends (expected_reply x (MkFrame id (Push data)) false) x (process_frame (MkFrame id (Push data)) false x).1.
Proof.
  intros Hx. unfold process_frame, expected_reply. cbn [frame_payload frame_id]. rewrite bind_get.
  unfold mbind at 1, M_bind at 1.
  destruct (mx_flows x !! id) as [[n|d|n]|] eqn:Hs; try apply sends_rst.
  destruct (esd_sender d) eqn:Hd; [|unfold dispatch; rewrite Hd; apply sends_rst].
  destruct (tw_owned _ _ _ _ _ _ (wf_cells _ _ Hx) id _ _ Hs eq_refl) as (c & Hc & _). rewrite Hc.
  rewrite (dispatch_eq d _ x c Hd Hc). unfold spec_send.
  destruct (rx_open (sh_frames c)) eqn:Ho; cbn [negb andb snd]; [|now apply sends_nothing].
  destruct (chan_full _); cbn [andb snd]; [|now apply sends_nothing].
  match goal with |- sends _ x (_ ?y).1 =>
    pose proof (sends_close_established y id d (set_frames c (try_send (cow_into_owned data) (sh_frames c)).1) false Hs
      ltac:(apply lookup_insert_eq)) as H end.
  cbn [sh_finish_sent set_frames] in H. rewrite andb_true_r in H. exact H.
Qed.

Lemma sends_bind (x : Mux) id b ignore :
  sends (expected_reply x (MkFrame id (Bind b)) ignore) x (process_frame (MkFrame id (Bind b)) ignore x).1.
Proof.
  unfold process_frame, expected_reply. cbn [frame_payload frame_id]. rewrite bind_get.
  destruct (mx_bnd x) as [q|] eqn:Hb; [|apply sends_rst]. destruct ignore; [now apply sends_nothing|]. cbn [orb].
  unfold send_bind_request. rewrite Hb. pose proof (res_try_send _ (MkBindRequest id b) q) as Hr.
  destruct (try_send _ q) as [q' e]. cbn in Hr. unfold spec_send in Hr.
  destruct (rx_open q); cbn in Hr; [destruct (chan_full _); subst e; now apply sends_nothing|].
  subst e. unfold bind_drop, bind_reply, mbind, M_bind. cbn [br_flow_id].
  pose proof (sends_frame (new_reset id) x I) as H. intros Hl.
  destruct (send_frame_live (new_reset id) x I Hl) as (t & Ht & Hrest). rewrite Ht in *. now apply H.
Qed.

Lemma process_frame_ignore f (x : Mux) ignore :
  match frame_payload f with Bind _ => True | _ => process_frame f ignore x = process_frame f false x end.
Proof. unfold process_frame. now destruct (frame_payload f). Qed.

Lemma sends_process_frame (x : Mux) f ignore :
  mux_wf x -> sends (expected_reply x f ignore) x (process_frame f ignore x).1.
Proof.
  intros Hx. destruct f as [id p]. pose proof (process_frame_ignore (MkFrame id p) x ignore) as Hi.
  destruct p as [c|n| | |data|b|dg]; cbn [frame_payload] in Hi; try rewrite Hi.
  - exact (sends_con_recv x id c Hx).
  - exact (sends_ack x id n Hx).
  - exact (sends_close_inhibited x id Hx).
  - exact (sends_finish x id).
  - exact (sends_push x id data Hx).
  - apply sends_bind.
  - unfold process_frame, expected_reply. cbn [frame_payload frame_id]. rewrite bind_get.
    destruct (try_send _ (mx_datagrams x)) as [q [[]|]]; now apply sends_nothing.
Qed.

(** *** Winding down completes *)

(** A peer that went away: every poll of the sink is ready, nothing more comes
    from the source. *)
Definition ws_gone : Prop :=
  (forall s, exists r, (ws_poll_ready s).2 = Ready r /\ r <> Panic)
  /\ (forall m s, (ws_start_send m s).2 <> Panic)
  /\ (forall s, exists r, (ws_poll_close s).2 = Ready r)
  /\ (forall s, (ws_poll_next s).2 = Ready None).

Lemma ws_await_ready {A} polls (p : S -> S * poll A) (x : Mux) a :
  (p (mx_ws x)).2 = Ready a -> ws_await (Datatypes.S polls) p x = (set_ws x (p (mx_ws x)).1, Ret a).
Proof. intros H. cbn. destruct (p (mx_ws x)) as [ws r]. cbn in H. now subst r. Qed.

Lemma drain_frames_ret polls fuel (x : Mux) :
  ws_gone -> rx_open (mx_tx_frame x) = false -> (length (queue (mx_tx_frame x)) < fuel)%nat ->
  exists x', drain_frames (Datatypes.S polls) fuel x = (x', Ret tt).
Proof.
  intros (Hready & Hsend & _ & _). revert x. induction fuel as [|fuel IH]; intros x Ho Hf; [lia|].
  cbn [drain_frames]. pose proof (view_poll_recv _ (mx_tx_frame x)) as Hv. pose proof (res_poll_recv _ (mx_tx_frame x)) as Hr.
  destruct (spec_recv_flags (chan_view (mx_tx_frame x))) as (Hop & _ & _).
  destruct (poll_recv (mx_tx_frame x)) as [q r]. cbn in Hv, Hr. rewrite <- Hv in Hop.
  unfold spec_recv in Hv, Hr. destruct (queue (mx_tx_frame x)) as [|f l] eqn:Hq; cbn in Hv, Hr.
  - rewrite Ho in Hr. cbn in Hr. subst r. eauto.
  - subst r. unfold mbind at 1, M_bind at 1.
    destruct (Hready (mx_ws x)) as (res & Hres & Hnp). rewrite (ws_await_ready polls _ (set_tx x q) res) by exact Hres.
    set (y := set_ws _ _). unfold mbind at 1, M_bind at 1. destruct res as [u|e|]; [|cbn; eauto|easy].
    unfold ws_start_send_m. pose proof (Hsend (MsgBinary f) (mx_ws y)) as Hp.
    destruct (ws_start_send (MsgBinary f) (mx_ws y)) as [ws [| |]]; cbn in Hp; [|cbn; eauto|easy].
    apply IH; cbn; [rewrite Hop; exact Ho|rewrite Hv; cbn in *; lia].
Qed.

Lemma disallow_write_ret d (x : Mux) : exists x' old, disallow_write d x = (x', Ret old)
  /\ mx_tx_frame x' = mx_tx_frame x.
Proof. unfold disallow_write, update_cell, modify. eexists _, _. split; reflexivity. Qed.

Lemma for_each_disallow_ret l (x : Mux) :
  exists x', for_each disallow_write_slot l x = (x', Ret tt) /\ mx_tx_frame x' = mx_tx_frame x.
Proof.
  revert x. induction l as [|[id s] l IH]; intros x; [now exists x|]. cbn [for_each].
  destruct s as [n|d|n]; cbn [disallow_write_slot snd]; try apply IH.
  unfold mbind, M_bind. destruct (disallow_write_ret d x) as (y & old & -> & Hy). cbn.
  destruct (IH y) as (z & Hz & Hzy). rewrite Hz. eexists. split; [reflexivity|congruence].
Qed.

Lemma drain_flows_ret (x : Mux) : exists x', drain_flows x = (x', Ret tt).
Proof.
  unfold drain_flows. rewrite bind_get. unfold mbind, M_bind, modify. generalize (map_to_list (mx_flows x)) as l.
  generalize (set_flows x ∅). clear x. intros x l. revert x.
  induction l as [|[id s] l IH]; intros x; [now exists x|]. cbn [for_each fst snd]. unfold mbind, M_bind.
  destruct (close_port_local_ret s id true x) as (y & ->). apply IH.
Qed.

Lemma drain_source_gone polls fuel (x : Mux) :
  ws_gone -> exists x', drain_source (Datatypes.S polls) (Datatypes.S fuel) x = (x', Ret tt).
Proof.
  intros (_ & _ & _ & Hn). cbn [drain_source]. unfold mbind at 1, M_bind at 1.
  rewrite (ws_await_ready polls _ x None) by apply Hn. cbn. eauto.
Qed.

Lemma drain_flows_empty (x x' : Mux) : drain_flows x = (x', Ret tt) -> mx_flows x' = ∅.
Proof.
  unfold drain_flows. rewrite bind_get. unfold mbind, M_bind, modify. generalize (map_to_list (mx_flows x)) as l.
  assert (H0 : mx_flows (set_flows x ∅) = ∅) by easy. revert H0.
  generalize (set_flows x ∅). clear x. intros x H0 l. revert x H0.
  induction l as [|[id s] l IH]; intros x H0; [now intros [= <-]|]. cbn [for_each fst snd]. unfold mbind, M_bind.
  pose proof (close_port_local_flows s id true x) as Hf. destruct (close_port_local_ret s id true x) as (y & Hy).
  rewrite Hy in *. apply IH. cbn in Hf. congruence.
Qed.

(** After winding down nothing is left to wait for. *)
Definition released (x : Mux) : Prop :=
  mx_flows x = ∅
  /\ (forall n c, mx_cells x !! n = Some c -> tx_open (sh_frames c) = false /\ sh_finish_sent c = true)
  /\ (forall n o, mx_streams_shots x !! n = Some o -> shot_view o <> ShotOpen)
  /\ (forall n o, mx_bind_shots x !! n = Some o -> shot_view o <> ShotOpen).

Lemma wf_empty_released (x : Mux) : mux_wf x -> mx_flows x = ∅ -> released x.
Proof.
  intros [] He. split; [easy|]. rewrite He in *.
  split_and!; intros n r Hn.
  - destruct (tw_orphan _ _ _ _ _ _ wf_cells n r Hn) as [(i & s & Hi & _)|]; [now rewrite lookup_empty in Hi|easy].
  - destruct (tw_orphan _ _ _ _ _ _ wf_shots n r Hn) as [(i & s & Hi & _)|]; [now rewrite lookup_empty in Hi|easy].
  - destruct (tw_orphan _ _ _ _ _ _ wf_binds n r Hn) as [(i & s & Hi & _)|]; [now rewrite lookup_empty in Hi|easy].
Qed.

Lemma wind_down_empty polls fuel drain (x x' : Mux) :
  wind_down polls fuel drain x = (x', Ret tt) -> mx_flows x' = ∅.
Proof.
  unfold wind_down. rewrite bind_get. generalize (map_to_list (mx_flows x)) as l. intros l.
  unfold mbind, M_bind. 
  destruct (for_each disallow_write_slot l x) as [x1 [| | |]]; try easy. unfold modify.
  destruct ((if drain then drain_frames polls fuel else mret tt) _) as [x2 [| | |]]; try easy.
  destruct (ws_await polls ws_poll_close x2) as [x3 [| | |]]; try easy.
  destruct (drain_source polls fuel x3) as [x4 [| | |]]; try easy.
  apply drain_flows_empty.
Qed.

Lemma wind_down_gone polls fuel drain (x : Mux) :
  ws_gone -> (length (queue (mx_tx_frame x)) < Datatypes.S fuel)%nat ->
  exists x', wind_down (Datatypes.S polls) (Datatypes.S fuel) drain x = (x', Ret tt).
Proof.
  intros Hg Hf. unfold wind_down. rewrite bind_get. generalize (map_to_list (mx_flows x)) as l. intros l.
  unfold mbind, M_bind. destruct (for_each_disallow_ret l x) as (x1 & -> & Htx). unfold modify.
  set (y := set_tx x1 _).
  assert (Hy : rx_open (mx_tx_frame y) = false /\ queue (mx_tx_frame y) = queue (mx_tx_frame x)).
  { cbn. rewrite view_rx_close, Htx. easy. }
  assert (H2 : exists x2, (if drain then drain_frames (Datatypes.S polls) (Datatypes.S fuel) else mret tt) y = (x2, Ret tt)).
  { destruct drain; [|now exists y]. apply drain_frames_ret; [easy..|]. now rewrite (proj2 Hy). }
  destruct H2 as (x2 & ->). pose proof Hg as (_ & _ & Hclose & _). destruct (Hclose (mx_ws x2)) as (r & Hr).
  rewrite (ws_await_ready polls _ x2 r Hr).
  match goal with |- context [drain_source _ _ ?z] => destruct (drain_source_gone polls fuel z Hg) as (x3 & ->) end.
  apply drain_flows_ret.
Qed.

(** *** The user's end of things *)

Lemma new_stream_attempt_eq draws host port id (x : Mux) :
  mux_live x -> next_available_key draws (mx_flows x) = Some id ->
  exists t, queue t = queue (mx_tx_frame x) ++ [encoded (new_connect host port id (mx_rwnd x))]
    /\ rx_open t = true /\ capacity t = None
    /\ new_stream_attempt draws host port x
       = (set_tx (set_flows (set_shots x (<[mx_next_shot x := oneshot]> (mx_streams_shots x)) (mx_bind_shots x)
                               (Datatypes.S (mx_next_shot x)))
                    (<[id := Requested (mx_next_shot x)]> (mx_flows x))) t, Ret (mx_next_shot x)).
Proof.
  intros Hl Hk. unfold new_stream_attempt. rewrite bind_get. cbv zeta. rewrite Hk.
  unfold mbind at 1, M_bind at 1, modify at 1. unfold mbind at 1, M_bind at 1, put_flow, modify at 1.
  unfold mbind at 1, M_bind at 1.
  match goal with |- context [send_frame ?f ?y] => destruct (send_frame_live f y I Hl) as (t & -> & Hq & Hr & Hc) end.
  exists t. now split_and!.
Qed.

End MuxLemmas.

(** ** Properties *)

(** *** The concrete multiplexor of the examples *)

Abbreviation TMux := (Mux chan_state shot_state bool MemWs).

Definition empty_mux (ws : MemWs) : TMux :=
  MkMux ∅ ∅ 0 ∅ ∅ 0 unbounded_channel unbounded_channel (channel 16) (channel 512) None ws 512 256 3.

Example mux_new_default ws : mux_new ws None = Ok (empty_mux ws).
Proof. reflexivity. Qed.

(** A peer that went away. *)
Definition gone_ws : WebSocket MemWs := {|
  ws_poll_ready w := (w, Ready (Ok tt));
  ws_start_send m w := (MkMemWs (mw_in w) (mw_out w ++ [m]), Ok tt);
  ws_poll_flush w := (w, Ready (Ok tt));
  ws_poll_close w := (w, Ready (Ok tt));
  ws_poll_next w := (w, Ready None);
|}.

Definition hello : Frame := new_connect (bytes_of_string "host") 80 9 4.

(** A multiplexor with an accepted stream at flow 9, a pending request at 5
    and a pending bind at 6. *)
Definition busy_mux : TMux :=
  ((_ ← process_frame hello false;
   _ ← new_stream_attempt [5] (bytes_of_string "a") 1;
   _ ← request_bind_attempt [6] (bytes_of_string "b") 2 BindStream;
   mret tt) (empty_mux (MkMemWs [] []))).1.

(** C4: from a fresh multiplexor, whatever the task, the user's calls and the
    streams do, in whatever order, every slot of the flow table owns its own
    resource, and a resource no slot owns is resolved: its reader gets end of
    file, its writer [BrokenPipe], its requester an answer.  Windows stay in
    [u32], queues within the receive window, and flow identifiers in [u32]. *)
Theorem mux_invariant {C : Type -> Type} `{!Mpsc C} {O : Type -> Type} `{!Oneshot O}
    {W : Type} `{!Waker W} {S : Type} `{!WebSocket S}
    (ws : S) (options : option Options) (x : Mux C O W S) (ops : list mux_op) :
  mux_new ws options = Ok x ->
  0 < opt_rwnd (default options_new options) < 2 ^ 32 ->
  u32_ok (opt_default_rwnd_threshold (default options_new options)) ->
  ws_typed (S := S) -> Forall op_ok ops ->
  mux_wf (run_ops ops x).
Proof.
  intros Hx Hr Ht Hws Hops. apply preserves_run_ops; [exact Hws|exact Hops|]. now apply (mux_new_wf ws options).
Qed.

Lemma mux_invariant_witness :
  mux_wf (run_ops (WebSocket0 := gone_ws) [OpNewStream [5] (bytes_of_string "a") 1;
                   OpCancelNewStream 0; OpRequestBind [5; 6] (bytes_of_string "b") 2 BindStream;
                   OpBranch 1 2 WsNextBranch; OpMuxDrop; OpStart 1 9 DroppedPortsBranch []]
            (empty_mux (MkMemWs [] []))).
Proof.
  refine (mux_invariant (S := MemWs) (WebSocket0 := gone_ws) (MkMemWs [] []) None _ _ _ _ _ _ _).
  - reflexivity.
  - split; reflexivity.
  - split; [discriminate|reflexivity].
  - intros s data [=].
  - repeat constructor; unfold valid_draw, u32_max; lia.
Defined.

(** C6: when the task winds down and the drain completes, the flow table is
    empty and nothing is left waiting: every reader gets end of file, every
    writer [BrokenPipe], every requester an answer; and the drain does complete
    when the peer has gone, whatever is left in the frame queue. *)
Theorem wind_down_releases {C : Type -> Type} `{!Mpsc C} {O : Type -> Type} `{!Oneshot O}
    {W : Type} `{!Waker W} {S : Type} `{!WebSocket S}
    (polls fuel : nat) (should_drain : bool) (x : Mux C O W S) :
  mux_wf x -> ws_typed (S := S) ->
  match wind_down polls fuel should_drain x with
  | (x', Ret _) => released x'
  | _ => ws_gone (S := S) -> (0 < polls)%nat -> ~ (length (queue (mx_tx_frame x)) < fuel)%nat
  end.
Proof.
  intros Hx Ht. pose proof (preserves_wind_down polls fuel should_drain Ht x Hx) as Hwf.
  assert (Hgone : forall r : Prop, (wind_down polls fuel should_drain x).2 <> Ret tt ->
    ws_gone (S := S) -> (0 < polls)%nat -> (length (queue (mx_tx_frame x)) < fuel)%nat -> r).
  { intros r Hne Hg Hp Hf. destruct polls as [|polls], fuel as [|fuel]; [lia..|].
    destruct (wind_down_gone polls fuel should_drain x Hg Hf) as (x' & Hx'). now rewrite Hx' in Hne. }
  destruct (wind_down polls fuel should_drain x) as [x' [[]| | |]] eqn:He;
    try (intros ? ? ?; now apply Hgone).
  apply wf_empty_released; [exact Hwf|]. now apply (wind_down_empty polls fuel should_drain x).
Qed.

Lemma busy_mux_wf : mux_wf busy_mux.
Proof.
  unfold busy_mux. set (m := _ ← process_frame hello false; _).
  assert (Hm : preserves m).
  { apply preserves_bind; [apply preserves_process_frame|intros _].
    { split; [now split|]. split; [now split|]. split; [now split|]. apply (bytes_of_string_ok "host"). }
    apply preserves_bind; [apply preserves_new_stream_attempt|intros _].
    { repeat constructor; unfold valid_draw, u32_max; lia. }
    apply preserves_bind; [apply preserves_bind_attempt|intros _; apply preserves_ret].
    repeat constructor; unfold valid_draw, u32_max; lia. }
  apply Hm. apply (mux_new_wf (S := MemWs) (MkMemWs [] []) None); [now split|now split|reflexivity].
Qed.

Lemma wind_down_releases_witness :
  size (mx_flows busy_mux) = 3%nat
  /\ mx_flows (wind_down (WebSocket0 := gone_ws) 1 4 true busy_mux).1 = ∅
  /\ match wind_down (WebSocket0 := gone_ws) 1 4 true busy_mux with
     | (x', Ret _) => released x'
     | _ => ws_gone (S := MemWs) (WebSocket0 := gone_ws) -> (0 < 1)%nat ->
            ~ (length (queue (mx_tx_frame busy_mux)) < 4)%nat
     end.
Proof.
  split; [vm_compute; reflexivity|]. split; [vm_compute; reflexivity|].
  apply (wind_down_releases (WebSocket0 := gone_ws) 1 4 true busy_mux).
  - exact busy_mux_wf.
  - intros s data [=].
Defined.

(** C10: a frame only concerns the flow it names: the slot of every other flow
    stays, and so do the cell and the one-shot channel it owns, whatever the
    frame and however processing it ends. *)
Theorem frame_isolation {C : Type -> Type} `{!Mpsc C} {O : Type -> Type} `{!Oneshot O}
    {W : Type} `{!Waker W} {S : Type} (x : Mux C O W S) (f : Frame) (ignore_bind : bool) :
  mux_wf x ->
  forall i s, i <> frame_id f -> mx_flows x !! i = Some s ->
  let x' := (process_frame f ignore_bind x).1 in
  mx_flows x' !! i = Some s
  /\ (forall n, slot_cell s = Some n -> mx_cells x' !! n = mx_cells x !! n)
  /\ (forall n, slot_shot s = Some n -> mx_streams_shots x' !! n = mx_streams_shots x !! n)
  /\ (forall n, slot_bind s = Some n -> mx_bind_shots x' !! n = mx_bind_shots x !! n).
Proof. intros Hx i s Hi Hs. exact (untouched_process_frame f ignore_bind x Hx i s Hi Hs). Qed.

Lemma frame_isolation_witness :
  mx_flows (process_frame (new_reset 5) false busy_mux).1 !! 9 = Some (Established (MkEsd true 0)).
Proof.
  exact (proj1 (frame_isolation busy_mux (new_reset 5) false busy_mux_wf 9 (Established (MkEsd true 0))
    ltac:(easy) ltac:(vm_compute; reflexivity))).
Defined.

(** C11: what goes out in answer to a frame is what the protocol's table says
    ([expected_reply]): at most one frame, for the same flow, an [Acknowledge]
    of the receive window for a new flow and a [Reset] otherwise; in particular
    a [Reset] is never answered. *)
Theorem frame_replies {C : Type -> Type} `{!Mpsc C} {O : Type -> Type} `{!Oneshot O}
    {W : Type} `{!Waker W} {S : Type} (x : Mux C O W S) (f : Frame) (ignore_bind : bool) :
  mux_wf x -> mux_live x ->
  queue (mx_tx_frame (process_frame f ignore_bind x).1)
  = queue (mx_tx_frame x) ++ map encoded (expected_reply x f ignore_bind)
  /\ (length (expected_reply x f ignore_bind) <= 1)%nat
  /\ Forall (fun r => frame_id r = frame_id f) (expected_reply x f ignore_bind)
  /\ (frame_payload f = Reset -> expected_reply x f ignore_bind = []).
Proof.
  intros Hx Hl. split; [exact (proj1 (sends_process_frame x f ignore_bind Hx Hl))|].
  unfold expected_reply.
  destruct f as [id []]; cbn; destruct (mx_flows x !! id) as [[n'|d|n']|]; try destruct (esd_sender d);
    try destruct (mx_cells x !! esd_cell d); try destruct (mx_bnd x); repeat case_bool;
    cbn; split_and!; auto; easy.
Qed.

Lemma frame_replies_witness :
  expected_reply busy_mux (new_acknowledge 6 1) false = [new_reset 6]
  /\ queue (mx_tx_frame (process_frame (new_acknowledge 6 1) false busy_mux).1)
     = queue (mx_tx_frame busy_mux) ++ map encoded (expected_reply busy_mux (new_acknowledge 6 1) false).
Proof.
  split; [vm_compute; reflexivity|].
  exact (proj1 (frame_replies busy_mux (new_acknowledge 6 1) false busy_mux_wf
    (conj (eq_refl true) (eq_refl None)))).
Defined.

(** C12: [Connect].  On a free flow identifier the stream is in the table,
    with the peer's window as its send window, an empty queue of our window and
    the smaller of the two thresholds, and the [Acknowledge] carries our window;
    the stream then goes to the user, or waits for room there, or finds the
    user gone, which is an error.  On a used identifier nothing changes but the
    [Reset] that is sent. *)
Theorem connect_effect {C : Type -> Type} `{!Mpsc C} {O : Type -> Type} `{!Oneshot O}
    {W : Type} `{!Waker W} {S : Type}
    (x : Mux C O W S) (id : Z) (c : ConnectPayload) (ignore_bind : bool) :
  mux_wf x -> mux_live x ->
  let '(x', r) := process_frame (MkFrame id (Connect c)) ignore_bind x in
  let s := MkMuxStream (mx_next_cell x) id (cow_as_ref (con_target_host c)) (con_target_port c) 0 []
             (Z.min (mx_default_rwnd_threshold x) (con_rwnd c)) in
  match mx_flows x !! id with
  | Some _ => r = Ret tt /\ mx_flows x' = mx_flows x /\ mx_cells x' = mx_cells x /\ mx_con_recv x' = mx_con_recv x
              /\ queue (mx_tx_frame x') = queue (mx_tx_frame x) ++ [encoded (new_reset id)]
  | None =>
      mx_flows x' = <[id := Established (MkEsd true (mx_next_cell x))]> (mx_flows x)
      /\ queue (mx_tx_frame x') = queue (mx_tx_frame x) ++ [encoded (new_acknowledge id (mx_rwnd x))]
      /\ match (spec_send s (chan_view (mx_con_recv x))).2 with
         | None => r = Ret tt /\ queue (mx_con_recv x') = queue (mx_con_recv x) ++ [s]
                   /\ exists sh, mx_cells x' !! mx_next_cell x = Some sh
                      /\ sh_psh_send_remaining sh = con_rwnd c /\ sh_finish_sent sh = false
                      /\ chan_view (sh_frames sh) = ChanState [] (Some (Z.to_nat (mx_rwnd x))) true true
         | Some TrySendFull => r = Parked (OnStreamQueue s)
         | Some TrySendClosed => r = Fail SendStreamToClient
         end
  end.
Proof.
  intros Hx Hl. unfold process_frame. cbn [frame_payload frame_id].
  destruct (mx_flows x !! id) eqn:Hs.
  - unfold con_recv_new_stream. rewrite bind_get. destruct (decide _) as [_|Hd]; [|destruct Hd; eauto].
    unfold mbind, M_bind. destruct (send_frame_live (new_reset id) x I Hl) as (t & -> & Hq & _). now cbn.
  - rewrite con_recv_new_eq by easy. unfold mbind at 1, M_bind at 1.
    match goal with |- context [send_frame ?f ?y] => destruct (send_frame_live f y I Hl) as (t & -> & Hq & _) end.
    fold (new_stream_of x id (con_rwnd c) (cow_as_ref (con_target_host c)) (con_target_port c)).
    set (s := new_stream_of _ _ _ _ _). set (y := set_tx _ t).
    unfold send_to_user. pose proof (res_try_send _ s (mx_con_recv y)) as Hr.
    pose proof (view_try_send _ s (mx_con_recv y)) as Hv.
    change (cow_into_owned (con_target_host c)) with (cow_as_ref (con_target_host c)). fold s.
    change (mx_con_recv y) with (mx_con_recv x) in *.
    destruct (try_send s (mx_con_recv x)) as [q e]. cbn in Hr, Hv. rewrite <- Hr.
    destruct e as [[]|]; [now cbn| |].
    + unfold mbind, M_bind. pose proof (drop_stream_flows s y) as Hf. pose proof (drop_stream_tx s y) as Ht.
      unfold drop_stream, on_stream, mbind, M_bind in *. destruct (mx_cells y !! ms_cell s); now cbn.
    + cbn. split; [easy|]. split; [easy|]. rewrite Hv, spec_send_queue, <- Hr.
      split; [easy|]. split; [easy|]. eexists. rewrite lookup_insert_eq. split; [reflexivity|]. cbn.
      now rewrite view_channel.
Qed.

Lemma connect_effect_witness :
  let x := empty_mux (MkMemWs [] []) in
  let x' := (process_frame hello false x).1 in
  mux_wf x /\ mx_flows x' = <[9 := Established (MkEsd true 0)]> ∅
  /\ map ms_rwnd_threshold (queue (mx_con_recv x')) = [4].
Proof.
  intros x x'. assert (Hx : mux_wf x).
  { apply (mux_new_wf (S := MemWs) (MkMemWs [] []) None); [now split|now split|reflexivity]. }
  split; [exact Hx|]. split; [|reflexivity].
  exact (proj1 (connect_effect x 9 (MkConnect 4 80 (Borrowed (bytes_of_string "host"))) false Hx
    (conj (eq_refl true) (eq_refl None)))).
Defined.

(** C13: [Acknowledge].  On an established stream the send window grows by the
    acknowledged amount modulo 2^32 and a parked writer is woken; on a pending
    request the stream is established and handed to the requester, and when the
    requester has given up meanwhile the error [SendStreamToClient] ends the
    task; otherwise only a [Reset] is sent. *)
Theorem acknowledge_effect {C : Type -> Type} `{!Mpsc C} {O : Type -> Type} `{!Oneshot O}
    {W : Type} `{!Waker W} {S : Type}
    (x : Mux C O W S) (id n : Z) (ignore_bind : bool) :
  mux_wf x -> mux_live x ->
  let '(x', r) := process_frame (new_acknowledge id n) ignore_bind x in
  match mx_flows x !! id with
  | Some (Established d) =>
      r = Ret tt /\ mx_flows x' = mx_flows x
      /\ exists c c', mx_cells x !! esd_cell d = Some c /\ mx_cells x' !! esd_cell d = Some c'
         /\ sh_psh_send_remaining c' = (sh_psh_send_remaining c + n) mod 2 ^ 32
         /\ waker_view (sh_writer_waker c') = false
         /\ sh_frames c' = sh_frames c /\ sh_finish_sent c' = sh_finish_sent c
  | Some (Requested k) =>
      mx_flows x' = <[id := Established (MkEsd true (mx_next_cell x))]> (mx_flows x)
      /\ exists o o', mx_streams_shots x !! k = Some o /\ mx_streams_shots x' !! k = Some o'
         /\ match shot_view o with
            | ShotRxDropped => r = Fail SendStreamToClient
            | _ => r = Ret tt
                   /\ shot_view o' = ShotSent (Some (MkMuxStream (mx_next_cell x) id [] 0 0 []
                        (Z.min (mx_default_rwnd_threshold x) n)))
            end
  | _ => r = Ret tt /\ mx_flows x' = mx_flows x
         /\ queue (mx_tx_frame x') = queue (mx_tx_frame x) ++ [encoded (new_reset id)]
  end.
Proof.
  intros Hx Hl. unfold process_frame. cbn [frame_payload frame_id new_acknowledge]. rewrite bind_get.
  destruct (mx_flows x !! id) as [[k|d|k]|] eqn:Hs.
  - destruct (tw_owned _ _ _ _ _ _ (wf_shots _ _ Hx) id _ k Hs eq_refl) as (o & Ho & Hlive).
    rewrite (ack_recv_eq x id k o n) by easy. cbv zeta.
    fold (new_stream_of x id n [] 0). set (s := new_stream_of x id n [] 0).
    pose proof (res_shot_send _ (Some s) o) as Hr. pose proof (view_shot_send _ (Some s) o) as Hv.
    set (y := set_shots _ _ _ _).
    assert (Hy : mx_flows y = <[id := Established (MkEsd true (mx_next_cell x))]> (mx_flows x)
      /\ mx_streams_shots y !! k = Some (shot_send (Some s) o).1) by (cbn; now rewrite lookup_insert_eq).
    destruct Hlive as [Hopen|Hgone].
    + rewrite Hopen in Hr, Hv. rewrite Hr. cbn [snd spec_shot_send]. split; [apply Hy|]. exists o, (shot_send (Some s) o).1.
      split; [easy|]. split; [apply Hy|]. now rewrite Hopen, Hv.
    + rewrite Hgone in Hr, Hv. rewrite Hr. cbn [snd spec_shot_send]. unfold mbind, M_bind.
      destruct (only_cell_drop s y) as (Hf & Hsh & _).
      unfold drop_stream, on_stream, mbind, M_bind in *. destruct (mx_cells y !! ms_cell s); cbn in *.
      all: (split; [easy|]; eexists o, _; split; [easy|]; split; [now rewrite lookup_insert_eq|];
        now rewrite Hgone).
  - destruct (tw_owned _ _ _ _ _ _ (wf_cells _ _ Hx) id _ _ Hs eq_refl) as (c & Hc & _).
    cbn. split; [easy|]. split; [easy|]. exists c, (acknowledge_cell n c).
    rewrite lookup_alter_eq, Hc. cbn. rewrite view_wake. now split_and!.
  - unfold mbind, M_bind. destruct (send_frame_live (new_reset id) x I Hl) as (t & -> & Hq & _). now cbn.
  - unfold mbind, M_bind. destruct (send_frame_live (new_reset id) x I Hl) as (t & -> & Hq & _). now cbn.
Qed.

(** The peer's answer to a request whose caller was cancelled. *)
Definition cancelled_mux : TMux := (cancel_new_stream 0 busy_mux).1.

Lemma acknowledge_effect_witness :
  (process_frame (new_acknowledge 5 8) false cancelled_mux).2 = Fail SendStreamToClient
  /\ mx_flows (process_frame (new_acknowledge 5 8) false busy_mux).1
     = <[5 := Established (MkEsd true 1)]> (mx_flows busy_mux).
Proof.
  split; [vm_compute; reflexivity|].
  pose proof (acknowledge_effect busy_mux 5 8 false busy_mux_wf (conj (eq_refl true) (eq_refl None))) as H.
  assert (Hs : mx_flows busy_mux !! 5 = Some (Requested 0)) by (vm_compute; reflexivity).
  rewrite Hs in H. destruct (process_frame (new_acknowledge 5 8) false busy_mux) as [x' r].
  assert (Hn : mx_next_cell busy_mux = 1%nat) by (vm_compute; reflexivity).
  rewrite Hn in H. exact (proj1 H).
Defined.

(** C14: [Push] on an established stream whose read side is open appends
    exactly the pushed octets to the stream's queue and answers nothing; when
    the queue is full the stream is removed, closed on both sides and reset
    (unless it had sent [Finish]); when the stream object is gone the frame is
    ignored.  Without an open read side, and on any other slot, nothing changes
    but the [Reset] that is sent. *)
Theorem push_effect {C : Type -> Type} `{!Mpsc C} {O : Type -> Type} `{!Oneshot O}
    {W : Type} `{!Waker W} {S : Type}
    (x : Mux C O W S) (id : Z) (data : bytes) (ignore_bind : bool) :
  mux_wf x -> mux_live x ->
  let '(x', r) := process_frame (new_push id data) ignore_bind x in
  r = Ret tt
  /\ match mx_flows x !! id with
     | Some (Established (MkEsd true n)) =>
         exists c c', mx_cells x !! n = Some c /\ mx_cells x' !! n = Some c'
         /\ if negb (rx_open (sh_frames c)) then mx_flows x' = mx_flows x /\ mx_tx_frame x' = mx_tx_frame x
            else if chan_full (chan_view (sh_frames c))
            then mx_flows x' = delete id (mx_flows x)
                 /\ tx_open (sh_frames c') = false /\ sh_finish_sent c' = true
                 /\ queue (mx_tx_frame x') = queue (mx_tx_frame x)
                    ++ (if sh_finish_sent c then [] else [encoded (new_reset id)])
            else mx_flows x' = mx_flows x /\ mx_tx_frame x' = mx_tx_frame x
                 /\ queue (sh_frames c') = queue (sh_frames c) ++ [data]
                 /\ sh_psh_send_remaining c' = sh_psh_send_remaining c
     | _ => mx_flows x' = mx_flows x /\ mx_cells x' = mx_cells x
            /\ queue (mx_tx_frame x') = queue (mx_tx_frame x) ++ [encoded (new_reset id)]
     end.
Proof.
  intros Hx Hl. unfold process_frame. cbn [frame_payload frame_id new_push cow_into_owned]. rewrite bind_get.
  unfold mbind at 1, M_bind at 1.
  assert (Hrst : let '(x', r) := (_ ← send_frame (new_reset id); mret tt) x in
    r = Ret tt /\ mx_flows x' = mx_flows x /\ mx_cells x' = mx_cells x
    /\ queue (mx_tx_frame x') = queue (mx_tx_frame x) ++ [encoded (new_reset id)]).
  { unfold mbind, M_bind. destruct (send_frame_live (new_reset id) x I Hl) as (t & -> & Hq & _). now cbn. }
  destruct (mx_flows x !! id) as [[k|[[] n]|k]|] eqn:Hs; try exact Hrst. clear Hrst.
  destruct (tw_owned _ _ _ _ _ _ (wf_cells _ _ Hx) id _ _ Hs eq_refl) as (c & Hc & _). cbn in Hc.
  rewrite (dispatch_eq (MkEsd true n) data x c eq_refl Hc). cbn [esd_cell].
  set (c1 := set_frames c _). set (x1 := set_cells x _ _).
  assert (Hc1 : mx_cells x1 !! n = Some c1) by apply lookup_insert_eq.
  pose proof (view_try_send _ data (sh_frames c)) as Hv. unfold spec_send in *.
  destruct (rx_open (sh_frames c)) eqn:Ho; cbn [negb snd] in *.
  2: { split; [easy|]. exists c, c1. rewrite Ho. now split_and!. }
  destruct (chan_full _) eqn:Hfull; cbn [snd] in *.
  - rewrite (close_established_eq x1 id (MkEsd true n) c1 false Hs Hc1). cbn [sh_finish_sent set_frames c1].
    rewrite andb_true_r. set (x2 := set_cells _ _ _).
    assert (Hend : forall y : Mux C O W S, mx_cells y = mx_cells x2 ->
      exists y', (_ ← disallow_read (MkEsd true n); mret tt) y = (y', Ret tt) /\ mx_flows y' = mx_flows y
        /\ mx_tx_frame y' = mx_tx_frame y /\ exists c', mx_cells y' !! n = Some c'
           /\ tx_open (sh_frames c') = false /\ sh_finish_sent c' = true).
    { intros y Hy. unfold mbind, M_bind, disallow_read, update_cell, modify. cbn. eexists. split; [reflexivity|].
      cbn. split; [easy|]. split; [easy|]. rewrite lookup_alter_eq, Hy. cbn. rewrite lookup_alter_eq, lookup_insert_eq.
      eexists. split; [reflexivity|]. cbn. now rewrite view_tx_drop. }
    destruct (sh_finish_sent c) eqn:Hfin; cbn [negb].
    + destruct (Hend x2 eq_refl) as (y' & -> & Hf & Ht & c' & ? & ? & ?). split; [easy|]. exists c, c'.
      rewrite Ho, Hfull, Hfin, Ht, app_nil_r. now split_and!.
    + unfold mbind at 1, M_bind at 1. destruct (send_frame_live (new_reset id) x2 I Hl) as (t & -> & Hq & _).
      destruct (Hend (set_tx x2 t) eq_refl) as (y' & -> & Hf & Ht & c' & ? & ? & ?). split; [easy|]. exists c, c'.
      rewrite Ho, Hfull, Hfin, Ht. now split_and!.
  - split; [easy|]. exists c, c1. split; [easy|]. split; [easy|]. rewrite Ho, Hfull. unfold c1. cbn.
    rewrite Hv. now split_and!.
Qed.

Lemma push_effect_witness :
  (process_frame (new_push 9 [1; 2]) false busy_mux).2 = Ret tt
  /\ option_map (fun c => queue (sh_frames c)) (mx_cells (process_frame (new_push 9 [1; 2]) false busy_mux).1 !! 0%nat)
     = Some [[1; 2]].
Proof.
  split; [|vm_compute; reflexivity].
  pose proof (push_effect busy_mux 9 [1; 2] false busy_mux_wf (conj (eq_refl true) (eq_refl None))) as H.
  destruct (process_frame (new_push 9 [1; 2]) false busy_mux) as [x' r]. exact (proj1 H).
Defined.

(** A new request takes an identifier that is free, not 0 and below
    [u32::MAX], enters the table under it and sends one [Connect] with the host,
    the port and our window; when no draw is free the call keeps drawing and
    changes nothing. *)
Theorem new_stream_fresh {C : Type -> Type} `{!Mpsc C} {O : Type -> Type} `{!Oneshot O}
    {W : Type} `{!Waker W} {S : Type}
    (x : Mux C O W S) (draws : list Z) (host : bytes) (port : Z) :
  mux_live x -> Forall valid_draw draws ->
  let '(x', r) := new_stream_attempt draws host port x in
  if decide (Exists (fun i => mx_flows x !! i = None) draws) then
    exists id, 1 <= id < u32_max /\ mx_flows x !! id = None /\ r = Ret (mx_next_shot x)
      /\ mx_flows x' = <[id := Requested (mx_next_shot x)]> (mx_flows x)
      /\ mx_streams_shots x' = <[mx_next_shot x := oneshot]> (mx_streams_shots x)
      /\ queue (mx_tx_frame x') = queue (mx_tx_frame x) ++ [encoded (new_connect host port id (mx_rwnd x))]
  else x' = x /\ r = Parked OnQueue.
Proof.
  intros Hl Hd. destruct (next_available_key draws (mx_flows x)) as [id|] eqn:Hk.
  - destruct (new_stream_attempt_eq draws host port id x Hl Hk) as (t & Hq & _ & _ & ->).
    apply next_available_key_spec in Hk as [Hin%list_elem_of_In Hn].
    destruct (decide _) as [_|He].
    + exists id. rewrite Forall_forall in Hd. specialize (Hd id Hin). now split_and!; try apply Hd.
    + destruct He. apply List.Exists_exists. now exists id.
  - unfold new_stream_attempt. rewrite bind_get. cbv zeta. rewrite Hk. destruct (decide _) as [He|_]; [|easy].
    exfalso. clear Hd. induction draws as [|i draws IH]; [now inversion He|]. cbn in Hk.
    destruct (decide (is_Some (mx_flows x !! i))) as [[s Hs]|]; [|easy].
    inversion He; subst; [congruence|]. now apply IH.
Qed.

Lemma new_stream_fresh_witness :
  mx_flows (new_stream_attempt [9; 5; 77] (bytes_of_string "h") 1 busy_mux).1
  = <[77 := Requested 2]> (mx_flows busy_mux)
  /\ let '(x', r) := new_stream_attempt [9; 77] (bytes_of_string "h") 1 busy_mux in
     if decide (Exists (fun i => mx_flows busy_mux !! i = None) [9; 77]) then
       exists id, 1 <= id < u32_max /\ mx_flows busy_mux !! id = None /\ r = Ret (mx_next_shot busy_mux)
         /\ mx_flows x' = <[id := Requested (mx_next_shot busy_mux)]> (mx_flows busy_mux)
         /\ mx_streams_shots x' = <[mx_next_shot busy_mux := oneshot]> (mx_streams_shots busy_mux)
         /\ queue (mx_tx_frame x') = queue (mx_tx_frame busy_mux)
              ++ [encoded (new_connect (bytes_of_string "h") 1 id (mx_rwnd busy_mux))]
     else x' = busy_mux /\ r = Parked OnQueue.
Proof.
  split; [vm_compute; reflexivity|].
  apply (new_stream_fresh busy_mux [9; 77] (bytes_of_string "h") 1).
  - split; reflexivity.
  - repeat constructor; unfold valid_draw, u32_max; lia.
Defined.

(** A dropped stream object.  Its announcement removes the slot, closes
    the stream on both sides and sends [Reset] unless [Finish] was sent; the
    loop then goes on.  The announcement 0 ends the loop and with it the task. *)
Theorem dropped_port_effect {C : Type -> Type} `{!Mpsc C} {O : Type -> Type} `{!Oneshot O}
    {W : Type} `{!Waker W} {S : Type}
    (x : Mux C O W S) (id : Z) (rest : list Z) (fuel : nat) (d : EstablishedStreamData) :
  mux_wf x -> mux_live x -> queue (mx_dropped_ports x) = id :: rest ->
  mx_flows x !! id = Some (Established d) ->
  if id =? 0 then (process_dropped_ports_task (Datatypes.S fuel) x).2 = Ret tt
  else exists x1 c c',
    process_dropped_ports_task (Datatypes.S fuel) x = process_dropped_ports_task fuel x1
    /\ mx_flows x1 = delete id (mx_flows x) /\ queue (mx_dropped_ports x1) = rest
    /\ mx_cells x !! esd_cell d = Some c /\ mx_cells x1 !! esd_cell d = Some c'
    /\ tx_open (sh_frames c') = false /\ sh_finish_sent c' = true
    /\ queue (mx_tx_frame x1)
       = queue (mx_tx_frame x) ++ (if sh_finish_sent c then [] else [encoded (new_reset id)]).
Proof.
  intros Hx Hl Hq Hs. cbn [process_dropped_ports_task].
  pose proof (view_poll_recv _ (mx_dropped_ports x)) as Hv. pose proof (res_poll_recv _ (mx_dropped_ports x)) as Hr.
  destruct (poll_recv (mx_dropped_ports x)) as [q r]. unfold spec_recv in *. rewrite Hq in *. cbn in Hv, Hr. subst r.
  case_bool; [easy|]. set (y := set_dropped x q).
  assert (Hy : mux_wf y).
  { apply wf_set_dropped; [|easy]. rewrite Hv. apply (wf_queues _ _ Hx). }
  destruct (tw_owned _ _ _ _ _ _ (wf_cells _ _ Hx) id _ _ Hs eq_refl) as (c & Hc & Hlive).
  assert (Hret : exists x1, close_port id false y = (x1, Ret tt)).
  { unfold close_port, mbind, M_bind, remove_flow. cbn [mx_flows set_dropped y]. rewrite Hs. apply close_port_local_ret. }
  destruct Hret as (x1 & Hx1). unfold mbind, M_bind. rewrite Hx1. exists x1, c.
  pose proof (preserves_close_port id false y Hy) as Hwf1. pose proof (sends_close_established y id d c false Hs Hc Hl) as [Hsend _].
  assert (Hf1 : mx_flows x1 = delete id (mx_flows x)).
  { pose proof (close_port_local_flows (Established d) id false (set_flows y (delete id (mx_flows y)))) as H.
    unfold close_port, mbind, M_bind, remove_flow in Hx1. cbn [mx_flows set_dropped y] in Hx1. rewrite Hs in Hx1.
    cbn in H, Hx1. unfold mbind, M_bind in *. rewrite Hx1 in H. exact H. }
  rewrite (close_established_eq y id d c false Hs Hc) in Hx1.
  rewrite (close_established_eq y id d c false Hs Hc) in Hwf1, Hsend. rewrite Hx1 in *. cbn [fst] in *.
  rewrite andb_true_r in *.
  assert (Hd : queue (mx_dropped_ports x1) = rest /\ exists c', mx_cells x1 !! esd_cell d = Some c').
  { clear - Hx1 Hv Hc Hl. unfold disallow_read, update_cell, modify, send_frame, mbind, M_bind in Hx1.
    destruct (negb (sh_finish_sent c)), (esd_sender d); cbn in Hx1;
      try destruct (tx_send _ _) as [? []]; cbn in Hx1; inversion Hx1; subst x1; cbn;
      rewrite Hv; (split; [easy|]); rewrite ?lookup_alter_eq, Hc; cbn; eauto. }
  destruct Hd as [Hd (c' & Hc')]. exists c'. split; [easy|]. split; [easy|]. split; [easy|]. split; [easy|]. split; [easy|].
  destruct (tw_orphan _ _ _ _ _ _ (wf_cells _ _ Hwf1) _ _ Hc') as [(i & s & Hi & Ho)|[? ?]].
  - exfalso. rewrite Hf1 in Hi. apply lookup_delete_Some in Hi as [Hne Hi].
    now apply (other_cell x id d i s Hx Hs (not_eq_sym Hne) Hi).
  - split; [easy|]. split; [easy|]. cbn in Hsend. rewrite Hsend. now destruct (sh_finish_sent c).
Qed.

(** The accepted stream of [busy_mux], dropped by its user. *)
Definition dropped_mux : TMux :=
  (drop_stream (MkMuxStream 0 9 (bytes_of_string "host") 80 0 [] 4) busy_mux).1.

Lemma dropped_port_effect_witness :
  (process_dropped_ports_task 5 dropped_mux).2 = Parked OnQueue
  /\ if 9 =? 0 then (process_dropped_ports_task 1 dropped_mux).2 = Ret tt
     else exists x1 c c',
       process_dropped_ports_task 1 dropped_mux = process_dropped_ports_task 0 x1
       /\ mx_flows x1 = delete 9 (mx_flows dropped_mux) /\ queue (mx_dropped_ports x1) = []
       /\ mx_cells dropped_mux !! 0%nat = Some c /\ mx_cells x1 !! 0%nat = Some c'
       /\ tx_open (sh_frames c') = false /\ sh_finish_sent c' = true
       /\ queue (mx_tx_frame x1)
          = queue (mx_tx_frame dropped_mux) ++ (if sh_finish_sent c then [] else [encoded (new_reset 9)]).
Proof.
  split; [vm_compute; reflexivity|].
  apply (dropped_port_effect dropped_mux 9 [] 0 (MkEsd true 0)).
  - exact (preserves_drop_stream _ _ busy_mux_wf).
  - split; reflexivity.
  - reflexivity.
  - vm_compute. reflexivity.
Defined.

(** *** Corner cases

    A [Connect] for flow 0 is accepted like any other; when its user drops the
    stream, the announced identifier is the one that means that the multiplexor
    itself was dropped, and the task ends. *)
Example flow_zero_ends_task :
  let x := (process_frame (new_connect (bytes_of_string "host") 80 0 4) false busy_mux).1 in
  let '(x1, r) := accept_stream_channel (accept_stream_channel x).1 in
  match r with
  | Ret s => ms_flow_id s = 0 /\ (process_dropped_ports_task 5 (drop_stream s x1).1).2 = Ret tt
  | _ => False
  end.
Proof. vm_compute. split; reflexivity. Qed.

(** Accepting a [Bind] request and letting go of it sends [Finish] and then
    [Reset]: the reply is also sent when the request was already answered. *)
Example bind_reply_then_drop :
  let r := MkBindRequest 7 (MkBind BindStream 80 (Borrowed [])) in
  let x := (_ ← bind_reply r true; bind_drop r) (empty_mux (MkMemWs [] [])) in
  queue (mx_tx_frame x.1) = [encoded (new_finish 7); encoded (new_reset 7)].
Proof. vm_compute. reflexivity. Qed.

(** An undecodable message among the last ones ends the winding down early:
    the flows stay in the table, and the reader of an established stream is
    not given its end of file. *)
Example wind_down_stops_at_invalid_frame :
  let x := set_ws busy_mux (MkMemWs [Ok (MsgBinary [])] []) in
  let '(x', r) := wind_down 1 9 false x in
  r = Fail (InvalidFrame FrameTooShort) /\ mx_flows x' = mx_flows busy_mux
  /\ option_map (fun c => tx_open (sh_frames c)) (mx_cells x' !! 0%nat) = Some true.
Proof. vm_compute. repeat split; reflexivity. Qed.

(** The identifier of a stream the peer has reset is free again; dropping the
    old stream object then closes the new stream of that identifier. *)
Example stale_drop_closes_new_stream :
  let '(x, r) := accept_stream_channel busy_mux in
  match r with
  | Ret old =>
      let x1 := (_ ← process_frame (new_reset 9) false; process_frame hello false) x in
      let x2 := (_ ← drop_stream old; process_dropped_ports_task 5) x1.1 in
      mx_flows x1.1 !! 9 = Some (Established (MkEsd true 1)) /\ mx_flows x2.1 !! 9 = None
  | _ => False
  end.
Proof. vm_compute. split; reflexivity. Qed.
