(* ===== verification/Datagrams.v ===== *)
(** * The datagrams of a multiplexor

    How a message gets from a multiplexor to the other, and what happens to
    datagrams on their way: which operations queue or take them, and that all
    the others, whatever streams and bind requests do, leave the datagrams on
    the frame queue and those waiting for the user as they are. *)

From S2P Require Import Prelude Runtime Frame Timing Config Stream Mux MuxInv MuxProps.

(** ** Definitions *)

Section Transfer.
Context {C : Type -> Type} `{!Mpsc C} {O : Type -> Type} `{!Oneshot O} {W : Type} `{!Waker W}.

(** One message from a multiplexor to the other; an error ends the task of the
    receiver, and with it the tunnel. *)
Definition transfer {S S'} (a : Mux C O W S) (b : Mux C O W S') : option (Mux C O W S * Mux C O W S') :=
  match poll_recv (mx_tx_frame a) with
  | (tx, Ready (Some e)) =>
      match process_message (MsgBinary e) false b with
      | (b', (Ret _ | Parked _)) => Some (set_tx a tx, b')
      | _ => None
      end
  | _ => None
  end.

End Transfer.

Section Quiet.
Context {C : Type -> Type} `{!Mpsc C} {O : Type -> Type} `{!Oneshot O}
    {W : Type} `{!Waker W} {S : Type} `{!WebSocket S}.

#[local] Abbreviation Mux := (Mux C O W S).

(** The datagram an encoded frame is for its receiver, if it is one. *)
Definition dgram_of (e : bytes) : list MuxDatagram :=
  match frame_try_from e with
  | Ok (MkFrame id (Datagram d)) =>
      [MkMuxDatagram id (cow_into_owned (dgm_target_host d)) (dgm_target_port d) (cow_into_owned (dgm_data d))]
  | _ => []
  end.

(** The datagrams on a queue of encoded frames. *)
Definition dgrams (tx : C bytes) : list MuxDatagram := flat_map dgram_of (queue tx).

(** A datagram crosses the wire unless its host is too long to encode or its
    data too short for the decoder. *)
Definition crosses (d : MuxDatagram) : bool := (blen (dg_target_host d) <=? 255) && (4 <=? blen (dg_data d)).

(** The ranges of the types of its integers. *)
Definition dg_ok (d : MuxDatagram) : Prop := u32_ok (dg_flow_id d) /\ u16_ok (dg_target_port d).

(** Datagrams are where they were. *)
Definition quiet_step (x x' : Mux) : Prop :=
  dgrams (mx_tx_frame x') = dgrams (mx_tx_frame x) /\ mx_datagrams x' = mx_datagrams x.

Definition quiet {A} (m : @M C O W S A) : Prop := forall x, quiet_step x (m x).1.

(** What users and tasks do apart from datagrams: every call about streams and
    bind requests, and the task that follows dropped streams. *)
Definition is_quiet_op (op : mux_op) : bool :=
  match op with
  | OpBranch _ _ DroppedPortsBranch => true
  | OpBranch _ _ _ | OpStart _ _ _ _ | OpGetDatagram | OpSendDatagram _ | OpMuxDrop => false
  | _ => true
  end.

(** ** Lemmas *)

(** *** Frames *)

Lemma encoded_opcode f : encodable f -> exists rest, encoded f = (112 + OpCode_as_u8 (OpCode_from (frame_payload f))) :: rest.
Proof.
  intros [bs Hf]%frame_to_vec_encodable. unfold encoded, finalize. rewrite Hf.
  apply frame_to_vec_Ok in Hf as (body & _ & ->). eauto.
Qed.

Lemma encodable_other f : OpCode_from (frame_payload f) <> OpDatagram -> encodable f.
Proof. unfold encodable. intros H. destruct (frame_payload f); try exact I. now destruct H. Qed.

Lemma dgram_of_other f : OpCode_from (frame_payload f) <> OpDatagram -> dgram_of (encoded f) = [].
Proof.
  intros Hop. destruct (encoded_opcode f) as [rest ->]; [now apply encodable_other|].
  unfold dgram_of. destruct (frame_try_from _) as [[id p]| |] eqn:Hd; try easy.
  apply frame_try_from_opcode in Hd. cbn [frame_payload] in Hd. destruct p; try easy. now destruct Hop.
Qed.

Definition frame_of (d : MuxDatagram) : Frame :=
  new_datagram_owned (dg_flow_id d) (dg_target_host d) (dg_target_port d) (dg_data d).

Lemma dgram_of_datagram d :
  dg_ok d -> blen (dg_target_host d) <= 255 -> dgram_of (encoded (frame_of d)) = if crosses d then [d] else [].
Proof.
  intros [Hid Hport] Hhost. unfold crosses. destruct (Z.leb_spec (blen (dg_target_host d)) 255); [|lia]. cbn [andb].
  assert (He : encodable (frame_of d)) by (unfold encodable; cbn; unfold cow_len; cbn; lia).
  apply frame_to_vec_encodable in He as [bs Hbs]. unfold dgram_of, encoded, finalize. rewrite Hbs.
  apply frame_to_vec_Ok in Hbs as (body & Hb & ->). rewrite frame_try_from_header by exact Hid.
  cbn [frame_of new_datagram_owned frame_payload frame_id OpCode_from] in *.
  destruct (Z.leb_spec 4 (blen (dg_data d))) as [Hl|Hs].
  - rewrite (decode_encode_datagram _ _ _ _ Hport Hb) by exact Hl. cbn. now destruct d.
  - now rewrite (decode_short_datagram _ _ Hb) by exact Hs.
Qed.

Lemma flat_map_one {A B} (f : A -> list B) x : flat_map f [x] = f x.
Proof. apply app_nil_r. Qed.

(** What sending a frame adds to the datagrams on the queue. *)
Lemma dgrams_tx_send f (tx : C bytes) :
  encodable f ->
  dgrams (tx_send f tx).1 = dgrams tx ++ match (tx_send f tx).2 with Ok _ => dgram_of (encoded f) | _ => [] end.
Proof.
  intros He. unfold tx_send, dgrams. rewrite (finalize_encoded f He).
  pose proof (view_try_send _ (encoded f) tx) as Hv. pose proof (res_try_send _ (encoded f) tx) as Hr.
  destruct (try_send (encoded f) tx) as [t e]. cbn [fst snd] in *. rewrite Hv, spec_send_queue, <- Hr.
  destruct e; [now rewrite app_nil_r|]. now rewrite flat_map_app, flat_map_one.
Qed.

Lemma dgrams_tx_other f (tx : C bytes) : OpCode_from (frame_payload f) <> OpDatagram -> dgrams (tx_send f tx).1 = dgrams tx.
Proof.
  intros Hop. rewrite dgrams_tx_send by now apply encodable_other.
  rewrite dgram_of_other by easy. destruct (tx_send f tx).2; apply app_nil_r.
Qed.

(** *** Quiet steps *)

Lemma quiet_step_refl x : quiet_step x x.
Proof. easy. Qed.

Lemma quiet_step_trans x y z : quiet_step x y -> quiet_step y z -> quiet_step x z.
Proof. intros [H1 H2] [H3 H4]. split; congruence. Qed.

#[export] Instance quiet_step_preorder : PreOrder quiet_step.
Proof. split; [exact quiet_step_refl|exact quiet_step_trans]. Qed.

Lemma quiet_ret {A} (a : A) : quiet (mret a).
Proof. easy. Qed.
Lemma quiet_throw {A} e : quiet (@throw C O W S A e).
Proof. easy. Qed.
Lemma quiet_park {A} p : quiet (@park C O W S A p).
Proof. easy. Qed.
Lemma quiet_get : quiet get.
Proof. easy. Qed.
Lemma quiet_lift {A} (r : res Error A) : quiet (lift r).
Proof. easy. Qed.

Lemma quiet_bind {A B} (m : @M C O W S A) (k : A -> @M C O W S B) : quiet m -> (forall a, quiet (k a)) -> quiet (mbind k m).
Proof.
  intros Hm Hk x. unfold mbind, M_bind. specialize (Hm x). destruct (m x) as [x' [a| | |]]; try exact Hm.
  etransitivity; [exact Hm|apply Hk].
Qed.

Lemma quiet_ignore {A} (m : @M C O W S A) : quiet m -> quiet (ignore_result m).
Proof. intros Hm x. unfold ignore_result. specialize (Hm x). now destruct (m x) as [x' []]. Qed.

Lemma quiet_modify f : (forall x, quiet_step x (f x)) -> quiet (modify f).
Proof. intros H x. apply H. Qed.

Lemma quiet_send_frame f : OpCode_from (frame_payload f) <> OpDatagram -> quiet (send_frame f).
Proof.
  intros Hop x. unfold send_frame. pose proof (dgrams_tx_other f (mx_tx_frame x) Hop) as H.
  destruct (tx_send f (mx_tx_frame x)) as [t r]. now split.
Qed.

Lemma quiet_on_stream {A} s (f : Ctx C W -> Ctx C W * A) :
  (forall c, dgrams (cx_tx (f c).1) = dgrams (cx_tx c)) -> quiet (on_stream s f).
Proof.
  intros Hf x. unfold on_stream. destruct (mx_cells x !! ms_cell s) as [sh|]; [|easy].
  specialize (Hf (MkCtx s sh (mx_tx_frame x) (mx_dropped_ports x))). destruct (f _) as [c a]. now split.
Qed.

(** *** Stream objects *)

Lemma quiet_poll_fill_buf (c : Ctx C W) : dgrams (cx_tx (poll_fill_buf c).1) = dgrams (cx_tx c).
Proof.
  unfold poll_fill_buf. destruct (ms_buf (cx_stream c)); [|easy]. destruct (poll_recv _) as [fr [[next|]|]]; try easy.
  cbn [fst]. unfold increment_psh_recvd_since. case_bool; [|easy]. now apply dgrams_tx_other.
Qed.

Lemma quiet_poll_read n (c : Ctx C W) : dgrams (cx_tx (poll_read n c).1) = dgrams (cx_tx c).
Proof.
  unfold poll_read. pose proof (quiet_poll_fill_buf c) as H. destruct (poll_fill_buf c) as [c1 [[got| |]|]]; try exact H.
  unfold consume. now case_bool.
Qed.

Lemma quiet_poll_write meanwhile buf (c : Ctx C W) : dgrams (cx_tx (poll_write meanwhile buf c).1) = dgrams (cx_tx c).
Proof.
  unfold poll_write. destruct (poll_obtain_write_permission _ _) as [sh [[u| |]|]]; try easy.
  pose proof (dgrams_tx_other (new_push (ms_flow_id (cx_stream c)) buf) (cx_tx c)) as H. now destruct (tx_send _ _); apply H.
Qed.

Lemma quiet_shutdown (c : Ctx C W) : dgrams (cx_tx (shutdown_inner c).1) = dgrams (cx_tx c).
Proof.
  unfold shutdown_inner. destruct (sh_finish_sent (cx_shared c)); [easy|].
  pose proof (dgrams_tx_other (new_finish (ms_flow_id (cx_stream c))) (cx_tx c)) as H. now destruct (tx_send _ _); apply H.
Qed.

(** *** The parts of the task and of the calls *)

Lemma quiet_put_flow id slot : quiet (put_flow id slot).
Proof. easy. Qed.
Lemma quiet_remove_flow id : quiet (remove_flow id).
Proof. easy. Qed.
Lemma quiet_update_cell n f : quiet (update_cell n f).
Proof. easy. Qed.

Lemma quiet_acknowledge d n : quiet (acknowledge d n).
Proof. easy. Qed.

Lemma quiet_send_stream_shot n v : quiet (send_stream_shot n v).
Proof. intros x. unfold send_stream_shot. destruct (mx_streams_shots x !! n) as [o|]; [|easy]. now destruct (shot_send v o). Qed.

Lemma quiet_send_bind_shot n v : quiet (send_bind_shot n v).
Proof. intros x. unfold send_bind_shot. destruct (mx_bind_shots x !! n) as [o|]; [|easy]. now destruct (shot_send v o). Qed.

Lemma quiet_disallow_write d : quiet (disallow_write d).
Proof. easy. Qed.

Lemma quiet_disallow_read d : quiet (disallow_read d).
Proof. unfold disallow_read. now destruct (esd_sender d). Qed.

Lemma quiet_dispatch slot data : quiet (dispatch slot data).
Proof.
  intros x. unfold dispatch. destruct slot as [|d|]; try easy. destruct (esd_sender d); [|easy].
  destruct (mx_cells x !! esd_cell d) as [c|]; [|easy]. now destruct (try_send data (sh_frames c)).
Qed.

Lemma quiet_new_stream_shared id w host port : quiet (new_stream_shared id w host port).
Proof. intros x. unfold new_stream_shared. now case_bool. Qed.

End Quiet.

Create HintDb quiet.
#[export] Hint Resolve quiet_ret quiet_throw quiet_park quiet_get quiet_lift quiet_put_flow quiet_remove_flow
  quiet_update_cell quiet_acknowledge quiet_send_stream_shot quiet_send_bind_shot quiet_disallow_write quiet_disallow_read
  quiet_dispatch quiet_new_stream_shared : quiet.

(** Step through a computation whose parts are quiet. *)
Ltac quiet_go :=
  repeat (intros; match goal with
    | |- quiet (mbind _ (send_frame _)) => apply quiet_bind; [now apply quiet_send_frame|]
    | |- quiet (mbind _ _) => apply quiet_bind
    | |- quiet (send_frame _) => now apply quiet_send_frame
    | |- quiet (modify _) => now apply quiet_modify
    | |- quiet (match ?e with _ => _ end) => destruct e
    | |- quiet _ => solve [auto with quiet]
    end).

Section QuietOps.
Context {C : Type -> Type} `{!Mpsc C} {O : Type -> Type} `{!Oneshot O}
    {W : Type} `{!Waker W} {S : Type} `{!WebSocket S}.

#[local] Abbreviation Mux := (Mux C O W S).
#[local] Abbreviation quiet := (@quiet C _ O W S).

Lemma quiet_drop_stream s : quiet (drop_stream s).
Proof. unfold drop_stream. quiet_go. now apply quiet_on_stream. Qed.

Lemma quiet_close_port_local slot id inhibit : quiet (close_port_local slot id inhibit).
Proof. unfold close_port_local. quiet_go. Qed.

Lemma quiet_close_port id inhibit : quiet (close_port id inhibit).
Proof. unfold close_port. quiet_go. apply quiet_close_port_local. Qed.

Lemma quiet_send_to_user s : quiet (send_to_user s).
Proof.
  intros x. unfold send_to_user. destruct (try_send s (mx_con_recv x)) as [q [[]|]]; try easy.
  exact (quiet_bind _ _ (quiet_drop_stream s) (fun _ => quiet_throw _) x).
Qed.

Lemma quiet_bind_reply r accepted : quiet (bind_reply r accepted).
Proof. unfold bind_reply. quiet_go. Qed.

Lemma quiet_bind_drop r : quiet (bind_drop r).
Proof. intros x. unfold bind_drop. pose proof (quiet_bind_reply r false x) as H. now destruct (bind_reply r false x) as [x' []]. Qed.

Lemma quiet_send_bind_request r : quiet (send_bind_request r).
Proof.
  intros x. unfold send_bind_request. destruct (mx_bnd x) as [q|]; [|easy].
  destruct (try_send r q) as [q' [[]|]]; try easy. apply quiet_bind_drop.
Qed.

#[local] Hint Resolve quiet_drop_stream quiet_close_port_local quiet_close_port quiet_send_to_user quiet_bind_reply
  quiet_bind_drop quiet_send_bind_request : quiet.

Lemma quiet_con_recv id host port w : quiet (con_recv_new_stream id host port w).
Proof. unfold con_recv_new_stream. quiet_go. Qed.

Lemma quiet_ack_recv id w : quiet (ack_recv_new_stream id w).
Proof. unfold ack_recv_new_stream. quiet_go. Qed.

#[local] Hint Resolve quiet_con_recv quiet_ack_recv : quiet.

(** A frame of a stream or a bind request. *)
Lemma quiet_process_frame f ignore : OpCode_from (frame_payload f) <> OpDatagram -> quiet (process_frame f ignore).
Proof.
  intros Hop. unfold process_frame. destruct (frame_payload f) as [c|n| | |data|b|d]; [| | | | | |now destruct Hop]; quiet_go.
Qed.

Lemma quiet_dropped_ports fuel : quiet (process_dropped_ports_task fuel).
Proof.
  induction fuel as [|fuel IH]; [apply quiet_park|]. intros x. cbn [process_dropped_ports_task].
  destruct (poll_recv (mx_dropped_ports x)) as [q [[id|]|]]; try easy. case_bool; [easy|].
  exact (quiet_bind _ _ (quiet_close_port id false) (fun _ => IH) (set_dropped x q)).
Qed.

Lemma quiet_new_stream_attempt draws host port : quiet (new_stream_attempt draws host port).
Proof. unfold new_stream_attempt. quiet_go. Qed.

Lemma quiet_bind_attempt draws host port bt : quiet (request_bind_attempt draws host port bt).
Proof. unfold request_bind_attempt. quiet_go. Qed.

Lemma quiet_await_stream r shot : quiet (await_stream_shot r shot).
Proof. intros x. unfold await_stream_shot. destruct (mx_streams_shots x !! shot) as [o|]; [|easy]. now destruct (shot_recv o) as [[]|]. Qed.

Lemma quiet_await_bind shot : quiet (await_bind_shot shot).
Proof. intros x. unfold await_bind_shot. destruct (mx_bind_shots x !! shot) as [o|]; [|easy]. now destruct (shot_recv o) as [[]|]. Qed.

Lemma quiet_cancel_new_stream shot : quiet (cancel_new_stream shot).
Proof.
  intros x. unfold cancel_new_stream. destruct (mx_streams_shots x !! shot) as [o|]; [|easy].
  destruct (shot_recv o) as [[[s|]|]|]; try easy. etransitivity; [|apply quiet_drop_stream]. easy.
Qed.

Lemma quiet_accept : quiet accept_stream_channel.
Proof. intros x. unfold accept_stream_channel. now destruct (poll_recv _). Qed.

Lemma quiet_next_bind : quiet next_bind_request.
Proof. intros x. unfold next_bind_request. destruct (mx_bnd x); [|easy]. now destruct (poll_recv _). Qed.

#[local] Hint Resolve quiet_new_stream_attempt quiet_bind_attempt quiet_await_stream quiet_await_bind quiet_cancel_new_stream
  quiet_accept quiet_next_bind quiet_dropped_ports : quiet.

Lemma quiet_run_op op : is_quiet_op op = true -> quiet (run_op op).
Proof.
  destruct op; try discriminate; cbn [is_quiet_op run_op run_branch]; intros Hop;
    try (apply quiet_ignore); try (apply quiet_on_stream; intros c); auto with quiet.
  - destruct br; try discriminate. apply quiet_dropped_ports.
  - destruct p; auto with quiet.
  - apply quiet_poll_read.
  - apply quiet_poll_write.
  - apply quiet_shutdown.
Qed.

(** *** Datagrams through a multiplexor *)

(** Sending one. *)
Lemma send_datagram_dgrams d (x : Mux) :
  dg_ok d ->
  mx_datagrams (send_datagram d x).1 = mx_datagrams x
  /\ exists ds, dgrams (mx_tx_frame (send_datagram d x).1) = dgrams (mx_tx_frame x) ++ ds /\ sublist ds [d]
     /\ (mux_live x -> ds = if crosses d then [d] else []).
Proof.
  intros Hd. unfold send_datagram. case_bool; bool_prop.
  - split; [easy|]. exists []. split; [now rewrite app_nil_r|]. split; [apply sublist_nil_l|]. intros _.
    unfold crosses. destruct (Z.leb_spec (blen (dg_target_host d)) 255); [lia|easy].
  - fold (frame_of d). assert (He : encodable (frame_of d)) by (unfold encodable; cbn; unfold cow_len; cbn; lia).
    pose proof (dgrams_tx_send (frame_of d) (mx_tx_frame x) He) as Hs. pose proof (dgram_of_datagram d Hd ltac:(lia)) as Hdg.
    pose proof (tx_send_spec (frame_of d) (mx_tx_frame x) He) as Hspec.
    unfold mbind, M_bind, send_frame. destruct (tx_send (frame_of d) (mx_tx_frame x)) as [t r]. cbn [fst snd] in Hs.
    destruct r as [[]| |]; cbn; (split; [easy|]); eexists; (split; [exact Hs|]); rewrite ?Hdg.
    + split; [now destruct (crosses d); [|apply sublist_nil_l]|easy].
    + split; [apply sublist_nil_l|]. intros [Ho Hc]. destruct (Hspec Hc) as (_ & _ & _ & Hr). rewrite Ho in Hr. easy.
    + split; [apply sublist_nil_l|]. intros [Ho Hc]. destruct (Hspec Hc) as (_ & _ & _ & Hr). rewrite Ho in Hr. easy.
Qed.

(** Receiving a message. *)
Lemma process_message_dgrams e ignore (x : Mux) :
  let x' := (process_message (MsgBinary e) ignore x).1 in
  dgrams (mx_tx_frame x') = dgrams (mx_tx_frame x)
  /\ exists ds, queue (mx_datagrams x') = queue (mx_datagrams x) ++ ds /\ sublist ds (dgram_of e).
Proof.
  cbv zeta. unfold process_message, mbind at 1 3, M_bind at 1 3, lift, dgram_of.
  assert (Hnone : forall x' : Mux, quiet_step x x' -> dgrams (mx_tx_frame x') = dgrams (mx_tx_frame x)
    /\ exists ds, queue (mx_datagrams x') = queue (mx_datagrams x) ++ ds /\ ds = []).
  { intros x' [H1 ->]. split; [easy|]. exists []. now rewrite app_nil_r. }
  destruct (frame_try_from e) as [[id p]| |]; cbn [map_err];
    try (destruct (Hnone x (quiet_step_refl x)) as (H1 & ds & H2 & ->); split; [easy|]; now exists []).
  assert (Hp : (exists d, p = Datagram d) \/ OpCode_from p <> OpDatagram) by (destruct p; eauto; now right).
  destruct Hp as [[d ->]|Hop].
  - unfold process_frame, mbind, M_bind, get. cbn [frame_payload frame_id].
    set (dg := MkMuxDatagram _ _ _ _). pose proof (view_try_send _ dg (mx_datagrams x)) as Hv.
    destruct (try_send dg (mx_datagrams x)) as [q [[]|]] eqn:Hq; cbn; (split; [easy|]);
      try (exists []; rewrite app_nil_r; split; [easy|apply sublist_nil_l]).
    exists [dg]. split; [|easy]. cbn in Hv. rewrite Hv, spec_send_queue, <- res_try_send, Hq. easy.
  - assert (Hq : quiet_step x ((_ ← process_frame (MkFrame id p) ignore; mret false) x).1)
      by (apply quiet_bind; [now apply quiet_process_frame|easy]).
    destruct (Hnone _ Hq) as (H1 & ds & H2 & ->). split; [exact H1|]. exists []. split; [exact H2|apply sublist_nil_l].
Qed.

End QuietOps.
