(* ===== verification/FlowControl.v ===== *)
(** * Flow control between the two ends of a stream

    One direction of an established stream, end to end: the writing
    [MuxStream], the frames under way, the reading [MuxStream], and the
    [Acknowledge] frames on their way back.  The steps are those of [Stream.v]
    for the two users and of [Mux.v] for the two tasks.  The windows exchanged
    in the handshake make the queue of the reader wide enough at all times, and
    they make progress exactly when the reader acknowledges within the window
    it granted. *)

From S2P Require Import Prelude Runtime Frame Timing Config Stream Mux.

Section Link.
Context {C : Type -> Type} `{!Mpsc C} {W : Type} `{!Waker W}.

(** ** Definitions *)

(** The frame queue of each side is the wire to the other. *)
Record Link := MkLink { lk_writer : Ctx C W; lk_reader : Ctx C W }.

Inductive link_op :=
| LWrite (buf : bytes)     (* the writing user calls [poll_write] *)
| LRead (n : Z)            (* the reading user calls [poll_read] *)
| LDeliver                 (* the reading task handles one frame of the writer *)
| LAcknowledge.            (* the writing task handles one frame of the reader *)

(** What the task of the reader does with a [Push]: [FlowSlot::dispatch]. *)
Definition deliver_push (data : bytes) (r : Ctx C W) : Ctx C W * option TrySendError :=
  let '(fr, e) := try_send data (sh_frames (cx_shared r)) in
  (with_shared r (set_frames (cx_shared r) fr), e).

(** Taking the oldest frame off the wire and decoding it. *)
Definition take_frame (tx : C bytes) : C bytes * option Frame :=
  let '(tx', r) := poll_recv tx in
  (tx', match r with
        | Ready (Some e) => match frame_try_from e with Ok f => Some f | _ => None end
        | _ => None
        end).

(** One step: the new state, the octets the writer got rid of, the octets the
    reader got, and whether the reader's queue was found full. *)
Definition link_step (op : link_op) (l : Link) : Link * bytes * bytes * bool :=
  match op with
  | LWrite buf =>
      let '(w, r) := poll_write [] buf (lk_writer l) in
      (MkLink w (lk_reader l), match r with Ready (Ok _) => buf | _ => [] end, [], false)
  | LRead n =>
      let '(c, r) := poll_read n (lk_reader l) in (MkLink (lk_writer l) c, [], poll_octets r, false)
  | LDeliver =>
      let '(tx, f) := take_frame (cx_tx (lk_writer l)) in
      let w := with_tx (lk_writer l) tx in
      match f with
      | Some (MkFrame _ (Push data)) =>
          let '(r, e) := deliver_push (cow_into_owned data) (lk_reader l) in
          (MkLink w r, [], [], match e with Some TrySendFull => true | _ => false end)
      | _ => (MkLink w (lk_reader l), [], [], false)
      end
  | LAcknowledge =>
      let '(tx, f) := take_frame (cx_tx (lk_reader l)) in
      let r := with_tx (lk_reader l) tx in
      match f with
      | Some (MkFrame _ (Acknowledge n)) =>
          (MkLink (with_shared (lk_writer l) (acknowledge_cell n (cx_shared (lk_writer l)))) r, [], [], false)
      | _ => (MkLink (lk_writer l) r, [], [], false)
      end
  end.

(** A schedule: everything written, everything read, and whether the queue was
    ever found full. *)
Fixpoint link_run (ops : list link_op) (l : Link) : Link * bytes * bytes * bool :=
  match ops with
  | [] => (l, [], [], false)
  | op :: rest =>
      let '(l1, written, read, full) := link_step op l in
      let '(l2, written', read', full') := link_run rest l1 in
      (l2, written ++ written', read ++ read', full || full')
  end.

(** The two ends just after the handshake: the reading side granted a window of
    [rwnd] frames and acknowledges every [threshold]. *)
Definition link_start (id rwnd threshold : Z) (w r : Ctx C W) : Prop :=
  u32_ok id /\ 0 < rwnd < 2 ^ 32 /\ u32_ok threshold
  /\ ms_flow_id (cx_stream w) = id /\ ms_flow_id (cx_stream r) = id
  /\ tx_live w /\ tx_live r /\ queue (cx_tx w) = [] /\ queue (cx_tx r) = []
  /\ sh_finish_sent (cx_shared w) = false /\ sh_psh_send_remaining (cx_shared w) = rwnd
  /\ ms_rwnd_threshold (cx_stream r) = threshold /\ ms_psh_recvd_since (cx_stream r) = 0
  /\ ms_buf (cx_stream r) = []
  /\ chan_view (sh_frames (cx_shared r)) = ChanState [] (Some (Z.to_nat rwnd)) true true.

(** ** Lemmas *)

Definition sum_acks (ns : list Z) : Z := foldr Z.add 0 ns.

(** The invariant: what is on the wires, and where the window went. *)
Record link_wf (id rwnd : Z) (l : Link) (ds : list bytes) (ns : list Z) : Prop := {
  lw_id : u32_ok id /\ ms_flow_id (cx_stream (lk_writer l)) = id /\ ms_flow_id (cx_stream (lk_reader l)) = id;
  lw_rwnd : 0 < rwnd < 2 ^ 32;
  lw_live : tx_live (lk_writer l) /\ tx_live (lk_reader l);
  lw_pushes : queue (cx_tx (lk_writer l)) = map (fun d => encoded (new_push id d)) ds;
  lw_acks : queue (cx_tx (lk_reader l)) = map (fun n => encoded (new_acknowledge id n)) ns;
  lw_acks_ok : Forall (fun n => 0 <= n) ns;
  lw_open : sh_finish_sent (cx_shared (lk_writer l)) = false;
  lw_reader : stream_wf (lk_reader l);
  lw_queue : rx_open (sh_frames (cx_shared (lk_reader l))) = true
    /\ capacity (sh_frames (cx_shared (lk_reader l))) = Some (Z.to_nat rwnd)
    /\ tx_open (sh_frames (cx_shared (lk_reader l))) = true;
  lw_remaining : 0 <= sh_psh_send_remaining (cx_shared (lk_writer l));
  lw_window : sh_psh_send_remaining (cx_shared (lk_writer l)) + Z.of_nat (length ds)
    + Z.of_nat (length (queue (sh_frames (cx_shared (lk_reader l)))))
    + ms_psh_recvd_since (cx_stream (lk_reader l)) + sum_acks ns = rwnd;
}.

Lemma sum_acks_app xs ys : sum_acks (xs ++ ys) = sum_acks xs + sum_acks ys.
Proof. induction xs; simpl; lia. Qed.

Lemma sum_acks_replicate m n : sum_acks (replicate m n) = Z.of_nat m * n.
Proof. induction m; simpl; lia. Qed.

Lemma sum_acks_nonneg ns : Forall (fun n => 0 <= n) ns -> 0 <= sum_acks ns.
Proof. induction 1; simpl; lia. Qed.

Lemma link_start_wf id rwnd threshold w r :
  link_start id rwnd threshold w r -> link_wf id rwnd (MkLink w r) [] [] /\ unread r = [].
Proof.
  intros (Hid & Hr & Ht & Hw & Hr' & Hlw & Hlr & Hqw & Hqr & Hf & Hrem & Hth & Hre & Hb & Hch).
  split; [|unfold unread; now rewrite Hb, Hch].
  split; cbn; try easy.
  - unfold stream_wf, ack_every. rewrite Hr', Hth, Hre. unfold in_width in *. split_and!; easy || lia.
  - now rewrite Hch.
  - lia.
  - rewrite Hrem, Hch, Hre. cbn. lia.
Qed.

Lemma take_frame_head (tx : C bytes) e q f :
  queue tx = e :: q -> frame_try_from e = Ok f ->
  exists tx', take_frame tx = (tx', Some f) /\ queue tx' = q
    /\ rx_open tx' = rx_open tx /\ capacity tx' = capacity tx.
Proof.
  intros Hq Hf. unfold take_frame. pose proof (view_poll_recv _ tx) as Hv. pose proof (res_poll_recv _ tx) as Hr.
  destruct (spec_recv_flags (chan_view tx)) as (Ho & _ & Hc). rewrite <- Hv in Ho, Hc.
  destruct (poll_recv tx) as [tx' r]. cbn in *. unfold spec_recv in *. rewrite Hq in *. cbn in *. subst r.
  rewrite Hf. exists tx'. rewrite Hv. now split_and!.
Qed.

Lemma take_frame_empty (tx : C bytes) :
  queue tx = [] -> exists tx', take_frame tx = (tx', None) /\ chan_view tx' = chan_view tx.
Proof.
  intros Hq. unfold take_frame. pose proof (view_poll_recv _ tx) as Hv. pose proof (res_poll_recv _ tx) as Hr.
  destruct (poll_recv tx) as [tx' r]. cbn in *. unfold spec_recv in *. rewrite Hq in *. cbn in *.
  subst r. exists tx'. now destruct (_ && _).
Qed.

(** *** One step *)

(** Reading leaves the flags of the queue alone while it is open. *)
Lemma poll_read_queue n (c : Ctx C W) :
  0 <= n -> rx_open (sh_frames (cx_shared c)) = true -> tx_open (sh_frames (cx_shared c)) = true ->
  let fr := sh_frames (cx_shared (poll_read n c).1) in
  rx_open fr = true /\ tx_open fr = true /\ capacity fr = capacity (sh_frames (cx_shared c)).
Proof.
  intros Hn Ho Ht. destruct (poll_read_spec n c Hn) as (k & _ & -> & _ & _). cbn.
  unfold poll_fill_buf. destruct (ms_buf (cx_stream c)); [|easy].
  pose proof (view_poll_recv _ (sh_frames (cx_shared c))) as Hv. pose proof (res_poll_recv _ (sh_frames (cx_shared c))) as Hr.
  destruct (spec_recv_flags (chan_view (sh_frames (cx_shared c)))) as (Ho' & Ht' & Hc'). rewrite <- Hv in Ho', Ht', Hc'.
  destruct (poll_recv (sh_frames (cx_shared c))) as [fr r]. cbn in *. rewrite Ho, Ht in *.
  unfold spec_recv in Hr. rewrite Ho, Ht in Hr. destruct (queue (sh_frames (cx_shared c))); cbn in Hr; subst r; cbn; [easy|].
  unfold increment_psh_recvd_since. now case_bool.
Qed.

Lemma map_replicate {A B} (f : A -> B) n a : map f (replicate n a) = replicate n (f a).
Proof. induction n; simpl; congruence. Qed.

Definition good_op (op : link_op) : Prop := match op with LRead n => 0 <= n | _ => True end.

(** What a step owes: the invariant, no overflow of the queue, and every octet
    accounted for, in order. *)
Definition step_ok (id rwnd : Z) (l : Link) (ds : list bytes) (out : Link * bytes * bytes * bool) : Prop :=
  let '(l', written, read, full) := out in
  full = false /\ exists ds' ns', link_wf id rwnd l' ds' ns'
    /\ read ++ unread (lk_reader l') ++ concat ds' = unread (lk_reader l) ++ concat ds ++ written.

Lemma write_step_ok id rwnd buf l ds ns : link_wf id rwnd l ds ns -> step_ok id rwnd l ds (link_step (LWrite buf) l).
Proof.
  intros []. destruct l as [w r]; cbn in *. destruct lw_live0 as [Hlw Hlr].
  destruct (poll_write_open buf w lw_open0 Hlw) as (Hl' & Hst & Hf & Hfr & H0 & H1).
  destruct (poll_write [] buf w) as [w' res]. cbn [fst snd] in *.
  destruct (decide (sh_psh_send_remaining (cx_shared w) = 0)) as [Hz|Hz].
  - destruct (H0 Hz) as (-> & Htx & Hrem & _). split; [easy|]. exists ds, ns. rewrite app_nil_r.
    split; [|easy]. split; cbn; rewrite ?Hst, ?Htx, ?Hrem; easy || lia.
  - destruct (H1 Hz) as (-> & Htx & Hrem). split; [easy|]. exists (ds ++ [buf]), ns.
    rewrite concat_app. cbn [concat]. rewrite app_nil_r, app_nil_l. split; [|easy].
    split; cbn; rewrite ?Hst, ?Hrem; try easy; try lia.
    + rewrite Htx, lw_pushes0, map_app. cbn. now rewrite (proj1 (proj2 lw_id0)).
    + rewrite length_app. cbn. lia.
Qed.

Lemma read_step_ok id rwnd n l ds ns : 0 <= n -> link_wf id rwnd l ds ns -> step_ok id rwnd l ds (link_step (LRead n) l).
Proof.
  intros Hn Hwf. pose proof Hwf as []. destruct l as [w r]; cbn in *. destruct lw_live0 as [Hlw Hlr].
  destruct (poll_read_step n r Hn lw_reader0 Hlr) as (Hu & Hwf' & Hl' & Hid' & Hev & m & Hq & Hcount).
  destruct (poll_read_queue n r Hn (proj1 lw_queue0) (proj2 (proj2 lw_queue0))) as (Ho & Ht & Hcap).
  destruct (poll_read n r) as [r' res]. cbn [fst snd] in *.
  split; [easy|]. exists ds, (ns ++ replicate m (ack_every (cx_stream r))).
  split; [|cbn; now rewrite app_nil_r, app_assoc, Hu].
  split; cbn; rewrite ?Hid', ?Ho, ?Hcap, ?Ht; try easy.
  - rewrite Hq, lw_acks0, map_app, map_replicate. now rewrite (proj2 (proj2 lw_id0)).
  - apply Forall_app. split; [easy|]. apply Forall_replicate. unfold ack_every. lia.
  - rewrite sum_acks_app, sum_acks_replicate. lia.
Qed.

Lemma deliver_step_ok id rwnd l ds ns : link_wf id rwnd l ds ns -> step_ok id rwnd l ds (link_step LDeliver l).
Proof.
  intros Hwf. pose proof Hwf as []. destruct l as [w r]; cbn [lk_writer lk_reader] in *. cbn [link_step lk_writer lk_reader].
  destruct lw_id0 as (Hid & Hidw & Hidr). destruct lw_live0 as [[Hlwo Hlwc] Hlr].
  destruct ds as [|d ds]; cbn [map] in lw_pushes0.
  - destruct (take_frame_empty _ lw_pushes0) as (tx' & -> & Hv). split; [easy|]. exists [], ns.
    split; [|cbn; now rewrite !app_nil_r]. split; cbn; unfold tx_live in *; cbn; rewrite ?Hv; easy.
  - destruct (take_frame_head _ _ _ _ lw_pushes0 (decode_push id d Hid)) as (tx' & -> & Hq & Ho & Hc).
    unfold deliver_push. cbn [cow_into_owned].
    pose proof (view_try_send _ d (sh_frames (cx_shared r))) as Hv. pose proof (res_try_send _ d (sh_frames (cx_shared r))) as Hr.
    destruct lw_queue0 as (Hro & Hrc & Hrt).
    assert (Hroom : chan_full (chan_view (sh_frames (cx_shared r))) = false).
    { unfold chan_full. rewrite Hrc. apply Nat.leb_gt. cbn in lw_window0.
      pose proof (sum_acks_nonneg ns lw_acks_ok0). destruct lw_reader0 as (_ & _ & ?). lia. }
    rewrite (spec_send_ok d _ Hro Hroom) in Hv, Hr. destruct (try_send d _) as [fr e]. cbn in Hv, Hr. subst e.
    split; [easy|]. exists ds, ns. split; [|unfold unread; cbn; rewrite Hv; cbn; rewrite concat_app; cbn;
      now rewrite !app_nil_r, <- !app_assoc].
    split; cbn; rewrite ?Hv, ?Ho, ?Hc; cbn; try easy.
    + unfold tx_live. cbn. now rewrite Ho, Hc.
    + rewrite length_app. cbn in *. lia.
Qed.

Lemma ack_step_ok id rwnd l ds ns : link_wf id rwnd l ds ns -> step_ok id rwnd l ds (link_step LAcknowledge l).
Proof.
  intros Hwf. pose proof Hwf as []. destruct l as [w r]; cbn [lk_writer lk_reader] in *. cbn [link_step lk_writer lk_reader].
  destruct lw_id0 as (Hid & Hidw & Hidr). destruct lw_live0 as [Hlw [Hlro Hlrc]].
  destruct ns as [|n ns]; cbn [map] in lw_acks0.
  - destruct (take_frame_empty _ lw_acks0) as (tx' & -> & Hv). split; [easy|]. exists ds, [].
    split; [|cbn; now rewrite !app_nil_r]. split; cbn; unfold tx_live; cbn; rewrite ?Hv; easy.
  - pose proof (Forall_inv lw_acks_ok0) as Hn0. pose proof (Forall_inv_tail lw_acks_ok0) as H2. cbn in Hn0.
    change (sum_acks (n :: ns)) with (n + sum_acks ns) in lw_window0. pose proof (sum_acks_nonneg ns H2).
    assert (Hn : u32_ok n) by (unfold in_width; destruct lw_reader0 as (_ & _ & ?); lia).
    destruct (take_frame_head _ _ _ (frame_owned (new_acknowledge id n)) lw_acks0) as (tx' & -> & Hq & Ho & Hc).
    { apply decode_encoded; [now split|easy]. }
    cbn [frame_owned new_acknowledge frame_id frame_payload payload_owned].
    split; [easy|]. exists ds, ns. split; [|cbn; now rewrite !app_nil_r].
    assert (Hrem : wrapping_add32 (sh_psh_send_remaining (cx_shared w)) n = sh_psh_send_remaining (cx_shared w) + n).
    { apply wrapping_add32_small; destruct lw_reader0 as (_ & _ & ?); lia. }
    split; cbn; rewrite ?Hrem; try easy; try lia.
    unfold tx_live. cbn. now rewrite Ho, Hc.
Qed.

Lemma link_step_ok id rwnd op l ds ns :
  good_op op -> link_wf id rwnd l ds ns -> step_ok id rwnd l ds (link_step op l).
Proof.
  intros Hop Hwf. destruct op.
  - now apply (write_step_ok _ _ _ _ _ ns).
  - now apply (read_step_ok _ _ _ _ _ ns).
  - now apply (deliver_step_ok _ _ _ _ ns).
  - now apply (ack_step_ok _ _ _ _ ns).
Qed.

Lemma link_run_ok id rwnd ops l ds ns :
  Forall good_op ops -> link_wf id rwnd l ds ns -> step_ok id rwnd l ds (link_run ops l).
Proof.
  intros Hops. revert l ds ns. induction Hops as [|op ops Hop _ IH]; intros l ds ns Hwf; cbn [link_run].
  - split; [easy|]. exists ds, ns. now rewrite app_nil_r.
  - pose proof (link_step_ok id rwnd op l ds ns Hop Hwf) as H1. destruct (link_step op l) as [[[l1 w1] r1] f1].
    destruct H1 as (-> & ds1 & ns1 & Hwf1 & He1). specialize (IH l1 ds1 ns1 Hwf1).
    destruct (link_run ops l1) as [[[l2 w2] r2] f2]. destruct IH as (-> & ds2 & ns2 & Hwf2 & He2).
    split; [easy|]. exists ds2, ns2. split; [easy|].
    rewrite <- app_assoc, He2, !app_assoc, <- (app_assoc r1), He1, !app_assoc. easy.
Qed.

(** *** A reader that never acknowledges *)

(** Nothing under way and nothing to read. *)
Definition idle (id rwnd : Z) (l : Link) : Prop :=
  link_wf id rwnd l [] [] /\ queue (sh_frames (cx_shared (lk_reader l))) = []
  /\ ms_buf (cx_stream (lk_reader l)) = [].

(** One frame written, delivered and read. *)
Definition cycle : list link_op := [LWrite [0]; LDeliver; LRead 1].

Lemma read_one (r : Ctx C W) :
  stream_wf r -> tx_live r -> ms_buf (cx_stream r) = [] ->
  queue (sh_frames (cx_shared r)) = [[0]] -> ms_psh_recvd_since (cx_stream r) + 1 < ack_every (cx_stream r) ->
  let r' := (poll_read 1 r).1 in
  ms_buf (cx_stream r') = [] /\ queue (sh_frames (cx_shared r')) = [] /\ queue (cx_tx r') = queue (cx_tx r)
  /\ ms_psh_recvd_since (cx_stream r') = ms_psh_recvd_since (cx_stream r) + 1
  /\ ms_rwnd_threshold (cx_stream r') = ms_rwnd_threshold (cx_stream r).
Proof.
  intros Hwf Hl Hb Hq Hlt. cbv zeta. unfold poll_read. destruct (poll_fill_buf r) as [r1 res] eqn:Hfill.
  destruct (poll_fill_buf_cases _ _ _ Hfill) as [(x & b & Hbx & _)|[_ [(next & q & Hq' & -> & fr & -> & Hfr)|(Hq' & _)]]];
    [congruence| |congruence].
  rewrite Hq in Hq'. injection Hq' as <- <-.
  match goal with |- context [increment_psh_recvd_since ?d] =>
    destruct (increment_spec d) as (Hsh & _ & Hst & Hqx); [easy..|]; set (c' := increment_psh_recvd_since d) in * end.
  unfold ack_every in *. cbn -[Z.max Z.eqb Z.add encoded] in Hst, Hsh, Hqx.
  destruct (Z.eqb_spec (ms_psh_recvd_since (cx_stream r) + 1) (Z.max 1 (ms_rwnd_threshold (cx_stream r)))); [lia|].
  clearbody c'. rewrite app_nil_r in Hqx. unfold consume. rewrite Hst. cbn [ms_buf set_recvd set_buf].
  change (blen [0]) with 1. change (1 <? Z.min 1 1) with false. cbv iota.
  cbn [fst cx_stream cx_shared cx_tx with_stream]. rewrite Hsh, Hqx. now split_and!.
Qed.

Lemma cycle_idle id rwnd l :
  idle id rwnd l -> ms_psh_recvd_since (cx_stream (lk_reader l)) < rwnd ->
  rwnd < ack_every (cx_stream (lk_reader l)) ->
  let '(l', _, _, _) := link_run cycle l in
  idle id rwnd l'
  /\ ms_psh_recvd_since (cx_stream (lk_reader l')) = ms_psh_recvd_since (cx_stream (lk_reader l)) + 1
  /\ ack_every (cx_stream (lk_reader l')) = ack_every (cx_stream (lk_reader l)).
Proof.
  intros (Hwf & Hq & Hb) Hrec Hev.
  assert (Hops : Forall good_op cycle) by (repeat constructor; simpl; lia).
  pose proof (link_run_ok id rwnd cycle l [] [] Hops Hwf) as Hok. revert Hok.
  destruct l as [w r]. cbn [lk_writer lk_reader] in *. pose proof Hwf as [].
  cbn [lk_writer lk_reader map] in *. rewrite Hq in lw_window0. cbn in lw_window0.
  destruct lw_id0 as (Hid & Hidw & Hidr). destruct lw_live0 as [Hlw Hlr].
  unfold cycle. cbn [link_run link_step lk_writer lk_reader].
  destruct (poll_write_open [0] w lw_open0 Hlw) as (Hlw' & Hst & _ & _ & _ & H1).
  destruct (poll_write [] [0] w) as [w' res]. cbn [fst snd] in *. destruct H1 as (-> & Htx & Hrem); [lia|].
  cbn [lk_writer lk_reader]. rewrite lw_pushes0, Hidw in Htx.
  destruct (take_frame_head (cx_tx w') _ _ _ Htx (decode_push id [0] Hid)) as (tx' & -> & Hqt & Ho & Hc).
  unfold deliver_push. cbn [cow_into_owned].
  pose proof (view_try_send _ [0] (sh_frames (cx_shared r))) as Hv.
  assert (Hroom : chan_full (chan_view (sh_frames (cx_shared r))) = false).
  { unfold chan_full. destruct lw_queue0 as (_ & -> & _). rewrite Hq. apply Nat.leb_gt. simpl. lia. }
  rewrite (spec_send_ok [0] _ (proj1 lw_queue0) Hroom) in Hv.
  destruct (try_send [0] (sh_frames (cx_shared r))) as [fr e]. cbn in Hv. cbn [lk_writer lk_reader].
  set (r1 := with_shared r (set_frames (cx_shared r) fr)).
  destruct (read_one r1) as (Hb' & Hq' & Htx' & Hrec' & Hth); [easy|easy|easy|cbn; now rewrite Hv, Hq|cbn; lia|].
  destruct (poll_read 1 r1) as [r' res']. cbn [fst] in *.
  intros (_ & ds & ns & Hwf' & _). pose proof Hwf' as [].
  cbn [lk_writer lk_reader] in *. cbn in lw_pushes1. rewrite Hqt in lw_pushes1.
  rewrite Htx' in lw_acks1. cbn in lw_acks1. rewrite lw_acks0 in lw_acks1.
  destruct ds; [|easy]. destruct ns; [|easy]. split; [now split_and!|]. split; [exact Hrec'|].
  unfold ack_every. now rewrite Hth.
Qed.

Lemma link_run_app ops1 ops2 l :
  (link_run (ops1 ++ ops2) l).1.1.1 = (link_run ops2 (link_run ops1 l).1.1.1).1.1.1.
Proof.
  revert l. induction ops1 as [|op ops1 IH]; intros l; [easy|]. cbn [app link_run].
  destruct (link_step op l) as [[[l1 w1] r1] f1]. specialize (IH l1).
  destruct (link_run (ops1 ++ ops2) l1) as [[[l2 w2] r2] f2], (link_run ops1 l1) as [[[l3 w3] r3] f3]. exact IH.
Qed.

Lemma cycles_idle id rwnd n l :
  idle id rwnd l -> ms_psh_recvd_since (cx_stream (lk_reader l)) + Z.of_nat n <= rwnd ->
  rwnd < ack_every (cx_stream (lk_reader l)) ->
  let l' := (link_run (concat (replicate n cycle)) l).1.1.1 in
  idle id rwnd l' /\ ms_psh_recvd_since (cx_stream (lk_reader l')) = ms_psh_recvd_since (cx_stream (lk_reader l)) + Z.of_nat n
  /\ ack_every (cx_stream (lk_reader l')) = ack_every (cx_stream (lk_reader l)).
Proof.
  revert l. induction n as [|n IH]; intros l Hi Hn Hev; [cbn; split; [easy|split; [lia|easy]]|].
  cbn [replicate concat]. cbv zeta. rewrite link_run_app.
  pose proof (cycle_idle id rwnd l Hi ltac:(lia) Hev) as H.
  destruct (link_run cycle l) as [[[l1 w1] r1] f1]. cbn [fst]. destruct H as (Hi1 & Hr1 & He1).
  destruct (IH l1 Hi1 ltac:(lia) ltac:(now rewrite He1)) as (H1 & H2 & H3).
  split; [exact H1|]. split; [lia|congruence].
Qed.

(** Idle and without window: no step changes that. *)
Lemma stuck_step id rwnd op l :
  good_op op -> idle id rwnd l -> sh_psh_send_remaining (cx_shared (lk_writer l)) = 0 ->
  let '(l', written, read, _) := link_step op l in
  written = [] /\ read = [] /\ idle id rwnd l' /\ sh_psh_send_remaining (cx_shared (lk_writer l')) = 0.
Proof.
  intros Hop (Hwf & Hq & Hb) Hz. pose proof (link_step_ok id rwnd op l [] [] Hop Hwf) as Hok.
  destruct l as [w r]. cbn [lk_writer lk_reader] in *. pose proof Hwf as []. cbn [lk_writer lk_reader map] in *.
  destruct op; cbn [link_step lk_writer lk_reader] in *.
  - destruct (poll_write_open buf w lw_open0 (proj1 lw_live0)) as (_ & Hst & _ & _ & H0 & _).
    destruct (poll_write [] buf w) as [w' res]. cbn [fst snd] in *. destruct (H0 Hz) as (-> & Htx & Hrem & _).
    destruct Hok as (_ & ds & ns & Hwf' & _). pose proof Hwf' as []. cbn [lk_writer lk_reader] in *.
    rewrite Htx, lw_pushes0 in lw_pushes1. rewrite lw_acks0 in lw_acks1.
    destruct ds; [|easy]. destruct ns; [|easy]. now split_and!.
  - assert (Hp : exists fr, poll_read n r = (with_shared r (set_frames (cx_shared r) fr), Pending) /\ queue fr = []).
    { unfold poll_read, poll_fill_buf. rewrite Hb. destruct lw_queue0 as (Ho & _ & Ht).
      pose proof (view_poll_recv _ (sh_frames (cx_shared r))) as Hv. pose proof (res_poll_recv _ (sh_frames (cx_shared r))) as Hr.
      unfold spec_recv in *. rewrite Hq, Ho, Ht in *. destruct (poll_recv (sh_frames (cx_shared r))) as [fr res].
      cbn in *. subst res. exists fr. split; [easy|]. now rewrite Hv. }
    destruct Hp as (fr & Hp & Hfr). rewrite Hp in *.
    destruct Hok as (_ & ds & ns & Hwf' & _). pose proof Hwf' as []. cbn [lk_writer lk_reader] in *.
    rewrite lw_pushes0 in lw_pushes1. cbn in lw_acks1. rewrite lw_acks0 in lw_acks1.
    destruct ds; [|easy]. destruct ns; [|easy]. now split_and!.
  - destruct (take_frame_empty _ lw_pushes0) as (tx' & Htf & Hv). rewrite Htf in *.
    destruct Hok as (_ & ds & ns & Hwf' & _). pose proof Hwf' as []. cbn [lk_writer lk_reader] in *.
    cbn in lw_pushes1. rewrite Hv, lw_pushes0 in lw_pushes1. rewrite lw_acks0 in lw_acks1.
    destruct ds; [|easy]. destruct ns; [|easy]. now split_and!.
  - destruct (take_frame_empty _ lw_acks0) as (tx' & Htf & Hv). rewrite Htf in *.
    destruct Hok as (_ & ds & ns & Hwf' & _). pose proof Hwf' as []. cbn [lk_writer lk_reader] in *.
    cbn in lw_acks1. rewrite Hv, lw_acks0 in lw_acks1. rewrite lw_pushes0 in lw_pushes1.
    destruct ds; [|easy]. destruct ns; [|easy]. now split_and!.
Qed.

Lemma stuck_run id rwnd ops l :
  Forall good_op ops -> idle id rwnd l -> sh_psh_send_remaining (cx_shared (lk_writer l)) = 0 ->
  (link_run ops l).1.1.2 = [] /\ sh_psh_send_remaining (cx_shared (lk_writer (link_run ops l).1.1.1)) = 0.
Proof.
  intros Hops. revert l. induction Hops as [|op ops Hop _ IH]; intros l Hi Hz; [easy|]. cbn [link_run].
  pose proof (stuck_step id rwnd op l Hop Hi Hz) as H. destruct (link_step op l) as [[[l1 w1] r1] f1].
  destruct H as (-> & _ & Hi1 & Hz1). destruct (IH l1 Hi1 Hz1) as [H1 H2].
  destruct (link_run ops l1) as [[[l2 w2] r2] f2]. cbn in *. now subst.
Qed.

End Link.

Arguments Link : clear implicits.

(** ** Properties *)

(** Along every schedule of writes, reads and deliveries the reader gets
    exactly the octets the writer got rid of, in order: what was read, what
    waits at the reader and what is on the wire make up what was written.  The
    reader's queue is never found full and the window never exceeds what was granted. *)
Theorem link_reliable {C : Type -> Type} `{!Mpsc C} {W : Type} `{!Waker W}
    (id rwnd threshold : Z) (w r : Ctx C W) (ops : list link_op) :
  link_start id rwnd threshold w r -> Forall good_op ops ->
  let '(l, written, read, full) := link_run ops (MkLink w r) in
  read ++ unread (lk_reader l) ++ pushed (queue (cx_tx (lk_writer l))) = written
  /\ full = false
  /\ 0 <= sh_psh_send_remaining (cx_shared (lk_writer l)) <= rwnd
  /\ Z.of_nat (length (queue (sh_frames (cx_shared (lk_reader l))))) <= rwnd.
Proof.
  intros Hs Hops. destruct (link_start_wf id rwnd threshold w r Hs) as [Hwf Hu].
  pose proof (link_run_ok id rwnd ops (MkLink w r) [] [] Hops Hwf) as H.
  destruct (link_run ops (MkLink w r)) as [[[l written] read] full].
  destruct H as (-> & ds & ns & Hwf' & He). cbn in He. rewrite Hu in He. cbn in He. pose proof Hwf' as [].
  assert (Hp : pushed (queue (cx_tx (lk_writer l))) = concat ds).
  { rewrite lw_pushes0. unfold pushed. rewrite map_map. f_equal. rewrite <- (map_id ds) at 2. apply map_ext.
    intros d. apply push_data_push, lw_id0. }
  rewrite Hp. split; [exact He|]. split; [easy|].
  pose proof (sum_acks_nonneg ns lw_acks_ok0). destruct lw_reader0 as (_ & _ & ?). lia.
Qed.

(** Two ends with a window of 3 frames and an acknowledgement every 2. *)
Definition example_writer : Ctx chan_state bool :=
  MkCtx (MkMuxStream 0 17 [] 0 0 [] 2)
    (MkShared (ChanState [] (Some 8%nat) true true) false 3 false)
    (ChanState [] None true true) (ChanState [] None true true).
Definition example_reader (threshold : Z) : Ctx chan_state bool :=
  MkCtx (MkMuxStream 0 17 [] 0 0 [] threshold)
    (MkShared (ChanState [] (Some 3%nat) true true) false 8 false)
    (ChanState [] None true true) (ChanState [] None true true).

Lemma example_start threshold : u32_ok threshold -> link_start 17 3 threshold example_writer (example_reader threshold).
Proof. intros Ht. unfold link_start, in_width, tx_live in *. cbn. split_and!; easy || lia. Qed.

Definition example_ops : list link_op :=
  [LWrite [1]; LWrite [2; 3]; LWrite [4]; LWrite [5]; LDeliver; LRead 1; LDeliver; LRead 1; LAcknowledge;
   LWrite [5]; LDeliver; LRead 9].

Lemma example_ops_good : Forall good_op example_ops.
Proof. repeat (apply Forall_cons_2; [simpl; first [exact I|lia]|]). apply Forall_nil_2. Qed.

Lemma example_start_2 : link_start 17 3 2 example_writer (example_reader 2).
Proof. apply example_start. unfold in_width. lia. Qed.

Lemma link_reliable_witness :
  let '(l, written, read, full) := link_run example_ops (MkLink example_writer (example_reader 2)) in
  written = [1; 2; 3; 4; 5] /\ read = [1; 2; 3]
  /\ read ++ unread (lk_reader l) ++ pushed (queue (cx_tx (lk_writer l))) = written.
Proof.
  pose proof (link_reliable 17 3 2 example_writer (example_reader 2) example_ops
    example_start_2 example_ops_good) as H.
  assert (Hw : (link_run example_ops (MkLink example_writer (example_reader 2))).1.1.2 = [1; 2; 3; 4; 5]) by (vm_compute; reflexivity).
  assert (Hr : (link_run example_ops (MkLink example_writer (example_reader 2))).1.2 = [1; 2; 3]) by (vm_compute; reflexivity).
  destruct (link_run example_ops (MkLink example_writer (example_reader 2))) as [[[l written] read] full].
  split; [exact Hw|]. split; [exact Hr|]. exact (proj1 H).
Defined.

(** If the reader acknowledges within the window it granted, a writer is
    never left waiting for good: whenever everything under way has arrived and
    everything received has been read, the window is open and a write goes
    through. *)
Theorem link_progress {C : Type -> Type} `{!Mpsc C} {W : Type} `{!Waker W}
    (id rwnd threshold : Z) (w r : Ctx C W) (ops : list link_op) (buf : bytes) :
  link_start id rwnd threshold w r -> Forall good_op ops ->
  let l := (link_run ops (MkLink w r)).1.1.1 in
  ack_every (cx_stream (lk_reader l)) <= rwnd ->
  queue (cx_tx (lk_writer l)) = [] -> queue (cx_tx (lk_reader l)) = [] ->
  queue (sh_frames (cx_shared (lk_reader l))) = [] ->
  0 < sh_psh_send_remaining (cx_shared (lk_writer l))
  /\ (poll_write [] buf (lk_writer l)).2 = Ready (Ok (blen buf)).
Proof.
  intros Hs Hops l Hev Hqw Hqr Hq. destruct (link_start_wf id rwnd threshold w r Hs) as [Hwf Hu].
  pose proof (link_run_ok id rwnd ops (MkLink w r) [] [] Hops Hwf) as H. subst l.
  destruct (link_run ops (MkLink w r)) as [[[l written] read] full]. cbn [fst] in *.
  destruct H as (_ & ds & ns & Hwf' & _). pose proof Hwf' as [].
  rewrite Hqw in lw_pushes0. rewrite Hqr in lw_acks0. destruct ds; [|easy]. destruct ns; [|easy].
  rewrite Hq in lw_window0. cbn in lw_window0. destruct lw_reader0 as (_ & _ & Hrec).
  assert (Hpos : 0 < sh_psh_send_remaining (cx_shared (lk_writer l))) by lia. split; [exact Hpos|].
  destruct (poll_write_open buf (lk_writer l) lw_open0 (proj1 lw_live0)) as (_ & _ & _ & _ & _ & H1).
  apply H1. lia.
Qed.

Definition drained_ops : list link_op := example_ops ++ [LDeliver; LRead 9; LRead 9; LAcknowledge].

Lemma link_progress_witness :
  let l := (link_run drained_ops (MkLink example_writer (example_reader 2))).1.1.1 in
  (poll_write [] [9] (lk_writer l)).2 = Ready (Ok (blen [9])).
Proof.
  cbv zeta. eapply proj2, (link_progress 17 3 2 example_writer (example_reader 2) drained_ops [9]).
  - exact example_start_2.
  - apply Forall_app. split; [exact example_ops_good|].
    repeat (apply Forall_cons_2; [simpl; first [exact I|lia]|]). apply Forall_nil_2.
  - vm_compute. discriminate.
  - vm_compute. reflexivity.
  - vm_compute. reflexivity.
  - vm_compute. reflexivity.
Defined.

(** If the reader acknowledges less often than the window it granted, the
    two ends reach a state from which the writer never writes again, whatever
    either side does: the threshold is derived from the peer's window, not from
    the window granted to the peer, so a receive window below the threshold
    deadlocks the stream. *)
Theorem link_deadlock {C : Type -> Type} `{!Mpsc C} {W : Type} `{!Waker W}
    (id rwnd threshold : Z) (w r : Ctx C W) :
  link_start id rwnd threshold w r -> rwnd < threshold ->
  exists schedule, forall ops, Forall good_op ops ->
  let l := (link_run schedule (MkLink w r)).1.1.1 in
  (link_run ops l).1.1.2 = [] /\ sh_psh_send_remaining (cx_shared (lk_writer (link_run ops l).1.1.1)) = 0.
Proof.
  intros Hs Hlt. destruct (link_start_wf id rwnd threshold w r Hs) as [Hwf _].
  destruct Hs as (_ & Hr & _ & _ & _ & _ & _ & _ & _ & _ & _ & Hth & Hre & Hb & Hch).
  exists (concat (replicate (Z.to_nat rwnd) cycle)). intros ops Hops.
  destruct (cycles_idle id rwnd (Z.to_nat rwnd) (MkLink w r)) as (Hi & Hrec & _).
  - split_and!; cbn; [easy|now rewrite Hch|easy].
  - cbn. rewrite Hre. lia.
  - unfold ack_every. cbn. rewrite Hth. lia.
  - cbv zeta. apply (stuck_run id rwnd); [easy|exact Hi|].
    destruct Hi as ([] & Hq & _). cbn in Hrec. rewrite Hre in Hrec. rewrite Hq in lw_window0. cbn in lw_window0. lia.
Qed.

Lemma link_deadlock_witness :
  exists schedule, forall ops, Forall good_op ops ->
  let l := (link_run schedule (MkLink example_writer (example_reader 256))).1.1.1 in
  (link_run ops l).1.1.2 = [] /\ sh_psh_send_remaining (cx_shared (lk_writer (link_run ops l).1.1.1)) = 0.
Proof.
  apply (link_deadlock 17 3 256 example_writer (example_reader 256)).
  - apply example_start. split; [discriminate|reflexivity].
  - reflexivity.
Defined.
