(* ===== verification/Pipe.v ===== *)
(** * A stream as a bounded pipe

    What two ends joined by their tasks promise to the two users, without
    frames, queues and acknowledgements: a first-in first-out pipe of octets
    that takes at most as many writes as the window granted, beyond those
    acknowledged.  The link of FlowControl.v refines it, step by step. *)

From S2P Require Import Prelude Runtime Frame Timing Config Stream Mux FlowControl.

(** ** The specification *)

(** The octets under way, and the writes not acknowledged yet. *)
Record pipe := MkPipe { pp_octets : bytes; pp_used : Z }.

Inductive pipe_label :=
| Wrote (buf : bytes)      (* a write that went through *)
| Refused                  (* a write that has to wait *)
| Got (out : bytes)        (* what a read handed out *)
| Internal.

Inductive pipe_step (rwnd : Z) : pipe -> pipe_label -> pipe -> Prop :=
| pipe_write p u buf : u < rwnd -> pipe_step rwnd (MkPipe p u) (Wrote buf) (MkPipe (p ++ buf) (u + 1))
| pipe_refuse p : pipe_step rwnd (MkPipe p rwnd) Refused (MkPipe p rwnd)
| pipe_read p u out : pipe_step rwnd (MkPipe (out ++ p) u) (Got out) (MkPipe p u)
| pipe_credit p u n : 0 <= n <= u -> pipe_step rwnd (MkPipe p u) Internal (MkPipe p (u - n)).

Inductive pipe_run (rwnd : Z) : pipe -> list pipe_label -> pipe -> Prop :=
| pipe_done p : pipe_run rwnd p [] p
| pipe_more p l q ls r : pipe_step rwnd p l q -> pipe_run rwnd q ls r -> pipe_run rwnd p (l :: ls) r.

Definition written_by (l : pipe_label) : bytes := match l with Wrote buf => buf | _ => [] end.
Definition read_by (l : pipe_label) : bytes := match l with Got out => out | _ => [] end.

(** The label of an operation of the link. *)
Definition label_of (op : link_op) (l : pipe_label) : Prop :=
  match op with
  | LWrite buf => l = Wrote buf \/ l = Refused
  | LRead n => exists out, l = Got out /\ blen out <= n
  | LDeliver | LAcknowledge => l = Internal
  end.

Section Refinement.
Context {C : Type -> Type} `{!Mpsc C} {W : Type} `{!Waker W}.

(** What a link stands for. *)
Definition pipe_of (rwnd : Z) (l : Link C W) : pipe :=
  MkPipe (unread (lk_reader l) ++ pushed (queue (cx_tx (lk_writer l))))
    (rwnd - sh_psh_send_remaining (cx_shared (lk_writer l))).

(** ** Lemmas *)

Lemma pushed_wf id rwnd (l : Link C W) ds ns : link_wf id rwnd l ds ns -> pushed (queue (cx_tx (lk_writer l))) = concat ds.
Proof.
  intros []. rewrite lw_pushes. unfold pushed. rewrite map_map. f_equal. rewrite <- (map_id ds) at 2. apply map_ext.
  intros d. apply push_data_push, lw_id.
Qed.

Lemma window_bounds id rwnd (l : Link C W) ds ns :
  link_wf id rwnd l ds ns -> 0 <= sh_psh_send_remaining (cx_shared (lk_writer l)) <= rwnd.
Proof. intros []. pose proof (sum_acks_nonneg ns lw_acks_ok). destruct lw_reader as (_ & _ & ?). lia. Qed.

(** How the window of the writer moves. *)
Lemma acknowledge_grows id rwnd (l : Link C W) ds ns :
  link_wf id rwnd l ds ns ->
  sh_psh_send_remaining (cx_shared (lk_writer l))
  <= sh_psh_send_remaining (cx_shared (lk_writer (link_step LAcknowledge l).1.1.1)).
Proof.
  intros Hwf. pose proof Hwf as []. cbn [link_step]. destruct ns as [|n ns]; cbn [map] in lw_acks.
  - destruct (take_frame_empty _ lw_acks) as (tx' & -> & _). cbn. lia.
  - pose proof (Forall_inv lw_acks_ok) as Hn0. pose proof (sum_acks_nonneg ns (Forall_inv_tail lw_acks_ok)).
    change (sum_acks (n :: ns)) with (n + sum_acks ns) in lw_window. destruct lw_reader as (_ & _ & ?). cbn in Hn0.
    assert (Hn : u32_ok n) by (unfold in_width; lia).
    destruct (take_frame_head _ _ _ (frame_owned (new_acknowledge id n)) lw_acks) as (tx' & -> & _).
    { apply decode_encoded; [split; [apply lw_id|exact Hn]|easy]. }
    cbn. rewrite wrapping_add32_small; lia.
Qed.

Lemma window_kept op (l : Link C W) :
  match op with LRead _ | LDeliver => True | _ => False end ->
  sh_psh_send_remaining (cx_shared (lk_writer (link_step op l).1.1.1)) = sh_psh_send_remaining (cx_shared (lk_writer l)).
Proof.
  destruct op; cbn [link_step]; intros Hop; try easy.
  - now destruct (poll_read n (lk_reader l)).
  - destruct (take_frame _) as [tx [[i p]|]]; [destruct p|]; try easy. now destruct (deliver_push _ _).
Qed.

(** A write goes through exactly when there is window. *)
Lemma write_window id rwnd buf (l : Link C W) ds ns :
  link_wf id rwnd l ds ns ->
  let u := sh_psh_send_remaining (cx_shared (lk_writer l)) in
  let '(l', written, _, _) := link_step (LWrite buf) l in
  if decide (u = 0) then written = [] /\ sh_psh_send_remaining (cx_shared (lk_writer l')) = 0
  else written = buf /\ sh_psh_send_remaining (cx_shared (lk_writer l')) = u - 1.
Proof.
  intros []. cbn [link_step]. destruct (poll_write_open buf (lk_writer l) lw_open (proj1 lw_live)) as (_ & _ & _ & _ & H0 & H1).
  destruct (poll_write [] buf (lk_writer l)) as [w' res]. cbn [fst snd] in *. destruct (decide _) as [Hz|Hz].
  - destruct (H0 Hz) as (-> & _ & Hrem & _). cbn. split; [easy|congruence].
  - destruct (H1 Hz) as (-> & _ & Hrem). now cbn.
Qed.

Lemma read_size n (c : Ctx C W) : 0 <= n -> blen (poll_octets (poll_read n c).2) <= n.
Proof.
  intros Hn. unfold poll_read. destruct (poll_fill_buf c) as [c1 [[got|e|]|]]; cbn; try (unfold blen; cbn; lia).
  destruct (consume _ c1); cbn; unfold blen; rewrite ?length_take; cbn; lia.
Qed.

(** One step of the link is one step of the pipe. *)
Lemma link_step_refines id rwnd op (l : Link C W) ds ns :
  good_op op -> link_wf id rwnd l ds ns ->
  let '(l', written, read, full) := link_step op l in
  full = false /\ (exists ds' ns', link_wf id rwnd l' ds' ns')
  /\ exists lab, label_of op lab /\ pipe_step rwnd (pipe_of rwnd l) lab (pipe_of rwnd l')
       /\ written = written_by lab /\ read = read_by lab.
Proof.
  intros Hop Hwf. pose proof (link_step_ok id rwnd op l ds ns Hop Hwf) as Hok.
  pose proof (window_bounds _ _ _ _ _ Hwf) as Hb. pose proof (pushed_wf _ _ _ _ _ Hwf) as Hp.
  assert (Hwin := write_window id rwnd). assert (Hack := acknowledge_grows id rwnd l ds ns Hwf). assert (Hkept := window_kept op l).
  assert (Hsize : match op with LRead n => blen (link_step op l).1.2 <= n | _ => True end).
  { destruct op as [buf|n| |]; try easy. cbn [link_step good_op] in *. pose proof (read_size n (lk_reader l) Hop).
    now destruct (poll_read n (lk_reader l)). }
  assert (Hnone : match op with LWrite _ => (link_step op l).1.2 = [] | LRead _ => (link_step op l).1.1.2 = []
                  | _ => (link_step op l).1.2 = [] /\ (link_step op l).1.1.2 = [] end).
  { destruct op; cbn [link_step]; [now destruct (poll_write _ _ _)|now destruct (poll_read _ _)| |];
      destruct (take_frame _) as [tx [[i p]|]]; try destruct p; try easy; now destruct (deliver_push _ _). }
  specialize (Hwin). destruct (link_step op l) as [[[l' written] read] full] eqn:Hstep. cbn [fst snd] in *.
  destruct Hok as (-> & ds' & ns' & Hwf' & He). split; [easy|]. split; [eauto|].
  pose proof (window_bounds _ _ _ _ _ Hwf') as Hb'. pose proof (pushed_wf _ _ _ _ _ Hwf') as Hp'.
  unfold pipe_of. rewrite Hp, Hp'. destruct op as [buf|n| |].
  - subst read. specialize (Hwin buf l ds ns Hwf). cbv zeta in Hwin. rewrite Hstep in Hwin. cbn [app] in He.
    destruct (decide _) as [Hz|Hz]; destruct Hwin as [-> Hr]; rewrite Hr.
    + exists Refused. split; [now right|]. rewrite app_nil_r in He. rewrite He, Hz, Z.sub_0_r. split; [constructor|easy].
    + exists (Wrote buf). split; [now left|]. rewrite He, app_assoc. split; [|easy].
      replace (rwnd - (sh_psh_send_remaining (cx_shared (lk_writer l)) - 1))
        with (rwnd - sh_psh_send_remaining (cx_shared (lk_writer l)) + 1) by lia. constructor. lia.
  - subst written. exists (Got read). split; [now exists read|]. rewrite (Hkept I). rewrite app_nil_r in He.
    rewrite <- He. split; [constructor|easy].
  - destruct Hnone as [-> ->]. exists Internal. split; [easy|]. rewrite (Hkept I). rewrite app_nil_r in He. cbn in He.
    rewrite He. split; [|easy]. rewrite <- (Z.sub_0_r (rwnd - _)) at 2. constructor. lia.
  - destruct Hnone as [-> ->]. exists Internal. split; [easy|]. rewrite app_nil_r in He. cbn in He. rewrite He. split; [|easy].
    rewrite Hstep in Hack. cbn in Hack. set (u := sh_psh_send_remaining (cx_shared (lk_writer l))) in *.
    set (u' := sh_psh_send_remaining (cx_shared (lk_writer l'))) in *.
    replace (rwnd - u') with (rwnd - u - (u' - u)) by lia. constructor. lia.
Qed.

Lemma link_run_refines id rwnd ops (l : Link C W) ds ns :
  Forall good_op ops -> link_wf id rwnd l ds ns ->
  let '(l', written, read, full) := link_run ops l in
  full = false
  /\ exists labs, Forall2 label_of ops labs /\ pipe_run rwnd (pipe_of rwnd l) labs (pipe_of rwnd l')
       /\ written = concat (map written_by labs) /\ read = concat (map read_by labs).
Proof.
  intros Hops. revert l ds ns. induction Hops as [|op ops Hop _ IH]; intros l ds ns Hwf; cbn [link_run].
  - split; [easy|]. exists []. split; [constructor|]. split; [constructor|easy].
  - pose proof (link_step_refines id rwnd op l ds ns Hop Hwf) as H1. destruct (link_step op l) as [[[l1 w1] r1] f1].
    destruct H1 as (-> & (ds1 & ns1 & Hwf1) & lab & Hlab & Hstep & -> & ->). specialize (IH l1 ds1 ns1 Hwf1).
    destruct (link_run ops l1) as [[[l2 w2] r2] f2]. destruct IH as (-> & labs & Hlabs & Hrun & -> & ->).
    split; [easy|]. exists (lab :: labs). split; [now constructor|]. split; [now apply pipe_more with (pipe_of rwnd l1)|easy].
Qed.

(** ** Properties *)

(** C3: two ends after the handshake behave as an empty pipe whose capacity is
    the window granted: every schedule of calls of the users and steps of the
    tasks is a run of the pipe, call by call, in which a write goes through
    exactly when the pipe has room and reads hand out the octets in order. *)
Theorem link_refines_pipe id rwnd threshold (w r : Ctx C W) ops :
  link_start id rwnd threshold w r -> Forall good_op ops ->
  let '(l, written, read, full) := link_run ops (MkLink w r) in
  full = false
  /\ exists labs, Forall2 label_of ops labs /\ pipe_run rwnd (MkPipe [] 0) labs (pipe_of rwnd l)
       /\ written = concat (map written_by labs) /\ read = concat (map read_by labs).
Proof.
  intros Hs Hops. destruct (link_start_wf id rwnd threshold w r Hs) as [Hwf Hu].
  replace (MkPipe [] 0) with (pipe_of rwnd (MkLink w r)); [now apply (link_run_refines id rwnd ops _ [] [])|].
  unfold pipe_of. rewrite (pushed_wf _ _ _ _ _ Hwf). cbn [lk_reader lk_writer]. rewrite Hu.
  destruct Hs as (_ & _ & _ & _ & _ & _ & _ & _ & _ & _ & -> & _). now rewrite Z.sub_diag.
Qed.
End Refinement.

(** ** Concrete runs *)

Lemma link_refines_pipe_witness :
  let '(l, written, read, full) := link_run example_ops (MkLink example_writer (example_reader 2)) in
  full = false
  /\ exists labs, Forall2 label_of example_ops labs /\ pipe_run 3 (MkPipe [] 0) labs (pipe_of 3 l)
       /\ written = concat (map written_by labs) /\ read = concat (map read_by labs).
Proof.
  pose proof (link_refines_pipe 17 3 2 example_writer (example_reader 2) example_ops example_start_2 example_ops_good) as H.
  destruct (link_run example_ops (MkLink example_writer (example_reader 2))) as [[[l written] read] full]. exact H.
Defined.

(** Its labels: the fourth write is refused until a frame is acknowledged. *)
Example example_labels :
  let '(l, written, read, full) := link_run example_ops (MkLink example_writer (example_reader 2)) in
  pipe_of 3 l = MkPipe [4; 5] 2 /\ written = [1; 2; 3; 4; 5].
Proof. vm_compute. easy. Qed.
