(* ===== verification/Handshake.v ===== *)
(** * Opening a stream, end to end

    The handshake across both multiplexors: the call of the user that sends
    [Connect], the task of the peer that accepts it and answers [Acknowledge],
    and the task of the caller that hands the stream out.  It ends with the two
    streams in the state from which FlowControl.v and Pipe.v start, in both
    directions. *)

From S2P Require Import Prelude Runtime Frame Timing Config Stream Mux MuxInv MuxProps FlowControl Pipe.

Section Handshake.
Context {C : Type -> Type} `{!Mpsc C} {O : Type -> Type} `{!Oneshot O} {W : Type} `{!Waker W} {S1 S2 : Type}.

(** ** Definitions *)

(** The oldest frame on the way out of a multiplexor, as the peer decodes it. *)
Definition carry {S} (x : Mux C O W S) : Mux C O W S * option Frame :=
  let '(tx, f) := take_frame (mx_tx_frame x) in (set_tx x tx, f).

(** The task of a multiplexor handles a frame that arrived. *)
Definition arrive {S} (f : option Frame) (x : Mux C O W S) : Mux C O W S :=
  match f with Some f => (process_frame f false x).1 | None => x end.

(** [new_stream_channel] of [a] up to its [await], and one frame each way. *)
Definition handshake (draws : list Z) (host : bytes) (port : Z) (a : Mux C O W S1) (b : Mux C O W S2)
  : Mux C O W S1 * Mux C O W S2 :=
  let '(a, connect) := carry (new_stream_attempt draws host port a).1 in
  let '(b, acknowledge) := carry (arrive connect b) in
  (arrive acknowledge a, b).

(** What the methods of a stream object work on. *)
Definition ctx_of {S} (x : Mux C O W S) (s : MuxStream) : option (Ctx C W) :=
  sh ← mx_cells x !! ms_cell s; Some (MkCtx s sh (mx_tx_frame x) (mx_dropped_ports x)).

(** A multiplexor with nothing on the way out, [x], and [x'], which has the
    stream [s] as well, whose peer granted the window [w]. *)
Record joined {S} (id w : Z) (s : MuxStream) (x x' : Mux C O W S) : Prop := {
  jn_wf : mux_wf x';
  jn_live : mux_live x';
  jn_idle : queue (mx_tx_frame x') = [];
  jn_stream : s = new_stream_of x id w (ms_dest_host s) (ms_dest_port s);
  jn_flows : mx_flows x' = <[id := Established (MkEsd true (ms_cell s))]> (mx_flows x);
  jn_ctx : ctx_of x' s = Some (MkCtx s (new_cell x w) (mx_tx_frame x') (mx_dropped_ports x'));
  jn_dropped : mx_dropped_ports x' = mx_dropped_ports x;
  jn_binds : mx_bnd x' = mx_bnd x;
}.

(** ** Lemmas *)

Lemma carry_head {S} (x : Mux C O W S) f q :
  queue (mx_tx_frame x) = encoded f :: q -> frame_ok f -> OpCode_from (frame_payload f) <> OpDatagram -> mux_live x ->
  exists t, carry x = (set_tx x t, Some (frame_owned f)) /\ queue t = q /\ rx_open t = true /\ capacity t = None.
Proof.
  intros Hq Hok Hop [Ho Hc]. destruct (take_frame_head _ _ _ _ Hq (decode_encoded f Hok Hop)) as (t & Ht & Hqt & Hot & Hct).
  exists t. unfold carry. rewrite Ht. split_and!; congruence.
Qed.

(** The task of the peer gets the request. *)
Lemma request_arrives {S} (x : Mux C O W S) id w host port :
  mux_wf x -> mux_live x -> queue (mx_tx_frame x) = [] -> mx_flows x !! id = None -> u32_ok id -> u32_ok w ->
  rx_open (mx_con_recv x) = true -> chan_full (chan_view (mx_con_recv x)) = false ->
  let s := new_stream_of x id w host port in
  exists x', carry (con_recv_new_stream id host port w x).1 = (x', Some (frame_owned (new_acknowledge id (mx_rwnd x))))
    /\ joined id w s x x' /\ mx_con_recv x' = (try_send s (mx_con_recv x)).1
    /\ queue (mx_con_recv x') = queue (mx_con_recv x) ++ [s].
Proof.
  intros Hx Hl Hq Hid Hu Hw Ho Hf s. pose proof (preserves_con_recv id host port w Hu Hw x Hx) as Hx1. revert Hx1.
  rewrite (con_recv_new_eq x id host port w Hx Hid). unfold mbind, M_bind.
  destruct (send_frame_live (new_acknowledge id (mx_rwnd x)) (with_new_stream x id w) I Hl) as (t & -> & Hqt & Hot & Hct).
  unfold send_to_user. change (mx_con_recv (set_tx (with_new_stream x id w) t)) with (mx_con_recv x). fold s.
  pose proof (view_try_send _ s (mx_con_recv x)) as Hv. pose proof (res_try_send _ s (mx_con_recv x)) as Hr.
  rewrite (spec_send_ok _ _ Ho Hf) in Hv, Hr. destruct (try_send s (mx_con_recv x)) as [q e]. cbn in Hv, Hr. subst e. cbn [fst].
  set (x1 := set_queues _ q _ _). intros Hx1. cbn in Hqt. rewrite Hq in Hqt.
  assert (Hr : u32_ok (mx_rwnd x)) by (destruct (wf_params _ _ Hx); unfold in_width; lia).
  destruct (carry_head x1 (new_acknowledge id (mx_rwnd x)) []) as (t2 & -> & Hq2 & Ho2 & Hc2); [exact Hqt|now split|easy|now split|].
  exists (set_tx x1 t2). split; [easy|]. split; [|split; [easy|exact (f_equal (fun v => cs_queue v) Hv)]].
  split; try easy; [now apply wf_set_tx|]. unfold ctx_of. cbn. now rewrite lookup_insert_eq.
Qed.

(** The task of the caller gets the answer. *)
Lemma answer_arrives {S} (x : Mux C O W S) id w k :
  mux_wf x -> mux_live x -> queue (mx_tx_frame x) = [] -> mx_flows x !! id = Some (Requested k) ->
  mx_streams_shots x !! k = Some oneshot -> u32_ok id -> u32_ok w ->
  let s := new_stream_of x id w [] 0 in
  exists x' o, process_frame (frame_owned (new_acknowledge id w)) false x = (x', Ret tt)
    /\ joined id w s x x' /\ mx_con_recv x' = mx_con_recv x
    /\ mx_streams_shots x' !! k = Some o /\ shot_view o = ShotSent (Some s).
Proof.
  intros Hx Hl Hq Hs Ho Hu Hw s. cbn [frame_owned new_acknowledge process_frame frame_id frame_payload payload_owned]. rewrite bind_get, Hs.
  pose proof (preserves_ack_recv x id k w Hw Hx Hs) as Hx1. revert Hx1. rewrite (ack_recv_eq x id k oneshot w Hx Hs Ho). fold s.
  pose proof (res_shot_send _ (Some s) (oneshot : O (option MuxStream))) as Hr.
  pose proof (view_shot_send _ (Some s) (oneshot : O (option MuxStream))) as Hv.
  rewrite view_oneshot in Hr, Hv. rewrite Hr. cbn [fst snd spec_shot_send]. intros Hx1.
  eexists _, (shot_send (Some s) oneshot).1. split; [reflexivity|]. split; [|split; [easy|split; [cbn; apply lookup_insert_eq|exact Hv]]].
  split; try easy. unfold ctx_of. cbn. now rewrite lookup_insert_eq.
Qed.

(** One direction between the two ends. *)
Lemma joined_link {S S'} id (x x' : Mux C O W S) (y y' : Mux C O W S') sx sy :
  mux_wf x -> mux_wf y -> u32_ok id -> joined id (mx_rwnd y) sx x x' -> joined id (mx_rwnd x) sy y y' ->
  link_start id (mx_rwnd y) (ms_rwnd_threshold sy)
    (MkCtx sx (new_cell x (mx_rwnd y)) (mx_tx_frame x') (mx_dropped_ports x'))
    (MkCtx sy (new_cell y (mx_rwnd x)) (mx_tx_frame y') (mx_dropped_ports y')).
Proof.
  intros Hx Hy Hid [_ Hlx Hix Ex _ _ _ _] [_ Hly Hiy Ey _ _ _ _].
  destruct (wf_params _ _ Hx) as [Hrx _], (wf_params _ _ Hy) as [Hry Hty].
  unfold link_start. cbn [cx_stream cx_shared cx_tx]. rewrite Ex, Ey. cbn. unfold in_width in *.
  split_and!; try easy; try lia. apply view_channel.
Qed.

Lemma drawn_u32 draws (flows : gmap Z FlowSlot) id :
  Forall valid_draw draws -> next_available_key draws flows = Some id -> u32_ok id.
Proof.
  intros Hd Hk. apply next_available_key_spec in Hk as [Hin%list_elem_of_In _]. rewrite Forall_forall in Hd. exact (valid_draw_u32 _ (Hd _ Hin)).
Qed.

Lemma handshake_joins (a : Mux C O W S1) (b : Mux C O W S2) draws host port id :
  mux_wf a -> mux_wf b -> mux_live a -> mux_live b ->
  queue (mx_tx_frame a) = [] -> queue (mx_tx_frame b) = [] ->
  Forall valid_draw draws -> next_available_key draws (mx_flows a) = Some id -> mx_flows b !! id = None ->
  rx_open (mx_con_recv b) = true -> chan_full (chan_view (mx_con_recv b)) = false ->
  bytes_ok host -> u16_ok port ->
  let sa := new_stream_of a id (mx_rwnd b) [] 0 in
  let sb := new_stream_of b id (mx_rwnd a) host port in
  exists a' b' o, handshake draws host port a b = (a', b')
    /\ joined id (mx_rwnd b) sa a a' /\ joined id (mx_rwnd a) sb b b'
    /\ mx_streams_shots a' !! mx_next_shot a = Some o /\ shot_view o = ShotSent (Some sa)
    /\ mx_con_recv a' = mx_con_recv a /\ mx_con_recv b' = (try_send sb (mx_con_recv b)).1
    /\ queue (mx_con_recv b') = queue (mx_con_recv b) ++ [sb].
Proof.
  intros Ha Hb Hla Hlb Hqa Hqb Hd Hk Hfree Hor Hfr Hhost Hport sa sb.
  pose proof (drawn_u32 draws _ id Hd Hk) as Hid.
  assert (Hwa : u32_ok (mx_rwnd a)) by (destruct (wf_params _ _ Ha); unfold in_width; lia).
  assert (Hwb : u32_ok (mx_rwnd b)) by (destruct (wf_params _ _ Hb); unfold in_width; lia).
  pose proof (preserves_new_stream_attempt draws host port Hd a Ha) as Ha1.
  unfold handshake. destruct (new_stream_attempt_eq draws host port id a Hla Hk) as (t1 & Hq1 & Ho1 & Hc1 & E1).
  rewrite E1 in *. cbn [fst] in *. rewrite Hqa in Hq1. cbn [app] in Hq1. set (a1 := set_tx _ t1) in *.
  destruct (carry_head a1 (new_connect host port id (mx_rwnd a)) []) as (t2 & -> & Hq2 & Ho2 & Hc2);
    [exact Hq1|now split_and!|easy|now split|].
  cbn [arrive frame_owned new_connect process_frame frame_id frame_payload payload_owned con_target_host con_target_port
       con_rwnd cow_into_owned].
  match goal with |- context [con_recv_new_stream id ?h ?p ?w b] => change h with host; change p with port; change w with (mx_rwnd a) end.
  destruct (request_arrives b id (mx_rwnd a) host port Hb Hlb Hqb Hfree Hid Hwa Hor Hfr) as (b' & -> & Jb & Hcb & Hqcb).
  cbn [arrive]. set (a2 := set_tx a1 t2). assert (Ha2 : mux_wf a2) by (apply wf_set_tx; [easy|exact Ha1]).
  destruct (answer_arrives a2 id (mx_rwnd b) (mx_next_shot a)) as (a' & o & -> & Ja & Hca & Ho & Hov);
    [exact Ha2|now split|exact Hq2|cbn; apply lookup_insert_eq|cbn; apply lookup_insert_eq|exact Hid|exact Hwb|].
  exists a', b', o. split; [easy|]. split; [|easy]. destruct Ja as [J1 J2 J3 J4 J5 J6 J7 J8]. split; try easy.
  rewrite J5. cbn. apply insert_insert_eq.
Qed.

(** ** Properties *)

(** C9: two multiplexors with nothing under way, the caller drawing an
    identifier free on both sides and the peer having room for a stream: after
    one frame each way both hold an established stream under that identifier,
    the caller's is the answer to its request, the peer's waits to be accepted
    with the host and port asked for, and each direction is a link that starts
    with the window the other side granted.  The threshold by which a reader
    acknowledges is bounded by its own default and the {e other} side's window. *)
Theorem handshake_establishes_link (a : Mux C O W S1) (b : Mux C O W S2) draws host port id :
  mux_wf a -> mux_wf b -> mux_live a -> mux_live b ->
  queue (mx_tx_frame a) = [] -> queue (mx_tx_frame b) = [] ->
  Forall valid_draw draws -> next_available_key draws (mx_flows a) = Some id -> mx_flows b !! id = None ->
  rx_open (mx_con_recv b) = true -> chan_full (chan_view (mx_con_recv b)) = false ->
  bytes_ok host -> u16_ok port ->
  let '(a', b') := handshake draws host port a b in
  exists sa sb ca cb o,
    mx_flows a' = <[id := Established (MkEsd true (ms_cell sa))]> (mx_flows a)
    /\ mx_flows b' = <[id := Established (MkEsd true (ms_cell sb))]> (mx_flows b)
    /\ mx_streams_shots a' !! mx_next_shot a = Some o /\ shot_view o = ShotSent (Some sa)
    /\ queue (mx_con_recv b') = queue (mx_con_recv b) ++ [sb]
    /\ ms_dest_host sb = host /\ ms_dest_port sb = port
    /\ ctx_of a' sa = Some ca /\ ctx_of b' sb = Some cb
    /\ ms_rwnd_threshold sa = Z.min (mx_default_rwnd_threshold a) (mx_rwnd b)
    /\ ms_rwnd_threshold sb = Z.min (mx_default_rwnd_threshold b) (mx_rwnd a)
    /\ link_start id (mx_rwnd b) (ms_rwnd_threshold sb) ca cb
    /\ link_start id (mx_rwnd a) (ms_rwnd_threshold sa) cb ca.
Proof.
  intros Ha Hb Hla Hlb Hqa Hqb Hd Hk Hfree Hor Hfr Hhost Hport.
  destruct (handshake_joins a b draws host port id) as (a' & b' & o & -> & Ja & Jb & Ho & Hov & _ & _ & Hq); try easy.
  pose proof (drawn_u32 draws _ id Hd Hk) as Hid.
  pose proof (joined_link id a a' b b' _ _ Ha Hb Hid Ja Jb) as H1. pose proof (joined_link id b b' a a' _ _ Hb Ha Hid Jb Ja) as H2.
  eexists _, _, _, _, o. split; [exact (jn_flows _ _ _ _ _ Ja)|]. split; [exact (jn_flows _ _ _ _ _ Jb)|].
  split; [exact Ho|]. split; [exact Hov|]. split; [exact Hq|]. split; [easy|]. split; [easy|].
  split; [exact (jn_ctx _ _ _ _ _ Ja)|]. split; [exact (jn_ctx _ _ _ _ _ Jb)|]. easy.
Qed.

End Handshake.

(** ** Concrete runs *)

(** A caller with the default options and a peer that grants a smaller window. *)
Definition caller : TMux := empty_mux (MkMemWs [] []).
Definition callee : TMux :=
  MkMux ∅ ∅ 0 ∅ ∅ 0 unbounded_channel unbounded_channel (channel 16) (channel 512) None (MkMemWs [] []) 64 256 3.

Lemma caller_wf : mux_wf caller.
Proof. apply (mux_new_wf (S := MemWs) (MkMemWs [] []) None); [now split|now split|reflexivity]. Qed.

Lemma callee_wf : mux_wf callee.
Proof. split; cbn; try easy; apply table_empty. Qed.

Lemma handshake_establishes_link_witness :
  let '(a', b') := handshake [7; 9] (bytes_of_string "db") 5432 caller callee in
  exists sa sb ca cb, queue (mx_con_recv b') = [sb] /\ ms_dest_host sb = bytes_of_string "db"
    /\ ctx_of a' sa = Some ca /\ ctx_of b' sb = Some cb
    /\ link_start 7 64 256 ca cb /\ link_start 7 512 64 cb ca.
Proof.
  pose proof (handshake_establishes_link caller callee [7; 9] (bytes_of_string "db") 5432 7 caller_wf callee_wf
    (conj eq_refl eq_refl) (conj eq_refl eq_refl) eq_refl eq_refl) as H.
  destruct (handshake [7; 9] (bytes_of_string "db") 5432 caller callee) as [a' b'].
  destruct H as (sa & sb & ca & cb & o & _ & _ & _ & _ & Hq & Hh & _ & Hca & Hcb & Hta & Htb & H1 & H2); try reflexivity.
  - repeat (apply Forall_cons_2; [split; [discriminate|reflexivity]|]). apply Forall_nil_2.
  - repeat (apply Forall_cons_2; [split; [discriminate|reflexivity]|]). apply Forall_nil_2.
  - split; [discriminate|reflexivity].
  - rewrite Htb in H1. rewrite Hta in H2. exists sa, sb, ca, cb. now split_and!.
Defined.
