(* ===== verification/Duplex.v ===== *)
(** * A connection through the tunnel, octet for octet

    The whole way of a TCP connection once its stream is established: the
    copier of the client between the local connection and its end of the
    stream, the frames under way in both directions (data, acknowledgements
    and the two ends of file), and the copier of the server between its end
    and the target.  Under any schedule nothing is lost, duplicated or
    reordered, no queue is ever found full, and when a copier is done with one
    direction, all of it has arrived. *)

From S2P Require Import Prelude Runtime Frame Timing Config Stream Mux MuxInv MuxProps FlowControl Handshake.

(** ** Definitions *)

Section Receive.
Context {C : Type -> Type} `{!Mpsc C} {W : Type} `{!Waker W}.

(** What the task does to an established stream with a frame for it, and
    whether it found the queue of the stream full. *)
Definition receive (f : Frame) (c : Ctx C W) : Ctx C W * bool :=
  match frame_payload f with
  | Push data =>
      let '(c', e) := deliver_push (cow_into_owned data) c in (c', match e with Some TrySendFull => true | _ => false end)
  | Acknowledge n => (with_shared c (acknowledge_cell n (cx_shared c)), false)
  | Finish => (with_shared c (set_frames (cx_shared c) (tx_drop (sh_frames (cx_shared c)))), false)
  | _ => (c, false)
  end.

(** The oldest frame of [a] is handled by the task of [b]. *)
Definition cross (a b : Ctx C W) : Ctx C W * Ctx C W * bool :=
  let '(tx, f) := take_frame (cx_tx a) in
  match f with
  | Some f => let '(b', full) := receive f b in (with_tx a tx, b', full)
  | None => (with_tx a tx, b, false)
  end.

End Receive.

(** It is the handler of the task, data and the end of the stream for a slot
    whose sender is still there: after the handler the stream sees what [receive] makes of what it saw before. *)
Lemma receive_is_process_frame {C : Type -> Type} `{!Mpsc C} {O : Type -> Type} `{!Oneshot O} {W : Type} `{!Waker W}
    {S : Type} `{!WebSocket S} (x : Mux C O W S) id p s d c :
  mx_flows x !! id = Some (Established d) -> esd_cell d = ms_cell s -> ctx_of x s = Some c ->
  match p with Push _ | Finish => esd_sender d = true | Acknowledge _ => True | _ => False end -> (receive (MkFrame id p) c).2 = false ->
  let '(x', r) := process_frame (MkFrame id p) false x in
  r = Ret tt /\ ctx_of x' s = Some (receive (MkFrame id p) c).1.
Proof.
  unfold ctx_of. intros Hs Hcell Hc Hd Hfull. destruct (mx_cells x !! ms_cell s) as [sh|] eqn:Hsh; [|easy].
  cbn in Hc. injection Hc as <-. destruct p as [| n| | |data| |]; try easy; unfold receive in *; cbn [frame_payload] in *;
    unfold process_frame, mbind, M_bind, get; cbn [frame_payload frame_id]; rewrite Hs.
  - unfold acknowledge, update_cell, modify. cbn. rewrite Hcell, lookup_alter_eq, Hsh. easy.
  - unfold disallow_read, mbind, M_bind, update_cell, modify. rewrite Hd. cbn. rewrite Hcell, lookup_alter_eq, Hsh. easy.
  - unfold dispatch, deliver_push in *. rewrite Hd, Hcell, Hsh. cbn [cx_shared] in *.
    destruct (try_send (cow_into_owned data) (sh_frames sh)) as [fr [[]|]]; [easy|..]; cbn; now rewrite lookup_insert_eq.
Qed.

Section Duplex.
Context {C : Type -> Type} `{!Mpsc C} {W : Type} `{!Waker W} {RW1 RW2 : Type} `{!BufRW RW1} `{!BufRW RW2}.

(** The copier of the client and the copier of the server. *)
Record duplex := MkDuplex { dx_client : CopyBidirectional C W RW1; dx_server : CopyBidirectional C W RW2 }.

Inductive duplex_op := PollClient (fuel : nat) | PollServer (fuel : nat) | FrameToServer | FrameToClient.

Definition with_us {RW} (c : CopyBidirectional C W RW) (us : Ctx C W) : CopyBidirectional C W RW :=
  MkCopy us (cb_other c) (cb_read_state c) (cb_write_state c).

(** One step, and whether a queue was found full. *)
Definition duplex_step (op : duplex_op) (d : duplex) : duplex * bool :=
  match op with
  | PollClient fuel => (MkDuplex (copy_poll fuel (dx_client d)).1 (dx_server d), false)
  | PollServer fuel => (MkDuplex (dx_client d) (copy_poll fuel (dx_server d)).1, false)
  | FrameToServer =>
      let '(a, b, full) := cross (cb_us (dx_client d)) (cb_us (dx_server d)) in
      (MkDuplex (with_us (dx_client d) a) (with_us (dx_server d) b), full)
  | FrameToClient =>
      let '(b, a, full) := cross (cb_us (dx_server d)) (cb_us (dx_client d)) in
      (MkDuplex (with_us (dx_client d) a) (with_us (dx_server d) b), full)
  end.

Fixpoint duplex_run (ops : list duplex_op) (d : duplex) : duplex * bool :=
  match ops with
  | [] => (d, false)
  | op :: rest =>
      let '(d1, full) := duplex_step op d in
      let '(d2, full') := duplex_run rest d1 in (d2, full || full')
  end.

(** ** Reference notions *)

(** All the octets that left or are to leave [from] for [to], in order. *)
Definition flow {R1 R2} `{!BufRW R1} `{!BufRW R2} (from : CopyBidirectional C W R1) (to : CopyBidirectional C W R2) : bytes :=
  rw_out (cb_other to) ++ unread (cb_us to) ++ pushed (queue (cx_tx (cb_us from))) ++ rw_in (cb_other from).

Definition read_done {R} (c : CopyBidirectional C W R) : Prop := exists n, cb_read_state c = RDone n.

End Duplex.

(** ** The invariant *)

(** The frames of a stream on the wire. *)
Inductive wire := WPush (data : bytes) | WAck (n : Z) | WFin.

Definition wire_frame (id : Z) (f : wire) : Frame :=
  match f with WPush d => new_push id d | WAck n => new_acknowledge id n | WFin => new_finish id end.
Definition enc (id : Z) (f : wire) : bytes := encoded (wire_frame id f).

Definition wire_ok (f : wire) : Prop :=
  match f with WPush d => d <> [] | WAck n => 0 <= n | WFin => True end.

Definition count (g : wire -> Z) (fs : list wire) : Z := foldr (fun f n => g f + n) 0 fs.
Definition is_push (f : wire) : Z := match f with WPush _ => 1 | _ => 0 end.
Definition ack_of (f : wire) : Z := match f with WAck n => n | _ => 0 end.
Definition only_acks (fs : list wire) : Prop := Forall (fun f => match f with WAck _ => True | _ => False end) fs.

(** The end of a direction: whether the writer has finished, whether the reader
    knows, and what is under way. *)
Definition fin_state (finished open : bool) (fs : list wire) : Prop :=
  match finished, open with
  | false, true => Forall (fun f => f <> WFin) fs
  | true, true => exists f1 f2, fs = f1 ++ WFin :: f2 /\ Forall (fun f => f <> WFin) f1 /\ only_acks f2
  | true, false => only_acks fs
  | false, false => False
  end.

Section Invariant.
Context {C : Type -> Type} `{!Mpsc C} {W : Type} `{!Waker W}.

(** One direction, from [w] to [r], with [fs] under way and [gs] on the way
    back: where the window of [rwnd] frames went. *)
Record half (rwnd : Z) (w r : Ctx C W) (fs gs : list wire) : Prop := {
  hf_rwnd : 0 < rwnd < 2 ^ 32;
  hf_remaining : 0 <= sh_psh_send_remaining (cx_shared w);
  hf_window : sh_psh_send_remaining (cx_shared w) + count is_push fs
    + Z.of_nat (length (queue (sh_frames (cx_shared r)))) + ms_psh_recvd_since (cx_stream r) + count ack_of gs = rwnd;
  hf_cap : capacity (sh_frames (cx_shared r)) = Some (Z.to_nat rwnd);
  hf_data : Forall (fun x => x <> []) (queue (sh_frames (cx_shared r)));
  hf_fin : fin_state (sh_finish_sent (cx_shared w)) (tx_open (sh_frames (cx_shared r))) fs;
  hf_rx : rx_open (sh_frames (cx_shared r)) = true
    \/ (tx_open (sh_frames (cx_shared r)) = false /\ queue (sh_frames (cx_shared r)) = []);
}.

Definition end_ok (id : Z) (c : Ctx C W) : Prop := ms_flow_id (cx_stream c) = id /\ tx_live c /\ stream_wf c.

(** Both directions of the two ends of the stream [id]. *)
Definition duo (id ra rb : Z) (a b : Ctx C W) : Prop :=
  end_ok id a /\ end_ok id b /\ exists fs gs,
    queue (cx_tx a) = map (enc id) fs /\ queue (cx_tx b) = map (enc id) gs
    /\ Forall wire_ok fs /\ Forall wire_ok gs /\ half rb a b fs gs /\ half ra b a gs fs.

(** ** Lemmas *)

Lemma duo_sym id ra rb a b : duo id ra rb a b -> duo id rb ra b a.
Proof. intros (Ha & Hb & fs & gs & ? & ? & ? & ? & ? & ?). split; [easy|]. split; [easy|]. now exists gs, fs. Qed.

Lemma count_app g fs gs : count g (fs ++ gs) = count g fs + count g gs.
Proof. unfold count. induction fs; simpl; lia. Qed.

Lemma count_one g f : count g [f] = g f.
Proof. unfold count. simpl. lia. Qed.

Lemma count_nonneg g fs : (forall f, f ∈ fs -> 0 <= g f) -> 0 <= count g fs.
Proof.
  induction fs as [|f fs IH]; intros H; [easy|]. unfold count in *. simpl.
  assert (0 <= g f) by (apply H; left). assert (0 <= foldr (fun f n => g f + n) 0 fs) by (apply IH; intros; apply H; now right). lia.
Qed.

Lemma count_push_nonneg fs : 0 <= count is_push fs.
Proof. apply count_nonneg. intros [] _; simpl; lia. Qed.

Lemma count_ack_nonneg fs : Forall wire_ok fs -> 0 <= count ack_of fs.
Proof.
  intros H. apply count_nonneg. intros f Hf%list_elem_of_In. rewrite Forall_forall in H. specialize (H f Hf). now destruct f.
Qed.

Lemma half_acks_push fs : only_acks fs -> count is_push fs = 0.
Proof. now induction 1 as [|[] fs Hf _ IH]. Qed.

(** More acknowledgements behind what is under way. *)
Lemma fin_state_ack finished open fs n : fin_state finished open fs -> fin_state finished open (fs ++ [WAck n]).
Proof.
  destruct finished, open; cbn; [| | |easy].
  - intros (f1 & f2 & -> & H1 & H2). exists f1, (f2 ++ [WAck n]). rewrite <- app_assoc. split; [easy|]. split; [easy|].
    apply Forall_app. split; [easy|]. now apply Forall_cons_2; [|apply Forall_nil_2].
  - intros H. apply Forall_app. split; [easy|]. now apply Forall_cons_2; [|apply Forall_nil_2].
  - intros H. apply Forall_app. split; [easy|]. now apply Forall_cons_2; [|apply Forall_nil_2].
Qed.

(** *** The frames on the wire *)

Lemma wire_decodes id f :
  u32_ok id -> wire_ok f -> u32_ok (ack_of f) -> frame_try_from (enc id f) = Ok (frame_owned (wire_frame id f)).
Proof.
  intros Hid Hf Hn. unfold enc. destruct f as [d|n|]; cbn [wire_frame].
  - now apply decode_push.
  - apply decode_encoded; [now split|easy].
  - apply decode_encoded; [now split|easy].
Qed.

Lemma pushed_wire id fs : u32_ok id -> Forall wire_ok fs -> Forall (fun f => u32_ok (ack_of f)) fs ->
  pushed (map (enc id) fs) = concat (map (fun f => match f with WPush d => d | _ => [] end) fs).
Proof.
  intros Hid. induction fs as [|f fs IH]; intros Hf Hn; [easy|]. apply Forall_cons_iff in Hf as [Hf Hfs], Hn as [Hn Hns].
  cbn [map concat]. change (pushed (enc id f :: map (enc id) fs)) with (push_data (enc id f) ++ pushed (map (enc id) fs)).
  rewrite IH by easy. f_equal. unfold push_data. rewrite wire_decodes by easy. now destruct f.
Qed.

(** Acknowledgements under way are within the window. *)
Lemma half_acks rwnd w r fs gs :
  half rwnd w r fs gs -> stream_wf r -> Forall wire_ok gs -> count ack_of gs <= rwnd /\ Forall (fun f => u32_ok (ack_of f)) gs.
Proof.
  intros [] (_ & _ & Hr) Hgs. pose proof (count_push_nonneg fs). split; [lia|].
  assert (Hb : count ack_of gs < 2 ^ 32) by lia. clear - Hgs Hb. induction Hgs as [|f gs Hf Hgs IH]; [apply Forall_nil_2|].
  change (count ack_of (f :: gs)) with (ack_of f + count ack_of gs) in Hb. pose proof (count_ack_nonneg gs Hgs).
  assert (0 <= ack_of f) by now destruct f. apply Forall_cons_2; [unfold in_width; lia|apply IH; lia].
Qed.

(** *** What the users do *)

(** The reader takes a frame off its queue, or sees the end of the stream. *)
Lemma fill_cases (c : Ctx C W) :
  stream_wf c -> tx_live c ->
  let c' := (poll_fill_buf c).1 in
  let fr := sh_frames (cx_shared c) in
  let fr' := sh_frames (cx_shared c') in
  tx_live c' /\ sh_finish_sent (cx_shared c') = sh_finish_sent (cx_shared c)
  /\ sh_psh_send_remaining (cx_shared c') = sh_psh_send_remaining (cx_shared c)
  /\ tx_open fr' = tx_open fr /\ capacity fr' = capacity fr
  /\ ms_flow_id (cx_stream c') = ms_flow_id (cx_stream c)
  /\ ((exists next n, queue fr = next :: queue fr' /\ rx_open fr' = rx_open fr /\ stream_wf c'
        /\ (n = [] \/ exists k, n = [WAck k] /\ 0 <= k)
        /\ queue (cx_tx c') = queue (cx_tx c) ++ map (enc (ms_flow_id (cx_stream c))) n
        /\ ms_psh_recvd_since (cx_stream c') + count ack_of n = ms_psh_recvd_since (cx_stream c) + 1)
      \/ (cx_stream c' = cx_stream c /\ queue fr' = queue fr /\ queue (cx_tx c') = queue (cx_tx c)
          /\ (rx_open fr' = rx_open fr \/ (queue fr = [] /\ (rx_open fr = true -> tx_open fr = false))))).
Proof.
  intros Hwf Hl. cbv zeta. unfold poll_fill_buf. destruct (ms_buf (cx_stream c)) as [|x buf]; [|split_and!; auto 6].
  pose proof (view_poll_recv _ (sh_frames (cx_shared c))) as Hv. pose proof (res_poll_recv _ (sh_frames (cx_shared c))) as Hr.
  destruct (poll_recv (sh_frames (cx_shared c))) as [fr r]. cbn [fst snd] in Hv, Hr. unfold spec_recv in Hv, Hr.
  destruct (queue (sh_frames (cx_shared c))) as [|next q] eqn:Hq.
  - cbn [fst snd] in Hv, Hr. subst r. destruct (rx_open _ && tx_open _) eqn:Ho; cbn; rewrite ?view_rx_close, Hv; cbn; split_and!; try easy.
    + right. split_and!; auto.
    + right. split_and!; auto. right. split; [easy|]. intros Hrx. rewrite Hrx in Ho. exact Ho.
  - cbn [fst snd] in Hv, Hr. subst r. cbn [fst].
    match goal with |- context [increment_psh_recvd_since ?d] =>
      destruct (increment_spec d) as (Hsh & Hl' & Hs & Hqx); [easy..|]; set (c' := increment_psh_recvd_since d) in * end.
    unfold ack_every in *. cbn -[Z.max Z.eqb Z.add encoded] in Hs, Hsh, Hqx. clearbody c'. rewrite Hsh, Hs. cbn -[Z.max Z.eqb Z.add encoded].
    rewrite Hv. cbn -[Z.max Z.eqb Z.add encoded]. split_and!; try easy. left.
    set (m := Z.max 1 (ms_rwnd_threshold (cx_stream c))) in *. set (s := cx_stream c) in *.
    assert (Hm : 1 <= m) by lia. destruct Hwf as (Hid & Ht & Hrec). unfold ack_every in Hrec. fold s m in Hrec.
    exists next, (if ms_psh_recvd_since s + 1 =? m then [WAck m] else []). split_and!; try easy.
    + unfold stream_wf, ack_every. rewrite Hs. cbn -[Z.max Z.eqb Z.add]. fold m. split_and!; try easy; destruct (Z.eqb_spec (ms_psh_recvd_since s + 1) m); lia.
    + destruct (_ =? _); [right; exists m; split; [easy|lia]|now left].
    + rewrite Hqx. now destruct (_ =? _).
    + destruct (Z.eqb_spec (ms_psh_recvd_since s + 1) m); rewrite ?count_one; cbn [ack_of count foldr]; lia.
Qed.

Lemma end_fill id c : end_ok id c -> end_ok id (poll_fill_buf c).1.
Proof.
  intros (Hid & Hl & Hwf). destruct (fill_cases c Hwf Hl) as (Hl' & _ & _ & _ & _ & Hid' & [(next & n & _ & _ & Hwf' & _)|(Hs & _)]).
  - split; [congruence|easy].
  - split; [congruence|]. split; [easy|]. unfold stream_wf, ack_every in *. now rewrite Hs.
Qed.

Lemma duo_fill id ra rb a b : duo id ra rb a b -> duo id ra rb (poll_fill_buf a).1 b.
Proof.
  intros (Ha & Hb & fs & gs & Hfs & Hgs & Hwf & Hwg & [] & []). pose proof (end_fill id a Ha) as Ha'.
  destruct Ha as (Hid & Hl & Hwfa). destruct (fill_cases a Hwfa Hl) as (_ & Hf & Hrem & Ht & Hc & _ & Hcases).
  split; [exact Ha'|]. split; [exact Hb|].
  destruct Hcases as [(next & n & Hq & Hrx & _ & Hn & Htx & Hcnt)|(Hs & Hq & Htx & Hrx)].
  - exists (fs ++ n), gs. rewrite Htx, Hid, map_app, Hfs. rewrite Hq in *. cbn [length] in *.
    assert (Hnp : count is_push n = 0) by (destruct Hn as [->|(k & -> & _)]; easy).
    split_and!; try easy.
    + apply Forall_app. split; [easy|]. destruct Hn as [->|(k & -> & Hk)]; [apply Forall_nil_2|now apply Forall_cons_2; [|apply Forall_nil_2]].
    + split; rewrite ?Hf, ?Hrem, ?count_app, ?Hnp; try easy; try lia.
      destruct Hn as [->|(k & -> & _)]; [now rewrite app_nil_r|now apply fin_state_ack].
    + apply Forall_cons_iff in hf_data1 as [_ Hd]. split; rewrite ?Ht, ?Hc, ?Hrx, ?count_app; try easy; try lia.
      destruct hf_rx1 as [|[_ ?]]; [now left|easy].
  - exists fs, gs. rewrite Htx. split_and!; try easy; split; rewrite ?Hf, ?Hrem, ?Hs, ?Hq, ?Ht, ?Hc; try easy.
    destruct Hrx as [->|[Hnil Hopen]]; [easy|]. right. split; [|easy]. destruct hf_rx1 as [Hrx|[Hopen' _]]; [now apply Hopen|easy].
Qed.

(** Giving out octets of the buffer changes nothing here. *)
Lemma duo_consume id ra rb n a a' b : duo id ra rb a b -> consume n a = Ok a' -> duo id ra rb a' b.
Proof.
  unfold consume. case_bool; [easy|]. intros H [= <-]. destruct H as (Ha & Hb & fs & gs & ? & ? & ? & ? & [] & []).
  split; [exact Ha|]. split; [exact Hb|]. exists fs, gs. now split_and!.
Qed.

Lemma duo_write id ra rb buf a b : buf <> [] -> duo id ra rb a b -> duo id ra rb (poll_write [] buf a).1 b.
Proof.
  intros Hbuf H. destruct (sh_finish_sent (cx_shared a)) eqn:Hf; [now rewrite poll_write_finished|].
  destruct H as ((Hid & Hl & Hwfa) & Hb & fs & gs & Hfs & Hgs & Hwf & Hwg & [] & []).
  destruct (poll_write_open buf a Hf Hl) as (Hl' & Hst & Hf' & Hfr & H0 & H1).
  destruct (poll_write [] buf a) as [a' r]. cbn [fst snd] in *.
  assert (Ha' : end_ok id a') by (split; [now rewrite Hst|split; [easy|]]; unfold stream_wf, ack_every in *; now rewrite Hst).
  split; [exact Ha'|]. split; [exact Hb|].
  destruct (decide (sh_psh_send_remaining (cx_shared a) = 0)) as [Hz|Hz].
  - destruct (H0 Hz) as (_ & Htx & Hrem & _). exists fs, gs. rewrite Htx. split_and!; try easy; split;
      rewrite ?Hf', ?Hrem, ?Hst, ?Hfr; try easy; try lia. now rewrite Hf in hf_fin0.
  - destruct (H1 Hz) as (_ & Htx & Hrem). exists (fs ++ [WPush buf]), gs.
    rewrite Htx, Hfs, Hid, map_app. split_and!; try easy.
    + apply Forall_app. split; [easy|]. now apply Forall_cons_2; [|apply Forall_nil_2].
    + split; rewrite ?Hf', ?Hrem, ?count_app, ?count_one; cbn [is_push]; try easy; try lia.
      rewrite Hf in hf_fin0. destruct (tx_open _); [|easy]. cbn in *. apply Forall_app. split; [easy|].
      now apply Forall_cons_2; [|apply Forall_nil_2].
    + split; rewrite ?Hst, ?Hfr, ?count_app, ?count_one; cbn [ack_of]; try easy; try lia.
Qed.

(** On a live task the end of the stream is always sent. *)
Lemma shutdown_live (a : Ctx C W) :
  tx_live a ->
  (shutdown_inner a).2 = Ok tt /\ cx_stream (shutdown_inner a).1 = cx_stream a /\ tx_live (shutdown_inner a).1
  /\ sh_frames (cx_shared (shutdown_inner a).1) = sh_frames (cx_shared a)
  /\ sh_psh_send_remaining (cx_shared (shutdown_inner a).1) = sh_psh_send_remaining (cx_shared a)
  /\ sh_finish_sent (cx_shared (shutdown_inner a).1) = true
  /\ queue (cx_tx (shutdown_inner a).1)
     = queue (cx_tx a) ++ if sh_finish_sent (cx_shared a) then [] else [enc (ms_flow_id (cx_stream a)) WFin].
Proof.
  intros [Ho Hc]. unfold shutdown_inner. destruct (sh_finish_sent (cx_shared a)) eqn:Hf; [rewrite app_nil_r; now split_and!|].
  destruct (tx_send_spec (new_finish (ms_flow_id (cx_stream a))) (cx_tx a)) as (Hq & Ho' & Hc' & Hr); [easy..|].
  destruct (tx_send _ _) as [tx e]. cbn in *. rewrite Ho in Hq, Ho', Hr. subst e. now split_and!.
Qed.

Lemma duo_shutdown id ra rb a b : duo id ra rb a b -> duo id ra rb (shutdown_inner a).1 b.
Proof.
  intros ((Hid & Hl & Hwfa) & Hb & fs & gs & Hfs & Hgs & Hwf & Hwg & [] & []).
  destruct (shutdown_live a Hl) as (_ & Hst & Hl' & Hfr & Hrem & Hf' & Hq).
  assert (Ha' : end_ok id (shutdown_inner a).1)
    by (split; [now rewrite Hst|split; [easy|]]; unfold stream_wf, ack_every in *; now rewrite Hst).
  split; [exact Ha'|]. split; [exact Hb|]. destruct (sh_finish_sent (cx_shared a)) eqn:Hf.
  - exists fs, gs. rewrite Hq, app_nil_r. split_and!; try easy; split; rewrite ?Hf', ?Hrem, ?Hst, ?Hfr; easy.
  - exists (fs ++ [WFin]), gs. rewrite Hq, Hid, Hfs, map_app. split_and!; try easy.
    + apply Forall_app. split; [easy|]. now apply Forall_cons_2; [|apply Forall_nil_2].
    + split; rewrite ?Hf', ?Hrem, ?count_app, ?count_one; cbn [is_push]; try easy; try lia.
      destruct (tx_open _); [|easy]. exists fs, []. split_and!; [easy|easy|apply Forall_nil_2].
    + split; rewrite ?Hst, ?Hfr, ?count_app, ?count_one; cbn [ack_of]; try easy; try lia.
Qed.

(** *** A frame crosses *)

(** What is left when the oldest frame is gone. *)
Lemma duo_take id ra rb a b :
  u32_ok id -> duo id ra rb a b ->
  (exists tx, cross a b = (with_tx a tx, b, false) /\ duo id ra rb (with_tx a tx) b /\ queue tx = queue (cx_tx a) /\ queue (cx_tx a) = [])
  \/ exists f fs gs tx,
       cross a b = (let '(b', full) := receive (frame_owned (wire_frame id f)) b in (with_tx a tx, b', full))
       /\ queue (cx_tx a) = map (enc id) (f :: fs) /\ queue tx = map (enc id) fs /\ queue (cx_tx b) = map (enc id) gs
       /\ rx_open tx = true /\ capacity tx = None /\ u32_ok (ack_of f)
       /\ Forall wire_ok (f :: fs) /\ Forall wire_ok gs /\ half rb a b (f :: fs) gs /\ half ra b a gs (f :: fs).
Proof.
  intros Hu ((Hid & [Ho Hc] & Hwfa) & Hb & fs & gs & Hfs & Hgs & Hwf & Hwg & Hab & Hba).
  destruct fs as [|f fs].
  - left. destruct (take_frame_empty _ Hfs) as (tx & Htf & Hv). exists tx. unfold cross. rewrite Htf.
    split; [easy|]. rewrite Hv. split; [|easy]. split; [split; [easy|split; [|easy]]|].
    { unfold tx_live. cbn. now rewrite Hv. }
    split; [exact Hb|]. exists [], gs. cbn. rewrite Hv. split_and!; try easy; [now destruct Hab|now destruct Hba].
  - right. destruct (half_acks _ _ _ _ _ Hba Hwfa Hwf) as [_ Hacks].
    pose proof (Forall_inv Hacks) as Hn. pose proof (Forall_inv Hwf) as Hf. cbn beta in Hn.
    destruct (take_frame_head _ _ _ _ Hfs (wire_decodes id f Hu Hf Hn)) as (tx & Htf & Hq & Ho' & Hc').
    exists f, fs, gs, tx. unfold cross. rewrite Htf. split_and!; try easy; congruence.
Qed.

Lemma fin_state_tail finished open f fs : f <> WFin -> fin_state finished open (f :: fs) -> fin_state finished open fs.
Proof.
  intros Hf. destruct finished, open; cbn; [| | |easy].
  - intros ([|g f1] & f2 & [= -> ->] & H1 & H2); [easy|]. apply Forall_cons_iff in H1 as [_ H1]. now exists f1, f2.
  - intros H. now apply Forall_cons_iff in H.
  - intros H. now apply Forall_cons_iff in H.
Qed.

Lemma fin_state_fin finished open fs : fin_state finished open (WFin :: fs) -> finished = true /\ open = true /\ only_acks fs.
Proof.
  destruct finished, open; cbn; [| | |easy].
  - intros (f1 & f2 & He & H1 & H2). destruct f1 as [|g f1]; [now injection He as ->|]. injection He as <- _. now apply Forall_inv in H1.
  - intros H. now apply Forall_inv in H.
  - intros H. now apply Forall_inv in H.
Qed.

Lemma fin_state_push finished open d fs : fin_state finished open (WPush d :: fs) -> open = true.
Proof. destruct finished, open; cbn; try easy. intros H. now apply Forall_inv in H. Qed.

Lemma count_cons g f fs : count g (f :: fs) = g f + count g fs.
Proof. easy. Qed.

(** What the receiver of a frame keeps, and what it adds to its queue. *)
Definition received (a b a' b' : Ctx C W) (data : bytes) : Prop :=
  cx_stream a' = cx_stream a /\ cx_shared a' = cx_shared a /\ cx_stream b' = cx_stream b /\ cx_tx b' = cx_tx b
  /\ sh_finish_sent (cx_shared b') = sh_finish_sent (cx_shared b)
  /\ unread b' = unread b ++ data /\ pushed (queue (cx_tx a)) = data ++ pushed (queue (cx_tx a'))
  /\ (tx_open (sh_frames (cx_shared b)) = false -> tx_open (sh_frames (cx_shared b')) = false /\ data = [])
  /\ queue (cx_tx a') = tail (queue (cx_tx a)).

Lemma cross_ok id ra rb a b :
  u32_ok id -> duo id ra rb a b ->
  let '(a', b', full) := cross a b in full = false /\ duo id ra rb a' b' /\ exists data, received a b a' b' data.
Proof.
  intros Hu Hd. destruct (duo_take id ra rb a b Hu Hd) as [(tx & -> & Hd' & Hq & Hnil)|(f & fs & gs & tx & -> & Hq & Hqt & Hqb & Hro & Hrc & Hn & Hwf & Hwg & Hab & Hba)].
  { split; [easy|]. split; [easy|]. exists []. unfold received. cbn. rewrite Hq, Hnil, app_nil_r. now split_and!. }
  destruct Hd as ((Hid & _ & Hwfa) & (Hidb & Hlb & Hwfb) & _). apply Forall_cons_iff in Hwf as [Hf Hwf].
  assert (Ha' : end_ok id (with_tx a tx)) by easy.
  assert (Hpush : pushed (queue (cx_tx a)) = push_data (enc id f) ++ pushed (queue tx)) by (rewrite Hq, Hqt; easy).
  unfold push_data in Hpush. rewrite (wire_decodes id f Hu Hf Hn) in Hpush.
  destruct Hab, Hba. rewrite count_cons in *. unfold in_width in Hn.
  pose proof (count_ack_nonneg gs Hwg). pose proof (count_ack_nonneg fs Hwf). pose proof (count_push_nonneg fs). pose proof (count_push_nonneg gs).
  destruct Hwfa as (? & ? & Hra), Hwfb as (? & ? & Hrb).
  destruct f as [d|n|]; cbn [wire_frame frame_owned new_push new_acknowledge new_finish payload_owned frame_payload frame_id
    receive is_push ack_of cow_owned cow_into_owned cow_as_ref] in *.
  - pose proof (fin_state_push _ _ _ _ hf_fin0) as Hopen. destruct hf_rx0 as [Hrx|[Hrx _]]; [|congruence].
    assert (Hroom : chan_full (chan_view (sh_frames (cx_shared b))) = false) by (unfold chan_full; rewrite hf_cap0; apply Nat.leb_gt; lia).
    unfold deliver_push. pose proof (view_try_send _ d (sh_frames (cx_shared b))) as Hv. pose proof (res_try_send _ d (sh_frames (cx_shared b))) as Hr.
    rewrite (spec_send_ok d _ Hrx Hroom) in Hv, Hr. destruct (try_send d (sh_frames (cx_shared b))) as [fr e]. cbn in Hv, Hr. subst e.
    split; [easy|]. split.
    + split; [exact Ha'|]. split; [now split_and!|]. exists fs, gs. split_and!; try easy; split; cbn; rewrite ?Hv; cbn; try easy; try lia.
      * rewrite length_app. cbn. lia.
      * apply Forall_app. split; [easy|]. now apply Forall_cons_2; [|apply Forall_nil_2].
      * now apply (fin_state_tail _ _ (WPush d)).
      * now left.
    + exists d. unfold received, unread. cbn. rewrite Hv, Hpush. cbn. rewrite concat_app. cbn. rewrite app_nil_r, app_assoc.
      rewrite Hq, Hqt, Hopen. now split_and!.
  - split; [easy|]. cbn [with_shared acknowledge_cell].
    assert (Hrem : wrapping_add32 (sh_psh_send_remaining (cx_shared b)) n = sh_psh_send_remaining (cx_shared b) + n)
      by (apply wrapping_add32_small; lia).
    split.
    + split; [exact Ha'|]. split; [now split_and!|]. exists fs, gs. split_and!; try easy; split; cbn; rewrite ?Hrem; try easy; try lia.
      now apply (fin_state_tail _ _ (WAck n)).
    + exists []. unfold received, unread. cbn. rewrite Hpush, Hq, Hqt, app_nil_r. now split_and!.
  - split; [easy|]. destruct (fin_state_fin _ _ _ hf_fin0) as (Hfin & Hopen & Hacks).
    destruct hf_rx0 as [Hrx|[Hrx _]]; [|congruence].
    split.
    + split; [exact Ha'|]. split; [now split_and!|]. exists fs, gs. split_and!; try easy; split; cbn; rewrite ?view_tx_drop; cbn; try easy; try lia.
      * now rewrite Hfin.
      * now left.
    + exists []. unfold received, unread. cbn. rewrite view_tx_drop, Hpush, Hq, Hqt, app_nil_r. now split_and!.
Qed.

End Invariant.

(** *** What the copiers do *)

Section Copiers.
Context {C : Type -> Type} `{!Mpsc C} {W : Type} `{!Waker W} {RW : Type} `{!BufRW RW}.

(** A copier past the transfer has seen the end of its stream; it has sent the
    end of the stream exactly when it is done with the other side. *)
Definition eof_ok (c : CopyBidirectional C W RW) : Prop :=
  match cb_read_state c with
  | RTransferring _ => True
  | _ => unread (cb_us c) = [] /\ tx_open (sh_frames (cx_shared (cb_us c))) = false
  end.

Definition fin_ok (c : CopyBidirectional C W RW) : Prop :=
  sh_finish_sent (cx_shared (cb_us c)) = true <-> exists n, cb_write_state c = WDone n.

Lemma fill_eof id ra rb (a b a' : Ctx C W) :
  duo id ra rb a b -> poll_fill_buf a = (a', Ready (Ok [])) -> unread a' = [] /\ tx_open (sh_frames (cx_shared a')) = false.
Proof.
  intros (_ & _ & fs & gs & _ & _ & _ & _ & _ & []). unfold poll_fill_buf.
  destruct (ms_buf (cx_stream a)) as [|x buf] eqn:Hbuf; [|easy].
  pose proof (view_poll_recv _ (sh_frames (cx_shared a))) as Hv. pose proof (res_poll_recv _ (sh_frames (cx_shared a))) as Hr.
  destruct (poll_recv (sh_frames (cx_shared a))) as [fr r]. cbn [fst snd] in Hv, Hr. unfold spec_recv in Hv, Hr.
  destruct (queue (sh_frames (cx_shared a))) as [|next q] eqn:Hq; cbn [fst snd] in Hv, Hr; subst r.
  - destruct (rx_open _ && tx_open _) eqn:Ho; [easy|]. intros [= <-]. unfold unread. cbn. rewrite view_rx_close, Hv, Hbuf. cbn.
    rewrite Hq. split; [easy|]. destruct hf_rx0 as [Hrx|[Hopen _]]; [now rewrite Hrx in Ho|easy].
  - intros H. apply Forall_cons_iff in hf_data0 as [Hne _]. injection H as _ H. unfold increment_psh_recvd_since in H.
    destruct (_ <=? _) in H; cbn in H; subst next; now destruct Hne.
Qed.

(** One direction of a poll. *)
Definition leg_ok (id ra rb : Z) (b : Ctx C W) (c c' : CopyBidirectional C W RW) : Prop :=
  duo id ra rb (cb_us c') b /\ eof_ok c' /\ fin_ok c'.

Lemma shutdown_other_leg id ra rb b c n :
  duo id ra rb (cb_us c) b -> fin_ok c -> unread (cb_us c) = [] -> tx_open (sh_frames (cx_shared (cb_us c))) = false ->
  leg_ok id ra rb b c (poll_shutdown_other c n).1.
Proof. intros. unfold poll_shutdown_other. now destruct (rw_shutdown (cb_other c)) as [o [[| |]|]]. Qed.

Lemma fill_finish (a : Ctx C W) : stream_wf a -> tx_live a -> sh_finish_sent (cx_shared (poll_fill_buf a).1) = sh_finish_sent (cx_shared a).
Proof. intros Hw Hl. now destruct (fill_cases a Hw Hl) as (_ & ? & _). Qed.

Lemma read_loop_leg id ra rb b fuel c n :
  duo id ra rb (cb_us c) b -> cb_read_state c = RTransferring n -> fin_ok c -> leg_ok id ra rb b c (read_us_loop fuel c n).1.
Proof.
  revert c n. induction fuel as [|fuel IH]; intros c n Hd Hs Hf; cbn [read_us_loop].
  { split; [easy|]. split; [|easy]. unfold eof_ok. cbn. now rewrite Hs. }
  pose proof (duo_fill _ _ _ _ _ Hd) as Hd1. pose proof (proj1 Hd) as (_ & Hl & Hw).
  pose proof (fill_finish (cb_us c) Hw Hl) as Hfin.
  destruct (poll_fill_buf (cb_us c)) as [us1 r] eqn:Hfill. cbn [fst] in *.
  assert (Hstop : forall o, leg_ok id ra rb b c (MkCopy us1 o (cb_read_state c) (cb_write_state c))).
  { intros o. split; [easy|]. split; [unfold eof_ok; cbn; now rewrite Hs|]. unfold fin_ok. cbn. rewrite Hfin. exact Hf. }
  destruct r as [[[|x bs]|e|]|]; try apply Hstop.
  - destruct (fill_eof _ _ _ _ _ _ Hd Hfill) as [Hu Ho].
    pose proof (shutdown_other_leg id ra rb b (MkCopy us1 (cb_other c) (cb_read_state c) (cb_write_state c)) n Hd1) as H.
    destruct (poll_shutdown_other _ n) as [c2 r2]. apply H; try easy. unfold fin_ok. cbn. rewrite Hfin. exact Hf.
  - destruct (rw_write (x :: bs) (cb_other c)) as [o [[m| |]|]]; try apply Hstop.
    destruct (consume m us1) as [us2| |] eqn:Hcon; try apply Hstop.
    specialize (IH (MkCopy us2 o (RTransferring (n + m)) (cb_write_state c)) (n + m)). cbn [cb_us cb_read_state] in IH.
    apply IH; [exact (duo_consume _ _ _ _ _ _ _ Hd1 Hcon)|easy|].
    unfold fin_ok. cbn. unfold consume in Hcon. destruct (_ <? _); [easy|]. injection Hcon as <-. cbn. rewrite Hfin. exact Hf.
Qed.

Lemma read_leg id ra rb b fuel c :
  duo id ra rb (cb_us c) b -> eof_ok c -> fin_ok c -> leg_ok id ra rb b c (poll_read_us fuel c).1.
Proof.
  intros Hd He Hf. unfold poll_read_us. unfold eof_ok in He. destruct (cb_read_state c) as [n|n|n] eqn:Hs.
  - now apply read_loop_leg.
  - destruct He as [Hu Ho]. pose proof (shutdown_other_leg id ra rb b c n Hd Hf Hu Ho) as H. now destruct (poll_shutdown_other c n).
  - split; [easy|]. split; [|easy]. unfold eof_ok. cbn [fst]. now rewrite Hs.
Qed.

(** Nothing about the reading side changes while writing. *)
Lemma eof_keep c us o ws :
  eof_ok c -> cx_stream us = cx_stream (cb_us c) -> sh_frames (cx_shared us) = sh_frames (cx_shared (cb_us c)) ->
  eof_ok (MkCopy us o (cb_read_state c) ws).
Proof. unfold eof_ok, unread. cbn. now intros H -> ->. Qed.

Lemma write_loop_leg id ra rb b fuel c n :
  duo id ra rb (cb_us c) b -> cb_write_state c = WTransferring n -> eof_ok c -> fin_ok c ->
  leg_ok id ra rb b c (write_us_loop fuel c n).1.
Proof.
  revert c n. induction fuel as [|fuel IH]; intros c n Hd Hs He Hf; cbn [write_us_loop]; [easy|].
  assert (Hopen : sh_finish_sent (cx_shared (cb_us c)) = false).
  { destruct (sh_finish_sent _) eqn:Hfin; [|easy]. destruct (proj1 Hf Hfin) as [m Hm]. congruence. }
  pose proof (proj1 Hd) as (_ & Hl & Hw).
  destruct (rw_fill_buf (cb_other c)) as [o r].
  assert (Hstop : forall o', leg_ok id ra rb b c (MkCopy (cb_us c) o' (cb_read_state c) (cb_write_state c))) by easy.
  destruct r as [[[|x bs]|e|]|]; try apply Hstop.
  - pose proof (duo_shutdown _ _ _ _ _ Hd) as Hd1. destruct (shutdown_live (cb_us c) Hl) as (Hr & Hst & _ & Hfr & _ & Hfin & _).
    destruct (shutdown_inner (cb_us c)) as [us r]. cbn [fst snd] in *. subst r.
    split; [exact Hd1|]. split; [now apply eof_keep|]. split; [cbn; eauto|easy].
  - pose proof (duo_write id ra rb (x :: bs) _ _ ltac:(easy) Hd) as Hd1.
    destruct (poll_write_open (x :: bs) (cb_us c) Hopen Hl) as (_ & Hst & Hf1 & Hfr & _).
    destruct (poll_write [] (x :: bs) (cb_us c)) as [us w]. cbn [fst snd] in *.
    assert (Hk : forall o' k, leg_ok id ra rb b c (MkCopy us o' (cb_read_state c) (WTransferring k))).
    { intros o' k. split; [exact Hd1|]. split; [now apply eof_keep|]. unfold fin_ok. cbn. rewrite Hf1. now split; [|intros []]. }
    rewrite Hs in *. destruct w as [[m| |]|]; try apply Hk.
    specialize (IH (MkCopy us (rw_consume (length (x :: bs)) o) (cb_read_state c) (WTransferring (n + m))) (n + m)).
    apply IH; try easy; apply Hk.
  - destruct (rw_flush o) as [o2 f]. apply Hstop.
Qed.

Lemma copy_leg id ra rb b fuel c :
  duo id ra rb (cb_us c) b -> eof_ok c -> fin_ok c -> leg_ok id ra rb b c (copy_poll fuel c).1.
Proof.
  intros Hd He Hf. unfold copy_poll. destruct (read_leg id ra rb b fuel c Hd He Hf) as (Hd1 & He1 & Hf1).
  destruct (poll_read_us fuel c) as [c1 r]. cbn [fst] in *.
  assert (H : leg_ok id ra rb b c1 (poll_write_us fuel c1).1).
  { unfold poll_write_us. destruct (cb_write_state c1) eqn:Hs; [now apply write_loop_leg|easy]. }
  destruct (poll_write_us fuel c1) as [c2 w]. exact H.
Qed.

End Copiers.

(** *** Both sides *)

Section Conversation.
Context {C : Type -> Type} `{!Mpsc C} {W : Type} `{!Waker W} {RW1 RW2 : Type} `{!BufRW RW1} `{!BufRW RW2}.

#[local] Abbreviation duplex := (@duplex C W RW1 RW2).

Definition side_ok {RW} `{!BufRW RW} (c : CopyBidirectional C W RW) : Prop := copy_wf c /\ eof_ok c /\ fin_ok c.

Definition duplex_ok (id ra rb : Z) (d : duplex) : Prop :=
  u32_ok id /\ duo id ra rb (cb_us (dx_client d)) (cb_us (dx_server d)) /\ side_ok (dx_client d) /\ side_ok (dx_server d).

Definition flows (d : duplex) : bytes * bytes := (flow (dx_client d) (dx_server d), flow (dx_server d) (dx_client d)).

(** A poll conserves both of its sums. *)
Lemma copy_sums {RW} `{!BufRW RW} fuel (c : CopyBidirectional C W RW) :
  copy_wf c ->
  let c' := (copy_poll fuel c).1 in
  rw_out (cb_other c') ++ unread (cb_us c') = rw_out (cb_other c) ++ unread (cb_us c)
  /\ pushed (queue (cx_tx (cb_us c'))) ++ rw_in (cb_other c') = pushed (queue (cx_tx (cb_us c))) ++ rw_in (cb_other c)
  /\ copy_wf c'.
Proof.
  intros [Hid Hw]. unfold copy_poll. destruct (poll_read_us_ok fuel c Hid) as (Hl1 & Hws & Hin & Hfid & _).
  destruct (poll_read_us fuel c) as [c1 r]. cbn [fst snd] in *.
  assert (Hwf1 : copy_wf c1) by (split; [now rewrite Hfid|now rewrite Hws, Hin]).
  destruct (poll_write_us_ok fuel c1 Hwf1) as (Hl2 & _ & _ & Hwf2 & _).
  destruct (poll_write_us fuel c1) as [c2 w]. cbn [fst snd] in *. rewrite Hl1 in Hl2. injection Hl2 as H1 H2 _ _. easy.
Qed.

Lemma poll_flows {RWa RWb} `{!BufRW RWa} `{!BufRW RWb} id ra rb fuel (a : CopyBidirectional C W RWa) (b : CopyBidirectional C W RWb) :
  duo id ra rb (cb_us a) (cb_us b) -> side_ok a ->
  let a' := (copy_poll fuel a).1 in
  duo id ra rb (cb_us a') (cb_us b) /\ side_ok a' /\ flow a' b = flow a b /\ flow b a' = flow b a.
Proof.
  intros Hd (Hwf & He & Hf). destruct (copy_leg id ra rb (cb_us b) fuel a Hd He Hf) as (Hd' & He' & Hf').
  destruct (copy_sums fuel a Hwf) as (H1 & H2 & Hwf'). cbv zeta. split; [exact Hd'|]. split; [now split|]. unfold flow.
  split; [now rewrite H2|]. now rewrite !app_assoc, H1.
Qed.

Lemma cross_flows {RWa RWb} `{!BufRW RWa} `{!BufRW RWb} id ra rb (a : CopyBidirectional C W RWa) (b : CopyBidirectional C W RWb) :
  u32_ok id -> duo id ra rb (cb_us a) (cb_us b) -> side_ok a -> side_ok b ->
  let '(ua, ub, full) := cross (cb_us a) (cb_us b) in
  full = false /\ duo id ra rb ua ub /\ side_ok (with_us a ua) /\ side_ok (with_us b ub)
  /\ flow (with_us a ua) (with_us b ub) = flow a b /\ flow (with_us b ub) (with_us a ua) = flow b a.
Proof.
  intros Hu Hd ([Hida Hwa] & Hea & Hfa) ([Hidb Hwb] & Heb & Hfb). pose proof (cross_ok id ra rb _ _ Hu Hd) as H.
  destruct (cross (cb_us a) (cb_us b)) as [[ua ub] full].
  destruct H as (Hfull & Hd' & data & Hsa & Hsha & Hsb & Htb & Hfin & Hun & Hpush & Hopen & _).
  split; [exact Hfull|]. split; [exact Hd'|]. split; [|split; [|split]].
  - split; [split; cbn; [now rewrite Hsa|exact Hwa]|]. unfold eof_ok, fin_ok, unread in *. cbn. rewrite Hsa, Hsha. easy.
  - split; [split; cbn; [now rewrite Hsb|exact Hwb]|]. unfold fin_ok. cbn. rewrite Hfin. split; [|exact Hfb].
    unfold eof_ok in *. cbn. destruct (cb_read_state b); try easy; destruct Heb as [Hnil Ho]; destruct (Hopen Ho) as [Ho' ->];
      (split; [|exact Ho']); now rewrite Hun, Hnil.
  - unfold flow. cbn. rewrite Hun, Hpush, <- !app_assoc. easy.
  - unfold flow, unread. cbn. now rewrite Hsa, Hsha, Htb.
Qed.

Lemma duplex_step_ok id ra rb op d :
  duplex_ok id ra rb d ->
  (duplex_step op d).2 = false /\ duplex_ok id ra rb (duplex_step op d).1 /\ flows (duplex_step op d).1 = flows d.
Proof.
  intros (Hu & Hd & Ha & Hb). destruct d as [a b]. cbn [dx_client dx_server] in *.
  destruct op as [fuel|fuel| |]; cbn [duplex_step dx_client dx_server fst snd].
  - destruct (poll_flows id ra rb fuel a b Hd Ha) as (Hd' & Ha' & H1 & H2). split; [easy|]. split; [now split_and!|].
    unfold flows. cbn. now rewrite H1, H2.
  - destruct (poll_flows id rb ra fuel b a (duo_sym _ _ _ _ _ Hd) Hb) as (Hd' & Hb' & H1 & H2). split; [easy|].
    split; [split; [easy|split; [now apply duo_sym|easy]]|]. unfold flows. cbn. now rewrite H1, H2.
  - pose proof (cross_flows id ra rb a b Hu Hd Ha Hb) as H. destruct (cross (cb_us a) (cb_us b)) as [[ua ub] full].
    destruct H as (-> & Hd' & Ha' & Hb' & H1 & H2). cbn [fst snd]. split; [easy|]. split; [now split_and!|].
    unfold flows. cbn [dx_client dx_server]. now rewrite H1, H2.
  - pose proof (cross_flows id rb ra b a Hu (duo_sym _ _ _ _ _ Hd) Hb Ha) as H. destruct (cross (cb_us b) (cb_us a)) as [[ub ua] full].
    destruct H as (-> & Hd' & Hb' & Ha' & H1 & H2). cbn [fst snd]. split; [easy|].
    split; [split; [easy|split; [now apply duo_sym|easy]]|]. unfold flows. cbn [dx_client dx_server]. now rewrite H1, H2.
Qed.

Lemma duplex_run_ok id ra rb ops d :
  duplex_ok id ra rb d ->
  (duplex_run ops d).2 = false /\ duplex_ok id ra rb (duplex_run ops d).1 /\ flows (duplex_run ops d).1 = flows d.
Proof.
  revert d. induction ops as [|op ops IH]; intros d Hd; [easy|]. cbn [duplex_run].
  destruct (duplex_step_ok id ra rb op d Hd) as (H1 & H2 & H3). destruct (duplex_step op d) as [d1 full]. cbn [fst snd] in *.
  destruct (IH d1 H2) as (H4 & H5 & H6). destruct (duplex_run ops d1) as [d2 full']. cbn [fst snd] in *. subst.
  split; [easy|]. split; [easy|]. congruence.
Qed.

(** Two runs in a row. *)
Lemma duplex_run_app ops more (d : duplex) :
  duplex_run (ops ++ more) d = ((duplex_run more (duplex_run ops d).1).1, (duplex_run ops d).2 || (duplex_run more (duplex_run ops d).1).2).
Proof.
  revert d. induction ops as [|op ops IH]; intros d; [cbn; now destruct (duplex_run more d)|]. cbn [app duplex_run].
  destruct (duplex_step op d) as [d1 full]. rewrite IH. destruct (duplex_run ops d1) as [d2 f2]. cbn [fst snd].
  destruct (duplex_run more d2). cbn. now rewrite orb_assoc.
Qed.

(** Everything has arrived where reading is done. *)
Lemma done_flow {RWa RWb} `{!BufRW RWa} `{!BufRW RWb} id ra rb (a : CopyBidirectional C W RWa) (b : CopyBidirectional C W RWb) :
  u32_ok id -> duo id ra rb (cb_us a) (cb_us b) -> side_ok a -> side_ok b -> read_done b -> flow a b = rw_out (cb_other b).
Proof.
  intros Hu ((_ & _ & Hwa) & _ & fs & gs & Hfs & _ & Hwf & _ & Hab & Hba) ([_ Hwr] & _ & Hfa) (_ & Heb & _) [n Hn].
  unfold eof_ok in Heb. rewrite Hn in Heb. destruct Heb as [Hnil Ho].
  destruct (half_acks _ _ _ _ _ Hba Hwa Hwf) as [_ Hacks]. pose proof (hf_fin _ _ _ _ _ Hab) as Hfin. rewrite Ho in Hfin.
  destruct (sh_finish_sent (cx_shared (cb_us a))) eqn:Hf; [|easy]. destruct (proj1 Hfa Hf) as [m Hm]. rewrite Hm in Hwr.
  unfold flow. rewrite Hnil, Hwr, Hfs, (pushed_wire id fs Hu Hwf Hacks), app_nil_r. cbn in Hfin |- *.
  replace (concat _) with (@nil Z); [apply app_nil_r|]. clear - Hfin. induction Hfin as [|[] fs Hf _ IH]; easy.
Qed.

(** Two fresh copiers on an established stream. *)
Lemma duplex_start_ok id ra rb ta tb ua ub (oa : RW1) (ob : RW2) :
  link_start id rb tb ua ub -> link_start id ra ta ub ua ->
  duplex_ok id ra rb (MkDuplex (into_copy_bidirectional_with_buf ua oa) (into_copy_bidirectional_with_buf ub ob)).
Proof.
  intros (Hid & Hrb & Htb & Hia & Hib & Hla & Hlb & Hqa & Hqb & Hfa & Hrema & Hthb & Hreb & Hbufb & Hchb)
    (_ & Hra & Hta & _ & _ & _ & _ & _ & _ & Hfb & Hremb & Htha & Hrea & Hbufa & Hcha).
  assert (Hwa : stream_wf ua) by (unfold stream_wf, ack_every; rewrite Hia, Htha, Hrea; unfold in_width in *; lia || (split_and!; easy || lia)).
  assert (Hwb : stream_wf ub) by (unfold stream_wf, ack_every; rewrite Hib, Hthb, Hreb; unfold in_width in *; lia || (split_and!; easy || lia)).
  split; [exact Hid|]. split.
  - split; [easy|]. split; [easy|]. exists [], []. cbn.
    split_and!; try easy; try apply Forall_nil_2; split;
      rewrite ?Hrema, ?Hremb, ?Hfa, ?Hfb, ?Hrea, ?Hreb, ?Hcha, ?Hchb; cbn; try easy; try lia; try apply Forall_nil_2; now left.
  - unfold side_ok, copy_wf, eof_ok, fin_ok. cbn. rewrite Hia, Hib, Hfa, Hfb. split_and!; try easy; split; try easy; now intros [].
Qed.

(** Nothing is under way then. *)
Lemma start_flows id ra rb ta tb ua ub (oa : RW1) (ob : RW2) :
  link_start id rb tb ua ub -> link_start id ra ta ub ua ->
  flows (MkDuplex (into_copy_bidirectional_with_buf ua oa) (into_copy_bidirectional_with_buf ub ob))
  = (rw_out ob ++ rw_in oa, rw_out oa ++ rw_in ob).
Proof.
  intros (_ & _ & _ & _ & _ & _ & _ & Hqa & Hqb & _ & _ & _ & _ & Hbufb & Hchb) (_ & _ & _ & _ & _ & _ & _ & _ & _ & _ & _ & _ & _ & Hbufa & Hcha).
  unfold flows, flow, unread. cbn. now rewrite Hqa, Hqb, Hbufa, Hbufb, Hcha, Hchb.
Qed.

(** ** Properties *)

(** The way of a connection through the tunnel, from the copier of the
    client to the copier of the server and back, as the handshake leaves it:
    under any schedule of polls and of frames crossing in either direction,
    the octets a side has been given, followed by those it has not read, those
    on the wire and those the other side has still to hand over, are always
    those the other side had to say, in order; no queue is ever found full;
    and when a copier is done reading its stream, the side behind it has been
    given everything the other had to say. *)
Theorem connection_octets ops id ra rb ta tb ua ub (oa : RW1) (ob : RW2) :
  link_start id rb tb ua ub -> link_start id ra ta ub ua ->
  let start := MkDuplex (into_copy_bidirectional_with_buf ua oa) (into_copy_bidirectional_with_buf ub ob) in
  let '(MkDuplex a b, full) := duplex_run ops start in
  full = false
  /\ flow a b = rw_out ob ++ rw_in oa /\ flow b a = rw_out oa ++ rw_in ob
  /\ (read_done b -> rw_out (cb_other b) = rw_out ob ++ rw_in oa)
  /\ (read_done a -> rw_out (cb_other a) = rw_out oa ++ rw_in ob).
Proof.
  intros Ha Hb. cbv zeta. set (start := MkDuplex _ _).
  destruct (duplex_run_ok id ra rb ops start (duplex_start_ok id ra rb ta tb ua ub oa ob Ha Hb)) as (Hfull & Hok & Hfl).
  pose proof (start_flows id ra rb ta tb ua ub oa ob Ha Hb : flows start = _) as Hstart.
  rewrite Hstart in Hfl. destruct (duplex_run ops start) as [[a b] full]. cbn [fst snd] in *.
  destruct Hok as (Hu & Hd & Hsa & Hsb). unfold flows in Hfl. cbn [dx_client dx_server] in *. injection Hfl as Hab Hba.
  split; [exact Hfull|]. split; [exact Hab|]. split; [exact Hba|]. split; intros Hdone.
  - rewrite <- Hab. symmetry. now apply (done_flow id ra rb).
  - rewrite <- Hba. symmetry. apply (done_flow id rb ra); try easy. now apply duo_sym.
Qed.

End Conversation.

(** Two ends with windows of 3 and 8 frames, between a client that says five
    octets and a target that answers three and takes two octets at a time. *)
Definition example_conversation : list duplex_op :=
  [PollClient 9; FrameToServer; PollServer 9; FrameToServer; FrameToClient; PollServer 9; PollClient 9; FrameToClient; PollClient 9].

Lemma example_back : link_start 17 8 2 (example_reader 2) example_writer.
Proof. unfold link_start, in_width, tx_live. cbn. split_and!; easy || lia. Qed.

Lemma connection_octets_witness :
  let oa := MkMemRW [1; 2; 3; 4; 5] [] 9 true in
  let ob := MkMemRW [6; 7; 8] [] 2 true in
  let '(MkDuplex a b, full) := duplex_run example_conversation
    (MkDuplex (into_copy_bidirectional_with_buf example_writer oa) (into_copy_bidirectional_with_buf (example_reader 2) ob)) in
  full = false /\ rw_out (cb_other b) = [1; 2; 3; 4; 5] /\ rw_out (cb_other a) = [6; 7; 8].
Proof.
  cbv zeta. set (oa := MkMemRW [1; 2; 3; 4; 5] [] 9 true). set (ob := MkMemRW [6; 7; 8] [] 2 true).
  pose proof (connection_octets example_conversation 17 8 3 2 2 example_writer (example_reader 2) oa ob example_start_2 example_back) as H. cbv zeta in H.
  set (d := duplex_run example_conversation _) in *.
  assert (Ha : read_done (dx_client d.1)) by (exists 3; vm_compute; reflexivity).
  assert (Hb : read_done (dx_server d.1)) by (exists 5; vm_compute; reflexivity).
  clearbody d. destruct d as [[a b] full]. destruct H as (Hf & _ & _ & H1 & H2). split; [exact Hf|]. split; [exact (H1 Hb)|exact (H2 Ha)].
Defined.
