(* ===== verification/Completion.v ===== *)
(** * Every connection can complete

    Between two sides that answer at once, the conversation of Duplex.v can be
    brought to its end from any state it can be in: no window stays shut, no
    end of file is lost, provided each side acknowledges within the window it
    granted. *)

From S2P Require Import Prelude Runtime Frame Timing Config Stream Mux MuxInv MuxProps FlowControl Handshake Duplex.

(** A side that has data or is at its end, takes something of every write, and
    shuts down at once. *)
Record prompt (RW : Type) `{!BufRW RW} : Prop := {
  prompt_fill : forall o : RW, exists bs, (rw_fill_buf o).2 = Ready (Ok bs);
  prompt_write : forall bs (o : RW), bs <> [] -> exists n, (rw_write bs o).2 = Ready (Ok n) /\ n <> 0;
  prompt_shutdown : forall o : RW, (rw_shutdown o).2 = Ready (Ok tt);
}.

(** ** One copier *)

Section Copier.
Context {C : Type -> Type} `{!Mpsc C} {W : Type} `{!Waker W} {RW : Type} `{!BufRW RW}.

(** What is left to do: octets to hand over, and the end of file after them. *)
Definition todo (c : CopyBidirectional C W RW) : nat :=
  length (rw_in (cb_other c)) + match cb_write_state c with WDone _ => 0 | WTransferring _ => 1 end.

Definition write_done (c : CopyBidirectional C W RW) : Prop := exists n, cb_write_state c = WDone n.

(** *** The threshold is for ever *)

Definition threshold (c : CopyBidirectional C W RW) : Z := ms_rwnd_threshold (cx_stream (cb_us c)).

(** Reading leaves the threshold and the window for writing alone. *)
Definition read_kept (a b : Ctx C W) : Prop :=
  ms_rwnd_threshold (cx_stream a) = ms_rwnd_threshold (cx_stream b)
  /\ sh_psh_send_remaining (cx_shared a) = sh_psh_send_remaining (cx_shared b).

Lemma fill_kept (c : Ctx C W) : read_kept (poll_fill_buf c).1 c.
Proof.
  unfold poll_fill_buf. destruct (ms_buf (cx_stream c)); [|easy]. destruct (poll_recv _) as [fr [[next|]|]]; try easy.
  cbn [fst]. unfold increment_psh_recvd_since. now destruct (_ <=? _).
Qed.

Lemma consume_kept n (a a' c : Ctx C W) : consume n a = Ok a' -> read_kept a c -> read_kept a' c.
Proof. unfold consume. destruct (_ <? _); [easy|]. now intros [= <-]. Qed.

Lemma read_loop_kept fuel (c : CopyBidirectional C W RW) n : read_kept (cb_us (read_us_loop fuel c n).1) (cb_us c).
Proof.
  revert c n. induction fuel as [|fuel IH]; intros c n; [easy|]. cbn [read_us_loop].
  pose proof (fill_kept (cb_us c)) as Hf. destruct (poll_fill_buf (cb_us c)) as [us1 [[[|x bs]| |]|]]; cbn [fst] in Hf;
    try exact Hf.
  - unfold poll_shutdown_other. cbn. now destruct (rw_shutdown (cb_other c)) as [o [[]|]].
  - destruct (rw_write (x :: bs) (cb_other c)) as [o [[m| |]|]]; try exact Hf.
    destruct (consume m us1) as [us2| |] eqn:Hc; try exact Hf.
    destruct (IH (MkCopy us2 o (RTransferring (n + m)) (cb_write_state c)) (n + m)) as [H1 H2].
    destruct (consume_kept _ _ _ _ Hc Hf) as [H3 H4]. cbn in *. split; congruence.
Qed.

Lemma read_poll_kept fuel (c : CopyBidirectional C W RW) : read_kept (cb_us (poll_read_us fuel c).1) (cb_us c).
Proof.
  unfold poll_read_us. destruct (cb_read_state c); [apply read_loop_kept| |easy].
  unfold poll_shutdown_other. now destruct (rw_shutdown (cb_other c)) as [o [[]|]].
Qed.

(** *** Reading *)

Lemma fill_pending (c c' : Ctx C W) :
  poll_fill_buf c = (c', Pending) -> unread c' = [] /\ tx_open (sh_frames (cx_shared c)) = true.
Proof.
  unfold poll_fill_buf. destruct (ms_buf (cx_stream c)) as [|x buf] eqn:Hb; [|easy].
  pose proof (view_poll_recv _ (sh_frames (cx_shared c))) as Hv. pose proof (res_poll_recv _ (sh_frames (cx_shared c))) as Hr.
  destruct (poll_recv (sh_frames (cx_shared c))) as [fr r]. cbn [fst snd] in Hv, Hr. unfold spec_recv in Hv, Hr.
  destruct (queue (sh_frames (cx_shared c))) as [|next q] eqn:Hq; cbn [fst snd] in Hv, Hr; subst r; [|easy].
  destruct (rx_open _ && tx_open _) eqn:Ho; [|easy]. intros [= <-]. unfold unread. cbn. rewrite Hv, Hb. cbn. rewrite Hq.
  split; [easy|]. now bool_prop.
Qed.

Lemma fill_open (c : Ctx C W) : tx_open (sh_frames (cx_shared (poll_fill_buf c).1)) = tx_open (sh_frames (cx_shared c)).
Proof.
  unfold poll_fill_buf. destruct (ms_buf (cx_stream c)); [|easy].
  pose proof (view_poll_recv _ (sh_frames (cx_shared c))) as Hv. destruct (poll_recv (sh_frames (cx_shared c))) as [fr r]. cbn [fst] in Hv.
  destruct (spec_recv_flags (chan_view (sh_frames (cx_shared c)))) as (_ & Ht & _). rewrite <- Hv in Ht.
  destruct r as [[next|]|]; cbn; [|now rewrite view_rx_close|easy]. unfold increment_psh_recvd_since. now destruct (_ <=? _).
Qed.

(** With fuel for its octets a copier reads its stream empty, and to its end if
    that was announced. *)
Definition drained (open : bool) (c : CopyBidirectional C W RW) : Prop :=
  unread (cb_us c) = [] /\ (open = false -> read_done c).

Lemma shutdown_drained open (c : CopyBidirectional C W RW) n : prompt RW -> unread (cb_us c) = [] -> drained open (poll_shutdown_other c n).1.
Proof.
  intros Hp Hu. unfold poll_shutdown_other. pose proof (prompt_shutdown RW Hp (cb_other c)) as Hs.
  destruct (rw_shutdown (cb_other c)) as [o r]. cbn in Hs. subst r. split; [easy|]. intros _. now exists n.
Qed.

Lemma read_loop_drained id ra rb b fuel (c : CopyBidirectional C W RW) n :
  prompt RW -> u32_ok id -> duo id ra rb (cb_us c) b -> (length (unread (cb_us c)) < fuel)%nat ->
  drained (tx_open (sh_frames (cx_shared (cb_us c)))) (read_us_loop fuel c n).1.
Proof.
  intros Hp Hid. revert c n. induction fuel as [|fuel IH]; intros c n Hd Hf; [lia|]. cbn [read_us_loop].
  assert (Hidc : u32_ok (ms_flow_id (cx_stream (cb_us c)))) by (destruct Hd as ((-> & _) & _); exact Hid).
  pose proof (fill_open (cb_us c)) as Hopen. pose proof (duo_fill _ _ _ _ _ Hd) as Hd1.
  destruct (poll_fill_buf (cb_us c)) as [us1 r] eqn:Hfill. cbn [fst] in *.
  destruct r as [[[|x bs]| |]|].
  - destruct (fill_eof _ _ _ _ _ _ Hd Hfill) as [Hu _].
    pose proof (shutdown_drained (tx_open (sh_frames (cx_shared (cb_us c))))
      (MkCopy us1 (cb_other c) (cb_read_state c) (cb_write_state c)) n Hp Hu) as H. now destruct (poll_shutdown_other _ n).
  - destruct (prompt_write RW Hp (x :: bs) (cb_other c)) as (m & Hm & Hm0); [easy|].
    destruct (rw_write (x :: bs) (cb_other c)) as [o w] eqn:Hw. cbn in Hm. subst w.
    destruct (fill_write_consume c us1 (x :: bs) o _ Hidc Hfill Hw) as (_ & Hb & us2 & Hc & _ & _ & _ & _ & Hl).
    rewrite Hc. specialize (IH (MkCopy us2 o (RTransferring (n + m)) (cb_write_state c)) (n + m)). cbn [cb_us] in IH.
    assert (Ho2 : tx_open (sh_frames (cx_shared us2)) = tx_open (sh_frames (cx_shared (cb_us c)))).
    { unfold consume in Hc. destruct (_ <? _); [easy|]. injection Hc as <-. exact Hopen. }
    rewrite Ho2 in IH. apply IH; [exact (duo_consume _ _ _ _ _ _ _ Hd1 Hc)|]. unfold blen in *. lia.
  - destruct (poll_fill_buf_cases _ _ _ Hfill) as [(?&?&?&?&?)|[? [(?&?&?&?&?)|(?&[|]&?)]]]; easy.
  - destruct (poll_fill_buf_cases _ _ _ Hfill) as [(?&?&?&?&?)|[? [(?&?&?&?&?)|(?&[|]&?)]]]; easy.
  - destruct (fill_pending _ _ Hfill) as [Hu Ho]. split; [exact Hu|]. now rewrite Ho.
Qed.

Lemma read_drained id ra rb b fuel (c : CopyBidirectional C W RW) :
  prompt RW -> u32_ok id -> duo id ra rb (cb_us c) b -> eof_ok c -> (length (unread (cb_us c)) < fuel)%nat ->
  drained (tx_open (sh_frames (cx_shared (cb_us c)))) (poll_read_us fuel c).1.
Proof.
  intros Hp Hid Hd He Hf. unfold poll_read_us. unfold eof_ok in He. destruct (cb_read_state c) as [n|n|n] eqn:Hs.
  - now apply (read_loop_drained id ra rb b).
  - destruct He as [Hu _]. pose proof (shutdown_drained (tx_open (sh_frames (cx_shared (cb_us c)))) c n Hp Hu) as H.
    now destruct (poll_shutdown_other c n).
  - split; [easy|]. intros _. now exists n.
Qed.

(** *** Writing *)

(** Taking octets of the other side leaves fewer. *)
Lemma consumed_todo (o o' : RW) x bs :
  rw_in o = rw_in o' -> (rw_fill_buf o').2 = Ready (Ok (x :: bs)) -> (rw_fill_buf o').1 = o ->
  (length (rw_in (rw_consume (length (x :: bs)) o)) < length (rw_in o'))%nat.
Proof.
  intros Hin Hr Ho. destruct (fill_buf_prefix o' _ Hr) as (Hav & [rest Hrest] & _). rewrite Ho in Hav.
  destruct (consume_views (length (x :: bs)) o) as [-> _]; [now rewrite Hav|]. rewrite Hin, Hrest, drop_app_length, length_app. simpl. lia.
Qed.

Definition write_kept (c c' : CopyBidirectional C W RW) : Prop :=
  cx_stream (cb_us c') = cx_stream (cb_us c) /\ sh_frames (cx_shared (cb_us c')) = sh_frames (cx_shared (cb_us c))
  /\ cb_read_state c' = cb_read_state c /\ (todo c' <= todo c)%nat.

Lemma write_loop_kept fuel (c : CopyBidirectional C W RW) n :
  u32_ok (ms_flow_id (cx_stream (cb_us c))) -> cb_write_state c = WTransferring n -> write_kept c (write_us_loop fuel c n).1.
Proof.
  revert c n. induction fuel as [|fuel IH]; intros c n Hid Hs; cbn [write_us_loop]; [easy|].
  destruct (fill_buf_views (cb_other c)) as [Hin _]. destruct (rw_fill_buf (cb_other c)) as [o r] eqn:Hfill. cbn [fst] in Hin.
  assert (Hkeep : forall us o' ws, cx_stream us = cx_stream (cb_us c) -> sh_frames (cx_shared us) = sh_frames (cx_shared (cb_us c)) ->
    rw_in o' = rw_in (cb_other c) -> write_kept c (MkCopy us o' (cb_read_state c) ws)).
  { intros us o' ws H1 H2 H3. split_and!; try easy. unfold todo. cbn. rewrite H3, Hs. destruct ws; lia. }
  destruct r as [[[|x bs]|e|]|]; try (now apply Hkeep).
  - destruct (shutdown_inner_pushed (cb_us c) Hid) as (Hst & Hfr & _).
    destruct (shutdown_inner (cb_us c)) as [us [[]| |]]; now apply Hkeep.
  - destruct (poll_write_pushed (x :: bs) (cb_us c) Hid) as (Hst & Hfr & _).
    destruct (poll_write [] (x :: bs) (cb_us c)) as [us [[m| |]|]]; try (now apply Hkeep). cbn [fst] in *.
    destruct (IH (MkCopy us (rw_consume (length (x :: bs)) o) (cb_read_state c) (WTransferring (n + m))) (n + m)) as (H1 & H2 & H3 & H4);
      [cbn; now rewrite Hst|easy|].
    split_and!; [now rewrite H1|now rewrite H2|easy|]. etransitivity; [exact H4|].
    pose proof (consumed_todo o (cb_other c) x bs Hin ltac:(now rewrite Hfill) ltac:(now rewrite Hfill)). unfold todo. cbn [cb_other cb_write_state].
    rewrite Hs. lia.
  - destruct (flush_views o) as (Hfi & _). destruct (rw_flush o) as [o2 f]. cbn [fst] in *. apply Hkeep; congruence.
Qed.

Lemma write_kept_poll fuel (c : CopyBidirectional C W RW) : u32_ok (ms_flow_id (cx_stream (cb_us c))) -> write_kept c (poll_write_us fuel c).1.
Proof. intros Hid. unfold poll_write_us. destruct (cb_write_state c) eqn:Hs; [now apply write_loop_kept|easy]. Qed.

(** With room in the window something is handed over. *)
Lemma write_progress id ra rb b fuel (c : CopyBidirectional C W RW) :
  prompt RW -> u32_ok id -> duo id ra rb (cb_us c) b -> fin_ok c -> ~ write_done c -> sh_psh_send_remaining (cx_shared (cb_us c)) <> 0 ->
  (todo (poll_write_us (S fuel) c).1 < todo c)%nat.
Proof.
  intros Hp Hid Hd Hf Hn Hrem. unfold poll_write_us. destruct (cb_write_state c) as [n|n] eqn:Hs; [|destruct Hn; now exists n].
  assert (Hopen : sh_finish_sent (cx_shared (cb_us c)) = false).
  { destruct (sh_finish_sent _) eqn:Hfin; [|easy]. destruct (proj1 Hf Hfin) as [m Hm]. congruence. }
  destruct Hd as ((Hidc & Hl & _) & _). cbn [write_us_loop].
  destruct (fill_buf_views (cb_other c)) as [Hin _]. destruct (prompt_fill RW Hp (cb_other c)) as [bs Hbs].
  destruct (rw_fill_buf (cb_other c)) as [o r] eqn:Hfill. cbn [fst snd] in *. subst r. destruct bs as [|x bs].
  - destruct (shutdown_live (cb_us c) Hl) as (Hr & _). destruct (shutdown_inner (cb_us c)) as [us r]. cbn [fst snd] in *. subst r.
    unfold todo. cbn. rewrite Hs, Hin. lia.
  - destruct (poll_write_open (x :: bs) (cb_us c) Hopen Hl) as (_ & Hst & _ & _ & _ & H1). destruct (H1 Hrem) as (Hr & _).
    destruct (poll_write [] (x :: bs) (cb_us c)) as [us w]. cbn [fst snd] in *. subst w.
    match goal with |- context [write_us_loop fuel ?d ?k] =>
      destruct (write_loop_kept fuel d k) as (_ & _ & _ & H4); [cbn; rewrite Hst, Hidc; exact Hid|easy|] end.
    eapply Nat.le_lt_trans; [exact H4|].
    pose proof (consumed_todo o (cb_other c) x bs Hin ltac:(now rewrite Hfill) ltac:(now rewrite Hfill)).
    unfold todo. cbn [cb_other cb_write_state]. rewrite Hs. lia.
Qed.

(** *** A whole poll *)

Lemma copy_parts fuel (c : CopyBidirectional C W RW) : (copy_poll fuel c).1 = (poll_write_us fuel (poll_read_us fuel c).1).1.
Proof. unfold copy_poll. destruct (poll_read_us fuel c) as [c1 r]. cbn [fst]. now destruct (poll_write_us fuel c1). Qed.

Lemma read_todo fuel (c : CopyBidirectional C W RW) : u32_ok (ms_flow_id (cx_stream (cb_us c))) -> todo (poll_read_us fuel c).1 = todo c.
Proof. intros Hid. destruct (poll_read_us_ok fuel c Hid) as (_ & Hw & Hi & _). unfold todo. now rewrite Hw, Hi. Qed.

Lemma read_flow_id fuel (c : CopyBidirectional C W RW) :
  u32_ok (ms_flow_id (cx_stream (cb_us c))) -> u32_ok (ms_flow_id (cx_stream (cb_us (poll_read_us fuel c).1))).
Proof. intros Hid. destruct (poll_read_us_ok fuel c Hid) as (_ & _ & _ & -> & _). exact Hid. Qed.

Lemma copy_threshold fuel (c : CopyBidirectional C W RW) : copy_wf c -> threshold (copy_poll fuel c).1 = threshold c.
Proof.
  intros [Hid _]. rewrite copy_parts. destruct (write_kept_poll fuel _ (read_flow_id fuel c Hid)) as (Hst & _).
  unfold threshold. rewrite Hst. apply read_poll_kept.
Qed.

Lemma copy_todo fuel (c : CopyBidirectional C W RW) : copy_wf c -> (todo (copy_poll fuel c).1 <= todo c)%nat.
Proof.
  intros [Hid _]. rewrite copy_parts. destruct (write_kept_poll fuel _ (read_flow_id fuel c Hid)) as (_ & _ & _ & H).
  now rewrite read_todo in H.
Qed.

Lemma copy_drained id ra rb b fuel (c : CopyBidirectional C W RW) :
  prompt RW -> u32_ok id -> duo id ra rb (cb_us c) b -> side_ok c -> (length (unread (cb_us c)) < fuel)%nat ->
  drained (tx_open (sh_frames (cx_shared (cb_us c)))) (copy_poll fuel c).1.
Proof.
  intros Hp Hid Hd ([Hidc _] & He & _) Hf. rewrite copy_parts. destruct (read_drained id ra rb b fuel c Hp Hid Hd He Hf) as [Hu Hdone].
  destruct (write_kept_poll fuel _ (read_flow_id fuel c Hidc)) as (Hst & Hfr & Hrs & _).
  split; [unfold unread in *; now rewrite Hst, Hfr|]. intros Ho. destruct (Hdone Ho) as [n Hn]. exists n. now rewrite Hrs.
Qed.

End Copier.

(** ** Both copiers *)

Section Swap.
Context {C : Type -> Type} `{!Mpsc C} {W : Type} `{!Waker W} {RW1 RW2 : Type} `{!BufRW RW1} `{!BufRW RW2}.

(** The same conversation seen from the other side. *)
Definition swap (d : @duplex C W RW1 RW2) : @duplex C W RW2 RW1 := MkDuplex (dx_server d) (dx_client d).
Definition swap_op (op : duplex_op) : duplex_op :=
  match op with
  | PollClient fuel => PollServer fuel
  | PollServer fuel => PollClient fuel
  | FrameToServer => FrameToClient
  | FrameToClient => FrameToServer
  end.

Lemma duplex_ok_swap id ra rb (d : @duplex C W RW1 RW2) : duplex_ok id ra rb d -> duplex_ok id rb ra (swap d).
Proof. intros (Hu & Hd & Ha & Hb). split; [easy|]. split; [now apply duo_sym|easy]. Qed.

Lemma step_swap op (d : @duplex C W RW1 RW2) :
  duplex_step (swap_op op) (swap d) = (swap (duplex_step op d).1, (duplex_step op d).2).
Proof.
  destruct op; cbn [swap_op duplex_step swap dx_client dx_server]; try easy.
  - now destruct (cross (cb_us (dx_client d)) (cb_us (dx_server d))) as [[a b] full].
  - now destruct (cross (cb_us (dx_server d)) (cb_us (dx_client d))) as [[b a] full].
Qed.

Lemma run_swap ops (d : @duplex C W RW1 RW2) :
  (duplex_run (map swap_op ops) (swap d)).1 = swap (duplex_run ops d).1.
Proof.
  revert d. induction ops as [|op ops IH]; intros d; [easy|]. cbn [map duplex_run]. rewrite step_swap.
  destruct (duplex_step op d) as [d1 full]. cbn [fst snd]. specialize (IH d1).
  destruct (duplex_run (map swap_op ops) (swap d1)) as [d2 f2], (duplex_run ops d1) as [d3 f3]. exact IH.
Qed.

Lemma run_app ops more (d : @duplex C W RW1 RW2) : (duplex_run (ops ++ more) d).1 = (duplex_run more (duplex_run ops d).1).1.
Proof. now rewrite duplex_run_app. Qed.

(** *** All that is on the wire crosses *)

Definition sent {RW} (c c' : CopyBidirectional C W RW) : Prop :=
  cb_other c' = cb_other c /\ cb_read_state c' = cb_read_state c /\ cb_write_state c' = cb_write_state c
  /\ cx_stream (cb_us c') = cx_stream (cb_us c) /\ cx_shared (cb_us c') = cx_shared (cb_us c).

Definition got {RW} (c c' : CopyBidirectional C W RW) : Prop :=
  cb_other c' = cb_other c /\ cb_read_state c' = cb_read_state c /\ cb_write_state c' = cb_write_state c
  /\ cx_stream (cb_us c') = cx_stream (cb_us c) /\ cx_tx (cb_us c') = cx_tx (cb_us c).

Lemma sent_trans {RW} (a b c : CopyBidirectional C W RW) : sent a b -> sent b c -> sent a c.
Proof. unfold sent. intros (?&?&?&?&?) (?&?&?&?&?). split_and!; congruence. Qed.

Lemma got_trans {RW} (a b c : CopyBidirectional C W RW) : got a b -> got b c -> got a c.
Proof. unfold got. intros (?&?&?&?&?) (?&?&?&?&?). split_and!; congruence. Qed.

Lemma flush_up id ra rb (d : @duplex C W RW1 RW2) :
  duplex_ok id ra rb d ->
  exists ops, let d' := (duplex_run ops d).1 in
    queue (cx_tx (cb_us (dx_client d'))) = [] /\ sent (dx_client d) (dx_client d') /\ got (dx_server d) (dx_server d').
Proof.
  intros Hok. remember (length (queue (cx_tx (cb_us (dx_client d))))) as k eqn:Hk. revert d Hok Hk.
  induction k as [|k IH]; intros d Hok Hk.
  - exists []. split; [|easy]. now destruct (queue _).
  - pose proof Hok as (Hu & Hd & _). pose proof (cross_ok id ra rb _ _ Hu Hd) as Hc.
    destruct (duplex_step_ok id ra rb FrameToServer d Hok) as (_ & Hok1 & _). revert Hok1. cbn [duplex_step].
    destruct (cross (cb_us (dx_client d)) (cb_us (dx_server d))) as [[ua ub] full] eqn:Hcross.
    destruct Hc as (_ & _ & data & Hsa & Hsha & Hsb & Htb & _ & _ & _ & _ & Htail). cbn [fst]. intros Hok1.
    destruct (IH _ Hok1) as (ops & Hq & Hs & Hg).
    { cbn. rewrite Htail. destruct (queue (cx_tx (cb_us (dx_client d)))); cbn in *; lia. }
    exists (FrameToServer :: ops). cbn [duplex_run duplex_step]. rewrite Hcross.
    destruct (duplex_run ops _) as [d' f']. cbn [fst] in *. split; [exact Hq|].
    split; [eapply sent_trans; [|exact Hs]|eapply got_trans; [|exact Hg]]; now split_and!.
Qed.

End Swap.

Section Both.
Context {C : Type -> Type} `{!Mpsc C} {W : Type} `{!Waker W} {RW1 RW2 : Type} `{!BufRW RW1} `{!BufRW RW2}.

#[local] Abbreviation duplex := (@duplex C W RW1 RW2).

Lemma flush_down id ra rb (d : duplex) :
  duplex_ok id ra rb d ->
  exists ops, let d' := (duplex_run ops d).1 in
    queue (cx_tx (cb_us (dx_server d'))) = [] /\ sent (dx_server d) (dx_server d') /\ got (dx_client d) (dx_client d').
Proof.
  intros Hok. destruct (flush_up id rb ra (swap d) (duplex_ok_swap _ _ _ _ Hok)) as (ops & H).
  exists (map swap_op ops). cbv zeta in *. pose proof (run_swap ops (swap d)) as Hr.
  change (swap (swap d)) with (MkDuplex (dx_client d) (dx_server d)) in Hr.
  replace (MkDuplex (dx_client d) (dx_server d)) with d in Hr by now destruct d. rewrite Hr. exact H.
Qed.

(** Each side acknowledges within the window it granted. *)
Definition thresholds_ok (ra rb : Z) (d : duplex) : Prop :=
  Z.max 1 (threshold (dx_client d)) <= ra /\ Z.max 1 (threshold (dx_server d)) <= rb.

Definition work (d : duplex) : nat := todo (dx_client d) + todo (dx_server d).

Definition good (id ra rb : Z) (d : duplex) : Prop := duplex_ok id ra rb d /\ thresholds_ok ra rb d.

Lemma good_step id ra rb op d : good id ra rb d -> good id ra rb (duplex_step op d).1 /\ (work (duplex_step op d).1 <= work d)%nat.
Proof.
  intros [Hok [Hta Htb]]. destruct (duplex_step_ok id ra rb op d Hok) as (_ & Hok' & _).
  pose proof Hok as (Hu & Hd & (Hwa & _) & (Hwb & _)).
  destruct op as [fuel|fuel| |]; cbn [duplex_step fst] in *.
  - split; [split; [exact Hok'|]|].
    + unfold thresholds_ok. cbn. now rewrite copy_threshold.
    + unfold work. cbn. pose proof (copy_todo fuel _ Hwa). lia.
  - split; [split; [exact Hok'|]|].
    + unfold thresholds_ok. cbn. now rewrite copy_threshold.
    + unfold work. cbn. pose proof (copy_todo fuel _ Hwb). lia.
  - pose proof (cross_ok id ra rb _ _ Hu Hd) as Hc. destruct (cross _ _) as [[ua ub] full]. cbn [fst] in *.
    destruct Hc as (_ & _ & data & Hsa & _ & Hsb & _). split; [split; [exact Hok'|]|easy].
    unfold thresholds_ok, threshold in *. cbn. now rewrite Hsa, Hsb.
  - pose proof (cross_ok id rb ra _ _ Hu (duo_sym _ _ _ _ _ Hd)) as Hc. destruct (cross _ _) as [[ub ua] full]. cbn [fst] in *.
    destruct Hc as (_ & _ & data & Hsb & _ & Hsa & _). split; [split; [exact Hok'|]|easy].
    unfold thresholds_ok, threshold in *. cbn. now rewrite Hsa, Hsb.
Qed.

Lemma good_run id ra rb ops d : good id ra rb d -> good id ra rb (duplex_run ops d).1 /\ (work (duplex_run ops d).1 <= work d)%nat.
Proof.
  revert d. induction ops as [|op ops IH]; intros d Hg; [easy|]. cbn [duplex_run].
  destruct (good_step id ra rb op d Hg) as [H1 H2]. destruct (duplex_step op d) as [d1 full]. cbn [fst] in *.
  destruct (IH d1 H1) as [H3 H4]. destruct (duplex_run ops d1) as [d2 f2]. cbn [fst] in *. split; [easy|lia].
Qed.

(** The window of a side whose frames have all been read and acknowledged. *)
Lemma window_open id ra rb (a b : Ctx C W) :
  duo id ra rb a b -> queue (cx_tx a) = [] -> queue (cx_tx b) = [] -> unread b = [] ->
  Z.max 1 (ms_rwnd_threshold (cx_stream b)) <= rb -> sh_psh_send_remaining (cx_shared a) <> 0.
Proof.
  intros (_ & (_ & _ & _ & _ & Hrec) & fs & gs & Hfs & Hgs & _ & _ & Hab & _) Ha Hb Hu Ht.
  rewrite Ha in Hfs. rewrite Hb in Hgs. destruct fs; [|easy]. destruct gs; [|easy]. unfold unread in Hu.
  pose proof (hf_rwnd _ _ _ _ _ Hab) as Hr. pose proof (hf_window _ _ _ _ _ Hab) as Hw. pose proof (hf_data _ _ _ _ _ Hab) as Hdat.
  apply app_eq_nil in Hu as [_ Hu]. destruct (queue (sh_frames (cx_shared b))) as [|x q].
  - unfold ack_every in Hrec. unfold count in Hw. simpl in Hw. lia.
  - apply Forall_cons_iff in Hdat as [Hx _]. now destruct x.
Qed.

(** One round brings the client nearer to the end of what it has to say. *)
Lemma client_round id ra rb d :
  prompt RW1 -> prompt RW2 -> good id ra rb d -> ~ write_done (dx_client d) ->
  exists ops, (work (duplex_run ops d).1 < work d)%nat.
Proof.
  intros Hp1 Hp2 Hg Hn. pose proof Hg as [Hok _].
  destruct (flush_up id ra rb d Hok) as (ops1 & Hq1 & Hs1 & Hg1). destruct (good_run id ra rb ops1 d Hg) as [Hgood1 Hw1].
  set (d1 := (duplex_run ops1 d).1) in *. cbv zeta in *.
  set (fuel := S (length (unread (cb_us (dx_server d1))))).
  destruct (good_step id ra rb (PollServer fuel) d1 Hgood1) as [Hgood2 Hw2].
  set (d2 := (duplex_step (PollServer fuel) d1).1) in *.
  assert (Hu2 : unread (cb_us (dx_server d2)) = []).
  { destruct Hgood1 as [(Hu & Hd & Ha & Hb) _].
    exact (proj1 (copy_drained id rb ra _ fuel _ Hp2 Hu (duo_sym _ _ _ _ _ Hd) Hb ltac:(unfold fuel; lia))). }
  destruct (flush_down id ra rb d2 (proj1 Hgood2)) as (ops3 & Hq3 & Hs3 & Hg3).
  destruct (good_run id ra rb ops3 d2 Hgood2) as [Hgood3 Hw3]. set (d3 := (duplex_run ops3 d2).1) in *. cbv zeta in *.
  exists (ops1 ++ [PollServer fuel] ++ ops3 ++ [PollClient 1]). rewrite !run_app. fold d1.
  change (duplex_run [PollServer fuel] d1).1 with d2. fold d3. cbn [duplex_run duplex_step fst].
  destruct Hs1 as (_ & _ & Hws1 & _), Hg3 as (_ & _ & Hws3 & _ & Htx3), Hs3 as (_ & _ & _ & Hst3 & Hsh3).
  assert (Hn3 : ~ write_done (dx_client d3)).
  { unfold write_done in *. rewrite Hws3. change (dx_client d2) with (dx_client d1). now rewrite Hws1. }
  assert (Hqa3 : queue (cx_tx (cb_us (dx_client d3))) = []) by (rewrite Htx3; exact Hq1).
  assert (Hu3 : unread (cb_us (dx_server d3)) = []) by (unfold unread in *; now rewrite Hst3, Hsh3).
  destruct Hgood3 as [(Hu & Hd & (Hwa & Hea & Hfa) & Hb) [_ Htb]].
  pose proof (window_open id ra rb _ _ Hd Hqa3 Hq3 Hu3 Htb) as Hrem.
  destruct (read_leg id ra rb (cb_us (dx_server d3)) 1 (dx_client d3) Hd Hea Hfa) as (Hd' & _ & Hf').
  destruct (read_poll_kept 1 (dx_client d3)) as [_ Hrem']. destruct (poll_read_us_ok 1 (dx_client d3) (proj1 Hwa)) as (_ & Hws & _).
  pose proof (write_progress id ra rb (cb_us (dx_server d3)) 0 _ Hp1 Hu Hd' Hf') as Hprog.
  rewrite <- copy_parts, (read_todo 1 _ (proj1 Hwa)), Hrem' in Hprog. unfold write_done in Hprog. rewrite Hws in Hprog.
  specialize (Hprog Hn3 Hrem). unfold work in *. cbn [dx_client dx_server]. lia.
Qed.

(** *** The end of both directions *)

Lemma write_done_poll {RW} `{!BufRW RW} fuel (c : CopyBidirectional C W RW) :
  copy_wf c -> write_done c -> write_done (copy_poll fuel c).1.
Proof.
  intros [Hid _] [n Hn]. rewrite copy_parts. destruct (poll_read_us_ok fuel c Hid) as (_ & Hws & _). exists n.
  unfold poll_write_us. rewrite Hws, Hn. cbn. now rewrite Hws.
Qed.

(** A writer that has finished and whose frames have all crossed has closed the
    queue of the other side. *)
Lemma fin_crossed id ra rb (a b : Ctx C W) :
  duo id ra rb a b -> queue (cx_tx a) = [] -> sh_finish_sent (cx_shared a) = true -> tx_open (sh_frames (cx_shared b)) = false.
Proof.
  intros (_ & _ & fs & gs & Hfs & _ & _ & _ & Hab & _) Hq Hf. rewrite Hq in Hfs. destruct fs; [|easy].
  pose proof (hf_fin _ _ _ _ _ Hab) as Hfin. rewrite Hf in Hfin. destruct (tx_open _); [|easy].
  destruct Hfin as (f1 & f2 & H & _). now destruct f1.
Qed.

Definition finished (d : duplex) : Prop :=
  read_done (dx_client d) /\ write_done (dx_client d) /\ read_done (dx_server d) /\ write_done (dx_server d).

Lemma last_round id ra rb d :
  prompt RW1 -> prompt RW2 -> duplex_ok id ra rb d -> write_done (dx_client d) -> write_done (dx_server d) ->
  exists ops, finished (duplex_run ops d).1.
Proof.
  intros Hp1 Hp2 Hok Hwc Hws.
  destruct (flush_up id ra rb d Hok) as (ops1 & Hq1 & Hs1 & Hg1). destruct (duplex_run_ok id ra rb ops1 d Hok) as (_ & Hok1 & _).
  set (d1 := (duplex_run ops1 d).1) in *. cbv zeta in *.
  destruct (flush_down id ra rb d1 Hok1) as (ops2 & Hq2 & Hs2 & Hg2). destruct (duplex_run_ok id ra rb ops2 d1 Hok1) as (_ & Hok2 & _).
  set (d2 := (duplex_run ops2 d1).1) in *. cbv zeta in *.
  destruct Hs1 as (_ & _ & Hs1 & _), Hg1 as (_ & _ & Hg1 & _), Hs2 as (_ & _ & Hs2 & _), Hg2 as (_ & _ & Hg2 & _ & Htx2).
  assert (Hwc2 : write_done (dx_client d2)) by (unfold write_done in *; now rewrite Hg2, Hs1).
  assert (Hws2 : write_done (dx_server d2)) by (unfold write_done in *; now rewrite Hs2, Hg1).
  destruct Hok2 as (Hu & Hd & Ha & Hb). pose proof Ha as (Hwfa & _ & Hfa). pose proof Hb as (Hwfb & _ & Hfb).
  assert (Ho1 : tx_open (sh_frames (cx_shared (cb_us (dx_server d2)))) = false)
    by (apply (fin_crossed _ _ _ _ _ Hd); [now rewrite Htx2|now apply Hfa]).
  assert (Ho2 : tx_open (sh_frames (cx_shared (cb_us (dx_client d2)))) = false)
    by (apply (fin_crossed _ _ _ _ _ (duo_sym _ _ _ _ _ Hd)); [easy|now apply Hfb]).
  set (fa := S (length (unread (cb_us (dx_client d2))))). set (fb := S (length (unread (cb_us (dx_server d2))))).
  destruct (poll_flows id ra rb fa _ _ Hd Ha) as (Hd' & _ & _).
  pose proof (copy_drained id ra rb _ fa _ Hp1 Hu Hd Ha ltac:(unfold fa; lia)) as [_ Hra].
  pose proof (copy_drained id rb ra _ fb _ Hp2 Hu (duo_sym _ _ _ _ _ Hd') Hb ltac:(unfold fb; lia)) as [_ Hrb].
  exists (ops1 ++ ops2 ++ [PollClient fa; PollServer fb]). rewrite !run_app. fold d1 d2. cbn [duplex_run duplex_step fst dx_client dx_server].
  unfold finished. cbn [dx_client dx_server]. split_and!; [now apply Hra|now apply write_done_poll|now apply Hrb|now apply write_done_poll].
Qed.

End Both.

Section Finish.
Context {C : Type -> Type} `{!Mpsc C} {W : Type} `{!Waker W} {RW1 RW2 : Type} `{!BufRW RW1} `{!BufRW RW2}.

#[local] Abbreviation duplex := (@duplex C W RW1 RW2).

Lemma server_round id ra rb (d : duplex) :
  prompt RW1 -> prompt RW2 -> good id ra rb d -> ~ write_done (dx_server d) ->
  exists ops, (work (duplex_run ops d).1 < work d)%nat.
Proof.
  intros Hp1 Hp2 [Hok [Hta Htb]] Hn. destruct (client_round id rb ra (swap d) Hp2 Hp1) as [ops Hops]; [|easy|].
  - split; [now apply duplex_ok_swap|easy].
  - exists (map swap_op ops). replace d with (swap (swap d)) at 1 by now destruct d. rewrite run_swap.
    unfold work in *. cbn [swap dx_client dx_server] in *. lia.
Qed.

Lemma write_done_dec {RW} (c : CopyBidirectional C W RW) : write_done c \/ ~ write_done c.
Proof. unfold write_done. destruct (cb_write_state c); [right; now intros []|left; eauto]. Qed.

Lemma can_finish id ra rb (d : duplex) :
  prompt RW1 -> prompt RW2 -> good id ra rb d -> exists ops, finished (duplex_run ops d).1.
Proof.
  intros Hp1 Hp2. remember (work d) as k eqn:Hk. revert d Hk. induction k as [k IH] using lt_wf_ind. intros d Hk Hg.
  assert (Hnext : (exists ops, (work (duplex_run ops d).1 < work d)%nat) -> exists ops, finished (duplex_run ops d).1).
  { intros [ops Hops]. destruct (IH (work (duplex_run ops d).1) ltac:(lia) _ eq_refl) as [more Hmore]; [now apply good_run|].
    exists (ops ++ more). now rewrite run_app. }
  destruct (write_done_dec (dx_client d)); [|now apply Hnext, (client_round id ra rb)].
  destruct (write_done_dec (dx_server d)); [|now apply Hnext, (server_round id ra rb)].
  now apply (last_round id ra rb d Hp1 Hp2 (proj1 Hg)).
Qed.

(** ** Properties *)

(** A connection can always be brought to its end: whatever the two
    copiers and the tunnel have done so far with a connection as the handshake
    leaves it, if each side is to acknowledge within the window it granted and
    the two outer sides answer at once, then some further polls and frames
    finish both copiers in both directions, and each outer side has then been
    given all the other had to say.  No window stays shut, no end of file is
    lost. *)
Theorem connection_completes ops id ra rb ta tb ua ub (oa : RW1) (ob : RW2) :
  prompt RW1 -> prompt RW2 ->
  link_start id rb tb ua ub -> link_start id ra ta ub ua ->
  Z.max 1 ta <= ra -> Z.max 1 tb <= rb ->
  let start := MkDuplex (into_copy_bidirectional_with_buf ua oa) (into_copy_bidirectional_with_buf ub ob) in
  exists more, let d := (duplex_run (ops ++ more) start).1 in
    finished d
    /\ rw_out (cb_other (dx_server d)) = rw_out ob ++ rw_in oa
    /\ rw_out (cb_other (dx_client d)) = rw_out oa ++ rw_in ob.
Proof.
  intros Hp1 Hp2 Ha Hb Hta Htb start. pose proof (duplex_start_ok id ra rb ta tb ua ub oa ob Ha Hb) as Hok.
  assert (Hg : good id ra rb start).
  { split; [exact Hok|]. destruct Ha as (_&_&_&_&_&_&_&_&_&_&_&Ht1&_), Hb as (_&_&_&_&_&_&_&_&_&_&_&Ht2&_).
    unfold thresholds_ok, threshold. cbn. now rewrite Ht1, Ht2. }
  destruct (can_finish id ra rb _ Hp1 Hp2 (proj1 (good_run id ra rb ops start Hg))) as [more Hmore].
  exists more. cbv zeta. destruct (duplex_run_ok id ra rb (ops ++ more) start Hok) as (_ & (Hu & Hd & Hsa & Hsb) & Hfl).
  pose proof (start_flows id ra rb ta tb ua ub oa ob Ha Hb : flows start = _) as Hst. rewrite Hst in Hfl.
  rewrite <- run_app in Hmore. split; [exact Hmore|]. destruct Hmore as (Hda & _ & Hdb & _). unfold flows in Hfl. injection Hfl as <- <-.
  split; symmetry; [now apply (done_flow id ra rb)|apply (done_flow id rb ra); try easy; now apply duo_sym].
Qed.

End Finish.

(** An outer side that gives and takes one octet at a time and answers at
    once; its input is what it still has to say. *)
Record Octets := MkOctets { oct_in : bytes; oct_out : bytes }.

#[local] Obligation Tactic := idtac.

#[export] Program Instance octets_rw : BufRW Octets := {
  rw_fill_buf m := (m, Ready (Ok (take 1 (oct_in m))));
  rw_consume n m := MkOctets (drop n (oct_in m)) (oct_out m);
  rw_write bs m := (MkOctets (oct_in m) (oct_out m ++ take 1 bs), Ready (Ok (blen (take 1 bs))));
  rw_flush m := (m, Ready (Ok tt));
  rw_shutdown m := (m, Ready (Ok tt));
  rw_in := oct_in;
  rw_out := oct_out;
  rw_avail m := take 1 (oct_in m);
}.
Next Obligation. easy. Qed.
Next Obligation.
  intros m bs [= <-]. split; [easy|]. cbn. split; [exists (drop 1 (oct_in m)); now rewrite take_drop|]. now destruct (oct_in m).
Qed.
Next Obligation. easy. Qed.
Next Obligation. intros [|x bs] m; cbn; unfold blen; simpl; split; easy || (split; [lia|easy]). Qed.
Next Obligation. easy. Qed.
Next Obligation. easy. Qed.

Lemma octets_prompt : prompt Octets.
Proof.
  split; [intros o; now exists (take 1 (oct_in o))| |easy]. intros [|x bs] o H; [easy|]. exists 1. split; [reflexivity|lia].
Qed.

(** Twelve octets through a window of three frames of one octet each, from a
    moment when the window is shut. *)
Lemma connection_completes_witness :
  let oa := MkOctets [1; 2; 3; 4; 5; 6; 7; 8; 9; 10; 11; 12] [] in
  let ob := MkOctets [13; 14] [] in
  let start := MkDuplex (into_copy_bidirectional_with_buf example_writer oa) (into_copy_bidirectional_with_buf (example_reader 2) ob) in
  sh_psh_send_remaining (cx_shared (cb_us (dx_client (duplex_run [PollClient 9] start).1))) = 0
  /\ exists more, let d := (duplex_run ([PollClient 9] ++ more) start).1 in
    finished d /\ rw_out (cb_other (dx_server d)) = [1; 2; 3; 4; 5; 6; 7; 8; 9; 10; 11; 12] /\ rw_out (cb_other (dx_client d)) = [13; 14].
Proof.
  cbv zeta. split; [vm_compute; reflexivity|].
  destruct (connection_completes [PollClient 9] 17 8 3 2 2 example_writer (example_reader 2)
    (MkOctets [1; 2; 3; 4; 5; 6; 7; 8; 9; 10; 11; 12] []) (MkOctets [13; 14] [])
    octets_prompt octets_prompt example_start_2 example_back ltac:(lia) ltac:(lia)) as [more H].
  exists more. cbv zeta in H. set (d := duplex_run _ _) in *. clearbody d. exact H.
Defined.
