(* ===== verification/Alone.v ===== *)
(** * A stream seen alone

    The frame queue of a multiplexor carries the frames of all its streams.
    [view id c] is what the end [c] of the stream [id] looks like when all the
    others are left out; every operation of the stream and of its copier on
    the whole queue is the same operation on the view. *)

From S2P Require Import Prelude Runtime Frame Timing Config Stream Mux MuxInv MuxProps Datagrams FlowControl Duplex.

(** ** Definitions *)

(** Whether an encoded frame is for its receiver a frame of the stream [id]:
    the identifiers of datagrams are another name space. *)
Definition about (id : Z) (e : bytes) : bool :=
  match frame_try_from e with
  | Ok (MkFrame i p) => (i =? id) && match p with Datagram _ => false | _ => true end
  | _ => false
  end.

Definition ours (id : Z) (q : list bytes) : list bytes := List.filter (about id) q.

(** The bytes of a frame and the frames of the others on a queue are octets. *)
Definition frame_octets (f : Frame) : Prop :=
  match frame_payload f with
  | Connect c => cow_ok (con_target_host c)
  | Push data => cow_ok data
  | Bind q => cow_ok (bnd_target_host q)
  | Datagram d => cow_ok (dgm_target_host d) /\ cow_ok (dgm_data d)
  | _ => True
  end.

Definition typed (id : Z) (q : list bytes) : Prop := Forall (fun e => about id e = false -> bytes_ok e) q.

Section View.
Context {C : Type -> Type} `{!Mpsc C} {W : Type} `{!Waker W}.

Definition view_shared (sh : Shared C W) : Shared chan_state W :=
  MkShared (chan_view (sh_frames sh)) (sh_finish_sent sh) (sh_psh_send_remaining sh) (sh_writer_waker sh).

Definition own_tx (id : Z) (tx : C bytes) : chan_state bytes := ChanState (ours id (queue tx)) None true true.

Definition view (id : Z) (c : Ctx C W) : Ctx chan_state W :=
  MkCtx (cx_stream c) (view_shared (cx_shared c)) (own_tx id (cx_tx c)) unbounded_channel.

Definition view_copy {RW} (id : Z) (c : CopyBidirectional C W RW) : CopyBidirectional chan_state W RW :=
  MkCopy (view id (cb_us c)) (cb_other c) (cb_read_state c) (cb_write_state c).

(** An end of the stream [id] whose task still runs. *)
Definition live_end (id : Z) (c : Ctx C W) : Prop :=
  ms_flow_id (cx_stream c) = id /\ tx_live c /\ typed id (queue (cx_tx c)).

End View.

(** ** Lemmas *)

(** *** Whose frame it is *)

Lemma encoded_decodes f i p :
  u32_ok (frame_id f) -> encodable f -> frame_try_from (encoded f) = Ok (MkFrame i p) ->
  i = frame_id f /\ OpCode_from p = OpCode_from (frame_payload f).
Proof.
  intros Hid He Hd. pose proof He as [bs Hf]%frame_to_vec_encodable. unfold encoded, finalize in Hd. rewrite Hf in Hd.
  apply frame_to_vec_Ok in Hf as (body & _ & ->). split; [|exact (frame_try_from_opcode _ _ _ Hd)].
  rewrite frame_try_from_header in Hd by exact Hid. destruct (decode_payload _ body); [|easy..]. now injection Hd as <- _.
Qed.

Lemma about_other id f : u32_ok (frame_id f) -> encodable f -> frame_id f <> id -> about id (encoded f) = false.
Proof.
  intros Hu He Hne. unfold about. destruct (frame_try_from (encoded f)) as [[i p]| |] eqn:Hd; [|easy..].
  apply encoded_decodes in Hd as [-> _]; [|easy..]. now destruct (Z.eqb_spec (frame_id f) id).
Qed.

Lemma about_datagram id f :
  u32_ok (frame_id f) -> encodable f -> OpCode_from (frame_payload f) = OpDatagram -> about id (encoded f) = false.
Proof.
  intros Hu He Hop. unfold about. destruct (frame_try_from (encoded f)) as [[i p]| |] eqn:Hd; [|easy..].
  apply encoded_decodes in Hd as [_ Hp]; [|easy..]. rewrite Hop in Hp. destruct p; try easy. apply andb_false_r.
Qed.

Lemma about_own id f :
  u32_ok id -> match f with MkFrame i (Push _ | Acknowledge _ | Finish) => i = id | _ => False end -> about id (encoded f) = true.
Proof.
  intros Hu Hf. destruct f as [i p]. unfold about.
  assert (H : exists p', frame_try_from (encoded (MkFrame i p)) = Ok (MkFrame i p') /\ match p' with Datagram _ => false | _ => true end = true).
  { destruct p as [|n| | |data| |]; try easy; subst i; unfold encoded, finalize; rewrite frame_to_vec_eq;
      cbn [encode_payload mbind res_bind].
    - pose proof (frame_try_from_header OpAcknowledge id (put_be 4 n) Hu) as H. cbn [decode_payload decode_payload_with] in H.
      rewrite check_remaining_ok in H by (unfold blen; rewrite length_put_be; lia).
      cbn [mbind res_bind] in H. rewrite get_be_enough in H by (rewrite length_put_be; lia). cbn [mbind res_bind] in H. eauto.
    - exists Finish. split; [exact (frame_try_from_header OpFinish id [] Hu)|easy].
    - eexists. split; [exact (frame_try_from_header OpPush id (cow_as_ref data) Hu)|easy]. }
  destruct H as (p' & -> & ->). assert (i = id) as -> by now destruct p. now rewrite Z.eqb_refl.
Qed.

Lemma ours_app id q q' : ours id (q ++ q') = ours id q ++ ours id q'.
Proof. apply List.filter_app. Qed.

Lemma typed_app id q q' : typed id (q ++ q') <-> typed id q /\ typed id q'.
Proof. apply Forall_app. Qed.

Lemma typed_one id e : (about id e = false -> bytes_ok e) -> typed id [e].
Proof. intros H. now apply Forall_cons_2; [|apply Forall_nil_2]. Qed.

Lemma encode_payload_octets p body :
  encode_payload p = Ok body -> frame_octets (MkFrame 0 p) -> bytes_ok body.
Proof.
  assert (Hinj : forall a b : bytes, (Ok a : res FrameError bytes) = Ok b -> a = b) by congruence.
  unfold frame_octets, cow_ok. destruct p as [c|n| | |d|q|d]; cbn [encode_payload frame_payload];
    [..|destruct (u8_try_from _); [|easy]]; intros Hb%Hinj Ho; subst body;
    repeat match goal with |- bytes_ok (_ ++ _) => apply bytes_ok_app; split end; first [apply put_be_ok|apply Ho|apply Forall_nil_2].
Qed.

Lemma encoded_octets f : encodable f -> frame_octets f -> bytes_ok (encoded f).
Proof.
  intros He Ho. pose proof He as [bs Hf]%frame_to_vec_encodable. unfold encoded, finalize. rewrite Hf.
  apply frame_to_vec_Ok in Hf as (body & Hb & ->). apply Forall_cons_2; [now destruct (OpCode_from (frame_payload f)); unfold in_width; cbn; lia|].
  apply bytes_ok_app. split; [apply put_be_ok|]. exact (encode_payload_octets _ _ Hb Ho).
Qed.

(** *** The operations of a stream *)

Section Ops.
Context {C : Type -> Type} `{!Mpsc C} {W : Type} `{!Waker W}.
Variable id : Z.
Hypothesis Hid : u32_ok id.

Lemma view_tx_send f (tx : C bytes) :
  match f with MkFrame i (Push _ | Acknowledge _ | Finish) => i = id | _ => False end ->
  rx_open tx = true -> capacity tx = None ->
  tx_send f (own_tx id tx) = (own_tx id (tx_send f tx).1, (tx_send f tx).2)
  /\ rx_open (tx_send f tx).1 = true /\ capacity (tx_send f tx).1 = None
  /\ (typed id (queue tx) -> typed id (queue (tx_send f tx).1)).
Proof.
  intros Hf Ho Hc. assert (He : encodable f) by (destruct f as [i []]; easy).
  destruct (tx_send_spec f tx He Hc) as (Hq & Hr & Hc' & Hres). rewrite Ho in *.
  split; [|split; [easy|split; [easy|rewrite Hq, typed_app; intros Ht; split; [exact Ht|]; apply typed_one; now rewrite (about_own id f Hid Hf)]]].
  unfold tx_send at 1. rewrite (finalize_encoded f He), Hres. cbn. unfold own_tx. rewrite Hq, ours_app.
  cbn [ours List.filter]. now rewrite (about_own id f Hid Hf).
Qed.

Lemma view_increment (c : Ctx C W) :
  live_end id c -> increment_psh_recvd_since (view id c) = view id (increment_psh_recvd_since c) /\ live_end id (increment_psh_recvd_since c).
Proof.
  intros (Hi & [Ho Hc] & Hty). unfold increment_psh_recvd_since. cbn [view cx_stream]. case_bool; [|easy].
  destruct (view_tx_send (new_acknowledge (ms_flow_id (cx_stream c)) (wrapping_add32 (ms_psh_recvd_since (cx_stream c)) 1)) (cx_tx c) Hi Ho Hc)
    as (Hv & Ho' & Hc' & Hty'). specialize (Hty' Hty). split; [|easy]. unfold view. cbn [cx_stream cx_tx cx_shared cx_dropped]. now rewrite Hv.
Qed.

Lemma view_fill (c : Ctx C W) :
  live_end id c -> poll_fill_buf (view id c) = (view id (poll_fill_buf c).1, (poll_fill_buf c).2) /\ live_end id (poll_fill_buf c).1.
Proof.
  intros Hl. unfold poll_fill_buf. cbn [view cx_stream cx_shared view_shared sh_frames].
  destruct (ms_buf (cx_stream c)) as [|x buf]; [|easy].
  pose proof (view_poll_recv _ (sh_frames (cx_shared c))) as Hv. pose proof (res_poll_recv _ (sh_frames (cx_shared c))) as Hr.
  change (poll_recv (chan_view (sh_frames (cx_shared c)))) with (spec_recv (chan_view (sh_frames (cx_shared c)))).
  destruct (poll_recv (sh_frames (cx_shared c))) as [fr r], (spec_recv _) as [v r']. cbn [fst snd] in *. subst v r'.
  destruct r as [[next|]|]; [| |easy].
  - destruct (view_increment (with_stream (with_shared c (set_frames (cx_shared c) fr)) (set_buf (cx_stream c) next)) Hl) as [H1 H2].
    split; [|exact H2]. exact (f_equal (fun c2 => (c2, Ready (Ok (ms_buf (cx_stream c2))))) H1).
  - split; [|easy]. unfold view. cbn. unfold view_shared, with_shared, set_frames. cbn. now rewrite view_rx_close.
Qed.

Lemma view_consume n (c : Ctx C W) :
  consume n (view id c) = match consume n c with Ok c' => Ok (view id c') | Err e => Err e | Panic => Panic end.
Proof. unfold consume. cbn [view cx_stream]. now case_bool. Qed.

Lemma live_consume n (c c' : Ctx C W) : consume n c = Ok c' -> live_end id c -> live_end id c'.
Proof. unfold consume. case_bool; [easy|]. intros [= <-] (Hi & Hl & Ht). now split_and!. Qed.

Lemma view_write buf (c : Ctx C W) :
  live_end id c -> poll_write [] buf (view id c) = (view id (poll_write [] buf c).1, (poll_write [] buf c).2) /\ live_end id (poll_write [] buf c).1.
Proof.
  intros (Hi & [Ho Hc] & Hty). unfold poll_write, poll_obtain_write_permission. cbn [view cx_shared view_shared sh_finish_sent].
  destruct (sh_finish_sent (cx_shared c)); [easy|]. cbn [obtain_loop sh_psh_send_remaining view_shared]. case_bool; [easy|].
  cbn [view cx_stream cx_tx]. destruct (view_tx_send (new_push (ms_flow_id (cx_stream c)) buf) (cx_tx c) Hi Ho Hc) as (Hv & Ho' & Hc' & Hty'). specialize (Hty' Hty).
  rewrite Hv. now destruct (tx_send _ (cx_tx c)) as [t e].
Qed.

Lemma view_shutdown (c : Ctx C W) :
  live_end id c -> shutdown_inner (view id c) = (view id (shutdown_inner c).1, (shutdown_inner c).2) /\ live_end id (shutdown_inner c).1.
Proof.
  intros (Hi & [Ho Hc] & Hty). unfold shutdown_inner. cbn [view cx_shared view_shared sh_finish_sent cx_stream cx_tx].
  destruct (sh_finish_sent (cx_shared c)); [easy|].
  destruct (view_tx_send (new_finish (ms_flow_id (cx_stream c))) (cx_tx c) Hi Ho Hc) as (Hv & Ho' & Hc' & Hty'). specialize (Hty' Hty).
  rewrite Hv. now destruct (tx_send _ (cx_tx c)) as [t e].
Qed.

(** *** The copier *)

Context {RW : Type} `{!BufRW RW}.

Definition agrees {A} (r' : CopyBidirectional chan_state W RW * A) (r : CopyBidirectional C W RW * A) : Prop :=
  r' = (view_copy id r.1, r.2) /\ live_end id (cb_us r.1).

Lemma view_shutdown_other (c : CopyBidirectional C W RW) n :
  live_end id (cb_us c) -> agrees (poll_shutdown_other (view_copy id c) n) (poll_shutdown_other c n).
Proof. intros Hl. unfold poll_shutdown_other. cbn [view_copy cb_other]. now destruct (rw_shutdown (cb_other c)) as [o [[]|]]. Qed.

Lemma view_read_loop fuel (c : CopyBidirectional C W RW) n :
  live_end id (cb_us c) -> agrees (read_us_loop fuel (view_copy id c) n) (read_us_loop fuel c n).
Proof.
  revert c n. induction fuel as [|fuel IH]; intros c n Hl; [easy|]. cbn [read_us_loop view_copy cb_us cb_other cb_read_state cb_write_state].
  destruct (view_fill (cb_us c) Hl) as [-> Hl1]. destruct (poll_fill_buf (cb_us c)) as [us1 r]. cbn [fst snd] in *.
  destruct r as [[[|x bs]| |]|]; try easy.
  - set (c1 := MkCopy us1 (cb_other c) (cb_read_state c) (cb_write_state c)).
    change (MkCopy (view id us1) _ _ _) with (view_copy id c1).
    destruct (view_shutdown_other c1 n Hl1) as [-> H]. revert H. now destruct (poll_shutdown_other c1 n) as [c2 r2].
  - destruct (rw_write (x :: bs) (cb_other c)) as [o [[m| |]|]]; try easy. rewrite view_consume.
    destruct (consume m us1) as [us2| |] eqn:Hc; try easy.
    exact (IH (MkCopy us2 o (RTransferring (n + m)) (cb_write_state c)) (n + m) (live_consume _ _ _ Hc Hl1)).
Qed.

Lemma view_write_loop fuel (c : CopyBidirectional C W RW) n :
  live_end id (cb_us c) -> agrees (write_us_loop fuel (view_copy id c) n) (write_us_loop fuel c n).
Proof.
  revert c n. induction fuel as [|fuel IH]; intros c n Hl; [easy|]. cbn [write_us_loop view_copy cb_us cb_other cb_read_state cb_write_state].
  destruct (rw_fill_buf (cb_other c)) as [o r]. destruct r as [[[|x bs]| |]|]; try easy.
  - destruct (view_shutdown (cb_us c) Hl) as [-> Hl1]. revert Hl1. now destruct (shutdown_inner (cb_us c)) as [us []].
  - destruct (view_write (x :: bs) (cb_us c) Hl) as [-> Hl1].
    destruct (poll_write [] (x :: bs) (cb_us c)) as [us [[m| |]|]]; try exact (conj eq_refl Hl1).
    exact (IH (MkCopy us (rw_consume (length (x :: bs)) o) (cb_read_state c) (WTransferring (n + m))) (n + m) Hl1).
  - now destruct (rw_flush o).
Qed.

Lemma view_read_us fuel (c : CopyBidirectional C W RW) :
  live_end id (cb_us c) -> agrees (poll_read_us fuel (view_copy id c)) (poll_read_us fuel c).
Proof.
  intros Hl. unfold poll_read_us. cbn [view_copy cb_read_state]. destruct (cb_read_state c) as [n|n|n]; [now apply view_read_loop| |easy].
  destruct (view_shutdown_other c n Hl) as [-> H]. revert H. now destruct (poll_shutdown_other c n).
Qed.

Lemma view_write_us fuel (c : CopyBidirectional C W RW) :
  live_end id (cb_us c) -> agrees (poll_write_us fuel (view_copy id c)) (poll_write_us fuel c).
Proof. intros Hl. unfold poll_write_us. cbn [view_copy cb_write_state]. destruct (cb_write_state c); [now apply view_write_loop|easy]. Qed.

Lemma view_copy_poll fuel (c : CopyBidirectional C W RW) :
  live_end id (cb_us c) -> agrees (copy_poll fuel (view_copy id c)) (copy_poll fuel c).
Proof.
  intros Hl. unfold copy_poll. destruct (view_read_us fuel c Hl) as [-> H1]. destruct (poll_read_us fuel c) as [c1 r]. cbn [fst snd] in *.
  destruct (view_write_us fuel c1 H1) as [-> H2]. revert H2. now destruct (poll_write_us fuel c1) as [c2 w].
Qed.

(** *** What the task does for it *)

Lemma view_receive f (c : Ctx C W) :
  receive f (view id c) = (view id (receive f c).1, (receive f c).2) /\ (live_end id c -> live_end id (receive f c).1).
Proof.
  unfold receive. destruct (frame_payload f) as [|n| | |data| |]; try easy.
  - split; [|easy]. unfold view, with_shared, set_frames. cbn. unfold view_shared. cbn. now rewrite view_tx_drop.
  - unfold deliver_push. cbn [view cx_shared view_shared sh_frames].
    pose proof (view_try_send _ (cow_into_owned data) (sh_frames (cx_shared c))) as Hv.
    pose proof (res_try_send _ (cow_into_owned data) (sh_frames (cx_shared c))) as Hr.
    change (try_send (cow_into_owned data) (chan_view (sh_frames (cx_shared c)))) with (spec_send (cow_into_owned data) (chan_view (sh_frames (cx_shared c)))).
    destruct (try_send _ (sh_frames (cx_shared c))) as [fr e], (spec_send _ _) as [v e']. cbn [fst snd] in *. now subst v e'.
Qed.

End Ops.
