(* ===== verification/Others.v ===== *)
(** * What the others of a multiplexor do

    All other streams, datagrams and bind requests keep off a stream: from the
    moment its slot is in the table, no call of a user for another stream, no
    frame for another and no other announcement touches its slot, its cell or
    its frames. *)

From S2P Require Import Prelude Runtime Frame Timing Config Stream Mux MuxInv MuxProps Datagrams FlowControl Duplex Alone.

(** ** Definitions *)

Section Others.
Context {C : Type -> Type} `{!Mpsc C} {O : Type -> Type} `{!Oneshot O} {W : Type} `{!Waker W} {S : Type} `{!WebSocket S}.

#[local] Abbreviation Mux := (Mux C O W S).

Variables (id : Z) (cell : nat).

(** The stream [id] has the cell [cell], no other slot does, and nobody has
    announced that it was dropped. *)
Record own (x : Mux) : Prop := {
  own_slot : exists d sh, mx_flows x !! id = Some (Established d) /\ esd_cell d = cell
    /\ mx_cells x !! cell = Some sh /\ tx_open (sh_frames sh) = esd_sender d;
  own_others : forall i s, i <> id -> mx_flows x !! i = Some s -> u32_ok i /\ slot_cell s <> Some cell;
  own_fresh : (cell < mx_next_cell x)%nat;
  own_dropped : ~ In id (queue (mx_dropped_ports x));
}.

(** The queues the task waits for when they are full can hold something, and
    hold no more than they can. *)
Definition room {A} (q : C A) : Prop := capacity q <> Some 0%nat /\ chan_bounded (chan_view q).
Definition roomy (x : Mux) : Prop := room (mx_con_recv x) /\ match mx_bnd x with Some q => room q | None => True end.

(** A step of the others. *)
Record calm (x x' : Mux) : Prop := {
  calm_slot : mx_flows x' !! id = mx_flows x !! id;
  calm_cell : mx_cells x' !! cell = mx_cells x !! cell;
  calm_others : forall i s, i <> id -> mx_flows x' !! i = Some s ->
    mx_flows x !! i = Some s \/ (u32_ok i /\ slot_cell s <> Some cell);
  calm_next : (mx_next_cell x <= mx_next_cell x')%nat;
  calm_dropped : In id (queue (mx_dropped_ports x')) -> In id (queue (mx_dropped_ports x));
  calm_room : roomy x -> roomy x';
  calm_frames : mux_live x ->
    mux_live x' /\ ours id (queue (mx_tx_frame x')) = ours id (queue (mx_tx_frame x))
    /\ (typed id (queue (mx_tx_frame x)) -> typed id (queue (mx_tx_frame x')));
}.

Definition calming {A} (m : @M C O W S A) : Prop := forall x, own x -> calm x (m x).1.

(** A frame that is not of the stream, and a stream that is another. *)
Definition alien (f : Frame) : Prop :=
  encodable f /\ u32_ok (frame_id f) /\ frame_octets f /\ (frame_id f <> id \/ OpCode_from (frame_payload f) = OpDatagram).

Definition another (s : MuxStream) : Prop := ms_flow_id s <> id /\ ms_cell s <> cell /\ u32_ok (ms_flow_id s).

(** What the task may be waiting with, for a user of another. *)
Definition held (p : pending) : Prop :=
  match p with
  | OnStreamQueue s => another s
  | OnBindQueue r => br_flow_id r <> id /\ u32_ok (br_flow_id r)
  | _ => False
  end.

(** The calls of users for other streams, bind requests and datagrams, and the
    task that follows dropped streams. *)
Definition other_op (x : Mux) (op : mux_op) : Prop :=
  match op with
  | OpBranch _ _ DroppedPortsBranch => True
  | OpBranch _ _ _ | OpResume _ | OpStart _ _ _ _ | OpMuxDrop => False
  | OpRead s _ | OpShutdown s | OpDropStream s => another s
  | OpWrite s _ buf => another s /\ bytes_ok buf
  | OpBindReply r _ | OpBindDrop r => br_flow_id r <> id /\ u32_ok (br_flow_id r)
  | OpNewStream draws host _ | OpRequestBind draws host _ _ => Forall valid_draw draws /\ bytes_ok host
  | OpSendDatagram d => u32_ok (dg_flow_id d) /\ bytes_ok (dg_target_host d) /\ bytes_ok (dg_data d)
  | OpCancelNewStream shot =>
      match mx_streams_shots x !! shot with
      | Some o => match shot_recv o with Ready (Some (Some s)) => another s | _ => True end
      | None => True
      end
  | _ => True
  end.

(** ** Lemmas *)

Lemma own_wf (x : Mux) d :
  mux_wf x -> mx_flows x !! id = Some (Established d) -> esd_cell d = cell -> ~ In id (queue (mx_dropped_ports x)) -> own x.
Proof.
  intros Hx Hs Hc Hd. destruct (tw_owned _ _ _ _ _ _ (wf_cells _ _ Hx) id _ _ Hs eq_refl) as (sh & Hsh & Hlive).
  rewrite Hc in Hsh. split.
  - exists d, sh. split_and!; [exact Hs|exact Hc|exact Hsh|exact Hlive].
  - intros i s Hi Hfi. rewrite <- Hc. split; [exact (wf_ids _ _ Hx i s Hfi)|now apply (other_cell x id d i s)].
  - exact (tw_fresh _ _ _ _ _ _ (wf_cells _ _ Hx) _ (mk_is_Some _ _ Hsh)).
  - exact Hd.
Qed.

Lemma calm_refl x : calm x x.
Proof. split; auto. Qed.

Lemma calm_trans x y z : calm x y -> calm y z -> calm x z.
Proof.
  intros [A1 A2 A3 A4 A5 AR A6] [B1 B2 B3 B4 B5 BR B6]. split; [congruence|congruence| |lia|auto|auto|].
  - intros i s Hi Hs. destruct (B3 i s Hi Hs) as [Hy|?]; [now apply A3|now right].
  - intros Hl. destruct (A6 Hl) as (Hy & E & T). destruct (B6 Hy) as (Hz & -> & T'). auto.
Qed.

#[export] Instance calm_preorder : PreOrder calm.
Proof. split; [exact calm_refl|exact calm_trans]. Qed.

Lemma own_calm x x' : own x -> calm x x' -> own x'.
Proof.
  intros [(d & sh & H1 & H2 & H3 & H4) Ho Hf Hd] [A1 A2 A3 A4 A5 _ _]. split.
  - exists d, sh. now rewrite A1, A2.
  - intros i s Hi Hs. destruct (A3 i s Hi Hs) as [Hy|?]; [now apply Ho|easy].
  - lia.
  - auto.
Qed.

Lemma alien_about f : alien f -> about id (encoded f) = false.
Proof. intros (He & Hu & _ & [Hne|Hop]); [now apply about_other|now apply about_datagram]. Qed.

(** *** Computations *)

Lemma calming_ret {A} (a : A) : calming (mret a).
Proof. now intros x _. Qed.
Lemma calming_throw {A} e : calming (@throw C O W S A e).
Proof. now intros x _. Qed.
Lemma calming_park {A} p : calming (@park C O W S A p).
Proof. now intros x _. Qed.
Lemma calming_get : calming get.
Proof. now intros x _. Qed.
Lemma calming_lift {A} (r : res Error A) : calming (lift r).
Proof. now intros x _. Qed.

Lemma calming_bind {A B} (m : @M C O W S A) (k : A -> @M C O W S B) : calming m -> (forall a, calming (k a)) -> calming (mbind k m).
Proof.
  intros Hm Hk x Hx. unfold mbind, M_bind. specialize (Hm x Hx). destruct (m x) as [x' [a| | |]]; try exact Hm.
  etransitivity; [exact Hm|]. apply Hk. exact (own_calm _ _ Hx Hm).
Qed.

Lemma calming_ignore {A} (m : @M C O W S A) : calming m -> calming (ignore_result m).
Proof. intros Hm x Hx. unfold ignore_result. specialize (Hm x Hx). now destruct (m x) as [x' []]. Qed.

(** Steps that leave flows, cells, frames and announcements alone. *)
Lemma calm_same (x x' : Mux) :
  mx_flows x' = mx_flows x -> mx_cells x' = mx_cells x -> mx_next_cell x' = mx_next_cell x ->
  mx_dropped_ports x' = mx_dropped_ports x -> mx_tx_frame x' = mx_tx_frame x -> (roomy x -> roomy x') -> calm x x'.
Proof. intros H1 H2 H3 H4 H5 H6. unfold mux_live. split; unfold mux_live; rewrite ?H1, ?H2, ?H3, ?H4, ?H5; auto. Qed.

(** A queue keeps its capacity. *)
Lemma room_send {A} (a : A) (q : C A) : room q -> room (try_send a q).1.
Proof.
  unfold room. rewrite view_try_send. destruct (spec_send_flags a (chan_view q)) as (_ & _ & ->). intros [H1 H2].
  split; [exact H1|now apply spec_send_bounded].
Qed.

Lemma room_recv {A} (q : C A) : room q -> room (poll_recv q).1.
Proof.
  unfold room. rewrite view_poll_recv. destruct (spec_recv_flags (chan_view q)) as (_ & _ & ->). intros [H1 H2].
  split; [exact H1|now apply spec_recv_bounded].
Qed.

(** One taken makes room for one. *)
Lemma room_made {A} (a : A) (q : C A) : room q -> (try_send a q).2 = Some TrySendFull -> (try_send a (poll_recv q).1).2 = None.
Proof.
  intros [Hc Hb]. rewrite !res_try_send, view_poll_recv. unfold spec_send, spec_recv, chan_full, chan_bounded in *.
  destruct (chan_view q) as [[|x l] [n|] [] o]; cbn in *; try easy; intros _.
  - destruct n; [congruence|easy].
  - destruct (Nat.leb_spec n (length l)); [lia|easy].
Qed.

Lemma calm_streams (x : Mux) q : (room (mx_con_recv x) -> room q) -> calm x (set_queues x q (mx_datagrams x) (mx_bnd x)).
Proof. intros H. apply calm_same; try easy. intros [H1 H2]. split; [now apply H|exact H2]. Qed.

Lemma calm_binds (x : Mux) q q' : mx_bnd x = Some q -> (room q -> room q') -> calm x (set_queues x (mx_con_recv x) (mx_datagrams x) (Some q')).
Proof. intros Hq H. apply calm_same; try easy. intros [H1 H2]. rewrite Hq in H2. split; [exact H1|now apply H]. Qed.

Lemma calming_modify f : (forall x, calm x (f x)) -> calming (modify f).
Proof. intros H x _. apply H. Qed.

Lemma alien_tx_send f (tx : C bytes) :
  alien f -> rx_open tx = true /\ capacity tx = None ->
  (rx_open (tx_send f tx).1 = true /\ capacity (tx_send f tx).1 = None) /\ ours id (queue (tx_send f tx).1) = ours id (queue tx)
  /\ (typed id (queue tx) -> typed id (queue (tx_send f tx).1)).
Proof.
  intros Ha [Ho Hc]. destruct (tx_send_spec f tx (proj1 Ha) Hc) as (Hq & Hr & Hc' & _). rewrite Ho in *. split; [now split|].
  rewrite Hq, ours_app, typed_app. split.
  - unfold ours at 2. cbn. rewrite (alien_about f Ha). apply app_nil_r.
  - intros Ht. split; [exact Ht|]. apply typed_one. intros _. now apply encoded_octets; apply Ha.
Qed.

Lemma calming_send_frame f : alien f -> calming (send_frame f).
Proof.
  intros Ha x _. unfold send_frame. pose proof (alien_tx_send f (mx_tx_frame x) Ha) as Hs.
  destruct (tx_send f (mx_tx_frame x)) as [t r]. split; auto.
Qed.

Lemma calming_put_flow i slot : i <> id -> u32_ok i -> slot_cell slot <> Some cell -> calming (put_flow i slot).
Proof.
  intros Hi Hu Hc x _. split; auto.
  - apply lookup_insert_ne. congruence.
  - cbn. intros j s Hj Hs. apply lookup_insert_Some in Hs as [[<- <-]|[? ?]]; auto.
Qed.

Lemma calming_remove_flow i : i <> id -> calming (remove_flow i).
Proof.
  intros Hi x _. split; auto.
  - apply lookup_delete_ne. congruence.
  - cbn. intros j s Hj Hs. apply lookup_delete_Some in Hs as [? ?]; auto.
Qed.

Lemma calming_update_cell n f : n <> cell -> calming (update_cell n f).
Proof. intros Hn x _. split; auto. cbn. apply lookup_alter_ne. congruence. Qed.

Lemma calming_send_stream_shot n v : calming (send_stream_shot n v).
Proof.
  intros x _. unfold send_stream_shot. destruct (mx_streams_shots x !! n) as [o|]; [|easy]. now destruct (shot_send v o); apply calm_same.
Qed.

Lemma calming_send_bind_shot n v : calming (send_bind_shot n v).
Proof.
  intros x _. unfold send_bind_shot. destruct (mx_bind_shots x !! n) as [o|]; [|easy]. now destruct (shot_send v o); apply calm_same.
Qed.

Lemma calming_disallow_write d : esd_cell d <> cell -> calming (disallow_write d).
Proof. intros Hd x Hx. exact (calming_update_cell _ disallow_write_cell Hd x Hx). Qed.

Lemma calming_disallow_read d : esd_cell d <> cell -> calming (disallow_read d).
Proof.
  intros Hd. unfold disallow_read. destruct (esd_sender d); [|apply calming_ret].
  apply calming_bind; [now apply calming_update_cell|intros; apply calming_ret].
Qed.

Lemma calming_dispatch slot data : slot_cell slot <> Some cell -> calming (dispatch slot data).
Proof.
  intros Hs x _. unfold dispatch. destruct slot as [|d|]; try easy. destruct (esd_sender d); [|easy].
  destruct (mx_cells x !! esd_cell d) as [c|]; [|easy]. destruct (try_send data (sh_frames c)) as [fr e]. split; auto.
  cbn in *. apply lookup_insert_ne. congruence.
Qed.

(** What an operation on another stream does to the queues. *)
Definition spares (c c' : Ctx C W) : Prop :=
  (In id (queue (cx_dropped c')) -> In id (queue (cx_dropped c)))
  /\ (tx_live c -> tx_live c' /\ ours id (queue (cx_tx c')) = ours id (queue (cx_tx c))
       /\ (typed id (queue (cx_tx c)) -> typed id (queue (cx_tx c')))).

Lemma calming_on_stream {A} s (f : Ctx C W -> Ctx C W * A) :
  another s -> (forall c, cx_stream c = s -> spares c (f c).1) -> calming (on_stream s f).
Proof.
  intros (_ & Hc & _) Hf x _. unfold on_stream. destruct (mx_cells x !! ms_cell s) as [sh|]; [|easy].
  specialize (Hf (MkCtx s sh (mx_tx_frame x) (mx_dropped_ports x)) eq_refl). destruct (f _) as [c a].
  destruct Hf as [H1 H2]. split; auto. cbn. apply lookup_insert_ne. congruence.
Qed.

Lemma alien_of (s : MuxStream) f :
  another s -> frame_id f = ms_flow_id s -> frame_octets f -> OpCode_from (frame_payload f) <> OpDatagram -> alien f.
Proof.
  intros (Hne & _ & Hu) Hf Ho Hop. unfold alien. rewrite Hf. split; [now apply encodable_other|]. split; [exact Hu|]. split; [exact Ho|now left].
Qed.

Lemma spares_send f (c : Ctx C W) s sh : alien f -> spares c (MkCtx s sh (tx_send f (cx_tx c)).1 (cx_dropped c)).
Proof. intros Ha. split; [easy|]. intros Hl. exact (alien_tx_send f (cx_tx c) Ha Hl). Qed.

Lemma spares_fill (c : Ctx C W) : another (cx_stream c) -> spares c (poll_fill_buf c).1.
Proof.
  intros Hs. unfold poll_fill_buf. destruct (ms_buf (cx_stream c)); [|now split]. destruct (poll_recv _) as [fr [[next|]|]]; try now split.
  cbn [fst]. unfold increment_psh_recvd_since. case_bool; [|now split].
  apply (spares_send (new_acknowledge _ _) c). now apply (alien_of (cx_stream c)).
Qed.

Lemma spares_read n (c : Ctx C W) : another (cx_stream c) -> spares c (poll_read n c).1.
Proof.
  intros Hs. unfold poll_read. pose proof (spares_fill c Hs) as H. destruct (poll_fill_buf c) as [c1 [[got| |]|]]; try exact H.
  unfold consume. now case_bool.
Qed.

Lemma spares_write meanwhile buf (c : Ctx C W) : another (cx_stream c) -> bytes_ok buf -> spares c (poll_write meanwhile buf c).1.
Proof.
  intros Hs Hb. unfold poll_write. destruct (poll_obtain_write_permission _ _) as [sh [[u| |]|]]; try now split.
  pose proof (spares_send (new_push (ms_flow_id (cx_stream c)) buf) c (cx_stream c) sh) as H.
  destruct (tx_send _ (cx_tx c)) as [t e]. apply H. now apply (alien_of (cx_stream c)).
Qed.

Lemma spares_shutdown (c : Ctx C W) : another (cx_stream c) -> spares c (shutdown_inner c).1.
Proof.
  intros Hs. unfold shutdown_inner. destruct (sh_finish_sent (cx_shared c)); [now split|].
  pose proof (spares_send (new_finish (ms_flow_id (cx_stream c))) c (cx_stream c) (set_finish (cx_shared c) true)) as H.
  destruct (tx_send _ (cx_tx c)) as [t e]. apply H. now apply (alien_of (cx_stream c)).
Qed.

Lemma spares_drop (c : Ctx C W) : another (cx_stream c) -> spares c (stream_drop c).
Proof.
  intros (Hne & _). split; [|easy]. unfold stream_drop. cbn. rewrite view_try_send, spec_send_queue.
  destruct (spec_send _ _).2; [easy|]. intros H. apply in_app_iff in H as [H|[H|[]]]; [easy|congruence].
Qed.

End Others.

Create HintDb calm.
#[export] Hint Resolve calming_ret calming_throw calming_park calming_get calming_lift calming_put_flow calming_remove_flow
  calming_update_cell calming_send_stream_shot calming_send_bind_shot calming_disallow_write calming_disallow_read
  calming_dispatch calming_send_frame : calm.

(** Step through a computation whose parts keep off. *)
Ltac calm_go :=
  repeat (intros; match goal with
    | |- calming _ _ (mbind _ _) => apply calming_bind
    | |- calming _ _ (modify _) => apply calming_modify; intros; now apply calm_same
    | |- calming _ _ (match ?e with _ => _ end) => destruct e
    | |- calming _ _ _ => solve [auto with calm]
    end).

Section OtherOps.
Context {C : Type -> Type} `{!Mpsc C} {O : Type -> Type} `{!Oneshot O} {W : Type} `{!Waker W} {S : Type} `{!WebSocket S}.
Variables (id : Z) (cell : nat).

#[local] Abbreviation Mux := (Mux C O W S).
#[local] Abbreviation calming := (@calming C _ O W S id cell).
#[local] Abbreviation another := (another id cell).

Lemma alien_reset i : i <> id -> u32_ok i -> alien id (new_reset i).
Proof. intros Hi Hu. split; [exact I|]. split; [exact Hu|]. split; [exact I|now left]. Qed.

Lemma alien_frame f :
  frame_id f <> id -> u32_ok (frame_id f) -> frame_octets f -> OpCode_from (frame_payload f) <> OpDatagram -> alien id f.
Proof. intros Hi Hu Ho Hop. split; [now apply encodable_other|]. split; [exact Hu|]. split; [exact Ho|now left]. Qed.

Lemma calming_drop_stream s : another s -> calming (drop_stream s).
Proof.
  intros Hs. unfold drop_stream. apply calming_bind; [|intros; apply calming_ret].
  apply calming_on_stream; [exact Hs|]. intros c <-. now apply (spares_drop id cell).
Qed.

#[local] Hint Resolve alien_reset calming_drop_stream : calm.

Lemma calming_close_port_local slot i inhibit :
  i <> id -> u32_ok i -> slot_cell slot <> Some cell -> calming (close_port_local slot i inhibit).
Proof.
  intros Hi Hu Hs. unfold close_port_local. destruct slot as [n|d|n]; [calm_go| |calm_go].
  assert (esd_cell d <> cell) by (cbn in Hs; congruence). calm_go.
Qed.

Lemma calming_close_port i inhibit : i <> id -> calming (close_port i inhibit).
Proof.
  intros Hi x Hx. unfold close_port. pose proof (calming_remove_flow id cell i Hi x Hx) as H1.
  pose proof (own_calm id cell _ _ Hx H1) as Hx1. unfold mbind, M_bind, remove_flow in *. cbn [fst] in *.
  destruct (mx_flows x !! i) as [slot|] eqn:Hs; [|exact H1]. etransitivity; [exact H1|].
  destruct (own_others _ _ _ Hx i slot Hi Hs). now apply calming_close_port_local.
Qed.

Lemma calming_send_to_user s : another s -> calming (send_to_user s).
Proof.
  intros Hs x Hx. unfold send_to_user. pose proof (room_send s (mx_con_recv x)) as Hr.
  destruct (try_send s (mx_con_recv x)) as [q [[]|]]; [easy| |now apply calm_streams].
  apply (calming_bind id cell (drop_stream s) (fun _ => throw _)); [now apply calming_drop_stream|intros; apply calming_throw|exact Hx].
Qed.

Lemma calming_bind_reply r accepted : br_flow_id r <> id -> u32_ok (br_flow_id r) -> calming (bind_reply r accepted).
Proof.
  intros Hi Hu. unfold bind_reply. apply calming_bind; [|calm_go]. destruct accepted; apply calming_send_frame; now apply alien_frame.
Qed.

Lemma calming_bind_drop r : br_flow_id r <> id -> u32_ok (br_flow_id r) -> calming (bind_drop r).
Proof.
  intros Hi Hu x Hx. unfold bind_drop. pose proof (calming_bind_reply r false Hi Hu x Hx) as H. now destruct (bind_reply r false x) as [x' []].
Qed.

Lemma calming_send_bind_request r : br_flow_id r <> id -> u32_ok (br_flow_id r) -> calming (send_bind_request r).
Proof.
  intros Hi Hu x Hx. unfold send_bind_request. destruct (mx_bnd x) as [q|] eqn:Hq; [|easy]. pose proof (room_send r q) as Hr.
  destruct (try_send r q) as [q' [[]|]]; [easy|now apply calming_bind_drop|now apply (calm_binds _ _ _ q)].
Qed.

(** A stream made meanwhile is another. *)
Lemma calming_new_stream {A} i w host port (k : MuxStream * EstablishedStreamData -> @M C O W S A) :
  i <> id -> u32_ok i -> (forall s d, another s -> esd_cell d <> cell -> calming (k (s, d))) ->
  calming (mbind k (new_stream_shared i w host port)).
Proof.
  intros Hi Hu Hk x Hx. unfold mbind, M_bind, new_stream_shared. case_bool; [easy|].
  pose proof (own_fresh _ _ _ Hx) as Hf.
  match goal with |- calm _ _ _ (k _ ?y).1 => set (x1 := y); assert (H1 : calm id cell x x1) end.
  { split; auto; cbn; [apply lookup_insert_ne; lia|lia]. }
  etransitivity; [exact H1|]. apply Hk; [|cbn; lia|exact (own_calm _ _ _ _ Hx H1)].
  split; [exact Hi|]. split; [cbn; lia|exact Hu].
Qed.

#[local] Hint Resolve calming_close_port calming_send_to_user calming_bind_reply calming_bind_drop calming_send_bind_request : calm.

Lemma calming_rst i : i <> id -> u32_ok i -> calming (_ ← send_frame (new_reset i); mret tt).
Proof. intros Hi Hu. calm_go. Qed.

Lemma calming_con_recv i host port w : i <> id -> u32_ok i -> calming (con_recv_new_stream i host port w).
Proof.
  intros Hi Hu. unfold con_recv_new_stream. apply calming_bind; [apply calming_get|]. intros x.
  destruct (decide _); [now apply calming_rst|]. apply calming_new_stream; [exact Hi|exact Hu|]. intros s d Hs Hd.
  apply calming_bind; [apply calming_put_flow; [exact Hi|exact Hu|cbn; congruence]|]. intros _.
  apply calming_bind; [apply calming_send_frame; now apply alien_frame|]. calm_go.
Qed.

Lemma calming_ack_recv i w : i <> id -> u32_ok i -> calming (ack_recv_new_stream i w).
Proof.
  intros Hi Hu. unfold ack_recv_new_stream. apply calming_new_stream; [exact Hi|exact Hu|]. intros s d Hs Hd.
  apply calming_bind; [apply calming_get|]. intros x. destruct (mx_flows x !! i) as [[n|d'|n]|]; cbn [establish]; calm_go.
  apply calming_put_flow; [exact Hi|exact Hu|cbn; congruence].
Qed.

#[local] Hint Resolve calming_rst calming_con_recv calming_ack_recv : calm.

Lemma keep_off {A} (m : @M C O W S A) x : own id cell x -> calming m -> calm id cell x (m x).1.
Proof. intros Hx Hm. exact (Hm x Hx). Qed.

Lemma calming_read_closed {A} d (k : EstablishedStreamData -> @M C O W S A) :
  esd_cell d <> cell -> (forall d', esd_cell d' <> cell -> calming (k d')) -> calming (mbind k (disallow_read d)).
Proof.
  intros Hd Hk x Hx. pose proof (calming_disallow_read id cell d Hd x Hx) as H1. pose proof (own_calm _ _ _ _ Hx H1) as Hx1.
  unfold mbind, M_bind, disallow_read in *. destruct (esd_sender d); [|now apply Hk]. etransitivity; [exact H1|]. now apply Hk.
Qed.

(** A frame of another stream. *)
Lemma calming_other_frame f ignore : frame_id f <> id -> u32_ok (frame_id f) -> calming (process_frame f ignore).
Proof.
  intros Hi Hu x Hx. unfold process_frame. destruct f as [i p]. cbn [frame_id frame_payload] in *.
  assert (Hslot : forall s, mx_flows x !! i = Some s -> slot_cell s <> Some cell) by (intros s Hs; exact (proj2 (own_others _ _ _ Hx i s Hi Hs))).
  destruct p as [c|n| | |data|b|dg]; [now apply calming_con_recv| |now apply calming_close_port| | | |]; rewrite ?bind_get.
  - destruct (mx_flows x !! i) as [[k|d|k]|] eqn:Hs; apply keep_off; try exact Hx; auto with calm.
    apply calming_update_cell. specialize (Hslot _ eq_refl). cbn in Hslot. congruence.
  - destruct (mx_flows x !! i) as [[k|d|k]|] eqn:Hs; apply keep_off; try exact Hx; [| |calm_go|calm_go].
    + apply calming_bind; [auto with calm|]. intros _. apply calming_bind; [apply calming_modify; intros; now apply calm_same|]. calm_go.
    + assert (Hd : esd_cell d <> cell) by (specialize (Hslot _ eq_refl); cbn in Hslot; congruence).
      apply calming_read_closed; [exact Hd|]. intros d' Hd'. apply calming_put_flow; [exact Hi|exact Hu|cbn; congruence].
  - apply keep_off; [exact Hx|]. destruct (mx_flows x !! i) as [s|]; [specialize (Hslot _ eq_refl)|]; calm_go.
  - destruct (mx_bnd x); apply keep_off; try exact Hx; calm_go.
  - destruct (try_send _ (mx_datagrams x)) as [q [[]|]]; [easy|easy|now apply calm_same].
Qed.

(** A frame or datagram that is not of the stream. *)
Lemma calming_alien_message e ignore : bytes_ok e -> about id e = false -> calming (process_message (MsgBinary e) ignore).
Proof.
  intros Hok Ha x Hx. unfold process_message, about, mbind, M_bind, lift in *.
  destruct (frame_try_from e) as [[i p]| |] eqn:Hf; cbn [map_err]; [|easy|easy].
  destruct (frame_try_from_inv e _ Hok Hf) as (op & body & _ & Hu & _). cbn [frame_id] in Hu.
  assert (H : calm id cell x (process_frame (MkFrame i p) ignore x).1).
  { destruct (Z.eqb_spec i id) as [->|Hi]; [|now apply calming_other_frame].
    destruct p as [| | | | | |dg]; try discriminate Ha. unfold process_frame. cbn [frame_payload frame_id]. rewrite bind_get.
    destruct (try_send _ (mx_datagrams x)) as [q [[]|]]; [easy|easy|now apply calm_same]. }
  now destruct (process_frame (MkFrame i p) ignore x) as [x' []].
Qed.

Lemma calming_dropped_ports fuel : calming (process_dropped_ports_task fuel).
Proof.
  induction fuel as [|fuel IH]; [apply calming_park|]. intros x Hx. cbn [process_dropped_ports_task].
  pose proof (view_poll_recv _ (mx_dropped_ports x)) as Hv. pose proof (res_poll_recv _ (mx_dropped_ports x)) as Hr.
  destruct (poll_recv (mx_dropped_ports x)) as [q r]. cbn [fst snd] in *. unfold spec_recv in *.
  assert (Hin : incl (queue q) (queue (mx_dropped_ports x))).
  { rewrite Hv. destruct (queue (mx_dropped_ports x)) eqn:Hq; cbn [fst]; [now rewrite Hq|]. intros j Hj. now right. }
  assert (H1 : calm id cell x (set_dropped x q)) by (split; auto).
  destruct r as [[j|]|]; try exact H1. case_bool; [exact H1|]. etransitivity; [exact H1|].
  apply keep_off; [exact (own_calm _ _ _ _ Hx H1)|]. apply calming_bind; [|intros; apply IH]. apply calming_close_port.
  intros ->. apply (own_dropped _ _ _ Hx). destruct (queue (mx_dropped_ports x)) as [|j l] eqn:Hq; cbn [snd] in Hr.
  - now destruct (rx_open _ && tx_open _).
  - injection Hr as <-. now left.
Qed.

Lemma fresh_key draws (x : Mux) i :
  own id cell x -> Forall valid_draw draws -> next_available_key draws (mx_flows x) = Some i -> i <> id /\ u32_ok i.
Proof.
  intros Hx Hd [Hin%list_elem_of_In Hnone]%next_available_key_spec. split.
  - intros ->. destruct (own_slot _ _ _ Hx) as (d & sh & Hs & _). congruence.
  - apply valid_draw_u32. rewrite Forall_forall in Hd. now apply Hd.
Qed.

Lemma calming_new_stream_attempt draws host port :
  Forall valid_draw draws -> bytes_ok host -> calming (new_stream_attempt draws host port).
Proof.
  intros Hd Hh x Hx. unfold new_stream_attempt. rewrite bind_get. destruct (next_available_key draws (mx_flows x)) as [i|] eqn:Hk; [|easy].
  destruct (fresh_key draws x i Hx Hd Hk) as [Hi Hu].
  apply keep_off; [exact Hx|]. apply calming_bind; [apply calming_modify; intros; now apply calm_same|]. intros _.
  apply calming_bind; [now apply calming_put_flow|]. intros _.
  apply calming_bind; [apply calming_send_frame; now apply alien_frame|]. calm_go.
Qed.

Lemma calming_bind_attempt draws host port bt :
  Forall valid_draw draws -> bytes_ok host -> calming (request_bind_attempt draws host port bt).
Proof.
  intros Hd Hh x Hx. unfold request_bind_attempt. rewrite bind_get. destruct (next_available_key draws (mx_flows x)) as [i|] eqn:Hk; [|easy].
  destruct (fresh_key draws x i Hx Hd Hk) as [Hi Hu].
  apply keep_off; [exact Hx|]. apply calming_bind; [apply calming_modify; intros; now apply calm_same|]. intros _.
  apply calming_bind; [now apply calming_put_flow|]. intros _.
  apply calming_bind; [apply calming_send_frame; now apply alien_frame|]. calm_go.
Qed.

Lemma calming_send_datagram d :
  u32_ok (dg_flow_id d) -> bytes_ok (dg_target_host d) -> bytes_ok (dg_data d) -> calming (send_datagram d).
Proof.
  intros Hu Hh Hb. unfold send_datagram. case_bool; [apply calming_throw|]. bool_prop.
  apply calming_bind; [|calm_go]. apply calming_send_frame. split; [unfold encodable; cbn; unfold cow_len; cbn; lia|].
  split; [exact Hu|]. split; [now split|now right].
Qed.

(** Every call for another. *)
Lemma other_op_calm (x : Mux) op : own id cell x -> other_op id cell x op -> calm id cell x (run_op op x).1.
Proof.
  intros Hx Hop. destruct op; cbn [run_op other_op] in *; try easy.
  - destruct br; try easy. now apply calming_dropped_ports.
  - now apply calming_ignore; [apply calming_new_stream_attempt|].
  - apply calming_ignore; [|exact Hx]. intros y _. unfold await_stream_shot. destruct (mx_streams_shots y !! shot) as [o|]; [|easy].
    destruct (shot_recv o) as [[]|]; [now apply calm_same|easy..].
  - unfold cancel_new_stream. set (x1 := set_shots x _ _ _). assert (H1 : calm id cell x x1) by now apply calm_same.
    destruct (mx_streams_shots x !! shot) as [o|]; [|exact H1]. destruct (shot_recv o) as [[[s|]|]|]; try exact H1.
    etransitivity; [exact H1|]. apply keep_off; [exact (own_calm _ _ _ _ Hx H1)|]. now apply calming_drop_stream.
  - now apply calming_ignore; [apply calming_bind_attempt|].
  - apply calming_ignore; [|exact Hx]. intros y _. unfold await_bind_shot. destruct (mx_bind_shots y !! shot) as [o|]; [|easy].
    destruct (shot_recv o) as [[]|]; [now apply calm_same|easy..].
  - apply calming_ignore; [|exact Hx]. intros y _. unfold accept_stream_channel. pose proof (room_recv (mx_con_recv y)).
    now destruct (poll_recv (mx_con_recv y)); apply calm_streams.
  - apply calming_ignore; [|exact Hx]. intros y _. unfold get_datagram. now destruct (poll_recv (mx_datagrams y)); apply calm_same.
  - apply calming_ignore; [|exact Hx]. intros y _. unfold next_bind_request. destruct (mx_bnd y) as [q|] eqn:Hq; [|easy].
    pose proof (room_recv q). now destruct (poll_recv q); apply (calm_binds _ _ _ q).
  - now apply calming_send_datagram.
  - now apply calming_bind_reply.
  - now apply calming_bind_drop.
  - apply calming_ignore; [|exact Hx]. apply (calming_on_stream id cell _ _ Hop). intros c <-. now apply (spares_read id cell).
  - apply calming_ignore; [|exact Hx]. apply (calming_on_stream id cell _ _ (proj1 Hop)). intros c Hc. apply (spares_write id cell); [rewrite Hc; apply Hop|apply Hop].
  - apply calming_ignore; [|exact Hx]. apply (calming_on_stream id cell _ _ Hop). intros c <-. now apply (spares_shutdown id cell).
  - now apply calming_drop_stream.
Qed.

End OtherOps.

(** ** What the task waits with *)

Section Waiting.
Context {C : Type -> Type} `{!Mpsc C} {O : Type -> Type} `{!Oneshot O} {W : Type} `{!Waker W} {S : Type} `{!WebSocket S}.

#[local] Abbreviation M := (@M C O W S).

(** A computation that never waits. *)
Definition waitless {A} (m : M A) : Prop := forall x p, (m x).2 <> Parked p.

Lemma waitless_ret {A} (a : A) : waitless (mret a).
Proof. now intros x p. Qed.
Lemma waitless_throw {A} e : waitless (@throw C O W S A e).
Proof. now intros x p. Qed.
Lemma waitless_get : waitless get.
Proof. now intros x p. Qed.
Lemma waitless_modify f : waitless (modify f).
Proof. now intros x p. Qed.

Lemma waitless_bind {A B} (m : M A) (k : A -> M B) : waitless m -> (forall a, waitless (k a)) -> waitless (mbind k m).
Proof.
  intros Hm Hk x p. unfold mbind, M_bind. specialize (Hm x p). destruct (m x) as [x' [a| | |q]]; cbn [snd] in *; [apply Hk|easy|easy|congruence].
Qed.

Lemma waitless_send_frame f : waitless (send_frame f).
Proof. intros x p. unfold send_frame. now destruct (tx_send f (mx_tx_frame x)) as [t []]. Qed.

Lemma waitless_remove_flow i : waitless (remove_flow i).
Proof. now intros x p. Qed.

Lemma waitless_put_flow i s : waitless (put_flow i s).
Proof. now intros x p. Qed.

Lemma waitless_update_cell n f : waitless (update_cell n f).
Proof. now intros x p. Qed.

Lemma waitless_send_stream_shot n v : waitless (send_stream_shot n v).
Proof. intros x p. unfold send_stream_shot. destruct (mx_streams_shots x !! n) as [o|]; [|easy]. now destruct (shot_send v o). Qed.

Lemma waitless_send_bind_shot n v : waitless (send_bind_shot n v).
Proof. intros x p. unfold send_bind_shot. destruct (mx_bind_shots x !! n) as [o|]; [|easy]. now destruct (shot_send v o). Qed.

Lemma waitless_dispatch slot data : waitless (dispatch slot data).
Proof.
  intros x p. unfold dispatch. destruct slot as [|d|]; try easy. destruct (esd_sender d); [|easy].
  destruct (mx_cells x !! esd_cell d) as [c|]; [|easy]. now destruct (try_send data (sh_frames c)).
Qed.

Lemma waitless_disallow_write d : waitless (disallow_write d).
Proof. now intros x p. Qed.

Lemma waitless_disallow_read d : waitless (disallow_read d).
Proof. unfold disallow_read. destruct (esd_sender d); [apply waitless_bind; [apply waitless_update_cell|]|]; intros; apply waitless_ret. Qed.

Lemma waitless_on_stream {A} s (f : Ctx C W -> Ctx C W * A) : waitless (on_stream s f).
Proof. intros x p. unfold on_stream. destruct (mx_cells x !! ms_cell s); [|easy]. now destruct (f _). Qed.

End Waiting.

Create HintDb waitless.
#[export] Hint Resolve waitless_ret waitless_throw waitless_get waitless_modify waitless_send_frame waitless_remove_flow waitless_put_flow
  waitless_update_cell waitless_send_stream_shot waitless_send_bind_shot waitless_dispatch waitless_disallow_write
  waitless_disallow_read waitless_on_stream : waitless.

Ltac waitless_go :=
  repeat (intros; match goal with
    | |- waitless (mbind _ _) => apply waitless_bind
    | |- waitless (match ?e with _ => _ end) => destruct e
    | |- waitless _ => solve [auto with waitless]
    end).

Section Held.
Context {C : Type -> Type} `{!Mpsc C} {O : Type -> Type} `{!Oneshot O} {W : Type} `{!Waker W} {S : Type} `{!WebSocket S}.
Variables (id : Z) (cell : nat).

#[local] Abbreviation M := (@M C O W S).

Definition holding {A} (m : M A) : Prop :=
  forall x, own id cell x -> match (m x).2 with Parked p => held id cell p | _ => True end.

Lemma waitless_holding {A} (m : M A) : waitless m -> holding m.
Proof. intros H x _. specialize (H x). now destruct (m x) as [x' [| | |p]]; try easy; destruct (H p). Qed.

Lemma holding_bind {A B} (m : M A) (k : A -> M B) :
  waitless m -> calming id cell m -> (forall a, holding (k a)) -> holding (mbind k m).
Proof.
  intros Hw Hc Hk x Hx. unfold mbind, M_bind. specialize (Hw x). specialize (Hc x Hx).
  destruct (m x) as [x' [a| | |p]]; [|easy|easy|now destruct (Hw p)]. apply Hk. exact (own_calm _ _ _ _ Hx Hc).
Qed.

Lemma waitless_drop_stream s : waitless (drop_stream s : M unit).
Proof. unfold drop_stream. waitless_go. Qed.

#[local] Hint Resolve waitless_drop_stream : waitless.

Lemma waitless_close_port i inhibit : waitless (close_port i inhibit : M unit).
Proof. unfold close_port, close_port_local. waitless_go. Qed.

Lemma waitless_ack_recv i w : waitless (ack_recv_new_stream i w : M unit).
Proof.
  unfold ack_recv_new_stream. apply waitless_bind; [|waitless_go].
  intros x p. unfold new_stream_shared. now case_bool.
Qed.

Lemma waitless_bind_drop r : waitless (bind_drop r : M unit).
Proof.
  intros x p. unfold bind_drop. assert (H : waitless (bind_reply r false : M unit)) by (unfold bind_reply; waitless_go).
  specialize (H x p). destruct (bind_reply r false x) as [x' [| | |q]]; cbn [snd] in *; congruence.
Qed.

Lemma holding_send_to_user s : another id cell s -> holding (send_to_user s).
Proof.
  intros Hs x _. unfold send_to_user. destruct (try_send s (mx_con_recv x)) as [q [[]|]]; [exact Hs| |easy].
  assert (H : waitless (_ ← drop_stream s; throw SendStreamToClient : M unit)) by waitless_go.
  specialize (H x). destruct ((_ ← drop_stream s; throw SendStreamToClient : M unit) x) as [x' [| | |p]]; try easy. now destruct (H p).
Qed.

Lemma holding_con_recv i host port w : i <> id -> u32_ok i -> holding (con_recv_new_stream i host port w).
Proof.
  intros Hi Hu x Hx. unfold con_recv_new_stream. rewrite bind_get.
  destruct (decide _); [apply (waitless_holding (_ ← send_frame (new_reset i); mret tt)); [waitless_go|exact Hx]|].
  unfold mbind at 1, M_bind at 1, new_stream_shared. case_bool; [easy|]. pose proof (own_fresh _ _ _ Hx) as Hf.
  set (s := MkMuxStream _ _ _ _ _ _ _). set (x1 := set_cells x _ _).
  assert (Hx1 : own id cell x1).
  { apply (own_calm _ _ x); [exact Hx|]. split; auto; cbn; [apply lookup_insert_ne; lia|lia]. }
  assert (Hs : another id cell s) by (split; [exact Hi|split; [cbn; lia|exact Hu]]).
  apply holding_bind; [apply waitless_put_flow|apply calming_put_flow; [exact Hi|exact Hu|cbn; assert (mx_next_cell x <> cell) by lia; congruence]|intros _|exact Hx1].
  apply holding_bind; [apply waitless_send_frame|apply calming_send_frame; now apply alien_frame|intros sent].
  destruct sent; [now apply holding_send_to_user|]. apply waitless_holding. waitless_go.
Qed.

Lemma holding_send_bind_request r : br_flow_id r <> id -> u32_ok (br_flow_id r) -> holding (send_bind_request r).
Proof.
  intros Hi Hu x Hx. unfold send_bind_request. destruct (mx_bnd x) as [q|]; [|easy]. destruct (try_send r q) as [q' [[]|]]; [now split| |easy].
  now apply (waitless_holding _ (waitless_bind_drop r) x).
Qed.

Lemma holding_frame f ignore : frame_id f <> id -> u32_ok (frame_id f) -> holding (process_frame f ignore).
Proof.
  intros Hi Hu x Hx. unfold process_frame. destruct f as [i p]. cbn [frame_id frame_payload] in *.
  destruct p as [c|n| | |data|b|dg]; [now apply holding_con_recv| | | | | |]; rewrite ?bind_get.
  - destruct (mx_flows x !! i) as [[k|d|k]|]; apply waitless_holding; auto; try solve [waitless_go]; [apply waitless_ack_recv|].
    apply (waitless_update_cell (esd_cell d)).
  - apply (waitless_holding _ (waitless_close_port i true) x Hx).
  - destruct (mx_flows x !! i) as [[k|d|k]|]; apply waitless_holding; auto; waitless_go.
  - apply waitless_holding; [|exact Hx]. pose proof (waitless_close_port i). waitless_go.
  - destruct (mx_bnd x); [|now apply waitless_holding; [waitless_go|]]. destruct ignore; [easy|]. now apply holding_send_bind_request.
  - destruct (try_send _ (mx_datagrams x)) as [q [[]|]]; easy.
Qed.

(** So the task waits with nothing of the stream after a message of another. *)
Lemma held_message e ignore (x : Mux C O W S) p :
  bytes_ok e -> about id e = false -> own id cell x -> (process_message (MsgBinary e) ignore x).2 = Parked p -> held id cell p.
Proof.
  intros Hok Ha Hx. unfold process_message, about, mbind, M_bind, lift in *.
  destruct (frame_try_from e) as [[i q]| |] eqn:Hf; cbn [map_err]; [|easy|easy].
  destruct (frame_try_from_inv e _ Hok Hf) as (op & body & _ & Hu & _). cbn [frame_id] in Hu.
  assert (H : match (process_frame (MkFrame i q) ignore x).2 with Parked p => held id cell p | _ => True end).
  { destruct (Z.eqb_spec i id) as [->|Hi]; [|now apply holding_frame].
    destruct q as [| | | | | |dg]; try discriminate Ha. unfold process_frame. cbn [frame_payload frame_id]. rewrite bind_get.
    destruct (try_send _ (mx_datagrams x)) as [q [[]|]]; easy. }
  destruct (process_frame (MkFrame i q) ignore x) as [x1 [| | |p1]]; cbn [snd] in *; try easy. now intros [= <-].
Qed.

End Held.
