(* ===== verification/Parting.v ===== *)
(** * What a stream keeps when its task goes

    The octets a stream has received stay in its channel whatever the task does
    from then on, be it a message of its own, of others, or the end of the
    task: only its user takes them out. *)

From S2P Require Import Prelude Runtime Frame Timing Config Stream Mux MuxInv MuxProps Datagrams FlowControl Duplex Alone Others.

(** ** Definitions *)

Section Keeping.
Context {C : Type -> Type} `{!Mpsc C} {O : Type -> Type} `{!Oneshot O} {W : Type} `{!Waker W} {S : Type} `{!WebSocket S}.
Variable cell : nat.

#[local] Abbreviation Mux := (Mux C O W S).

(** Messages are only added to the channel of the cell. *)
Record kept (x x' : Mux) : Prop := {
  kept_next : (mx_next_cell x <= mx_next_cell x')%nat;
  kept_cell : forall sh, mx_cells x !! cell = Some sh ->
    exists sh' more, mx_cells x' !! cell = Some sh' /\ queue (sh_frames sh') = queue (sh_frames sh) ++ more;
}.

Definition keeping {A} (m : @M C O W S A) : Prop := forall x, (cell < mx_next_cell x)%nat -> kept x (m x).1.

(** ** Lemmas *)

Lemma kept_refl x : kept x x.
Proof. split; [lia|]. intros sh Hsh. exists sh, []. now rewrite app_nil_r. Qed.

Lemma kept_trans x y z : kept x y -> kept y z -> kept x z.
Proof.
  intros [A1 A2] [B1 B2]. split; [lia|]. intros sh Hsh. destruct (A2 sh Hsh) as (sh1 & m1 & H1 & E1), (B2 sh1 H1) as (sh2 & m2 & H2 & E2).
  exists sh2, (m1 ++ m2). now rewrite E2, E1, app_assoc.
Qed.

#[export] Instance kept_preorder : PreOrder kept.
Proof. split; [exact kept_refl|exact kept_trans]. Qed.

(** Steps that leave the cells alone. *)
Lemma kept_same x x' : mx_cells x' = mx_cells x -> mx_next_cell x' = mx_next_cell x -> kept x x'.
Proof. intros Hc Hn. split; [lia|]. rewrite Hc. apply kept_refl. Qed.

Lemma kept_calm id x x' : calm id cell x x' -> kept x x'.
Proof. intros H. split; [apply (calm_next _ _ _ _ H)|]. rewrite (calm_cell _ _ _ _ H). apply kept_refl. Qed.

(** Another cell, or this one with a message more. *)
Lemma kept_insert x n sh' :
  (forall sh, n = cell -> mx_cells x !! cell = Some sh -> exists more, queue (sh_frames sh') = queue (sh_frames sh) ++ more) ->
  kept x (set_cells x (<[n := sh']> (mx_cells x)) (mx_next_cell x)).
Proof.
  intros H. split; cbn; [lia|]. intros sh Hsh. destruct (decide (n = cell)) as [->|Hn].
  - destruct (H sh eq_refl Hsh) as [more E]. exists sh', more. now rewrite lookup_insert_eq.
  - rewrite lookup_insert_ne by easy. exists sh, []. now rewrite app_nil_r.
Qed.

Lemma keeping_ret {A} (a : A) : keeping (mret a).
Proof. intros x _. apply kept_refl. Qed.
Lemma keeping_throw {A} e : keeping (@throw C O W S A e).
Proof. intros x _. apply kept_refl. Qed.
Lemma keeping_park {A} p : keeping (@park C O W S A p).
Proof. intros x _. apply kept_refl. Qed.
Lemma keeping_get : keeping get.
Proof. intros x _. apply kept_refl. Qed.
Lemma keeping_lift {A} (r : res Error A) : keeping (lift r).
Proof. intros x _. apply kept_refl. Qed.

Lemma keeping_modify f : (forall x, mx_cells (f x) = mx_cells x /\ mx_next_cell (f x) = mx_next_cell x) -> keeping (modify f).
Proof. intros H x _. destruct (H x). now apply kept_same. Qed.

Lemma keeping_bind {A B} (m : @M C O W S A) (k : A -> @M C O W S B) : keeping m -> (forall a, keeping (k a)) -> keeping (mbind k m).
Proof.
  intros Hm Hk x Hx. unfold mbind, M_bind. specialize (Hm x Hx). destruct (m x) as [x' [a| | |]]; try exact Hm.
  etransitivity; [exact Hm|]. apply Hk. pose proof (kept_next _ _ Hm). cbn in *. lia.
Qed.

Lemma keeping_update_cell n f : (forall c, queue (sh_frames (f c)) = queue (sh_frames c)) -> keeping (update_cell n f).
Proof.
  intros Hf x _. split; cbn; [lia|]. intros sh Hsh. destruct (decide (n = cell)) as [->|Hn].
  - exists (f sh), []. rewrite lookup_alter_eq, Hsh, app_nil_r. now split; [|apply Hf].
  - rewrite lookup_alter_ne by easy. exists sh, []. now rewrite app_nil_r.
Qed.

Lemma keeping_send_frame f : keeping (send_frame f).
Proof. intros x _. unfold send_frame. destruct (tx_send f (mx_tx_frame x)). now apply kept_same. Qed.

Lemma keeping_put_flow i s : keeping (put_flow i s).
Proof. now apply keeping_modify. Qed.

Lemma keeping_remove_flow i : keeping (remove_flow i).
Proof. intros x _. now apply kept_same. Qed.

Lemma keeping_send_stream_shot n v : keeping (send_stream_shot n v).
Proof. intros x _. unfold send_stream_shot. destruct (mx_streams_shots x !! n) as [o|]; [|apply kept_refl]. now destruct (shot_send v o); apply kept_same. Qed.

Lemma keeping_send_bind_shot n v : keeping (send_bind_shot n v).
Proof. intros x _. unfold send_bind_shot. destruct (mx_bind_shots x !! n) as [o|]; [|apply kept_refl]. now destruct (shot_send v o); apply kept_same. Qed.

Lemma keeping_disallow_write d : keeping (disallow_write d).
Proof. intros x Hx. apply (keeping_update_cell _ disallow_write_cell); [easy|exact Hx]. Qed.

Lemma keeping_disallow_read d : keeping (disallow_read d).
Proof.
  unfold disallow_read. destruct (esd_sender d); [|apply keeping_ret]. apply keeping_bind; [|intros; apply keeping_ret].
  apply keeping_update_cell. intros c. cbn. now rewrite view_tx_drop.
Qed.

Lemma keeping_dispatch slot data : keeping (dispatch slot data).
Proof.
  intros x _. unfold dispatch. destruct slot as [|d|]; try apply kept_refl. destruct (esd_sender d); [|apply kept_refl].
  destruct (mx_cells x !! esd_cell d) as [c|] eqn:Hc; [|apply kept_refl].
  pose proof (view_try_send _ data (sh_frames c)) as Hv. destruct (try_send data (sh_frames c)) as [fr e]. apply kept_insert.
  intros sh <- Hsh. rewrite Hc in Hsh. injection Hsh as <-. cbn in *. rewrite Hv, spec_send_queue.
  destruct (spec_send _ _).2; [exists []; now rewrite app_nil_r|eauto].
Qed.

Lemma keeping_drop_stream s : ms_cell s <> cell -> keeping (drop_stream s).
Proof.
  intros Hs. apply keeping_bind; [|intros; apply keeping_ret]. intros x _. unfold on_stream.
  destruct (mx_cells x !! ms_cell s) as [sh|]; [|apply kept_refl]. cbn [fst].
  transitivity (set_cells x (<[ms_cell s := set_frames sh (rx_drop (sh_frames sh))]> (mx_cells x)) (mx_next_cell x)); [|now apply kept_same].
  apply kept_insert. intros ? E. now destruct Hs.
Qed.

End Keeping.

Create HintDb kept.
#[export] Hint Resolve keeping_ret keeping_throw keeping_park keeping_get keeping_lift keeping_send_frame keeping_put_flow
  keeping_remove_flow keeping_send_stream_shot keeping_send_bind_shot keeping_disallow_write keeping_disallow_read
  keeping_dispatch keeping_drop_stream : kept.

(** Step through a computation whose parts keep what was received. *)
Ltac kept_go :=
  repeat (intros; match goal with
    | |- keeping _ (mbind _ _) => apply keeping_bind
    | |- keeping _ (modify _) => apply keeping_modify; intros; now split
    | |- keeping _ (match ?e with _ => _ end) => destruct e
    | |- keeping _ _ => solve [auto with kept]
    end).

Section Task.
Context {C : Type -> Type} `{!Mpsc C} {O : Type -> Type} `{!Oneshot O} {W : Type} `{!Waker W} {S : Type} `{!WebSocket S}.
Variable cell : nat.

#[local] Abbreviation keeping := (@keeping C _ O W S cell).

Lemma keeping_close_port_local slot i inhibit : keeping (close_port_local slot i inhibit).
Proof. unfold close_port_local. kept_go. Qed.

Lemma keeping_close_port i inhibit : keeping (close_port i inhibit).
Proof. unfold close_port. pose proof keeping_close_port_local. kept_go. Qed.

Lemma keeping_send_to_user s : ms_cell s <> cell -> keeping (send_to_user s).
Proof.
  intros Hs x Hx. unfold send_to_user. destruct (try_send s (mx_con_recv x)) as [q [[]|]]; [apply kept_refl| |now apply kept_same].
  assert (H : keeping (_ ← drop_stream s; @throw C O W S unit SendStreamToClient)) by kept_go. now apply H.
Qed.

Lemma keeping_bind_drop r : keeping (bind_drop r).
Proof.
  intros x Hx. unfold bind_drop. assert (H : keeping (bind_reply r false)) by (unfold bind_reply; kept_go).
  specialize (H x Hx). now destruct (bind_reply r false x) as [x' []].
Qed.

Lemma keeping_send_bind_request r : keeping (send_bind_request r).
Proof.
  intros x Hx. unfold send_bind_request. destruct (mx_bnd x) as [q|]; [|apply kept_refl].
  destruct (try_send r q) as [q' [[]|]]; [apply kept_refl|now apply keeping_bind_drop|now apply kept_same].
Qed.

#[local] Hint Resolve keeping_close_port keeping_send_to_user keeping_bind_drop keeping_send_bind_request : kept.

(** The cell of a new stream is new. *)
Lemma keeping_new_stream {A} i w host port (k : MuxStream * EstablishedStreamData -> @M C O W S A) :
  (forall s d, ms_cell s <> cell -> keeping (k (s, d))) -> keeping (mbind k (new_stream_shared i w host port)).
Proof.
  intros Hk x Hx. unfold mbind, M_bind, new_stream_shared. case_bool; [apply kept_refl|].
  match goal with |- kept _ _ (k (?s, ?d) ?y).1 => transitivity y; [|apply (Hk s d); cbn; lia] end.
  split; cbn; [lia|]. intros sh Hsh. rewrite lookup_insert_ne by lia. exists sh, []. now rewrite app_nil_r.
Qed.

Lemma keeping_con_recv i host port w : keeping (con_recv_new_stream i host port w).
Proof.
  unfold con_recv_new_stream. apply keeping_bind; [apply keeping_get|]. intros x. destruct (decide _); [kept_go|].
  apply keeping_new_stream. kept_go.
Qed.

Lemma keeping_ack_recv i w : keeping (ack_recv_new_stream i w).
Proof. unfold ack_recv_new_stream. apply keeping_new_stream. kept_go. Qed.

#[local] Hint Resolve keeping_con_recv keeping_ack_recv : kept.

Lemma keeping_process_frame f ignore : keeping (process_frame f ignore).
Proof.
  unfold process_frame. destruct (frame_payload f) as [c|n| | |data|b|dg]; try solve [kept_go].
  apply keeping_bind; [apply keeping_get|]. intros x. destruct (mx_flows x !! frame_id f) as [[k|d|k]|]; try solve [kept_go].
  now apply keeping_update_cell.
Qed.

Lemma keeping_process_message m ignore : keeping (process_message m ignore).
Proof. pose proof keeping_process_frame. unfold process_message. kept_go. Qed.

Lemma keeping_for_each {A} (f : A -> @M C O W S unit) l : Forall (fun a => keeping (f a)) l -> keeping (for_each f l).
Proof. induction 1; cbn [for_each]; [apply keeping_ret|now apply keeping_bind]. Qed.

Lemma keeping_ws_await {A} polls (p : S -> S * poll A) : keeping (ws_await polls p).
Proof.
  induction polls as [|polls IH]; [apply keeping_park|]. intros x Hx. cbn [ws_await]. destruct (p (mx_ws x)) as [ws [a|]]; [now apply kept_same|].
  transitivity (set_ws x ws); [now apply kept_same|]. now apply IH.
Qed.

Lemma keeping_start_send m : keeping (ws_start_send_m m).
Proof. intros x _. unfold ws_start_send_m. destruct (ws_start_send _ _). now apply kept_same. Qed.

#[local] Hint Resolve keeping_process_message keeping_ws_await keeping_start_send : kept.

Lemma keeping_drain_frames polls fuel : keeping (drain_frames polls fuel).
Proof.
  induction fuel as [|fuel IH]; [apply keeping_park|]. intros x Hx. cbn [drain_frames]. destruct (poll_recv (mx_tx_frame x)) as [q r].
  transitivity (set_tx x q); [now apply kept_same|]. destruct r as [[frame|]|]; try apply kept_refl.
  match goal with |- kept _ _ (?m _).1 => assert (H : keeping m) by kept_go; now apply H end.
Qed.

Lemma keeping_drain_source polls fuel : keeping (drain_source polls fuel).
Proof. induction fuel as [|fuel IH]; cbn [drain_source]; kept_go. Qed.

Lemma keeping_wind_down polls fuel drain : keeping (wind_down polls fuel drain).
Proof.
  pose proof (keeping_drain_frames polls fuel). pose proof (keeping_drain_source polls fuel).
  assert (Hw : forall l, keeping (for_each disallow_write_slot l)).
  { intros l. apply keeping_for_each, Forall_true. intros [i []]; unfold disallow_write_slot; kept_go. }
  assert (Hl : forall l, keeping (for_each (fun entry => close_port_local entry.2 entry.1 true) l)).
  { intros l. apply keeping_for_each, Forall_true. intros. apply keeping_close_port_local. }
  unfold wind_down, drain_flows. kept_go.
Qed.

(** What [start] does once a task has left its loops. *)
Lemma keeping_after_select id polls fuel br others :
  Forall (held id cell) others -> keeping (after_select polls fuel br others).
Proof.
  intros Ho. apply keeping_bind; [|intros; apply keeping_wind_down]. apply keeping_for_each.
  refine (Forall_impl _ _ Ho). intros [s|r| | |] Hp; try easy; cbn [cancel]; [|apply keeping_bind_drop]. apply keeping_drop_stream. apply Hp.
Qed.

End Task.
