(* ===== verification/Among.v ===== *)
(** * A connection among others

    Two multiplexors with any number of streams, datagrams and bind requests,
    and one connection through them: whatever the others do while both tasks
    run, the connection behaves as the conversation of Duplex.v, in which there
    is nothing else.  A run is followed up to the moment one of the tasks
    leaves its [select!], whatever made it; what is left of the connection then
    is in Parting.v.  The users keep both multiplexors: dropping one is
    MuxProps.v's. *)

From S2P Require Import Prelude Runtime Frame Timing Config Stream Mux MuxInv MuxProps Datagrams FlowControl Handshake Duplex Alone Others Parting.

(** ** Definitions *)

(** A copier without its share of the multiplexor's state. *)
Record conn (RW : Type) := MkConn {
  cn_stream : MuxStream;
  cn_other : RW;
  cn_read : ReadState;
  cn_write : WriteState;
}.
Arguments MkConn {RW} _ _ _ _.
Arguments cn_stream {RW} _.
Arguments cn_other {RW} _.
Arguments cn_read {RW} _.
Arguments cn_write {RW} _.

Section Conn.
Context {C : Type -> Type} `{!Mpsc C} {O : Type -> Type} `{!Oneshot O} {W : Type} `{!Waker W} {S : Type} `{!WebSocket S}.
Context {RW : Type} `{!BufRW RW}.

(** The copier with its share. *)
Definition loaded (x : Mux C O W S) (cn : conn RW) : option (CopyBidirectional C W RW) :=
  c ← ctx_of x (cn_stream cn); Some (MkCopy c (cn_other cn) (cn_read cn) (cn_write cn)).

(** [CopyBidirectional::poll] on the stream in the multiplexor. *)
Definition poll_conn (fuel : nat) (cn : conn RW) : @M C O W S (option (conn RW)) :=
  r ← on_stream (cn_stream cn) (fun c =>
    let c' := (copy_poll fuel (MkCopy c (cn_other cn) (cn_read cn) (cn_write cn))).1 in
    (cb_us c', (cb_other c', cb_read_state c', cb_write_state c')));
  mret (match r with Some (s, (o, rs, ws)) => Some (MkConn s o rs ws) | None => None end).

End Conn.

Section Among.
Context {C : Type -> Type} `{!Mpsc C} {O : Type -> Type} `{!Oneshot O} {W : Type} `{!Waker W}
  {S1 S2 : Type} `{!WebSocket S1} `{!WebSocket S2} {RW1 RW2 : Type} `{!BufRW RW1} `{!BufRW RW2}.

(** Why the task leaves its [select!]: a branch returned, failed or panicked,
    or the WebSocket under it was closed or failed. *)
Inductive end_of_loop :=
| Returned
| Failed (e : Error)
| Panics
| Cut.

(** What the task is at: it waits for whatever comes next, it waits with a
    message half processed, or it has left its loops, with what the branches
    that were dropped there waited with. *)
Inductive loop_state :=
| Serving
| Waiting (p : pending)
| Left (why : end_of_loop) (others : list pending).

Definition unfinished (l : loop_state) : list pending :=
  match l with Serving => [] | Waiting p => [p] | Left _ others => others end.

(** What [process_ws_next] does with the outcome of a message: [Close] ends
    it, and so does an error. *)
Definition after_message (o : outcome bool) : loop_state :=
  match o with
  | Ret false => Serving
  | Ret true => Left Returned []
  | Fail e => Left (Failed e) []
  | Panicked => Left Panics []
  | Parked p => Waiting p
  end.

(** The message the task waited with. *)
Definition after_wait (p : pending) (o : outcome unit) : loop_state :=
  match o with
  | Ret _ => Serving
  | Fail e => Left (Failed e) []
  | Panicked => Left Panics []
  | Parked _ => Waiting p
  end.

(** [process_dropped_ports_task] returns on the announcement of the
    multiplexor itself, identifier 0; the branches it leaves are dropped. *)
Definition after_dropped (l : loop_state) (o : outcome unit) : loop_state :=
  match o with
  | Ret _ => Left Returned (unfinished l)
  | Fail e => Left (Failed e) (unfinished l)
  | Panicked => Left Panics (unfinished l)
  | Parked _ => l
  end.

(** Calls of users leave the task where it is. *)
Definition after_op (op : mux_op) (l : loop_state) (o : outcome unit) : loop_state :=
  match op with
  | OpBranch _ _ DroppedPortsBranch => after_dropped l o
  | _ => l
  end.

(** The oldest message crosses and is processed, to whatever end: the task
    that receives it may go on, be left waiting for room in a queue of its
    users, or leave its loop. *)
Definition hand_over {S S'} (x : Mux C O W S) (y : Mux C O W S')
  : option (Mux C O W S * Mux C O W S' * loop_state) :=
  match poll_recv (mx_tx_frame x) with
  | (tx, Ready (Some e)) =>
      let '(y', r) := process_message (MsgBinary e) false y in
      Some (set_tx x tx, y', after_message r)
  | _ => None
  end.

(** Both multiplexors, both ends of the connection, and what each task is at. *)
Record among := MkAmong {
  am_client : Mux C O W S1;
  am_server : Mux C O W S2;
  am_local : conn RW1;
  am_remote : conn RW2;
  am_client_loop : loop_state;
  am_server_loop : loop_state;
}.

Definition has_left (l : loop_state) : Prop := match l with Left _ _ => True | _ => False end.

(** Neither task has left its loops: what follows that is [after_select]. *)
Definition running (a : among) : Prop := ~ has_left (am_client_loop a) /\ ~ has_left (am_server_loop a).

(** A poll of either copier, a message to a task that does not wait, the end
    of a wait or another round of it. *)
Inductive conn_step : among -> among -> Prop :=
| client_polls fuel x y cl cr lx ly x' cl' :
    poll_conn fuel cl x = (x', Ret (Some cl')) -> conn_step (MkAmong x y cl cr lx ly) (MkAmong x' y cl' cr lx ly)
| server_polls fuel x y cl cr lx ly y' cr' :
    poll_conn fuel cr y = (y', Ret (Some cr')) -> conn_step (MkAmong x y cl cr lx ly) (MkAmong x y' cl cr' lx ly)
| to_server x y cl cr lx x' y' l :
    hand_over x y = Some (x', y', l) -> conn_step (MkAmong x y cl cr lx Serving) (MkAmong x' y' cl cr lx l)
| to_client x y cl cr ly x' y' l :
    hand_over y x = Some (y', x', l) -> conn_step (MkAmong x y cl cr Serving ly) (MkAmong x' y' cl cr l ly)
| server_resumes p x y cl cr lx y' r :
    run_op (OpResume p) y = (y', r) ->
    conn_step (MkAmong x y cl cr lx (Waiting p)) (MkAmong x y' cl cr lx (after_wait p r))
| client_resumes p x y cl cr ly x' r :
    run_op (OpResume p) x = (x', r) ->
    conn_step (MkAmong x y cl cr (Waiting p) ly) (MkAmong x' y cl cr (after_wait p r) ly).

(** One of these, anything users and tasks of either side do for others, or the
    end of the WebSocket; up to the moment one of the tasks leaves its loops. *)
Inductive among_step (id : Z) : among -> among -> Prop :=
| conn_steps a a' : running a -> conn_step a a' -> among_step id a a'
| client_others op x y cl cr lx ly x' r :
    running (MkAmong x y cl cr lx ly) -> other_op id (ms_cell (cn_stream cl)) x op -> run_op op x = (x', r) ->
    among_step id (MkAmong x y cl cr lx ly) (MkAmong x' y cl cr (after_op op lx r) ly)
| server_others op x y cl cr lx ly y' r :
    running (MkAmong x y cl cr lx ly) -> other_op id (ms_cell (cn_stream cr)) y op -> run_op op y = (y', r) ->
    among_step id (MkAmong x y cl cr lx ly) (MkAmong x y' cl cr lx (after_op op ly r))
| client_cut x y cl cr lx ly :
    running (MkAmong x y cl cr lx ly) -> among_step id (MkAmong x y cl cr lx ly) (MkAmong x y cl cr (Left Cut (unfinished lx)) ly)
| server_cut x y cl cr lx ly :
    running (MkAmong x y cl cr lx ly) -> among_step id (MkAmong x y cl cr lx ly) (MkAmong x y cl cr lx (Left Cut (unfinished ly))).

End Among.

(** ** Lemmas *)

(** *** A poll of the copier *)

Section Share.
Context {C : Type -> Type} `{!Mpsc C} {W : Type} `{!Waker W}.

(** What a poll leaves alone. *)
Definition same_share (c c' : Ctx C W) : Prop :=
  ms_cell (cx_stream c') = ms_cell (cx_stream c) /\ cx_dropped c' = cx_dropped c
  /\ tx_open (sh_frames (cx_shared c')) = tx_open (sh_frames (cx_shared c)).

Lemma same_refl c : same_share c c.
Proof. easy. Qed.

Lemma same_trans a b c : same_share a b -> same_share b c -> same_share a c.
Proof. intros (?&?&?) (?&?&?). split_and!; congruence. Qed.

Lemma same_fill c : same_share c (poll_fill_buf c).1.
Proof.
  unfold poll_fill_buf. destruct (ms_buf (cx_stream c)); [|easy].
  pose proof (view_poll_recv _ (sh_frames (cx_shared c))) as Hv. destruct (poll_recv (sh_frames (cx_shared c))) as [fr r]. cbn [fst] in Hv.
  destruct (spec_recv_flags (chan_view (sh_frames (cx_shared c)))) as (_ & Ht & _). rewrite <- Hv in Ht.
  destruct r as [[next|]|]; cbn; [|split_and!; try easy; cbn; now rewrite view_rx_close|easy].
  unfold increment_psh_recvd_since. now destruct (_ <=? _).
Qed.

Lemma same_consume n c c' : consume n c = Ok c' -> same_share c c'.
Proof. unfold consume. case_bool; [easy|]. now intros [= <-]. Qed.

Lemma same_write buf c : same_share c (poll_write [] buf c).1.
Proof.
  unfold poll_write, poll_obtain_write_permission. destruct (sh_finish_sent (cx_shared c)); [easy|]. cbn [obtain_loop]. case_bool; [easy|].
  now destruct (tx_send _ (cx_tx c)).
Qed.

Lemma same_shutdown c : same_share c (shutdown_inner c).1.
Proof. unfold shutdown_inner. destruct (sh_finish_sent (cx_shared c)); [easy|]. now destruct (tx_send _ (cx_tx c)). Qed.

Context {RW : Type} `{!BufRW RW}.

Lemma same_shutdown_other (c : CopyBidirectional C W RW) n : cb_us (poll_shutdown_other c n).1 = cb_us c.
Proof. unfold poll_shutdown_other. now destruct (rw_shutdown (cb_other c)) as [o [[]|]]. Qed.

Lemma same_read_loop fuel (c : CopyBidirectional C W RW) n : same_share (cb_us c) (cb_us (read_us_loop fuel c n).1).
Proof.
  revert c n. induction fuel as [|fuel IH]; intros c n; [easy|]. cbn [read_us_loop].
  pose proof (same_fill (cb_us c)) as Hf. destruct (poll_fill_buf (cb_us c)) as [us1 [[[|x bs]| |]|]]; cbn [fst] in Hf; try exact Hf.
  - match goal with |- context [poll_shutdown_other ?d n] => pose proof (same_shutdown_other d n) as H; destruct (poll_shutdown_other d n) end.
    cbn [fst] in *. rewrite H. exact Hf.
  - destruct (rw_write (x :: bs) (cb_other c)) as [o [[m| |]|]]; try exact Hf.
    destruct (consume m us1) as [us2| |] eqn:Hc; try exact Hf.
    exact (same_trans _ _ _ Hf (same_trans _ _ _ (same_consume _ _ _ Hc) (IH (MkCopy us2 o (RTransferring (n + m)) (cb_write_state c)) (n + m)))).
Qed.

Lemma same_write_loop fuel (c : CopyBidirectional C W RW) n : same_share (cb_us c) (cb_us (write_us_loop fuel c n).1).
Proof.
  revert c n. induction fuel as [|fuel IH]; intros c n; [easy|]. cbn [write_us_loop].
  destruct (rw_fill_buf (cb_other c)) as [o [[[|x bs]| |]|]]; try easy; [| |now destruct (rw_flush o)].
  - pose proof (same_shutdown (cb_us c)) as H. now destruct (shutdown_inner (cb_us c)) as [us []].
  - pose proof (same_write (x :: bs) (cb_us c)) as H. destruct (poll_write [] (x :: bs) (cb_us c)) as [us [[m| |]|]]; try exact H.
    exact (same_trans _ _ _ H (IH (MkCopy us (rw_consume (length (x :: bs)) o) (cb_read_state c) (WTransferring (n + m))) (n + m))).
Qed.

Lemma same_copy fuel (c : CopyBidirectional C W RW) : same_share (cb_us c) (cb_us (copy_poll fuel c).1).
Proof.
  unfold copy_poll. assert (H1 : same_share (cb_us c) (cb_us (poll_read_us fuel c).1)).
  { unfold poll_read_us. destruct (cb_read_state c) as [n|n|n]; [apply same_read_loop| |easy].
    pose proof (same_shutdown_other c n) as H. destruct (poll_shutdown_other c n). cbn [fst] in *. now rewrite H. }
  destruct (poll_read_us fuel c) as [c1 r]. cbn [fst] in H1.
  assert (H2 : same_share (cb_us c1) (cb_us (poll_write_us fuel c1).1)).
  { unfold poll_write_us. destruct (cb_write_state c1) as [n|n]; [apply same_write_loop|easy]. }
  destruct (poll_write_us fuel c1) as [c2 w]. exact (same_trans _ _ _ H1 H2).
Qed.

End Share.

(** *** One end of the connection *)

Section Side.
Context {C : Type -> Type} `{!Mpsc C} {O : Type -> Type} `{!Oneshot O} {W : Type} `{!Waker W} {S : Type} `{!WebSocket S}.
Context {RW : Type} `{!BufRW RW}.
Variable id : Z.
Hypothesis Hid : u32_ok id.

(** The multiplexor [x] with a stream [id] in the cell [cell]: its task runs,
    the users' queues have room, and the frames under way are octets. *)
Definition place (cell : nat) (x : Mux C O W S) : Prop :=
  own id cell x /\ (mux_live x /\ typed id (queue (mx_tx_frame x))) /\ roomy x.

(** The end [cn] of the connection in the multiplexor [x], which seen alone is
    the copier [k]. *)
Definition side (x : Mux C O W S) (cn : conn RW) (k : CopyBidirectional chan_state W RW) : Prop :=
  place (ms_cell (cn_stream cn)) x /\ ms_flow_id (cn_stream cn) = id
  /\ exists c, loaded x cn = Some c /\ view_copy id c = k.

Lemma loaded_inv (x : Mux C O W S) (cn : conn RW) c :
  loaded x cn = Some c -> exists sh, mx_cells x !! ms_cell (cn_stream cn) = Some sh
    /\ c = MkCopy (MkCtx (cn_stream cn) sh (mx_tx_frame x) (mx_dropped_ports x)) (cn_other cn) (cn_read cn) (cn_write cn).
Proof.
  unfold loaded, ctx_of. destruct (mx_cells x !! ms_cell (cn_stream cn)) as [sh|]; [|easy]. intros [= <-]. now exists sh.
Qed.

Lemma loaded_some (x : Mux C O W S) (cn : conn RW) sh :
  mx_cells x !! ms_cell (cn_stream cn) = Some sh ->
  loaded x cn = Some (MkCopy (MkCtx (cn_stream cn) sh (mx_tx_frame x) (mx_dropped_ports x)) (cn_other cn) (cn_read cn) (cn_write cn)).
Proof. unfold loaded, ctx_of. now intros ->. Qed.

(** A poll is a poll of the copier seen alone. *)
Lemma side_poll fuel x x' cn cn' k :
  side x cn k -> poll_conn fuel cn x = (x', Ret (Some cn')) -> side x' cn' (copy_poll fuel k).1.
Proof.
  intros ((Hown & Hlive & Hroom) & Hflow & c & Hc & <-) Hpoll. apply loaded_inv in Hc as (sh & Hsh & ->).
  set (c0 := MkCtx (cn_stream cn) sh (mx_tx_frame x) (mx_dropped_ports x)) in *.
  set (k0 := MkCopy c0 (cn_other cn) (cn_read cn) (cn_write cn)).
  destruct (view_copy_poll id Hid fuel k0 (conj Hflow Hlive)) as [Hv [Hf1 Hl1]]. rewrite Hv. cbn [fst].
  pose proof (same_copy fuel k0) as (Hcell & Hdrop & Hopen).
  unfold poll_conn, mbind, M_bind, on_stream in Hpoll. rewrite Hsh in Hpoll. fold c0 k0 in Hpoll.
  destruct (copy_poll fuel k0).1 as [us o rs ws]. cbn in Hpoll, Hf1, Hl1, Hcell, Hdrop, Hopen. injection Hpoll as <- <-.
  split; [split; [|exact (conj Hl1 Hroom)]|split; [exact Hf1|]].
  - destruct Hown as [(d & sh' & H1 & H2 & H3 & H4) Ho Hn Hd]. cbn [cn_stream]. rewrite Hcell. split; cbn.
    + exists d, (cx_shared us). rewrite lookup_insert_eq. split_and!; [exact H1|exact H2|easy|]. rewrite Hopen. cbn. congruence.
    + exact Ho.
    + exact Hn.
    + now rewrite Hdrop.
  - eexists. split; [apply loaded_some; cbn; rewrite Hcell; apply lookup_insert_eq|]. now destruct us.
Qed.

Lemma poll_cell fuel (x x' : Mux C O W S) (cn cn' : conn RW) :
  poll_conn fuel cn x = (x', Ret (Some cn')) -> ms_cell (cn_stream cn') = ms_cell (cn_stream cn).
Proof.
  unfold poll_conn, mbind, M_bind, on_stream. destruct (mx_cells x !! ms_cell (cn_stream cn)) as [sh|]; [|easy].
  set (k0 := MkCopy _ _ _ _). destruct (same_copy fuel k0) as (Hcell & _). destruct (copy_poll fuel k0).1 as [us o rs ws].
  cbn in Hcell |- *. now intros [= _ <-].
Qed.

(** What others do is nothing to it. *)
Lemma side_calm x x' cn k : side x cn k -> calm id (ms_cell (cn_stream cn)) x x' -> side x' cn k.
Proof.
  intros ((Hown & Hlive & Hroom) & Hflow & c & Hc & <-) Hcalm. apply loaded_inv in Hc as (sh & Hsh & ->).
  destruct (calm_frames _ _ _ _ Hcalm (proj1 Hlive)) as (Hlive' & Hours & Hty).
  split; [exact (conj (own_calm _ _ _ _ Hown Hcalm) (conj (conj Hlive' (Hty (proj2 Hlive))) (calm_room _ _ _ _ Hcalm Hroom)))|]. split; [exact Hflow|].
  eexists. split; [apply loaded_some; rewrite (calm_cell _ _ _ _ Hcalm); exact Hsh|].
  unfold view_copy, view, own_tx. cbn. now rewrite Hours.
Qed.

(** The oldest message leaves. *)
Lemma side_sent x cn k tx e q :
  side x cn k -> queue (mx_tx_frame x) = e :: q -> chan_view tx = ChanState q None true (tx_open (mx_tx_frame x)) ->
  side (set_tx x tx) cn (with_us k (with_tx (cb_us k) (ChanState (ours id q) None true true))).
Proof.
  intros ((Hown & Hlive & Hroom) & Hflow & c & Hc & <-) Hq Htx. apply loaded_inv in Hc as (sh & Hsh & ->).
  split; [split; [now destruct Hown|split; [|exact Hroom]]|split; [exact Hflow|]].
  { unfold mux_live. cbn. rewrite Htx. split; [easy|]. destruct Hlive as [_ Hty]. rewrite Hq in Hty. now apply Forall_cons_iff in Hty. }
  eexists. split; [apply loaded_some; exact Hsh|]. unfold view_copy, view, own_tx. cbn. now rewrite Htx.
Qed.

Lemma own_received (x : Mux C O W S) cell d sh p :
  own id cell x -> mx_flows x !! id = Some (Established d) -> esd_cell d = cell -> mx_cells x !! cell = Some sh ->
  tx_open (sh_frames sh) = esd_sender d ->
  match p with
  | Push data => esd_sender d = true /\ (try_send (cow_into_owned data) (sh_frames sh)).2 <> Some TrySendFull
  | Finish => esd_sender d = true
  | Acknowledge _ => True
  | _ => False
  end -> own id cell (process_frame (MkFrame id p) false x).1 /\ (roomy x -> roomy (process_frame (MkFrame id p) false x).1).
Proof.
  intros [_ Ho Hn Hd] Hs Hc Hsh Hopen Hp. destruct p as [|n| | |data| |]; try easy;
    unfold process_frame; cbn [frame_payload frame_id]; rewrite bind_get, Hs.
  - split; [|easy]. split; cbn; try easy. exists d, (acknowledge_cell n sh). rewrite Hc, lookup_alter_eq, Hsh. now split_and!.
  - unfold disallow_read, mbind, M_bind, update_cell, modify, put_flow, modify. rewrite Hp. cbn [mret M_ret esd_cell].
    split; [|easy]. split; cbn; try easy.
    + exists (MkEsd false cell), (set_frames sh (tx_drop (sh_frames sh))). rewrite Hc, lookup_insert_eq, lookup_alter_eq, Hsh. cbn.
      split_and!; try easy. now rewrite view_tx_drop.
    + intros i s Hi Hfi. rewrite lookup_insert_ne in Hfi by congruence. now apply Ho.
  - destruct Hp as [Hsend Hfull]. unfold mbind at 1, M_bind at 1, mbind at 2, M_bind at 2, dispatch. rewrite Hsend, Hc, Hsh.
    pose proof (view_try_send _ (cow_into_owned data) (sh_frames sh)) as Hv.
    destruct (spec_send_flags (cow_into_owned data) (chan_view (sh_frames sh))) as (_ & Ht & _).
    destruct (try_send (cow_into_owned data) (sh_frames sh)) as [fr e]. cbn [fst snd] in *. rewrite <- Hv in Ht.
    set (x1 := set_cells x _ _). assert (H : own id cell x1); [|destruct e as [[]|]; [congruence|now split|now split]].
    split; cbn; try easy. exists d, (set_frames sh fr). rewrite lookup_insert_eq. split_and!; try easy. cbn. congruence.
Qed.

(** A frame of the connection is received by the end it is for. *)
Lemma side_received x cn k p :
  side x cn k ->
  match p with Push _ | Finish => tx_open (sh_frames (cx_shared (cb_us k))) = true | Acknowledge _ => True | _ => False end ->
  (receive (MkFrame id p) (cb_us k)).2 = false ->
  let '(x', r) := process_frame (MkFrame id p) false x in
  r = Ret tt /\ side x' cn (with_us k (receive (MkFrame id p) (cb_us k)).1).
Proof.
  intros ((Hown & Hlive & Hroom) & Hflow & c & Hc & <-) Hp Hfull. apply loaded_inv in Hc as (sh & Hsh & ->).
  destruct Hown as [(d & sh' & Hslot & Hcell & Hsh' & Hopen) Ho Hn Hd]. rewrite Hsh in Hsh'. injection Hsh' as <-.
  set (c0 := MkCtx (cn_stream cn) sh (mx_tx_frame x) (mx_dropped_ports x)) in *. cbn [view_copy cb_us] in *.
  destruct (view_receive id (MkFrame id p) c0) as [Hv _]. rewrite Hv in *. cbn [fst snd] in *.
  pose proof (receive_is_process_frame x id p (cn_stream cn) d c0 Hslot Hcell) as H.
  assert (Hctx : ctx_of x (cn_stream cn) = Some c0) by (unfold ctx_of; now rewrite Hsh).
  assert (Hsend : match p with Push _ | Finish => esd_sender d = true | Acknowledge _ => True | _ => False end).
  { unfold view in Hp. cbn in Hp. rewrite <- Hopen. now destruct p. }
  specialize (H Hctx Hsend Hfull).
  assert (Hown : own id (ms_cell (cn_stream cn)) (process_frame (MkFrame id p) false x).1
                 /\ (roomy x -> roomy (process_frame (MkFrame id p) false x).1)).
  { apply (own_received x _ d sh); try easy; [split; [now exists d, sh|easy..]|]. destruct p as [| | | |data| |]; try easy.
    split; [exact Hsend|]. unfold receive, deliver_push in Hfull. cbn in Hfull. intros E.
    destruct (try_send (cow_into_owned data) (sh_frames sh)) as [fr e]. cbn in E. now subst e. }
  destruct (process_frame (MkFrame id p) false x) as [x' r]. destruct H as [-> Hctx']. split; [easy|]. cbn [fst] in Hown.
  assert (Hrec : live_end id (receive (MkFrame id p) c0).1) by now apply (view_receive id).
  assert (Htx : cx_tx (receive (MkFrame id p) c0).1 = mx_tx_frame x').
  { unfold ctx_of in Hctx'. destruct (mx_cells x' !! _); [|easy]. cbn in Hctx'. now injection Hctx' as <-. }
  split; [split; [apply Hown|split; [unfold mux_live; rewrite <- Htx; exact (proj2 Hrec)|now apply Hown]]|]. split; [exact Hflow|].
  unfold loaded. rewrite Hctx'. eexists. split; [reflexivity|easy].
Qed.

End Side.

(** *** Both ends *)

Section Pair.
Context {C : Type -> Type} `{!Mpsc C} {O : Type -> Type} `{!Oneshot O} {W : Type} `{!Waker W} {Sx Sy : Type} `{!WebSocket Sx} `{!WebSocket Sy}.
Context {RWx RWy : Type} `{!BufRW RWx} `{!BufRW RWy}.
Variable id : Z.
Hypothesis Hid : u32_ok id.

Lemma side_tx {S RW} `{!WebSocket S} `{!BufRW RW} (x : Mux C O W S) (cn : conn RW) k :
  side id x cn k -> cx_tx (cb_us k) = ChanState (ours id (queue (mx_tx_frame x))) None true true.
Proof. intros (_ & _ & c & Hc & <-). now apply loaded_inv in Hc as (sh & _ & ->). Qed.

(** What the task waits with is of another. *)
Definition waits {RW} (cn : conn RW) (l : loop_state) : Prop := Forall (held id (ms_cell (cn_stream cn))) (unfinished l).

Lemma waits_one {RW} (cn : conn RW) p : waits cn (Waiting p) <-> held id (ms_cell (cn_stream cn)) p.
Proof. unfold waits. cbn. now rewrite Forall_singleton. Qed.

Lemma waits_resumed {RW} (cn : conn RW) p (o : outcome unit) : waits cn (Waiting p) -> waits cn (after_wait p o).
Proof. destruct o; cbn; try easy; intros _; apply Forall_nil_2. Qed.

Lemma waits_op {RW} (cn : conn RW) op l (o : outcome unit) : waits cn l -> waits cn (after_op op l o).
Proof. destruct op as [? ? []| | | | | | | | | | | | | | | | | |]; try easy. now destruct o. Qed.

(** A wait of the task that ends is nothing to the connection. *)
Lemma side_resumed {S RW} `{!WebSocket S} `{!BufRW RW} (x : Mux C O W S) (cn : conn RW) k p :
  side id x cn k -> waits cn (Waiting p) -> side id (run_op (OpResume p) x).1 cn k.
Proof.
  intros Hx Hp%waits_one. apply (side_calm id x); [exact Hx|]. destruct Hx as ((Hown & _) & _). destruct p; try easy; cbn in Hp |- *.
  - now apply calming_send_to_user.
  - now apply calming_send_bind_request.
Qed.

(** The oldest frame of the connection, as both sides of it see it. *)
Lemma wire_head ra rb (a b : Ctx chan_state W) e q :
  duo id ra rb a b -> queue (cx_tx a) = e :: q ->
  exists p, frame_try_from e = Ok (MkFrame id p)
    /\ match p with Push _ | Finish => tx_open (sh_frames (cx_shared b)) = true | Acknowledge _ => True | _ => False end.
Proof.
  intros ((_ & _ & Hwa) & _ & fs & gs & Hfs & _ & Hwf & _ & Hab & Hba) Hq. rewrite Hfs in Hq.
  destruct fs as [|w fs]; [easy|]. injection Hq as <- _.
  destruct (half_acks _ _ _ _ _ Hba Hwa Hwf) as [_ Hacks]. apply Forall_cons_iff in Hwf as [Hw _], Hacks as [Hn _].
  exists (frame_payload (frame_owned (wire_frame id w))). rewrite (wire_decodes id w Hid Hw Hn). split; [now destruct w|].
  pose proof (hf_fin _ _ _ _ _ Hab) as Hfin. unfold fin_state in Hfin.
  destruct w as [d|n|]; cbn [wire_frame new_push new_acknowledge new_finish frame_owned frame_payload payload_owned]; try exact I;
    destruct (sh_finish_sent (cx_shared a)), (tx_open (sh_frames (cx_shared b))); try easy;
    apply Forall_cons_iff in Hfin as [Hx _]; easy.
Qed.

(** The oldest message of a live queue, and what is left of the queue. *)
Lemma hand_over_head {S S'} `{!WebSocket S} `{!WebSocket S'} (x : Mux C O W S) (y : Mux C O W S') e q :
  mux_live x -> queue (mx_tx_frame x) = e :: q ->
  exists tx, chan_view tx = ChanState q None true (tx_open (mx_tx_frame x))
    /\ hand_over x y = let '(y', r) := process_message (MsgBinary e) false y in Some (set_tx x tx, y', after_message r).
Proof.
  intros [Hrx Hcap] Hq. unfold hand_over.
  pose proof (view_poll_recv _ (mx_tx_frame x)) as Hv. pose proof (res_poll_recv _ (mx_tx_frame x)) as Hr.
  destruct (poll_recv (mx_tx_frame x)) as [tx r]. cbn [fst snd] in Hv, Hr. unfold spec_recv in *. rewrite Hq in *. cbn [fst snd] in *.
  rewrite Hcap, Hrx in Hv. subst r. now exists tx.
Qed.

Lemma hand_over_some {S S'} `{!WebSocket S} `{!WebSocket S'} (x x' : Mux C O W S) (y y' : Mux C O W S') w :
  hand_over x y = Some (x', y', w) -> exists e q, queue (mx_tx_frame x) = e :: q.
Proof.
  unfold hand_over. pose proof (res_poll_recv _ (mx_tx_frame x)) as Hr. destruct (poll_recv (mx_tx_frame x)) as [tx [[e|]|]]; try easy.
  cbn [snd] in Hr. unfold spec_recv in Hr. destruct (queue (mx_tx_frame x)) as [|e0 q]; [now destruct (_ && _)|]. eauto.
Qed.

(** A frame of the connection crosses as it does alone. *)
Lemma sides_own ra rb (x : Mux C O W Sx) (y : Mux C O W Sy) (cx : conn RWx) (cy : conn RWy) kx ky e q :
  side id x cx kx -> side id y cy ky -> duo id ra rb (cb_us kx) (cb_us ky) -> queue (mx_tx_frame x) = e :: q -> about id e = true ->
  exists x' y', hand_over x y = Some (x', y', Serving)
    /\ let '(ua, ub, _) := cross (cb_us kx) (cb_us ky) in side id x' cx (with_us kx ua) /\ side id y' cy (with_us ky ub).
Proof.
  intros Hx Hy Hd Hq Ha. pose proof (side_tx x cx kx Hx) as Htx. pose proof Hx as ((_ & [Hlive _] & _) & _).
  destruct (hand_over_head x y e q Hlive Hq) as (tx & Hv & ->). rewrite Hq in Htx. cbn [ours List.filter] in Htx. rewrite Ha in Htx.
  pose proof (cross_ok id ra rb _ _ Hid Hd) as Hcross.
  destruct (wire_head ra rb _ _ e (ours id q) Hd) as (p & Hp & Hkind); [now rewrite Htx|].
  unfold cross, take_frame in *. rewrite Htx in *. cbn [poll_recv list_mpsc spec_recv cs_queue] in *. rewrite Hp in *.
  assert (Hfull : (receive (MkFrame id p) (cb_us ky)).2 = false) by (destruct (receive _ (cb_us ky)); apply Hcross).
  pose proof (side_received id y cy ky p Hy Hkind Hfull) as Hrec.
  unfold process_message, mbind, M_bind, lift in *. rewrite Hp in *. cbn [map_err] in *.
  destruct (process_frame (MkFrame id p) false y) as [y1 r]. destruct Hrec as [-> Hside].
  destruct (receive (MkFrame id p) (cb_us ky)) as [ub full]. cbn [fst] in *. eexists _, _. split; [reflexivity|]. split; [|exact Hside].
  exact (side_sent id x cx kx tx e q Hx Hq Hv).
Qed.

(** The message of another is nothing to it. *)
Lemma sides_other (x x' : Mux C O W Sx) (y y' : Mux C O W Sy) w (cx : conn RWx) (cy : conn RWy) kx ky e q :
  side id x cx kx -> side id y cy ky -> queue (mx_tx_frame x) = e :: q -> about id e = false -> hand_over x y = Some (x', y', w) ->
  side id x' cx kx /\ side id y' cy ky /\ queue (mx_tx_frame x') = q /\ waits cy w.
Proof.
  intros Hx Hy Hq Ha Ht. pose proof Hx as ((_ & [Hlive Hty] & _) & _). destruct (hand_over_head x y e q Hlive Hq) as (tx & Hv & Et).
  rewrite Et in Ht. clear Et. rewrite Hq in Hty. apply Forall_cons_iff in Hty as [Hok Hty]. specialize (Hok Ha).
  pose proof Hy as ((Howny & _) & _). pose proof (held_message id (ms_cell (cn_stream cy)) e false y) as Hheld.
  assert (Hafter : (process_message (MsgBinary e) false y).1 = y' /\ set_tx x tx = x' /\ waits cy w).
  { destruct (process_message (MsgBinary e) false y) as [y1 [[]| | |p]]; injection Ht as <- <- <-; try (split_and!; try easy; apply Forall_nil_2).
    split_and!; [easy..|]. apply waits_one. now apply Hheld. }
  destruct Hafter as (<- & <- & Hw). split; [|split; [|split; [|exact Hw]]].
  - apply (side_calm id x); [exact Hx|]. split; auto. intros _. unfold mux_live. cbn. rewrite Hv, Hq. cbn. rewrite Ha. now split_and!.
  - apply (side_calm id y); [exact Hy|]. now apply calming_alien_message.
  - cbn. now rewrite Hv.
Qed.

Lemma sides_cross ra rb (x x' : Mux C O W Sx) (y y' : Mux C O W Sy) w (cx : conn RWx) (cy : conn RWy) kx ky :
  side id x cx kx -> side id y cy ky -> duo id ra rb (cb_us kx) (cb_us ky) -> hand_over x y = Some (x', y', w) ->
  waits cy w /\ ((side id x' cx kx /\ side id y' cy ky)
    \/ let '(ua, ub, _) := cross (cb_us kx) (cb_us ky) in side id x' cx (with_us kx ua) /\ side id y' cy (with_us ky ub)).
Proof.
  intros Hx Hy Hd Ht. destruct (hand_over_some x x' y y' w Ht) as (e & q & Hq). destruct (about id e) eqn:Ha.
  - destruct (sides_own ra rb x y cx cy kx ky e q Hx Hy Hd Hq Ha) as (x1 & y1 & E & H). rewrite E in Ht. injection Ht as <- <- <-.
    split; [apply Forall_nil_2|now right].
  - destruct (sides_other x x' y y' w cx cy kx ky e q Hx Hy Hq Ha Ht) as (H1 & H2 & _ & Hw). split; [exact Hw|now left].
Qed.

End Pair.

Section Whole.
Context {C : Type -> Type} `{!Mpsc C} {O : Type -> Type} `{!Oneshot O} {W : Type} `{!Waker W}
  {S1 S2 : Type} `{!WebSocket S1} `{!WebSocket S2} {RW1 RW2 : Type} `{!BufRW RW1} `{!BufRW RW2}.

#[local] Abbreviation among := (@among C O W S1 S2 RW1 RW2).
#[local] Abbreviation alone := (@duplex chan_state W RW1 RW2).

(** The connection seen alone. *)
Definition stands (id : Z) (a : among) (d : alone) : Prop :=
  side id (am_client a) (am_local a) (dx_client d) /\ side id (am_server a) (am_remote a) (dx_server d)
  /\ waits id (am_local a) (am_client_loop a) /\ waits id (am_remote a) (am_server_loop a).

(** Every step is none, or one of the conversation. *)
Lemma step_alone id ra rb a a' d :
  among_step id a a' -> stands id a d -> duplex_ok id ra rb d -> exists ops, stands id a' (duplex_run ops d).1.
Proof.
  intros Hstep (Hc & Hs & Hwc & Hws) (Hid & Hd & _). destruct d as [kc ks].
  destruct Hstep as [? ? _ [fuel x y cl cr lx ly x' cl' Hp|fuel x y cl cr lx ly y' cr' Hp|x y cl cr lx x' y' l Ht|x y cl cr ly x' y' l Ht
    |p x y cl cr lx y' r Hr|p x y cl cr ly x' r Hr]|op x y cl cr lx ly x' r _ Hop Hr|op x y cl cr lx ly y' r _ Hop Hr|x y cl cr lx ly _|x y cl cr lx ly _];
    unfold stands; cbn [am_client am_server am_local am_remote am_client_loop am_server_loop dx_client dx_server] in *.
  - exists [PollClient fuel]. pose proof (poll_cell fuel x x' cl cl' Hp) as Hcell. unfold waits in *. rewrite Hcell.
    split; [exact (side_poll id Hid fuel x x' cl cl' kc Hc Hp)|easy].
  - exists [PollServer fuel]. pose proof (poll_cell fuel y y' cr cr' Hp) as Hcell. unfold waits in *. rewrite Hcell.
    split; [exact Hc|]. split; [exact (side_poll id Hid fuel y y' cr cr' ks Hs Hp)|easy].
  - destruct (sides_cross id Hid ra rb x x' y y' l cl cr kc ks Hc Hs Hd Ht) as [Hw [[H1 H2]|H]]; [now exists []|].
    exists [FrameToServer]. unfold duplex_run, duplex_step. cbn [dx_client dx_server].
    now destruct (cross (cb_us kc) (cb_us ks)) as [[ua ub] full].
  - destruct (sides_cross id Hid rb ra y y' x x' l cr cl ks kc Hs Hc (duo_sym _ _ _ _ _ Hd) Ht) as [Hw [[H1 H2]|H]]; [now exists []|].
    exists [FrameToClient]. unfold duplex_run, duplex_step. cbn [dx_client dx_server].
    now destruct (cross (cb_us ks) (cb_us kc)) as [[ub ua] full].
  - exists []. pose proof (side_resumed id y cr ks p Hs Hws) as H. rewrite Hr in H.
    split; [exact Hc|]. split; [exact H|]. split; [exact Hwc|]. now apply waits_resumed.
  - exists []. pose proof (side_resumed id x cl kc p Hc Hwc) as H. rewrite Hr in H.
    split; [exact H|]. split; [exact Hs|]. split; [|exact Hws]. now apply waits_resumed.
  - exists []. pose proof (side_calm id x _ cl kc Hc (other_op_calm _ _ x op (proj1 (proj1 Hc)) Hop)) as H. rewrite Hr in H.
    split; [exact H|]. split; [exact Hs|]. split; [|exact Hws]. now apply waits_op.
  - exists []. pose proof (side_calm id y _ cr ks Hs (other_op_calm _ _ y op (proj1 (proj1 Hs)) Hop)) as H. rewrite Hr in H.
    split; [exact Hc|]. split; [exact H|]. split; [exact Hwc|]. now apply waits_op.
  - now exists [].
  - now exists [].
Qed.

Lemma steps_alone id ra rb a a' d :
  rtc (among_step id) a a' -> stands id a d -> duplex_ok id ra rb d -> exists ops, stands id a' (duplex_run ops d).1.
Proof.
  intros Hrun. revert d. induction Hrun as [a|a b c Hstep _ IH]; intros d Hst Hok; [now exists []|].
  destruct (step_alone id ra rb a b d Hstep Hst Hok) as [ops Hst1].
  destruct (duplex_run_ok id ra rb ops d Hok) as (_ & Hok1 & _). destruct (IH _ Hst1 Hok1) as [more Hst2].
  exists (ops ++ more). now rewrite duplex_run_app.
Qed.

(** *** The start *)

(** The connection as the handshake leaves it: established on both sides,
    nothing of it under way yet, whatever else is. *)
Definition among_start (id ra rb ta tb : Z) (a : among) (ca cb : Ctx C W) : Prop :=
  place id (ms_cell (cn_stream (am_local a))) (am_client a) /\ waits id (am_local a) (am_client_loop a)
  /\ place id (ms_cell (cn_stream (am_remote a))) (am_server a) /\ waits id (am_remote a) (am_server_loop a)
  /\ loaded (am_client a) (am_local a) = Some (into_copy_bidirectional_with_buf ca (cn_other (am_local a)))
  /\ loaded (am_server a) (am_remote a) = Some (into_copy_bidirectional_with_buf cb (cn_other (am_remote a)))
  /\ link_start id rb tb (view id ca) (view id cb) /\ link_start id ra ta (view id cb) (view id ca).

Lemma start_stands id ra rb ta tb a ca cb :
  among_start id ra rb ta tb a ca cb ->
  stands id a (MkDuplex (into_copy_bidirectional_with_buf (view id ca) (cn_other (am_local a)))
                        (into_copy_bidirectional_with_buf (view id cb) (cn_other (am_remote a)))).
Proof.
  intros (H1 & W1 & H2 & W2 & H5 & H6 & (_ & _ & _ & H7 & H8 & _) & _). cbn in H7, H8.
  pose proof (loaded_inv _ _ _ H5) as (sha & _ & Ea). pose proof (loaded_inv _ _ _ H6) as (shb & _ & Eb).
  injection Ea as Ea _ _. injection Eb as Eb _ _. rewrite Ea in H7. rewrite Eb in H8. split; [|split; [|easy]].
  - split; [exact H1|]. split; [exact H7|]. eexists. split; [exact H5|reflexivity].
  - split; [exact H2|]. split; [exact H8|]. eexists. split; [exact H6|reflexivity].
Qed.

(** *** When a task has left *)

(** What was received of the connection can still be read when its task has
    wound down, whatever it left unfinished. *)
Lemma side_left {S RW} `{!WebSocket S} `{!BufRW RW} id (x : Mux C O W S) (cn : conn RW) k ka why others polls fuel br :
  side id x cn k -> waits id cn (Left why others) -> loaded x cn = Some ka ->
  exists ka' more, loaded (after_select polls fuel br others x).1 cn = Some ka'
    /\ unread (cb_us ka') = unread (cb_us ka) ++ more /\ cb_other ka' = cb_other ka.
Proof.
  intros ((Hown & _) & _) Hw Hka. apply loaded_inv in Hka as (sh & Hsh & ->).
  pose proof (keeping_after_select _ id polls fuel br others Hw x (own_fresh _ _ _ Hown)) as [_ Hkept].
  destruct (Hkept sh Hsh) as (sh' & more & Hsh' & E). eexists _, (concat more).
  split; [apply loaded_some; exact Hsh'|]. unfold unread. cbn. now rewrite E, concat_app, app_assoc.
Qed.

(** A message of the connection is not what ends a task or makes it wait. *)
Lemma own_goes_on id ra rb (a : among) d :
  stands id a d -> duplex_ok id ra rb d ->
  (forall e q, queue (mx_tx_frame (am_client a)) = e :: q -> about id e = true ->
     exists x' y', hand_over (am_client a) (am_server a) = Some (x', y', Serving))
  /\ (forall e q, queue (mx_tx_frame (am_server a)) = e :: q -> about id e = true ->
     exists y' x', hand_over (am_server a) (am_client a) = Some (y', x', Serving)).
Proof.
  intros (Hc & Hs & _) (Hid & Hd & _). split; intros e q Hq Ha.
  - destruct (sides_own id Hid ra rb _ _ _ _ _ _ e q Hc Hs Hd Hq Ha) as (x' & y' & H & _). eauto.
  - destruct (sides_own id Hid rb ra _ _ _ _ _ _ e q Hs Hc (duo_sym _ _ _ _ _ Hd) Hq Ha) as (x' & y' & H & _). eauto.
Qed.

(** ** Properties *)

(** C2: a connection behaves among any others as it does alone: two
    multiplexors, with any number of streams being opened, used, reset and
    dropped, of datagrams and of bind requests on both sides, take a connection
    nowhere the conversation of its two copiers would not take it by itself, as
    long as both tasks run and up to the moment one of them leaves its loops: a
    message of another that fails does that, and so does the end of the
    WebSocket.  Until then its octets arrive, in order, none lost and none
    twice, its queue is never found full, and a copier that is done reading has
    passed everything on; and no message of its own ends a task or makes it
    wait.  When a task has left, what it received can still be read once it has
    wound down; what was under way or not yet sent need not arrive.  The users
    keep both multiplexors throughout. *)
Theorem connection_among_others id ra rb ta tb a a' ca cb :
  among_start id ra rb ta tb a ca cb -> rtc (among_step id) a a' ->
  let oa := cn_other (am_local a) in
  let ob := cn_other (am_remote a) in
  exists ops ka kb,
    loaded (am_client a') (am_local a') = Some ka /\ loaded (am_server a') (am_remote a') = Some kb
    /\ duplex_run ops (MkDuplex (into_copy_bidirectional_with_buf (view id ca) oa) (into_copy_bidirectional_with_buf (view id cb) ob))
       = (MkDuplex (view_copy id ka) (view_copy id kb), false)
    /\ rw_out (cb_other kb) ++ unread (cb_us kb) ++ pushed (ours id (queue (mx_tx_frame (am_client a')))) ++ rw_in (cb_other ka)
       = rw_out ob ++ rw_in oa
    /\ rw_out (cb_other ka) ++ unread (cb_us ka) ++ pushed (ours id (queue (mx_tx_frame (am_server a')))) ++ rw_in (cb_other kb)
       = rw_out oa ++ rw_in ob
    /\ (read_done kb -> rw_out (cb_other kb) = rw_out ob ++ rw_in oa)
    /\ (read_done ka -> rw_out (cb_other ka) = rw_out oa ++ rw_in ob)
    /\ (forall e q, queue (mx_tx_frame (am_client a')) = e :: q -> about id e = true ->
          exists x y, hand_over (am_client a') (am_server a') = Some (x, y, Serving))
    /\ (forall e q, queue (mx_tx_frame (am_server a')) = e :: q -> about id e = true ->
          exists y x, hand_over (am_server a') (am_client a') = Some (y, x, Serving))
    /\ (forall why others polls fuel br, am_client_loop a' = Left why others ->
          exists ka' more, loaded (after_select polls fuel br others (am_client a')).1 (am_local a') = Some ka'
            /\ unread (cb_us ka') = unread (cb_us ka) ++ more /\ cb_other ka' = cb_other ka)
    /\ (forall why others polls fuel br, am_server_loop a' = Left why others ->
          exists kb' more, loaded (after_select polls fuel br others (am_server a')).1 (am_remote a') = Some kb'
            /\ unread (cb_us kb') = unread (cb_us kb) ++ more /\ cb_other kb' = cb_other kb).
Proof.
  intros Hstart Hrun oa ob. pose proof (start_stands _ _ _ _ _ _ _ _ Hstart) as Hst. fold oa ob in Hst.
  destruct Hstart as (_ & _ & _ & _ & _ & _ & Ha & Hb).
  pose proof (duplex_start_ok id ra rb ta tb (view id ca) (view id cb) oa ob Ha Hb) as Hok.
  pose proof (start_flows id ra rb ta tb (view id ca) (view id cb) oa ob Ha Hb) as Hflow. set (d := MkDuplex _ _) in *.
  destruct (steps_alone id ra rb a a' d Hrun Hst Hok) as [ops Hst'].
  destruct (duplex_run_ok id ra rb ops d Hok) as (Hfull & Hok' & Hfl).
  destruct (own_goes_on id ra rb a' _ Hst' Hok') as [Hoc Hos]. destruct Hok' as (Hid & Hd & Hsa & Hsb).
  destruct Hst' as (Hc & Hs & Wc & Ws). pose proof Hc as (_ & _ & ka & Hka & Va). pose proof Hs as (_ & _ & kb & Hkb & Vb).
  exists ops, ka, kb. split; [exact Hka|]. split; [exact Hkb|]. rewrite Hflow in Hfl.
  destruct (duplex_run ops d) as [[da db] full]. cbn [fst snd dx_client dx_server] in *. subst da db full.
  unfold flows in Hfl. cbn [dx_client dx_server] in Hfl. injection Hfl as Hab Hba. split; [easy|].
  pose proof (loaded_inv _ _ _ Hka) as (sha & _ & Ea). pose proof (loaded_inv _ _ _ Hkb) as (shb & _ & Eb).
  assert (Ta : cx_tx (cb_us ka) = mx_tx_frame (am_client a')) by now rewrite Ea. assert (Tb : cx_tx (cb_us kb) = mx_tx_frame (am_server a')) by now rewrite Eb.
  rewrite <- Ta, <- Tb. split; [exact Hab|]. split; [exact Hba|]. split; [|split; [|split; [now rewrite Ta|split; [now rewrite Tb|split]]]].
  - intros Hdone. rewrite <- Hab. symmetry. now apply (done_flow id ra rb _ (view_copy id kb)).
  - intros Hdone. rewrite <- Hba. symmetry. apply (done_flow id rb ra _ (view_copy id ka)); try easy. now apply duo_sym.
  - intros why others polls fuel br E. rewrite E in Wc. exact (side_left id _ _ _ ka why others polls fuel br Hc Wc Hka).
  - intros why others polls fuel br E. rewrite E in Ws. exact (side_left id _ _ _ kb why others polls fuel br Hs Ws Hkb).
Qed.

End Whole.

(** ** A concrete run *)

(** The connection the handshake of Handshake.v opened, between a local side
    that says five octets and a remote one that answers three; meanwhile the
    client opens another stream, which the server accepts. *)
Definition opened := handshake [7; 9] (bytes_of_string "db") 5432 caller callee.

Definition example_among : @among chan_state shot_state bool MemWs MemWs MemRW MemRW :=
  MkAmong (run_op (OpAwaitStream 0) opened.1).1 (run_op OpAccept opened.2).1
    (MkConn (MkMuxStream 0 7 [] 0 0 [] 64) (MkMemRW [1; 2; 3; 4; 5] [] 9 true) (RTransferring 0) (WTransferring 0))
    (MkConn (MkMuxStream 0 7 (bytes_of_string "db") 5432 0 [] 256) (MkMemRW [6; 7; 8] [] 2 true) (RTransferring 0) (WTransferring 0)) Serving Serving.

Definition run_conn {S RW} `{!WebSocket S} `{!BufRW RW} (p : Mux chan_state shot_state bool S * conn RW) : Mux chan_state shot_state bool S * conn RW :=
  match poll_conn 9 p.2 p.1 with (x, Ret (Some cn)) => (x, cn) | _ => p end.

Definition pass {S S'} (p : Mux chan_state shot_state bool S * Mux chan_state shot_state bool S') :=
  match hand_over p.1 p.2 with Some (x, y, _) => (x, y) | None => p end.

Definition example_end : @among chan_state shot_state bool MemWs MemWs MemRW MemRW :=
  let '(MkAmong x y l r _ _) := example_among in
  let x := (run_op (OpNewStream [7; 9] (bytes_of_string "web") 80) x).1 in
  let '(x, l) := run_conn (x, l) in
  let '(x, y) := pass (pass (pass (x, y))) in
  let '(y, r) := run_conn (y, r) in
  let '(y, x) := pass (pass (pass (y, x))) in
  let '(x, l) := run_conn (x, l) in
  MkAmong x y l r Serving Serving.

Ltac runs := split; vm_compute; intros [].

Lemma example_run : rtc (among_step 7) example_among example_end.
Proof.
  eapply rtc_l; [eapply (client_others 7 (OpNewStream [7; 9] (bytes_of_string "web") 80)); [runs| |vm_compute; reflexivity]|].
  { split; [repeat (apply Forall_cons_2; [split; [discriminate|reflexivity]|]); apply Forall_nil_2|apply bytes_of_string_ok]. }
  eapply rtc_l; [eapply conn_steps, (client_polls 9); [runs|vm_compute; reflexivity]|].
  do 3 (eapply rtc_l; [eapply conn_steps, to_server; [runs|vm_compute; reflexivity]|]).
  eapply rtc_l; [eapply conn_steps, (server_polls 9); [runs|vm_compute; reflexivity]|].
  do 3 (eapply rtc_l; [eapply conn_steps, to_client; [runs|vm_compute; reflexivity]|]).
  eapply rtc_l; [eapply conn_steps, (client_polls 9); [runs|vm_compute; reflexivity]|].
  vm_compute. apply rtc_refl.
Qed.

(** The five octets have reached the server, whose copier has not been polled;
    then a datagram of one octet ends its task. *)
Definition example_broken : @among chan_state shot_state bool MemWs MemWs MemRW MemRW :=
  let '(MkAmong x y l r _ _) := example_among in
  let '(x, l) := run_conn (x, l) in
  let x := (run_op (OpSendDatagram (MkMuxDatagram 1 (bytes_of_string "dns") 53 [0])) x).1 in
  let '(x, y) := pass (x, y) in
  match hand_over x y with
  | Some (x, y, w) => match w with
                      | Serving => match hand_over x y with Some (x, y, w) => MkAmong x y l r Serving w | None => example_among end
                      | _ => example_among
                      end
  | None => example_among
  end.

Lemma example_among_start :
  among_start 7 512 64 64 256 example_among
    (MkCtx (MkMuxStream 0 7 [] 0 0 [] 64) (MkShared (channel 512) false 64 false) unbounded_channel unbounded_channel)
    (MkCtx (MkMuxStream 0 7 (bytes_of_string "db") 5432 0 [] 256) (MkShared (channel 64) false 512 false) unbounded_channel unbounded_channel).
Proof.
  assert (Hown : forall x : TMux, mx_flows x = {[7 := Established (MkEsd true 0)]} -> mx_dropped_ports x = unbounded_channel ->
    mx_next_cell x = 1%nat -> (exists sh, mx_cells x !! 0%nat = Some sh /\ tx_open (sh_frames sh) = true) -> own 7 0 x).
  { intros x Hf Hd Hn (sh & Hsh & Ho). split; rewrite ?Hf, ?Hd, ?Hn; [|intros i s Hi|lia|easy].
    - exists (MkEsd true 0), sh. rewrite lookup_singleton_eq. now split_and!.
    - rewrite lookup_singleton_ne by congruence. easy. }
  unfold among_start. split_and!; try apply Forall_nil_2.
  - split; [apply Hown; [vm_compute; reflexivity..|]; eexists; split; vm_compute; reflexivity|].
    split; [split; [vm_compute; easy|apply Forall_nil_2]|]. split; [split; [discriminate|vm_compute; lia]|exact I].
  - split; [apply Hown; [vm_compute; reflexivity..|]; eexists; split; vm_compute; reflexivity|].
    split; [split; [vm_compute; easy|apply Forall_nil_2]|]. split; [split; [discriminate|vm_compute; lia]|exact I].
  - vm_compute. reflexivity.
  - vm_compute. reflexivity.
  - unfold link_start, in_width, tx_live. cbn. split_and!; easy || lia.
  - unfold link_start, in_width, tx_live. cbn. split_and!; easy || lia.
Qed.

Lemma example_break : rtc (among_step 7) example_among example_broken.
Proof.
  eapply rtc_l; [eapply conn_steps, (client_polls 9); [runs|vm_compute; reflexivity]|].
  eapply rtc_l; [eapply (client_others 7 (OpSendDatagram (MkMuxDatagram 1 (bytes_of_string "dns") 53 [0]))); [runs| |vm_compute; reflexivity]|].
  { split; [split; [discriminate|reflexivity]|]. split; [apply bytes_of_string_ok|]. apply Forall_singleton. split; [discriminate|reflexivity]. }
  do 3 (eapply rtc_l; [eapply conn_steps, to_server; [runs|vm_compute; reflexivity]|]).
  vm_compute. apply rtc_refl.
Qed.

Lemma connection_among_others_witness :
  (exists ka kb,
    loaded (am_client example_end) (am_local example_end) = Some ka /\ loaded (am_server example_end) (am_remote example_end) = Some kb
    /\ rw_out (cb_other kb) = [1; 2; 3; 4; 5] /\ rw_out (cb_other ka) = [6; 7; 8]
    /\ mx_flows (am_client example_end) !! 9 = Some (Established (MkEsd true 1)) /\ mx_flows (am_server example_end) !! 9 = Some (Established (MkEsd true 1)))
  /\ am_server_loop example_broken = Left (Failed (InvalidFrame FrameTooShort)) []
  /\ exists kb more, loaded (after_select 1 9 WsNextBranch [] (am_server example_broken)).1 (am_remote example_broken) = Some kb
       /\ unread (cb_us kb) = [1; 2; 3; 4; 5] ++ more.
Proof.
  split; [|split; [vm_compute; reflexivity|]].
  - destruct (connection_among_others 7 512 64 64 256 example_among example_end _ _ example_among_start example_run)
      as (ops & ka & kb & Ha & Hb & _ & _ & _ & Hda & Hdb & _). exists ka, kb.
    split; [exact Ha|]. split; [exact Hb|].
    assert (Ra : read_done ka) by (vm_compute in Ha; injection Ha as <-; now eexists).
    assert (Rb : read_done kb) by (vm_compute in Hb; injection Hb as <-; now eexists).
    split; [exact (Hda Rb)|]. split; [exact (Hdb Ra)|]. split; vm_compute; reflexivity.
  - destruct (connection_among_others 7 512 64 64 256 example_among example_broken _ _ example_among_start example_break)
      as (ops & ka & kb & _ & Hb & _ & _ & _ & _ & _ & _ & _ & _ & Hleft).
    destruct (Hleft (Failed (InvalidFrame FrameTooShort)) [] 1%nat 9%nat WsNextBranch ltac:(vm_compute; reflexivity)) as (kb' & more & Hb' & E & _).
    exists kb', more. split; [exact Hb'|]. rewrite E. vm_compute in Hb. now injection Hb as <-.
Defined.
