(* ===== verification/Delivery.v ===== *)
(** * From the request to the last octet

    A stream is opened, and whatever the other streams, datagrams and bind
    requests of both multiplexors do from then on, its connection can be
    brought to its end, unless one of the tasks leaves its loops first:
    Handshake.v, Among.v and Completion.v put together.  A task that waits for
    room in a queue of its users goes on as soon as one of them takes
    something, for which Bounds.v has that every such queue has room. *)

From S2P Require Import Prelude Runtime Frame Timing Config Stream Mux MuxInv Bounds MuxProps Datagrams FlowControl Handshake Duplex Completion.
From S2P Require Import Alone Others Among.

(** ** Definitions *)

Section Halt.
Context {C : Type -> Type} `{!Mpsc C} {O : Type -> Type} `{!Oneshot O} {W : Type} `{!Waker W}.

(** Two multiplexors and what the task of the second is at: messages from the
    first, waits that end, and users of the second who take what is queued for
    them. *)
Inductive moves {S S'} `{!WebSocket S'} : Mux C O W S * Mux C O W S' * loop_state -> Mux C O W S * Mux C O W S' * loop_state -> Prop :=
| moves_message x y x' y' l : hand_over x y = Some (x', y', l) -> moves (x, y, Serving) (x', y', l)
| moves_resume p x y y' r : run_op (OpResume p) y = (y', r) -> moves (x, y, Waiting p) (x, y', after_wait p r)
| moves_take op x y l : op = OpAccept \/ op = OpNextBind -> ~ has_left l -> moves (x, y, l) (x, (run_op op y).1, l).

(** Steps in which the others only take what is queued for them, and nothing
    cuts the WebSocket. *)
Inductive plain_step {S1 S2 RW1 RW2} `{!WebSocket S1} `{!WebSocket S2} `{!BufRW RW1} `{!BufRW RW2} : @among C O W S1 S2 RW1 RW2 -> @among C O W S1 S2 RW1 RW2 -> Prop :=
| plain_conn a a' : running a -> conn_step a a' -> plain_step a a'
| client_takes op x y cl cr lx ly :
    running (MkAmong x y cl cr lx ly) -> op = OpAccept \/ op = OpNextBind -> plain_step (MkAmong x y cl cr lx ly) (MkAmong (run_op op x).1 y cl cr lx ly)
| server_takes op x y cl cr lx ly :
    running (MkAmong x y cl cr lx ly) -> op = OpAccept \/ op = OpNextBind -> plain_step (MkAmong x y cl cr lx ly) (MkAmong x (run_op op y).1 cl cr lx ly).

(** One of the tasks has left its loops. *)
Definition halted {S1 S2 RW1 RW2} (a : @among C O W S1 S2 RW1 RW2) : Prop :=
  has_left (am_client_loop a) \/ has_left (am_server_loop a).

End Halt.

(** ** Lemmas *)

(** *** One direction *)

Section Direction.
Context {C : Type -> Type} `{!Mpsc C} {O : Type -> Type} `{!Oneshot O} {W : Type} `{!Waker W} {Sx Sy : Type} `{!WebSocket Sx} `{!WebSocket Sy}.
Context {RWx RWy : Type} `{!BufRW RWx} `{!BufRW RWy}.
Variable id : Z.
Hypothesis Hid : u32_ok id.

(** A task that waits goes on when a user takes one. *)
Lemma room_for cell (y : Mux C O W Sy) p p' :
  roomy y -> held id cell p -> (run_op (OpResume p) y).2 = Parked p' ->
  exists op y', (op = OpAccept \/ op = OpNextBind) /\ run_op (OpResume p) (run_op op y).1 = (y', Ret tt).
Proof.
  intros [Hs Hb] Hp Hr. destruct p as [s|r| | |]; try easy.
  - exists OpAccept. cbn in *. unfold send_to_user in *. pose proof (room_made s (mx_con_recv y) Hs) as Hmade.
    destruct (try_send s (mx_con_recv y)) as [q [[]|]]; [clear Hr| |easy]; [|exfalso].
    2: { now destruct (waitless_bind _ (fun _ => @throw C O W Sy unit SendStreamToClient) (waitless_drop_stream s) (fun _ => waitless_throw _) y p'). }
    specialize (Hmade eq_refl). unfold ignore_result, accept_stream_channel. destruct (poll_recv (mx_con_recv y)) as [q' r]. cbn [fst] in Hmade.
    replace (match recv_or_closed r with _ => _ end).1 with (set_queues y q' (mx_datagrams y) (mx_bnd y)) by now destruct r as [[]|].
    cbn. destruct (try_send s q') as [q2 e]. cbn in Hmade. subst e. eexists. split; [now left|reflexivity].
  - exists OpNextBind. cbn in *. unfold send_bind_request in *. destruct (mx_bnd y) as [q|] eqn:Hq; [|easy].
    pose proof (room_made r q Hb) as Hmade.
    destruct (try_send r q) as [q2 [[]|]]; [clear Hr|now destruct (waitless_bind_drop r y p')|easy].
    specialize (Hmade eq_refl). unfold ignore_result, next_bind_request. rewrite Hq. destruct (poll_recv q) as [q' t]. cbn [fst] in Hmade.
    replace (match recv_or_closed t with _ => _ end).1 with (set_queues y (mx_con_recv y) (mx_datagrams y) (Some q')) by now destruct t as [[]|].
    cbn. destruct (try_send r q') as [q3 e]. cbn in Hmade. subst e. eexists. split; [now right|reflexivity].
Qed.

Lemma goes_on (x : Mux C O W Sx) (y : Mux C O W Sy) (cy : conn RWy) ky w :
  side id y cy ky -> waits id cy w ->
  exists y' w', rtc moves (x, y, w) (x, y', w') /\ side id y' cy ky /\ waits id cy w' /\ (w' = Serving \/ has_left w').
Proof.
  intros Hy Hw. destruct w as [|p|why others]; [exists y, Serving; split_and!; auto; reflexivity| |exists y, (Left why others); split; [reflexivity|]; split; [exact Hy|]; split; [exact Hw|]; now right].
  pose proof (side_resumed id y cy ky p Hy Hw) as Hy1. destruct (run_op (OpResume p) y) as [y1 r] eqn:Hr. cbn [fst] in Hy1.
  assert (Hstep : moves (x, y, Waiting p) (x, y1, after_wait p r)) by now apply moves_resume.
  pose proof (waits_resumed id cy p r Hw) as Hw1.
  destruct r as [[]|e| |p']; cbn [after_wait] in *; try (eexists y1, _; split; [exact (rtc_once _ _ Hstep)|]; split; [exact Hy1|]; split; [exact Hw1|]; (now left) || (now right)).
  pose proof Hy as ((Hown & _ & Hroom) & _). destruct (room_for _ y p p' Hroom (proj1 (waits_one id cy p) Hw)) as (op & y2 & Hop & H2); [now rewrite Hr|].
  assert (Hy2 : side id (run_op op y).1 cy ky).
  { apply (side_calm id y); [exact Hy|]. apply other_op_calm; [exact Hown|]. now destruct Hop as [-> | ->]. }
  pose proof (side_resumed id _ cy ky p Hy2 Hw) as Hy3. rewrite H2 in Hy3.
  exists y2, Serving. split; [|split; [exact Hy3|split; [apply Forall_nil_2|now left]]].
  transitivity (x, (run_op op y).1, Waiting p); apply rtc_once; [now apply moves_take; [|intros []]|exact (moves_resume p _ _ _ _ H2)].
Qed.

(** Messages of others go by until none is left, one of the connection comes
    up, or the task ends. *)
Lemma others_pass (x : Mux C O W Sx) (y : Mux C O W Sy) w (cx : conn RWx) (cy : conn RWy) kx ky :
  side id x cx kx -> side id y cy ky -> waits id cy w ->
  exists x' y' w', rtc moves (x, y, w) (x', y', w') /\ side id x' cx kx /\ side id y' cy ky /\ waits id cy w'
    /\ (has_left w'
        \/ w' = Serving /\ (queue (mx_tx_frame x') = [] \/ exists e q, queue (mx_tx_frame x') = e :: q /\ about id e = true)).
Proof.
  remember (queue (mx_tx_frame x)) as q eqn:Hq. revert x y w Hq. induction q as [|e q IH]; intros x y w Hq Hx Hy Hw; symmetry in Hq;
    destruct (goes_on x y cy ky w Hy Hw) as (y1 & w1 & Hrun & Hy1 & Hw1 & [->|Hend]);
    try (exists x, y1, w1; split; [exact Hrun|]; split_and!; auto; fail).
  - exists x, y1, Serving. split; [exact Hrun|]. split_and!; auto.
  - destruct (about id e) eqn:Ha; [exists x, y1, Serving; split; [exact Hrun|]; split_and!; eauto 10|].
    pose proof Hx as ((_ & [Hlive _] & _) & _). destruct (hand_over_head x y1 e q Hlive Hq) as (tx & _ & Ht).
    destruct (process_message (MsgBinary e) false y1) as [y2 r].
    destruct (sides_other id x _ y1 y2 _ cx cy kx ky e q Hx Hy1 Hq Ha Ht) as (Hx2 & Hy2 & Hq2 & Hw2).
    destruct (IH _ y2 _ (eq_sym Hq2) Hx2 Hy2 Hw2) as (x' & y' & w' & Hrun' & H). exists x', y', w'. split; [|exact H].
    transitivity (x, y1, Serving); [exact Hrun|]. refine (rtc_l _ _ _ _ _ Hrun'). now apply moves_message.
Qed.

Lemma cross_nothing (a b : Ctx chan_state W) : cx_tx a = ChanState [] None true true -> cross a b = (a, b, false).
Proof. intros H. unfold cross, take_frame. rewrite H. cbn. destruct a. cbn in H. now subst. Qed.

(** So what crosses alone crosses. *)
Lemma crosses_among ra rb (x : Mux C O W Sx) (y : Mux C O W Sy) w (cx : conn RWx) (cy : conn RWy) kx ky :
  side id x cx kx -> side id y cy ky -> waits id cy w -> duo id ra rb (cb_us kx) (cb_us ky) ->
  exists x' y' w', rtc moves (x, y, w) (x', y', w')
    /\ waits id cy w'
    /\ (has_left w' \/ let '(ua, ub, _) := cross (cb_us kx) (cb_us ky) in side id x' cx (with_us kx ua) /\ side id y' cy (with_us ky ub)).
Proof.
  intros Hx Hy Hw Hd.
  destruct (others_pass x y w cx cy kx ky Hx Hy Hw) as (x1 & y1 & w1 & Hrun & Hx1 & Hy1 & Hw1 & [Hend|[-> [Hq|(e & q & Hq & Ha)]]]).
  - exists x1, y1, w1. auto.
  - exists x1, y1, Serving. split; [exact Hrun|]. split; [exact Hw1|]. right. pose proof (side_tx id x1 cx kx Hx1) as Htx. rewrite Hq in Htx.
    rewrite (cross_nothing (cb_us kx) (cb_us ky) Htx). destruct kx, ky. split; assumption.
  - destruct (sides_own id Hid ra rb x1 y1 cx cy kx ky e q Hx1 Hy1 Hd Hq Ha) as (x2 & y2 & Ht & H). exists x2, y2, Serving.
    split; [|split; [apply Forall_nil_2|now right]]. transitivity (x1, y1, Serving); [exact Hrun|]. apply rtc_once. now apply moves_message.
Qed.

End Direction.

(** *** Both *)

Section Whole.
Context {C : Type -> Type} `{!Mpsc C} {O : Type -> Type} `{!Oneshot O} {W : Type} `{!Waker W}
  {S1 S2 : Type} `{!WebSocket S1} `{!WebSocket S2} {RW1 RW2 : Type} `{!BufRW RW1} `{!BufRW RW2}.
Variable id : Z.

#[local] Abbreviation among := (@among C O W S1 S2 RW1 RW2).
#[local] Abbreviation alone := (@duplex chan_state W RW1 RW2).

(** Before a move the task had not left. *)
Lemma moves_running {S S'} `{!WebSocket S'} (p p' : Mux C O W S * Mux C O W S' * loop_state) : moves p p' -> ~ has_left p.2.
Proof. now intros []. Qed.

Lemma moves_to_server cl cr lx (p p' : Mux C O W S1 * Mux C O W S2 * loop_state) :
  ~ has_left lx -> rtc moves p p' -> rtc plain_step (MkAmong (RW1 := RW1) (RW2 := RW2) p.1.1 p.1.2 cl cr lx p.2) (MkAmong p'.1.1 p'.1.2 cl cr lx p'.2).
Proof.
  intros Hl. apply (rtc_congruence (fun p => MkAmong p.1.1 p.1.2 cl cr lx p.2)). intros q q' Hm.
  pose proof (moves_running q q' Hm) as Hr. destruct Hm as [x y x' y' l H|p0 x y y' r H|op x y l H _]; cbn [fst snd] in *.
  - apply plain_conn; [now split|now apply to_server].
  - apply plain_conn; [now split|now apply server_resumes].
  - now apply server_takes.
Qed.

Lemma moves_to_client cl cr ly (p p' : Mux C O W S2 * Mux C O W S1 * loop_state) :
  ~ has_left ly -> rtc moves p p' -> rtc plain_step (MkAmong (RW1 := RW1) (RW2 := RW2) p.1.2 p.1.1 cl cr p.2 ly) (MkAmong p'.1.2 p'.1.1 cl cr p'.2 ly).
Proof.
  intros Hl. apply (rtc_congruence (fun p => MkAmong p.1.2 p.1.1 cl cr p.2 ly)). intros q q' Hm.
  pose proof (moves_running q q' Hm) as Hr. destruct Hm as [y x y' x' l H|p0 y x x' r H|op y x l H _]; cbn [fst snd] in *.
  - apply plain_conn; [now split|now apply to_client].
  - apply plain_conn; [now split|now apply client_resumes].
  - now apply client_takes.
Qed.

Lemma poll_conn_some {S RW} `{!WebSocket S} `{!BufRW RW} fuel (x : Mux C O W S) (cn : conn RW) k :
  side id x cn k -> exists x' cn', poll_conn fuel cn x = (x', Ret (Some cn')).
Proof.
  intros (_ & _ & c & Hc & _). apply loaded_inv in Hc as (sh & Hsh & _).
  unfold poll_conn, mbind, M_bind, on_stream. rewrite Hsh. cbn. eauto.
Qed.

Lemma left_dec l : has_left l \/ ~ has_left l.
Proof. destruct l; cbn; auto. Qed.

Lemma halted_or_running (a : among) : halted a \/ running a.
Proof. unfold halted, running. destruct (left_dec (am_client_loop a)), (left_dec (am_server_loop a)); auto. Qed.

(** Every step of the conversation alone can be taken among the others. *)
Lemma step_among ra rb op (a : among) (d : alone) :
  running a -> stands id a d -> duplex_ok id ra rb d ->
  exists a', rtc plain_step a a' /\ (halted a' \/ stands id a' (duplex_step op d).1).
Proof.
  intros Hr (Hc & Hs & Hwc & Hws) (Hid & Hd & _). pose proof Hr as [Hlx Hly]. destruct a as [x y cl cr lx ly], d as [kc ks].
  cbn [am_client am_server am_local am_remote am_client_loop am_server_loop dx_client dx_server] in *.
  destruct op as [fuel|fuel| |]; cbn [duplex_step dx_client dx_server fst].
  - destruct (poll_conn_some fuel x cl kc Hc) as (x' & cl' & Hp). exists (MkAmong x' y cl' cr lx ly).
    split; [apply rtc_once; apply plain_conn; [exact Hr|now apply (client_polls fuel)]|].
    right. split; [exact (side_poll id Hid fuel x x' cl cl' kc Hc Hp)|]. cbn. unfold waits in *. now rewrite (poll_cell fuel x x' cl cl' Hp).
  - destruct (poll_conn_some fuel y cr ks Hs) as (y' & cr' & Hp). exists (MkAmong x y' cl cr' lx ly).
    split; [apply rtc_once; apply plain_conn; [exact Hr|now apply (server_polls fuel)]|].
    right. split; [exact Hc|]. split; [exact (side_poll id Hid fuel y y' cr cr' ks Hs Hp)|]. cbn. unfold waits in *. now rewrite (poll_cell fuel y y' cr cr' Hp).
  - destruct (crosses_among id Hid ra rb x y ly cl cr kc ks Hc Hs Hws Hd) as (x' & y' & w' & Hrun & Hw & H). exists (MkAmong x' y' cl cr lx w').
    split; [exact (moves_to_server cl cr lx _ _ Hlx Hrun)|]. destruct H as [H|H]; [left; now right|right].
    now destruct (cross (cb_us kc) (cb_us ks)) as [[ua ub] full].
  - destruct (crosses_among id Hid rb ra y x lx cr cl ks kc Hs Hc Hwc (duo_sym _ _ _ _ _ Hd)) as (y' & x' & w' & Hrun & Hw & H). exists (MkAmong x' y' cl cr w' ly).
    split; [exact (moves_to_client cl cr ly _ _ Hly Hrun)|]. destruct H as [H|H]; [left; now left|right].
    now destruct (cross (cb_us ks) (cb_us kc)) as [[ub ua] full].
Qed.

Lemma run_among ra rb ops (a : among) (d : alone) :
  stands id a d -> duplex_ok id ra rb d ->
  exists a', rtc plain_step a a' /\ (halted a' \/ stands id a' (duplex_run ops d).1).
Proof.
  revert a d. induction ops as [|op ops IH]; intros a d Hst Hok; [exists a; split; [reflexivity|now right]|].
  destruct (halted_or_running a) as [Hh|Hr]; [exists a; split; [reflexivity|now left]|].
  destruct (step_among ra rb op a d Hr Hst Hok) as (a1 & Hrun & [Hh|Hst1]); [eauto|].
  destruct (duplex_step_ok id ra rb op d Hok) as (_ & Hok1 & _). destruct (IH a1 _ Hst1 Hok1) as (a2 & Hrun2 & H).
  exists a2. split; [now transitivity a1|]. cbn [duplex_run]. destruct (duplex_step op d) as [d1 full]. cbn [fst] in *.
  now destruct (duplex_run ops d1).
Qed.

(** A connection is over when both copiers are, in both directions. *)
Definition delivered (a : among) (oa : RW1) (ob : RW2) : Prop :=
  exists ka kb, loaded (am_client a) (am_local a) = Some ka /\ loaded (am_server a) (am_remote a) = Some kb
    /\ finished (MkDuplex ka kb)
    /\ rw_out (cb_other kb) = rw_out ob ++ rw_in oa /\ rw_out (cb_other ka) = rw_out oa ++ rw_in ob.

Lemma completes_among ra rb ta tb (a a' : among) ca cb :
  prompt RW1 -> prompt RW2 -> Z.max 1 ta <= ra -> Z.max 1 tb <= rb ->
  among_start id ra rb ta tb a ca cb -> rtc (among_step id) a a' ->
  exists a'', rtc plain_step a' a'' /\ (halted a'' \/ delivered a'' (cn_other (am_local a)) (cn_other (am_remote a))).
Proof.
  intros Hp1 Hp2 Hta Htb Hstart Hrun. pose proof (start_stands _ _ _ _ _ _ _ _ Hstart) as Hst.
  destruct Hstart as (_ & _ & _ & _ & _ & _ & Ha & Hb).
  set (oa := cn_other (am_local a)) in *. set (ob := cn_other (am_remote a)) in *.
  pose proof (duplex_start_ok id ra rb ta tb (view id ca) (view id cb) oa ob Ha Hb) as Hok.
  pose proof (start_flows id ra rb ta tb (view id ca) (view id cb) oa ob Ha Hb) as Hflow.
  assert (Hth : thresholds_ok ra rb (MkDuplex (into_copy_bidirectional_with_buf (view id ca) oa) (into_copy_bidirectional_with_buf (view id cb) ob))).
  { destruct Ha as (_&_&_&_&_&_&_&_&_&_&_&Ht1&_), Hb as (_&_&_&_&_&_&_&_&_&_&_&Ht2&_). unfold thresholds_ok, threshold. cbn in *. now rewrite Ht1, Ht2. }
  set (d := MkDuplex _ _) in *. destruct (steps_alone id ra rb a a' d Hrun Hst Hok) as [ops Hst1].
  destruct (good_run id ra rb ops d (conj Hok Hth)) as [Hgood _].
  destruct (can_finish id ra rb _ Hp1 Hp2 Hgood) as [more Hfin]. rewrite <- run_app in Hfin.
  destruct (run_among ra rb more a' _ Hst1 (proj1 Hgood)) as (a'' & Hrun2 & H). exists a''. split; [exact Hrun2|].
  destruct H as [H|H]; [now left|right]. rewrite <- run_app in H.
  destruct (duplex_run_ok id ra rb (ops ++ more) d Hok) as (_ & (Hid & Hd & Hsa & Hsb) & Hfl). rewrite Hflow in Hfl.
  destruct (duplex_run (ops ++ more) d).1 as [da db]. destruct H as [(_ & _ & ka & Hka & Va) [(_ & _ & kb & Hkb & Vb) _]].
  cbn [dx_client dx_server] in *. subst da db. exists ka, kb. split; [exact Hka|]. split; [exact Hkb|]. split; [exact Hfin|].
  unfold flows in Hfl. cbn [dx_client dx_server] in Hfl. injection Hfl as Hab Hba. destruct Hfin as (Hra & _ & Hrb & _). split.
  - rewrite <- Hab. symmetry. now apply (done_flow id ra rb _ (view_copy id kb)).
  - rewrite <- Hba. symmetry. apply (done_flow id rb ra _ (view_copy id ka)); try easy. now apply duo_sym.
Qed.

(** Such a continuation is a run of the two multiplexors. *)
Lemma plain_among (a a' : among) : plain_step a a' -> among_step id a a'.
Proof.
  intros [? ? Hr H|op x y cl cr lx ly Hr H|op x y cl cr lx ly Hr H]; [now apply conn_steps| |].
  - replace lx with (after_op op lx (run_op op x).2) at 2 by now destruct H as [-> | ->].
    apply client_others; [exact Hr|now destruct H as [-> | ->]|now destruct (run_op op x)].
  - replace ly with (after_op op ly (run_op op y).2) at 2 by now destruct H as [-> | ->].
    apply server_others; [exact Hr|now destruct H as [-> | ->]|now destruct (run_op op y)].
Qed.

End Whole.

(** *** From the handshake *)

Section Opened.
Context {C : Type -> Type} `{!Mpsc C} {O : Type -> Type} `{!Oneshot O} {W : Type} `{!Waker W}
  {S1 S2 : Type} `{!WebSocket S1} `{!WebSocket S2} {RW1 RW2 : Type} `{!BufRW RW1} `{!BufRW RW2}.

(** [MuxStream::into_copy_bidirectional] on a stream just taken. *)
Definition taken {RW} (s : MuxStream) (o : RW) : conn RW := MkConn s o (RTransferring 0) (WTransferring 0).

(** Every multiplexor that was ever made has room. *)
Lemma roomy_reachable {S} `{!WebSocket S} (ws : S) options (x : Mux C O W S) ops :
  mux_new ws options = Ok x -> 0 <= opt_stream_buffer_size (default options_new options) -> roomy (run_ops ops x).
Proof.
  intros Hx Hs. destruct (mux_new_sizes ws options x ops Hx) as (Hn & _ & F1 & _ & F3 & _).
  assert (Hroom : forall A (q : C A) n, (0 < n)%nat -> same_size (channel n) q -> room q).
  { intros A q n Hpos [Hc Hb]. unfold room, chan_bounded in *. rewrite view_channel in *. cbn in *. rewrite Hc in *. split; [congruence + (intros [= ?]; lia)|apply Hb; lia]. }
  split; [refine (Hroom _ _ _ _ F1); lia|]. destruct (Z.ltb_spec 0 (opt_bind_buffer_size (default options_new options))); inversion F3 as [q q' H1|]; [|easy].
  refine (Hroom _ _ _ _ H1). lia.
Qed.

Lemma joined_place {S} `{!WebSocket S} id w s (x x' : Mux C O W S) :
  joined id w s x x' -> ~ In id (queue (mx_dropped_ports x)) -> room (mx_con_recv x') -> roomy x -> place id (ms_cell s) x'.
Proof.
  intros [Hx Hl Hi _ Hf _ Hd Hb] Hn Hr [_ Hroom]. split; [|split; [split; [exact Hl|rewrite Hi; apply Forall_nil_2]|split; [exact Hr|now rewrite Hb]]].
  apply (own_wf id _ x' (MkEsd true (ms_cell s))); try easy; [rewrite Hf; apply lookup_insert_eq|now rewrite Hd].
Qed.

Lemma joined_loaded {S} `{!WebSocket S} {RW} id w s (x x' : Mux C O W S) (o : RW) :
  joined id w s x x' ->
  loaded x' (taken s o) = Some (into_copy_bidirectional_with_buf (MkCtx s (new_cell x w) (mx_tx_frame x') (mx_dropped_ports x')) o).
Proof. intros [_ _ _ _ _ Hc _ _]. unfold loaded. cbn [cn_stream taken]. now rewrite Hc. Qed.

(** With nothing on the way out a link looks the same alone. *)
Lemma link_start_view id rwnd thr (w r : Ctx C W) : link_start id rwnd thr w r -> link_start id rwnd thr (view id w) (view id r).
Proof.
  intros (H1 & H2 & H3 & H4 & H5 & _ & _ & H8 & H9 & H). unfold link_start. cbn. rewrite H8, H9. now split_and!.
Qed.

Lemma joined_start id (a : Mux C O W S1) (b : Mux C O W S2) a' b' sa sb (oa : RW1) (ob : RW2) :
  mux_wf a -> mux_wf b -> u32_ok id -> joined id (mx_rwnd b) sa a a' -> joined id (mx_rwnd a) sb b b' ->
  ~ In id (queue (mx_dropped_ports a)) -> ~ In id (queue (mx_dropped_ports b)) -> roomy a -> roomy b ->
  room (mx_con_recv a') -> room (mx_con_recv b') ->
  among_start id (mx_rwnd a) (mx_rwnd b) (ms_rwnd_threshold sa) (ms_rwnd_threshold sb) (MkAmong a' b' (taken sa oa) (taken sb ob) Serving Serving)
    (MkCtx sa (new_cell a (mx_rwnd b)) (mx_tx_frame a') (mx_dropped_ports a'))
    (MkCtx sb (new_cell b (mx_rwnd a)) (mx_tx_frame b') (mx_dropped_ports b')).
Proof.
  intros Ha Hb Hid Ja Jb Hda Hdb Hra Hrb Hca Hcb. split; [now apply (joined_place id _ sa a a' Ja)|]. split; [apply Forall_nil_2|].
  split; [now apply (joined_place id _ sb b b' Jb)|]. split; [apply Forall_nil_2|].
  split; [exact (joined_loaded id _ sa a a' oa Ja)|]. split; [exact (joined_loaded id _ sb b b' ob Jb)|].
  split; apply link_start_view; [exact (joined_link id a a' b b' _ _ Ha Hb Hid Ja Jb)|exact (joined_link id b b' a a' _ _ Hb Ha Hid Jb Ja)].
Qed.

(** ** Properties *)

(** C1: from the request to the last octet.  Two multiplexors with nothing on
    the way out between them, with whatever other streams; one opens a stream
    to a host and a port, and the identifier drawn is free on both sides and
    not announced as dropped.  The other's user, whose queue has room, finds it
    waiting with that host and port; and from then on, whatever else both have
    done while both tasks run - other streams opened, used, reset and dropped,
    datagrams, bind requests, tasks held up by users who take nothing - the
    connection can be brought to its end by polls of its copiers, by the
    messages under way, and by users who take what waits for them: both copiers
    finish, and each outer side has been given exactly what the other had to
    say.  This needs three things.  Each side's threshold of acknowledgement,
    capped by the window of its peer, is within its own window: a larger one
    leaves both waiting.  The outer sides are prompt: they answer every call
    without an error, and a write takes at least one octet of what it is
    offered.  And no task leaves its loops on the way, which a message of another stream, a datagram or a bind request
    that fails, the announcement of identifier 0 and the end of the WebSocket
    make it do. *)
Theorem opened_connection_delivers (a : Mux C O W S1) (b : Mux C O W S2) draws host port id (oa : RW1) (ob : RW2) :
  mux_wf a -> mux_wf b -> mux_live a -> mux_live b -> roomy a -> roomy b ->
  queue (mx_tx_frame a) = [] -> queue (mx_tx_frame b) = [] ->
  ~ In id (queue (mx_dropped_ports a)) -> ~ In id (queue (mx_dropped_ports b)) ->
  Forall valid_draw draws -> next_available_key draws (mx_flows a) = Some id -> mx_flows b !! id = None ->
  rx_open (mx_con_recv b) = true -> chan_full (chan_view (mx_con_recv b)) = false ->
  bytes_ok host -> u16_ok port ->
  Z.max 1 (Z.min (mx_default_rwnd_threshold a) (mx_rwnd b)) <= mx_rwnd a ->
  Z.max 1 (Z.min (mx_default_rwnd_threshold b) (mx_rwnd a)) <= mx_rwnd b ->
  prompt RW1 -> prompt RW2 ->
  let '(a', b') := handshake draws host port a b in
  exists sa sb o,
    mx_streams_shots a' !! mx_next_shot a = Some o /\ shot_view o = ShotSent (Some sa)
    /\ queue (mx_con_recv b') = queue (mx_con_recv b) ++ [sb] /\ ms_dest_host sb = host /\ ms_dest_port sb = port
    /\ forall later, rtc (among_step id) (MkAmong a' b' (taken sa oa) (taken sb ob) Serving Serving) later ->
         exists last, rtc plain_step later last /\ (halted last \/ delivered last oa ob).
Proof.
  intros Ha Hb Hla Hlb Hra Hrb Hqa Hqb Hda Hdb Hd Hk Hfree Hor Hfr Hhost Hport Hta Htb Hp1 Hp2.
  destruct (handshake_joins a b draws host port id) as (a' & b' & o & -> & Ja & Jb & Ho & Hov & Hca & Hcb & Hq); try easy.
  pose proof (drawn_u32 draws _ id Hd Hk) as Hid. eexists _, _, o. split; [exact Ho|]. split; [exact Hov|]. split; [exact Hq|].
  split; [easy|]. split; [easy|]. intros later Hrun.
  refine (completes_among id (mx_rwnd a) (mx_rwnd b) _ _ _ later _ _ Hp1 Hp2 Hta Htb (joined_start id a b a' b' _ _ oa ob Ha Hb Hid Ja Jb Hda Hdb Hra Hrb _ _) Hrun).
  - rewrite Hca. apply Hra.
  - rewrite Hcb. apply room_send, Hrb.
Qed.

End Opened.

(** Two multiplexors with the default options, a local side that says five octets
    and a remote one that answers three, both one octet at a time. *)
Lemma opened_connection_delivers_witness :
  let '(a', b') := handshake [7; 9] (bytes_of_string "db") 5432 caller caller in
  let oa := MkOctets [1; 2; 3; 4; 5] [] in
  let ob := MkOctets [6; 7; 8] [] in
  exists sa sb, ms_dest_host sb = bytes_of_string "db"
    /\ exists last, rtc plain_step (MkAmong a' b' (taken sa oa) (taken sb ob) Serving Serving) last /\ (halted last \/ delivered last oa ob).
Proof.
  pose proof (opened_connection_delivers caller caller [7; 9] (bytes_of_string "db") 5432 7 (MkOctets [1; 2; 3; 4; 5] []) (MkOctets [6; 7; 8] [])
    caller_wf caller_wf (conj eq_refl eq_refl) (conj eq_refl eq_refl)) as H.
  destruct (handshake [7; 9] (bytes_of_string "db") 5432 caller caller) as [a' b'].
  destruct H as (sa & sb & o & _ & _ & _ & Hh & _ & H); try reflexivity; try exact octets_prompt; try easy.
  - split; [split; [discriminate|vm_compute; lia]|exact I].
  - split; [split; [discriminate|vm_compute; lia]|exact I].
  - repeat (apply Forall_cons_2; [split; [discriminate|reflexivity]|]). apply Forall_nil_2.
  - apply bytes_of_string_ok.
  - exists sa, sb. split; [exact Hh|]. exact (H _ (rtc_refl _ _)).
Defined.
