(* ===== verification/Wakeup.v ===== *)
(** * The race between a writer that parks and an acknowledgement

    [poll_obtain_write_permission] loads the window and then registers its
    waker; [acknowledge] adds to the window and then wakes.  The two run on
    different threads, so their atomic operations interleave; this file takes
    them one at a time. *)

From S2P Require Import Prelude Runtime.

Section Wakeup.
Context {W : Type} `{!Waker W}.

(** ** Definitions *)

(** Where the writer is: about to load, about to register (it saw an empty
    window), about to exchange (it saw [n]), returned [Pending], or returned
    with a permission. *)
Inductive writer_pc := WLoad | WRegister | WExchange (original : Z) | WParked | WGranted.

(** Where the task is in [acknowledge]. *)
Inductive task_pc := AAdd (acknowledged : Z) | AWake | ADone.

Record race := MkRace {
  rc_remaining : Z;
  rc_waker : W;
  rc_writer : writer_pc;
  rc_task : task_pc;
  rc_woken : bool;      (* the writer's task was woken after it parked or while it ran *)
}.

Definition writer_step (s : race) : race :=
  match rc_writer s with
  | WLoad =>
      let original := rc_remaining s in
      MkRace original (rc_waker s) (if original =? 0 then WRegister else WExchange original) (rc_task s) (rc_woken s)
  | WRegister => MkRace (rc_remaining s) (register (rc_waker s)) WParked (rc_task s) (rc_woken s)
  | WExchange original =>
      if rc_remaining s =? original
      then MkRace (original - 1) (rc_waker s) WGranted (rc_task s) (rc_woken s)
      else MkRace (rc_remaining s) (rc_waker s) WLoad (rc_task s) (rc_woken s)
  | WParked | WGranted => s
  end.

Definition task_step (s : race) : race :=
  match rc_task s with
  | AAdd n => MkRace (wrapping_add32 (rc_remaining s) n) (rc_waker s) (rc_writer s) AWake (rc_woken s)
  | AWake => let r := wake (rc_waker s) in
             MkRace (rc_remaining s) r.1 (rc_writer s) ADone (rc_woken s || r.2)
  | ADone => s
  end.

Inductive thread := Writer | Task.

Fixpoint race_run (schedule : list thread) (s : race) : race :=
  match schedule with
  | [] => s
  | Writer :: rest => race_run rest (writer_step s)
  | Task :: rest => race_run rest (task_step s)
  end.

(** A writer facing an empty window, and an acknowledgement of [n] frames. *)
Definition race_start (n : Z) : race := MkRace 0 new_waker WLoad (AAdd n) false.

(** The writer returned [Pending], nobody will wake it, and yet the window is
    open. *)
Definition lost (s : race) : bool :=
  match rc_writer s with WParked => negb (rc_woken s) && negb (rc_remaining s =? 0) | _ => false end.

(** Every order of the two operations of either side. *)
Definition schedules : list (list thread) :=
  [[Writer; Writer; Task; Task]; [Writer; Task; Writer; Task]; [Writer; Task; Task; Writer];
   [Task; Writer; Writer; Task]; [Task; Writer; Task; Writer]; [Task; Task; Writer; Writer]].

(** Running the two sides one operation at a time. *)
Ltac race_steps Hadd H0 :=
  unfold race_start;
  do 5 (cbn [race_run writer_step task_step rc_remaining rc_waker rc_writer rc_task rc_woken orb andb negb fst];
          rewrite ?Hadd, ?H0, ?res_wake, ?Z.eqb_refl, ?view_new_waker, ?view_register;
          change (0 =? 0) with true; cbv iota beta; idtac).

(** ** Properties *)

(** Of all interleavings of the two operations of a parking writer with
    the two of an acknowledgement exactly one loses the wake-up: both of the
    task's between the writer's load and its registration.  The writer then
    stays pending although the window is open. *)
Theorem lost_wakeup (n : Z) (schedule : list thread) :
  0 < n < 2 ^ 32 -> In schedule schedules ->
  let s := race_run schedule (race_start n) in
  rc_task s = ADone /\ (rc_writer s = WParked \/ rc_writer s = WGranted)
  /\ (lost s = true <-> schedule = [Writer; Task; Task; Writer]).
Proof.
  intros Hn Hin.
  assert (Hadd : wrapping_add32 0 n = n) by (apply wrapping_add32_small; lia).
  assert (H0 : (n =? 0) = false) by lia.
  unfold schedules in Hin. cbn [In] in Hin. clear Hn.
  destruct Hin as [<-|[<-|[<-|[<-|[<-|[<-|[]]]]]]]; cbv zeta; race_steps Hadd H0; unfold lost; race_steps Hadd H0;
    (split; [reflexivity|]); (split; [first [left; reflexivity|right; reflexivity]|]);
    split; first [discriminate|reflexivity].
Qed.

End Wakeup.

Lemma lost_wakeup_witness :
  lost (race_run [Writer; Task; Task; Writer] (race_start (W := bool) 5)) = true.
Proof.
  apply (lost_wakeup (W := bool) 5 [Writer; Task; Task; Writer]).
  - lia.
  - simpl. tauto.
  - reflexivity.
Defined.
