(* ===== verification/Remote.v ===== *)
(** * Remote specifications (src/src/parse_remote.rs)

    The tokenizer, the parser and the printer of the [[host:]port:host:port]
    specifications of the client, on strings as their UTF-8 bytes. *)

From S2P Require Import Prelude.

Open Scope penguin_scope.

(** ** Definitions *)

Definition ch_colon : Z := 58.
Definition ch_slash : Z := 47.
Definition ch_lbracket : Z := 91.
Definition ch_rbracket : Z := 93.

(** *** [str] methods the parser uses *)

Definition starts_with (c : Z) (s : bytes) : bool :=
  match s with x :: _ => x =? c | [] => false end.

Definition ends_with (c : Z) (s : bytes) : bool := starts_with c (rev s).

Definition contains (c : Z) (s : bytes) : bool := existsb (fun x => x =? c) s.

Fixpoint find (c : Z) (s : bytes) : option nat :=
  match s with
  | [] => None
  | x :: s' => if x =? c then Some 0%nat else S <$> find c s'
  end.

Definition split_once (c : Z) (s : bytes) : option (bytes * bytes) :=
  i ← find c s; Some (take i s, drop (S i) s).

Definition rsplit_once (c : Z) (s : bytes) : option (bytes * bytes) :=
  i ← find c (rev s);
  Some (take (length s - S i) s, drop (length s - i) s).

(** [to_lowercase] on ASCII; no other character has a lower case made of the
    letters of [tcp] or [udp], so comparing with those does not tell the
    difference. *)
Definition to_lowercase (s : bytes) : bytes := map (fun c => if (65 <=? c) && (c <=? 90) then c + 32 else c) s.

(** *** Data *)

Inductive LocalSpec := LocalInet (host : bytes) (port : Z) | Stdio.
Inductive RemoteSpec := RemoteInet (host : bytes) (port : Z) | Socks.
Inductive Protocol := Tcp | Udp.

Record Remote := MkRemote { local_addr : LocalSpec; remote_addr : RemoteSpec; protocol : Protocol }.

Inductive RemoteError := RFormat | RProtocol | RHost | RPort (e : IntErrorKind) | RUdpSocks.

#[export] Instance RemoteError_eq_dec : EqDecision RemoteError.
Proof. intros x y. unfold Decision. decide equality. decide equality. Defined.

(** [default_host!], by the [default-is-ipv6] feature. *)
Definition default_host_local (ipv6 : bool) : bytes := if ipv6 then str "::1" else str "127.0.0.1".
Definition default_host_unspec (ipv6 : bool) : bytes := if ipv6 then str "::" else str "0.0.0.0".

Definition protocol_from_str (s : bytes) : res RemoteError Protocol :=
  let l := to_lowercase s in
  if bool_decide (l = str "tcp") then Ok Tcp
  else if bool_decide (l = str "udp") then Ok Udp
  else Err RProtocol.

Definition show_protocol (p : Protocol) : bytes := match p with Tcp => str "tcp" | Udp => str "udp" end.

(** The tokenizer.  Slicing past the end of the string panics.  Every round
    removes at least one byte, so one round more than the length suffices. *)
Fixpoint tokenize_loop (fuel : nat) (stuff : bytes) : res RemoteError (list bytes) :=
  match fuel with
  | 0%nat => Panic
  | S fuel' =>
      if starts_with ch_lbracket stuff then
        close ← ok_or (find ch_rbracket stuff) RHost;
        let e := S close in
        let token := take e stuff in
        let after := drop e stuff in
        if negb (match after with [] => true | _ => false end) && negb (starts_with ch_colon after)
        then Err RFormat
        else if (length stuff <? S e)%nat then Panic
        else tokens ← tokenize_loop fuel' (drop (S e) stuff); Ok (token :: tokens)
      else
        match split_once ch_colon stuff with
        | Some (token, rest) => tokens ← tokenize_loop fuel' rest; Ok (token :: tokens)
        | None => Ok [stuff]
        end
  end.

Definition tokenize_remote (s : bytes) : res RemoteError (list bytes) := tokenize_loop (S (length s)) s.

Definition remove_brackets (s : bytes) : bytes :=
  if starts_with ch_lbracket s && ends_with ch_rbracket s
  then take (length s - 2) (drop 1 s) else s.

Definition parse_port (s : bytes) : res RemoteError Z := map_err RPort (parse_uint 65535 s).

Definition show_host (host : bytes) : bytes :=
  if contains ch_colon host then [ch_lbracket] ++ host ++ [ch_rbracket] else host.

(** [Display for Remote]. *)
Definition show_remote (r : Remote) : bytes :=
  match local_addr r with
  | LocalInet host port => show_host host ++ [ch_colon] ++ show_uint port
  | Stdio => str "stdio"
  end
  ++ match remote_addr r with
     | RemoteInet host port => [ch_colon] ++ show_host host ++ [ch_colon] ++ show_uint port
     | Socks => str ":socks"
     end
  ++ [ch_slash] ++ show_protocol (protocol r).

Definition is_str (s : bytes) (lit : string) : bool := bool_decide (s = bytes_of_string lit).

(** The slice patterns of [from_str], in their order. *)
Definition remote_of_tokens (ipv6 : bool) (proto : Protocol) (tokens : list bytes) : res RemoteError Remote :=
  match tokens with
  | [t] =>
      if is_str t "socks" then Ok (MkRemote (LocalInet (default_host_local ipv6) 1080) Socks proto)
      else
        lp ← parse_port t; rp ← parse_port t;
        Ok (MkRemote (LocalInet (default_host_unspec ipv6) lp) (RemoteInet (default_host_local ipv6) rp) proto)
  | [t1; t2] =>
      if is_str t1 "stdio" && is_str t2 "socks" then Ok (MkRemote Stdio Socks proto)
      else if is_str t2 "socks" then
        lp ← parse_port t1; Ok (MkRemote (LocalInet (default_host_local ipv6) lp) Socks proto)
      else if is_str t1 "stdio" then
        rp ← parse_port t2; Ok (MkRemote Stdio (RemoteInet (default_host_local ipv6) rp) proto)
      else
        lp ← parse_port t2; rp ← parse_port t2;
        Ok (MkRemote (LocalInet (default_host_unspec ipv6) lp) (RemoteInet (remove_brackets t1) rp) proto)
  | [t1; t2; t3] =>
      if is_str t1 "stdio" then
        rp ← parse_port t3; Ok (MkRemote Stdio (RemoteInet (remove_brackets t2) rp) proto)
      else if is_str t3 "socks" then
        lp ← parse_port t2; Ok (MkRemote (LocalInet (remove_brackets t1) lp) Socks proto)
      else
        lp ← parse_port t1; rp ← parse_port t3;
        Ok (MkRemote (LocalInet (default_host_unspec ipv6) lp) (RemoteInet (remove_brackets t2) rp) proto)
  | [t1; t2; t3; t4] =>
      lp ← parse_port t2; rp ← parse_port t4;
      Ok (MkRemote (LocalInet (remove_brackets t1) lp) (RemoteInet (remove_brackets t3) rp) proto)
  | _ => Err RFormat
  end.

(** [FromStr for Remote]. *)
Definition remote_from_str (ipv6 : bool) (s : bytes) : res RemoteError Remote :=
  '(rest, proto) ← match rsplit_once ch_slash s with
                   | Some (rest, proto) => p ← protocol_from_str proto; Ok (rest, p)
                   | None => Ok (s, Tcp)
                   end;
  tokens ← tokenize_remote rest;
  match remote_of_tokens ipv6 proto tokens with
  | Ok r => match remote_addr r, protocol r with Socks, Udp => Err RUdpSocks | _, _ => Ok r end
  | other => other
  end.

(** *** Examples from the tests of the source *)

Example remote_port : remote_from_str false (str "3000")
  = Ok (MkRemote (LocalInet (str "0.0.0.0") 3000) (RemoteInet (str "127.0.0.1") 3000) Tcp).
Proof. reflexivity. Qed.
Example remote_ipv6 : remote_from_str false (str "[::1]:8080:google.com:80/UDP")
  = Ok (MkRemote (LocalInet (str "::1") 8080) (RemoteInet (str "google.com") 80) Udp).
Proof. reflexivity. Qed.
Example remote_socks : remote_from_str false (str "127.0.0.1:1081:socks")
  = Ok (MkRemote (LocalInet (str "127.0.0.1") 1081) Socks Tcp).
Proof. reflexivity. Qed.
Example remote_stdio : remote_from_str true (str "stdio:53/udp")
  = Ok (MkRemote Stdio (RemoteInet (str "::1") 53) Udp).
Proof. reflexivity. Qed.
Example remote_bad_port : remote_from_str false (str "stdio:65536") = Err (RPort IntPosOverflow).
Proof. reflexivity. Qed.

(** *** Reference notions *)

(** A token that does not need brackets. *)
Definition plain (t : bytes) : Prop := starts_with ch_lbracket t = false /\ contains ch_colon t = false.

Definition bracketed (t : bytes) : Prop :=
  exists h, t = [ch_lbracket] ++ h ++ [ch_rbracket] /\ contains ch_rbracket h = false.

Definition is_token (t : bytes) : Prop := plain t \/ bracketed t.

Fixpoint join (ts : list bytes) : bytes :=
  match ts with
  | [] => []
  | [t] => t
  | t :: ts' => t ++ [ch_colon] ++ join ts'
  end.

(** A host that survives printing: one with a colon is put in brackets. *)
Definition host_ok (h : bytes) : Prop :=
  if contains ch_colon h then contains ch_rbracket h = false else starts_with ch_lbracket h = false.

(** A specification that survives printing: besides the hosts, SOCKS is only
    over TCP, and a local host named [stdio] would read as the keyword. *)
Definition remote_ok (r : Remote) : Prop :=
  match local_addr r with LocalInet h p => host_ok h /\ u16_ok p | Stdio => True end
  /\ match remote_addr r with
     | RemoteInet h p => host_ok h /\ u16_ok p
     | Socks => protocol r = Tcp /\ match local_addr r with LocalInet h _ => h <> str "stdio" | Stdio => True end
     end.

(** ** Lemmas *)

Lemma contains_app c xs ys : contains c (xs ++ ys) = contains c xs || contains c ys.
Proof. apply existsb_app. Qed.

Lemma find_app c xs ys : contains c xs = false -> find c (xs ++ c :: ys) = Some (length xs).
Proof.
  induction xs as [|x xs IH]; intros H; cbn in *; [now rewrite Z.eqb_refl|].
  apply orb_false_elim in H as [-> H]. now rewrite IH.
Qed.

Lemma find_None c s : contains c s = false -> find c s = None.
Proof.
  induction s as [|x s IH]; [easy|]. cbn. intros [-> H]%orb_false_elim. now rewrite IH.
Qed.

Lemma find_Some c s i :
  find c s = Some i -> s = take i s ++ c :: drop (S i) s /\ contains c (take i s) = false /\ (i < length s)%nat.
Proof.
  revert i. induction s as [|x s IH]; intros i H; [easy|]. cbn in H. destruct (Z.eqb_spec x c) as [->|Hx].
  - injection H as <-. split; [easy|]. split; [easy|]. cbn. lia.
  - destruct (find c s) as [j|]; [|easy]. injection H as <-. destruct (IH j eq_refl) as (Hs & Hc & Hl).
    split; [cbn; now f_equal|]. split; [|cbn; lia].
    cbn [take]. change (contains c (x :: take j s)) with ((x =? c) || contains c (take j s)).
    rewrite Hc, orb_false_r. now apply Z.eqb_neq.
Qed.

Lemma find_None_inv c s : find c s = None -> contains c s = false.
Proof.
  induction s as [|x s IH]; [easy|]. cbn. destruct (x =? c); [easy|]. destruct (find c s); [easy|]. intros _. now apply IH.
Qed.

Lemma split_once_app c xs ys : contains c xs = false -> split_once c (xs ++ c :: ys) = Some (xs, ys).
Proof.
  intros H. unfold split_once. rewrite find_app by easy. cbn. f_equal. f_equal.
  - now rewrite take_app_length.
  - rewrite drop_app_ge by lia. replace (S (length xs) - length xs)%nat with 1%nat by lia. easy.
Qed.

Lemma split_once_None c s : contains c s = false -> split_once c s = None.
Proof. intros H. unfold split_once. now rewrite find_None. Qed.

Lemma contains_rev c s : contains c (rev s) = contains c s.
Proof. unfold contains. induction s as [|x s IH]; [easy|]. cbn. rewrite existsb_app, IH. cbn. rewrite orb_false_r. apply orb_comm. Qed.

Lemma rsplit_once_app c xs ys : contains c ys = false -> rsplit_once c (xs ++ c :: ys) = Some (xs, ys).
Proof.
  intros H. unfold rsplit_once. rewrite rev_app_distr. cbn [rev]. rewrite <- app_assoc. cbn [app].
  rewrite find_app by now rewrite contains_rev. cbn. f_equal. rewrite length_rev, length_app. cbn [length]. f_equal.
  - replace (length xs + S (length ys) - S (length ys))%nat with (length xs) by lia. now rewrite take_app_length.
  - replace (length xs + S (length ys) - length ys)%nat with (S (length xs)) by lia.
    rewrite drop_app_ge by lia. replace (S (length xs) - length xs)%nat with 1%nat by lia. easy.
Qed.

Lemma rsplit_once_sound c s xs ys : rsplit_once c s = Some (xs, ys) -> s = xs ++ [c] ++ ys.
Proof.
  unfold rsplit_once. destruct (find c (rev s)) as [i|] eqn:Hf; [|easy]. cbn. intros [= <- <-].
  apply find_Some in Hf as (Hs & _ & Hi). rewrite length_rev in Hi.
  assert (Hl : length (rev (take i (rev s))) = i) by (rewrite length_rev, length_take, length_rev; lia).
  apply (f_equal (@rev Z)) in Hs. rewrite rev_involutive, rev_app_distr in Hs. cbn [rev] in Hs. rewrite <- app_assoc in Hs.
  revert Hs Hl. generalize (rev (take i (rev s))) (rev (drop (S i) (rev s))). intros ys xs -> Hl.
  rewrite !length_app. cbn [length]. rewrite Hl.
  rewrite take_app_le, take_ge, drop_app_ge by lia.
  replace (length xs + (1 + i) - i - length xs)%nat with 1%nat by lia. easy.
Qed.

(** *** The tokenizer *)

Lemma bracketed_starts t rest : bracketed t -> starts_with ch_lbracket (t ++ rest) = true.
Proof. now intros (h & -> & _). Qed.

Lemma bracketed_find t rest : bracketed t -> find ch_rbracket (t ++ rest) = Some (length t - 1)%nat /\ (2 <= length t)%nat.
Proof.
  intros (h & -> & Hh). replace (([ch_lbracket] ++ h ++ [ch_rbracket]) ++ rest)
    with ((ch_lbracket :: h) ++ ch_rbracket :: rest) by (cbn; now rewrite <- app_assoc).
  rewrite find_app by exact Hh. cbn. rewrite length_app. cbn. split; [f_equal; lia|lia].
Qed.

Lemma plain_starts t rest : plain t -> starts_with ch_lbracket (t ++ ch_colon :: rest) = false.
Proof. intros [H _]. now destruct t. Qed.

Lemma tokenize_loop_cons fuel t rest :
  is_token t ->
  tokenize_loop (S fuel) (t ++ ch_colon :: rest) = tokens ← tokenize_loop fuel rest; Ok (t :: tokens).
Proof.
  intros [Hp|Hb]; cbn [tokenize_loop].
  - rewrite plain_starts, split_once_app by apply Hp. easy.
  - rewrite bracketed_starts by easy. destruct (bracketed_find t (ch_colon :: rest) Hb) as [-> Hl]. cbn [ok_or mbind res_bind].
    replace (S (length t - 1)) with (length t) by lia.
    rewrite drop_app_length, take_app_length. cbn [starts_with negb andb]. rewrite Z.eqb_refl. cbn [negb andb].
    destruct (Nat.ltb_spec (length (t ++ ch_colon :: rest)) (S (length t))) as [Hlt|_];
      [rewrite length_app in Hlt; cbn in Hlt; lia|].
    rewrite drop_app_ge by lia. replace (S (length t) - length t)%nat with 1%nat by lia. easy.
Qed.

Lemma tokenize_loop_plain fuel t : plain t -> tokenize_loop (S fuel) t = Ok [t].
Proof. intros [Hs Hc]. cbn [tokenize_loop]. now rewrite Hs, split_once_None. Qed.

Lemma tokenize_loop_bracketed fuel t : bracketed t -> tokenize_loop (S fuel) t = Panic.
Proof.
  intros Hb. cbn [tokenize_loop].
  pose proof (bracketed_starts t [] Hb) as Hs. destruct (bracketed_find t [] Hb) as [Hfind Hl].
  rewrite app_nil_r in Hs, Hfind. rewrite Hs, Hfind. cbn [ok_or mbind res_bind].
  replace (S (length t - 1)) with (length t) by lia. rewrite drop_all. cbn [negb andb].
  destruct (Nat.ltb_spec (length t) (S (length t))); [easy|lia].
Qed.

(** Any list of tokens: the last one decides between success and panic. *)
Lemma tokenize_loop_join fuel ts l :
  Forall is_token ts -> (length ts < fuel)%nat ->
  (plain l -> tokenize_loop fuel (join (ts ++ [l])) = Ok (ts ++ [l]))
  /\ (bracketed l -> tokenize_loop fuel (join (ts ++ [l])) = Panic).
Proof.
  intros Hts. revert fuel. induction Hts as [|t ts Ht Hts IH]; intros [|fuel] Hf; cbn in Hf; try lia.
  - split; [apply tokenize_loop_plain|apply tokenize_loop_bracketed].
  - cbn [app]. destruct (IH fuel ltac:(lia)) as [IH1 IH2].
    assert (Hj : join (t :: ts ++ [l]) = t ++ ch_colon :: join (ts ++ [l])) by now destruct ts.
    rewrite Hj, (tokenize_loop_cons fuel t _ Ht).
    split; intros Hl; [now rewrite IH1|now rewrite IH2].
Qed.

Lemma length_join ts l : (length ts <= length (join (ts ++ [l])))%nat.
Proof.
  induction ts as [|t ts IH]; [cbn; lia|]. cbn [app].
  replace (join (t :: ts ++ [l])) with (t ++ ch_colon :: join (ts ++ [l])) by now destruct ts.
  rewrite length_app. cbn. lia.
Qed.

Lemma tokenize_join ts l :
  Forall is_token ts ->
  (plain l -> tokenize_remote (join (ts ++ [l])) = Ok (ts ++ [l]))
  /\ (bracketed l -> tokenize_remote (join (ts ++ [l])) = Panic).
Proof. intros Hts. apply tokenize_loop_join; [easy|]. pose proof (length_join ts l). lia. Qed.

(** What the loop says about an arbitrary string, given enough fuel. *)
Definition tokenized (s : bytes) (r : res RemoteError (list bytes)) : Prop :=
  match r with
  | Ok tokens => exists ts l, tokens = ts ++ [l] /\ s = join (ts ++ [l]) /\ Forall is_token ts /\ plain l
  | Panic => exists ts l, s = join (ts ++ [l]) /\ Forall is_token ts /\ bracketed l
  | Err e => e = RHost \/ e = RFormat
  end.

Lemma tokenized_cons t rest r :
  is_token t -> tokenized rest r -> tokenized (t ++ ch_colon :: rest) (tokens ← r; Ok (t :: tokens)).
Proof.
  assert (Hj : forall ts l, join ((t :: ts) ++ [l]) = t ++ ch_colon :: join (ts ++ [l])) by (intros [] ?; easy).
  intros Ht. destruct r as [tokens|e|]; cbn; [| easy |].
  - intros (ts & l & -> & -> & Hts & Hl). exists (t :: ts), l. rewrite Hj. auto.
  - intros (ts & l & -> & Hts & Hl). exists (t :: ts), l. rewrite Hj. auto.
Qed.

Lemma tokenize_loop_sound fuel s : (length s < fuel)%nat -> tokenized s (tokenize_loop fuel s).
Proof.
  revert s. induction fuel as [|fuel IH]; intros s Hf; [lia|]. cbn [tokenize_loop].
  destruct (starts_with ch_lbracket s) eqn:Hs.
  - destruct (find ch_rbracket s) as [i|] eqn:Hfind; [|cbn; auto]. cbn [ok_or mbind res_bind].
    apply find_Some in Hfind as (Hsplit & Hno & Hi). destruct s as [|x s]; [easy|]. cbn in Hs. apply Z.eqb_eq in Hs. subst x.
    destruct i as [|i]; [easy|]. set (t := take (S (S i)) (ch_lbracket :: s)).
    assert (Ht : bracketed t).
    { exists (take i s). split.
      - unfold t. cbn [take app]. f_equal. cbn in Hsplit. injection Hsplit as Hsplit.
        rewrite Hsplit at 1. rewrite take_app_ge by (rewrite length_take; lia).
        f_equal. rewrite length_take, Nat.min_l by (cbn in Hi; lia). now replace (S i - i)%nat with 1%nat by lia.
      - exact Hno. }
    assert (Hst : ch_lbracket :: s = t ++ drop (S (S i)) (ch_lbracket :: s)) by (unfold t; now rewrite take_drop).
    destruct (drop (S (S i)) (ch_lbracket :: s)) as [|y rest] eqn:Hd.
    + cbn [negb andb]. rewrite app_nil_r in Hst. destruct (Nat.ltb_spec (length (ch_lbracket :: s)) (S (S (S i)))) as [_|Hge].
      * exists [], t. now rewrite Hst.
      * apply (f_equal length) in Hd. rewrite length_drop in Hd. cbn in *. lia.
    + cbn [negb andb starts_with]. destruct (Z.eqb_spec y ch_colon) as [->|_]; [|cbn; auto]. cbn [negb].
      assert (Hlen : (length (ch_lbracket :: s) = length t + S (length rest))%nat) by (rewrite Hst, length_app; easy).
      assert (Hlt : length t = S (S i)) by (unfold t; rewrite length_take; clear -Hi; lia).
      destruct (Nat.ltb_spec (length (ch_lbracket :: s)) (S (S (S i)))) as [|_]; [lia|].
      replace (drop (S (S (S i))) (ch_lbracket :: s)) with rest
        by (rewrite Hst, drop_app_ge by lia; now replace (S (S (S i)) - length t)%nat with 1%nat by lia).
      rewrite Hst. apply tokenized_cons; [now right|]. apply IH. lia.
  - destruct (find ch_colon s) as [i|] eqn:Hfind; unfold split_once; rewrite Hfind; cbn [mbind option_bind].
    + apply find_Some in Hfind as (Hsplit & Hno & Hi). rewrite Hsplit at 1.
      apply tokenized_cons; [left; split; [|easy]|apply IH; rewrite length_drop; lia].
      destruct s; [easy|]. now destruct i.
    + apply find_None_inv in Hfind. exists [], s. now repeat split.
Qed.

Lemma tokenize_remote_sound s : tokenized s (tokenize_remote s).
Proof. apply tokenize_loop_sound. lia. Qed.

(** *** Printing *)

Lemma show_uint_no c n : 0 <= n -> ~ 48 <= c <= 57 -> contains c (show_uint n) = false.
Proof.
  intros Hn Hc. pose proof (show_uint_digits n Hn) as Hd.
  induction Hd as [|x xs Hx _ IH]; [easy|].
  change (contains c (x :: xs)) with ((x =? c) || contains c xs). rewrite IH, orb_false_r. apply Z.eqb_neq. lia.
Qed.

Lemma show_uint_plain n : 0 <= n -> plain (show_uint n).
Proof.
  intros Hn. split; [|apply show_uint_no; [easy|unfold ch_colon; lia]].
  pose proof (show_uint_digits n Hn) as Hd. destruct Hd; [easy|]. apply Z.eqb_neq. unfold ch_lbracket. lia.
Qed.

Lemma parse_show_port p : u16_ok p -> parse_port (show_uint p) = Ok p.
Proof.
  unfold in_width. change (2 ^ 16) with 65536. intros Hp. unfold parse_port. now rewrite parse_show_uint by lia.
Qed.

Lemma show_host_token h : host_ok h -> is_token (show_host h).
Proof.
  unfold host_ok, show_host. destruct (contains ch_colon h) eqn:Hc; intros H; [right; now exists h|now left].
Qed.

Lemma remove_brackets_show h : host_ok h -> remove_brackets (show_host h) = h.
Proof.
  unfold host_ok, show_host, remove_brackets, ends_with. destruct (contains ch_colon h); intros H; [|now rewrite H].
  rewrite app_assoc, rev_app_distr. cbn [rev app starts_with]. rewrite !Z.eqb_refl. cbn [andb].
  cbn [length drop]. rewrite length_app. cbn [length]. replace (S (length h + 1) - 2)%nat with (length h) by lia.
  apply take_app_length.
Qed.

Lemma show_protocol_roundtrip p : protocol_from_str (show_protocol p) = Ok p.
Proof. now destruct p. Qed.

Lemma show_protocol_no_slash p : contains ch_slash (show_protocol p) = false.
Proof. now destruct p. Qed.

Lemma is_str_show_uint n s : 0 <= n -> digit_value (hd 0 (bytes_of_string s)) = None -> is_str (show_uint n) s = false.
Proof.
  intros Hn Hs. apply bool_decide_eq_false_2. intros He. rewrite <- He in Hs.
  pose proof (show_uint_digits n Hn) as Hd. pose proof (show_uint_ne n) as Hne. destruct (show_uint n) as [|x xs]; [easy|].
  invc Hd. cbn in Hs. unfold digit_value in Hs.
  destruct ((48 <=? x) && (x <=? 57)) eqn:Hx; [easy|]. apply andb_false_iff in Hx as [Hx|Hx]; bool_prop; lia.
Qed.

Lemma remote_from_str_show ipv6 proto tokens l :
  Forall is_token tokens -> plain l ->
  remote_from_str ipv6 (join (tokens ++ [l]) ++ [ch_slash] ++ show_protocol proto)
  = match remote_of_tokens ipv6 proto (tokens ++ [l]) with
    | Ok r => match remote_addr r, protocol r with Socks, Udp => Err RUdpSocks | _, _ => Ok r end
    | other => other
    end.
Proof.
  intros Ht Hl. unfold remote_from_str. cbn [app]. rewrite rsplit_once_app by apply show_protocol_no_slash.
  rewrite show_protocol_roundtrip. cbn [mbind res_bind]. destruct (tokenize_join tokens l Ht) as [-> _]; easy.
Qed.

Lemma show_host_stdio h : host_ok h -> h <> str "stdio" -> is_str (show_host h) "stdio" = false.
Proof.
  intros Hok Hh. apply bool_decide_eq_false_2. unfold show_host. now destruct (contains ch_colon h).
Qed.

Lemma port_range p : u16_ok p -> 0 <= p.
Proof. unfold in_width. lia. Qed.

Lemma show_uint_token p : u16_ok p -> is_token (show_uint p).
Proof. intros Hp. left. eauto using show_uint_plain, port_range. Qed.

Lemma stdio_token : is_token (str "stdio").
Proof. now left. Qed.

Ltac solve_tokens :=
  repeat apply Forall_cons_2; try apply Forall_nil_2; auto using show_host_token, show_uint_token, stdio_token.

Ltac solve_app := repeat (progress (cbn [app]; rewrite <- ?app_assoc)); reflexivity.

(** *** Parsing *)

Definition local_sound (l : LocalSpec) : Prop := match l with LocalInet _ p => u16_ok p | Stdio => True end.
Definition remote_sound (r : RemoteSpec) : Prop := match r with RemoteInet _ p => u16_ok p | Socks => True end.

Lemma parse_port_sound s p : parse_port s = Ok p -> u16_ok p.
Proof.
  unfold parse_port. destruct (parse_uint 65535 s) eqn:H; cbn; intros [= <-].
  apply parse_uint_bound in H; [|lia]. unfold in_width. change (2 ^ 16) with 65536. lia.
Qed.

Lemma remote_of_tokens_sound ipv6 proto tokens :
  match remote_of_tokens ipv6 proto tokens with
  | Ok r => local_sound (local_addr r) /\ remote_sound (remote_addr r) /\ protocol r = proto
            /\ (length tokens <= 4)%nat
  | Err e => e = RFormat \/ exists k, e = RPort k
  | Panic => False
  end.
Proof.
  assert (Hp : forall t, match parse_port t with Ok p => u16_ok p | Err e => exists k, e = RPort k | Panic => False end).
  { intros t. destruct (parse_port t) as [p|e|] eqn:H; [now apply parse_port_sound in H| |];
      unfold parse_port in H; destruct (parse_uint 65535 t) eqn:Hu; cbn in H; try easy; [injection H as <-; eauto|].
    exfalso. clear H. revert Hu. generalize 65535. intros m. unfold parse_uint.
    assert (Hd : forall s acc, parse_digits m acc s <> Panic).
    { induction s as [|c s IH]; intros acc; [easy|]. cbn. destruct (digit_value c); [|easy]. case_bool; [easy|apply IH]. }
    destruct t as [|c [|d t]]; [easy| |]; case_bool; try easy; intros H; now apply Hd in H. }
  assert (H1080 : u16_ok 1080) by (unfold in_width; lia).
  unfold remote_of_tokens. destruct tokens as [|t1 [|t2 [|t3 [|t4 [|]]]]]; cbn [length]; auto;
    repeat case_bool; cbn [mbind res_bind];
    repeat match goal with
    | |- context [parse_port ?t] => let h := fresh in pose proof (Hp t) as h; destruct (parse_port t); cbn [mbind res_bind] in *
    end; cbn; auto; (split_and!; auto; lia).
Qed.

(** ** Properties *)

(** The tokenizer accepts a string exactly when it is a colon-separated
    list of tokens, each either free of colons and not opening a bracket or
    one bracketed group, and the last one of the first kind; then it returns
    exactly those tokens.  When the last token is a bracketed group it slices
    past the end of the string, so it panics; it never panics otherwise. *)
Theorem tokenize_exact s :
  (forall tokens,
     tokenize_remote s = Ok tokens
     <-> exists ts l, tokens = ts ++ [l] /\ s = join tokens /\ Forall is_token ts /\ plain l)
  /\ (tokenize_remote s = Panic <-> exists ts l, s = join (ts ++ [l]) /\ Forall is_token ts /\ bracketed l)
  /\ (forall e, tokenize_remote s = Err e -> e = RHost \/ e = RFormat).
Proof.
  pose proof (tokenize_remote_sound s) as H. split; [|split].
  - intros tokens. split.
    + intros He. rewrite He in H. destruct H as (ts & l & -> & Hs & ?). eauto.
    + intros (ts & l & -> & -> & Hts & Hl). now apply tokenize_join.
  - split; [intros He; now rewrite He in H|]. intros (ts & l & -> & Hts & Hl). now apply tokenize_join.
  - intros e He. now rewrite He in H.
Qed.

(** C37: printing a specification and parsing it back gives it again, for
    hosts whose text survives (a host with a colon has no closing bracket, any
    other does not start with an opening one), ports of sixteen bits, and
    SOCKS over TCP with a local host other than the keyword [stdio]. *)
Theorem remote_roundtrip ipv6 r : remote_ok r -> remote_from_str ipv6 (show_remote r) = Ok r.
Proof.
  destruct r as [[h1 p1|] [h2 p2|] proto]; intros [Hl Hr]; cbn in Hl, Hr.
  - destruct Hl as [Hh1 Hp1], Hr as [Hh2 Hp2].
    replace (show_remote _) with (join ([show_host h1; show_uint p1; show_host h2] ++ [show_uint p2]) ++ [ch_slash] ++ show_protocol proto)
      by (unfold show_remote; cbn [join app local_addr remote_addr protocol]; solve_app).
    rewrite remote_from_str_show; [|solve_tokens|eauto using show_uint_plain, port_range].
    cbn [app remote_of_tokens]. now rewrite !parse_show_port, !remove_brackets_show.
  - destruct Hl as [Hh1 Hp1], Hr as [-> Hns].
    replace (show_remote _) with (join ([show_host h1; show_uint p1] ++ [str "socks"]) ++ [ch_slash] ++ show_protocol Tcp)
      by (unfold show_remote; cbn [join app local_addr remote_addr protocol]; solve_app).
    rewrite remote_from_str_show; [|solve_tokens|easy].
    cbn [app remote_of_tokens]. rewrite show_host_stdio by easy. now rewrite parse_show_port, remove_brackets_show.
  - destruct Hr as [Hh2 Hp2].
    replace (show_remote _) with (join ([str "stdio"; show_host h2] ++ [show_uint p2]) ++ [ch_slash] ++ show_protocol proto)
      by (unfold show_remote; cbn [join app local_addr remote_addr protocol]; solve_app).
    rewrite remote_from_str_show; [|solve_tokens|eauto using show_uint_plain, port_range].
    cbn [app remote_of_tokens]. replace (is_str (str "stdio") "stdio") with true by easy. now rewrite parse_show_port, remove_brackets_show.
  - destruct Hr as [-> _]. reflexivity.
Qed.

(** The example of a bracketed IPv6 host. *)
Lemma remote_roundtrip_witness :
  remote_ok (MkRemote (LocalInet (str "::1") 8080) (RemoteInet (str "google.com") 80) Udp)
  /\ remote_from_str false (str "[::1]:8080:google.com:80/udp")
     = Ok (MkRemote (LocalInet (str "::1") 8080) (RemoteInet (str "google.com") 80) Udp).
Proof.
  assert (H : remote_ok (MkRemote (LocalInet (str "::1") 8080) (RemoteInet (str "google.com") 80) Udp)).
  { unfold remote_ok, host_ok, in_width. cbn. repeat split; lia. }
  split; [exact H|]. exact (remote_roundtrip false _ H).
Defined.

(** C40: Whatever is parsed has ports of sixteen bits and no SOCKS over UDP,
    and the parser panics only where the tokenizer does: on a text whose part
    before the protocol ends with a bracketed group. *)
Theorem remote_parse_sound ipv6 s :
  match remote_from_str ipv6 s with
  | Ok r => local_sound (local_addr r) /\ remote_sound (remote_addr r)
            /\ ~ (remote_addr r = Socks /\ protocol r = Udp)
  | Err e => True
  | Panic => exists body ts l, (s = body \/ exists proto, s = body ++ [ch_slash] ++ proto)
             /\ body = join (ts ++ [l]) /\ Forall is_token ts /\ bracketed l
  end.
Proof.
  unfold remote_from_str.
  assert (Hbody : forall body proto, (s = body \/ exists proto, s = body ++ [ch_slash] ++ proto) ->
    match (tokens ← tokenize_remote body;
           match remote_of_tokens ipv6 proto tokens with
           | Ok r => match remote_addr r, protocol r with Socks, Udp => Err RUdpSocks | _, _ => Ok r end
           | other => other
           end) with
    | Ok r => local_sound (local_addr r) /\ remote_sound (remote_addr r) /\ ~ (remote_addr r = Socks /\ protocol r = Udp)
    | Err _ => True
    | Panic => exists body ts l, (s = body \/ exists proto, s = body ++ [ch_slash] ++ proto)
               /\ body = join (ts ++ [l]) /\ Forall is_token ts /\ bracketed l
    end).
  { intros body proto Hs. pose proof (tokenize_remote_sound body) as Ht.
    destruct (tokenize_remote body) as [tokens|e|]; cbn [mbind res_bind]; [|easy|].
    - pose proof (remote_of_tokens_sound ipv6 proto tokens) as Hr.
      destruct (remote_of_tokens ipv6 proto tokens) as [r|e|]; [|easy|easy]. destruct Hr as (? & ? & _).
      destruct (remote_addr r) eqn:Hra, (protocol r) eqn:Hpr; try easy; rewrite ?Hra in *; split_and!; auto; intros [? ?]; congruence.
    - destruct Ht as (ts & l & Hb & ? & ?). exists body, ts, l. auto. }
  destruct (rsplit_once ch_slash s) as [[rest proto]|] eqn:Hsplit.
  - destruct (protocol_from_str proto) as [p|e|] eqn:Hp; cbn [mbind res_bind]; [|easy|].
    + apply Hbody. right. exists proto. now apply rsplit_once_sound.
    + unfold protocol_from_str in Hp. repeat case_bool_in Hp; easy.
  - apply Hbody. now left.
Qed.

(** A lone bracketed host makes the parser panic. *)
Example remote_bracket_panics : remote_from_str false (str "8080:[::1]/tcp") = Panic.
Proof. reflexivity. Qed.

(** A local host spelled [stdio] does not survive printing. *)
Example remote_stdio_host_lost :
  remote_from_str false (str "[stdio]:1080:socks") = Ok (MkRemote (LocalInet (str "stdio") 1080) Socks Tcp)
  /\ remote_from_str false (show_remote (MkRemote (LocalInet (str "stdio") 1080) Socks Tcp))
     = Err (RPort IntInvalidDigit).
Proof. split; reflexivity. Qed.

(** Port 0 is a port like any other. *)
Example remote_port_zero :
  remote_from_str false (str "0") = Ok (MkRemote (LocalInet (str "0.0.0.0") 0) (RemoteInet (str "127.0.0.1") 0) Tcp).
Proof. reflexivity. Qed.
