(* ===== verification/Net.v ===== *)
(** * Network addresses of the standard library

    [std::net] addresses as the program uses them: the data, their wire
    octets, their text (which the SOCKS server sends as the host of a stream)
    and the decidable equality that makes them keys of a map. *)

From S2P Require Import Prelude.

Open Scope penguin_scope.

(** ** Definitions *)

(** [IpAddr]: an IPv4 address is a [u32], an IPv6 address a [u128]. *)
Inductive IpAddr := IpV4 (ip : Z) | IpV6 (ip : Z).

Record SocketAddr := MkSocketAddr { sa_ip : IpAddr; sa_port : Z }.

#[export] Instance IpAddr_eq_dec : EqDecision IpAddr.
Proof. solve_decision. Defined.

#[export] Instance SocketAddr_eq_dec : EqDecision SocketAddr.
Proof. solve_decision. Defined.

#[export] Instance IpAddr_countable : Countable IpAddr.
Proof.
  refine (inj_countable'
    (fun a => match a with IpV4 i => inl i | IpV6 i => inr i end)
    (fun s => match s with inl i => IpV4 i | inr i => IpV6 i end) _).
  now intros [].
Defined.

#[export] Instance SocketAddr_countable : Countable SocketAddr.
Proof.
  refine (inj_countable' (fun a => (sa_ip a, sa_port a)) (fun p => MkSocketAddr p.1 p.2) _).
  now intros [].
Defined.

Definition ip_ok (a : IpAddr) : Prop :=
  match a with IpV4 i => u32_ok i | IpV6 i => in_width 128 i end.

Definition socket_addr_ok (a : SocketAddr) : Prop := ip_ok (sa_ip a) /\ u16_ok (sa_port a).

(** [octets]. *)
Definition ip_octets (a : IpAddr) : bytes :=
  match a with IpV4 i => put_be 4 i | IpV6 i => put_be 16 i end.

Definition ch_dot : Z := 46.

Definition byte_of (ip i : Z) : Z := Z.land (Z.shiftr ip (8 * i)) 255.

(** [Display for Ipv4Addr]. *)
Definition show_ipv4 (ip : Z) : bytes :=
  show_uint (byte_of ip 3) ++ [ch_dot] ++ show_uint (byte_of ip 2) ++ [ch_dot]
  ++ show_uint (byte_of ip 1) ++ [ch_dot] ++ show_uint (byte_of ip 0).

Definition segment (ip i : Z) : Z := Z.land (Z.shiftr ip (16 * i)) 65535.

(** The eight groups, most significant first. *)
Definition segments (ip : Z) : list Z := map (segment ip) [7; 6; 5; 4; 3; 2; 1; 0].

Definition hex_digit (d : Z) : Z := if d <? 10 then 48 + d else 87 + d.

(** Lower case hexadecimal without leading zeros, at most four digits. *)
Definition show_hex (n : Z) : bytes :=
  if n <? 16 then [hex_digit n]
  else if n <? 256 then [hex_digit (n / 16); hex_digit (n mod 16)]
  else if n <? 4096 then [hex_digit (n / 256); hex_digit (n / 16 mod 16); hex_digit (n mod 16)]
  else [hex_digit (n / 4096); hex_digit (n / 256 mod 16); hex_digit (n / 16 mod 16); hex_digit (n mod 16)].

Fixpoint join_hex (segs : list Z) : bytes :=
  match segs with
  | [] => []
  | [s] => show_hex s
  | s :: segs' => show_hex s ++ [58] ++ join_hex segs'
  end.

(** The longest run of zero groups, the first one of several: its start and
    its length, while scanning from index [i] with the current run. *)
Fixpoint longest_zeroes (segs : list Z) (i : nat) (current longest : nat * nat) : nat * nat :=
  match segs with
  | [] => longest
  | s :: segs' =>
      if s =? 0 then
        let current := if (current.2 =? 0)%nat then (i, 1%nat) else (current.1, S current.2) in
        longest_zeroes segs' (S i) current (if (longest.2 <? current.2)%nat then current else longest)
      else longest_zeroes segs' (S i) (0%nat, 0%nat) longest
  end.

(** [Display for Ipv6Addr]: IPv4-mapped addresses end in dotted decimal, the
    longest run of at least two zero groups is left out. *)
Definition show_ipv6 (ip : Z) : bytes :=
  let segs := segments ip in
  if Z.shiftr ip 32 =? 65535 then str "::ffff:" ++ show_ipv4 (Z.land ip (2 ^ 32 - 1))
  else
    let '(start, len) := longest_zeroes segs 0 (0%nat, 0%nat) (0%nat, 0%nat) in
    if (1 <? len)%nat then join_hex (take start segs) ++ str "::" ++ join_hex (drop (start + len) segs)
    else join_hex segs.

Definition show_ip (a : IpAddr) : bytes :=
  match a with IpV4 i => show_ipv4 i | IpV6 i => show_ipv6 i end.

Definition ip_unspecified (a : IpAddr) : bool := match a with IpV4 i => i =? 0 | IpV6 i => i =? 0 end.

(** *** [FromStr] of the addresses, as the parser of the standard library reads
    them: a reader takes what it can from the front, or nothing. *)

Definition reader (A : Type) : Type := bytes -> option (A * bytes).

(** [char::to_digit]. *)
Definition to_digit (radix c : Z) : option Z :=
  let d := if (48 <=? c) && (c <=? 57) then c - 48
           else if (97 <=? c) && (c <=? 122) then c - 87
           else if (65 <=? c) && (c <=? 90) then c - 55 else radix in
  if d <? radix then Some d else None.

(** The digits at the front: how many, and their value. *)
Fixpoint read_digits (radix : Z) (s : bytes) (count : nat) (value : Z) : nat * Z * bytes :=
  match s with
  | c :: s' => match to_digit radix c with
               | Some d => read_digits radix s' (S count) (value * radix + d)
               | None => (count, value, s)
               end
  | [] => (count, value, s)
  end.

(** [read_number] into a type of values up to [max]. *)
Definition read_number (radix : Z) (max_digits : nat) (allow_zero_prefix : bool) (max : Z) : reader Z := fun s =>
  let has_leading_zero := match s with c :: _ => c =? 48 | [] => false end in
  let '(count, value, rest) := read_digits radix s 0 0 in
  if (max_digits <? count)%nat || (count =? 0)%nat || (max <? value) then None
  else if negb allow_zero_prefix && has_leading_zero && (1 <? count)%nat then None
  else Some (value, rest).

Definition read_given_char (c : Z) : reader unit := fun s =>
  match s with x :: s' => if x =? c then Some (tt, s') else None | [] => None end.

(** [read_separator]: no separator before the first. *)
Definition read_separator {A} (sep : Z) (index : nat) (inner : reader A) : reader A := fun s =>
  match index with
  | O => inner s
  | S _ => '(_, s) ← read_given_char sep s; inner s
  end.

Definition read_ipv4_addr : reader Z := fun s =>
  let octet i := read_separator ch_dot i (read_number 10 3 false 255) in
  '(a, s) ← octet 0%nat s; '(b, s) ← octet 1%nat s; '(c, s) ← octet 2%nat s; '(d, s) ← octet 3%nat s;
  Some (be_value [a; b; c; d], s).

(** [read_groups] from the group [i] on, [left] of which may follow: the groups
    read, and whether they end with an IPv4 address. *)
Fixpoint read_groups (left i : nat) (s : bytes) : list Z * bool * bytes :=
  match left with
  | O => ([], false, s)
  | S left' =>
      match if (0 <? left')%nat then read_separator 58 i read_ipv4_addr s else None with
      | Some (v4, s') => ([Z.shiftr v4 16; Z.land v4 65535], true, s')
      | None =>
          match read_separator 58 i (read_number 16 4 true 65535) s with
          | Some (g, s') => let '(gs, ipv4, rest) := read_groups left' (S i) s' in (g :: gs, ipv4, rest)
          | None => ([], false, s)
          end
      end
  end.

Definition of_groups (gs : list Z) : Z := foldl (fun acc g => acc * 65536 + g) 0 gs.

Definition read_ipv6_addr : reader Z := fun s =>
  let '(front, front_ipv4, s) := read_groups 8 0 s in
  if (length front =? 8)%nat then Some (of_groups front, s)
  else if (front_ipv4 : bool) then None
  else
    '(_, s) ← read_given_char 58 s;
    '(_, s) ← read_given_char 58 s;
    let '(back, _, s) := read_groups (8 - (length front + 1)) 0 s in
    Some (of_groups (front ++ repeat 0 (8 - length front - length back) ++ back), s).

Definition read_ip_addr : reader IpAddr := fun s =>
  match read_ipv4_addr s with
  | Some (ip, rest) => Some (IpV4 ip, rest)
  | None => '(ip, rest) ← read_ipv6_addr s; Some (IpV6 ip, rest)
  end.

(** The whole text. *)
Definition parse_with {A} (r : reader A) (s : bytes) : option A :=
  match r s with Some (a, []) => Some a | _ => None end.

Definition ipv4_from_str (s : bytes) : option Z := if 15 <? blen s then None else parse_with read_ipv4_addr s.
Definition ipv6_from_str : bytes -> option Z := parse_with read_ipv6_addr.
Definition ip_from_str : bytes -> option IpAddr := parse_with read_ip_addr.

(** ** Examples *)

Example parse_texts :
  map ip_from_str [str "127.0.0.1"; str "::"; str "::1"; str "2001:4860:4860:0:0:0:0:8888"; str "::ffff:1.2.3.4"; str "1::8:1.2.3.4"]
  = map Some [IpV4 2130706433; IpV6 0; IpV6 1; IpV6 (of_groups [8193; 18528; 18528; 0; 0; 0; 0; 34952]);
              IpV6 (65535 * 2 ^ 32 + 16909060); IpV6 (of_groups [1; 0; 0; 0; 0; 8; 258; 772])]
  /\ map ip_from_str [str ""; str "1.2.3"; str "1.2.3.4.5"; str "01.2.3.4"; str "1.2.3.256"; str "1:2:3:4:5:6:7"; str "1::2::3"; str "12345::";
                      str "1:2:3:4:5:6:7:8:9"; str "localhost"; str "[::1]"] = repeat None 11.
Proof. split; vm_compute; reflexivity. Qed.

Example show_loopback4 : show_ipv4 2130706433 = str "127.0.0.1".
Proof. reflexivity. Qed.
Example show_loopback6 : show_ipv6 1 = str "::1".
Proof. reflexivity. Qed.
Example show_documentation6 : show_ipv6 (be_value [32; 1; 13; 184; 0; 0; 0; 0; 0; 1; 0; 0; 0; 0; 0; 1]) = str "2001:db8::1:0:0:1".
Proof. reflexivity. Qed.
Example show_mapped6 : show_ipv6 (65535 * 2 ^ 32 + 2130706433) = str "::ffff:127.0.0.1".
Proof. reflexivity. Qed.

(** ** Lemmas *)

Lemma length_ip_octets a : length (ip_octets a) = match a with IpV4 _ => 4%nat | IpV6 _ => 16%nat end.
Proof. destruct a; apply length_put_be. Qed.

Lemma get_be_ip {E} a rest :
  ip_ok a ->
  @get_be E (length (ip_octets a)) (ip_octets a ++ rest)
  = Ok (match a with IpV4 i => i | IpV6 i => i end, rest).
Proof.
  intros Ha. destruct a as [i|i]; cbn [ip_octets]; rewrite length_put_be; apply get_be_put_be;
    unfold ip_ok, in_width in Ha; simpl; lia.
Qed.

Lemma be_value_ip a : ip_ok a -> be_value (ip_octets a) = match a with IpV4 i => i | IpV6 i => i end.
Proof.
  intros Ha. destruct a as [i|i]; cbn [ip_octets]; apply be_value_put_be_small;
    unfold ip_ok, in_width in Ha; simpl; lia.
Qed.

#[export] Hint Rewrite length_ip_octets : wire.
