(* ===== verification/SocksWire.v ===== *)
(** * SOCKS on the wire (src/src/client/handle_remote/socks/v4.rs, v5.rs and
    the datagram formats of mod.rs)

    The readers and writers of the SOCKS4/4a and SOCKS5 messages over a
    connection that may end, fail or stall at any point, and the two formats
    of relayed datagrams. *)

From S2P Require Import Prelude Net.

Open Scope penguin_scope.

(** ** The connection

    A connection is what its peer will still send and how that ends, what was
    written to it, how much more it takes before a write fails, and the
    requests its handler has made to the rest of the client. *)

Inductive input_end := InEof | InError (e : IoErrorKind) | InWaits.

Inductive SocksEvent :=
| EvStreamRequest (host : bytes) (port : Z)
| EvCopy                                    (* the connection was handed to the copier *)
| EvRelayStarted (addr : SocketAddr)
| EvRelayAborted.

Record peer := Peer {
  p_in : bytes;
  p_end : input_end;
  p_out : bytes;
  p_room : option (nat * IoErrorKind);
  p_flush : option IoErrorKind;
  p_log : list SocksEvent;
}.

Definition set_in (p : peer) (i : bytes) : peer := Peer i (p_end p) (p_out p) (p_room p) (p_flush p) (p_log p).
Definition put_out (p : peer) (o : bytes) (room : option (nat * IoErrorKind)) : peer :=
  Peer (p_in p) (p_end p) (p_out p ++ o) room (p_flush p) (p_log p).
Definition log_event (p : peer) (e : SocksEvent) : peer :=
  Peer (p_in p) (p_end p) (p_out p) (p_room p) (p_flush p) (p_log p ++ [e]).

(** The outcome of an [async] function: a value, an error, or waiting for the
    peer for ever. *)
Inductive outcome (E A : Type) := Done (a : A) | Failed (e : E) | Waiting.
Arguments Done {E A} _.
Arguments Failed {E A} _.
Arguments Waiting {E A}.

Definition Io (E A : Type) : Type := peer -> peer * outcome E A.

#[export] Instance Io_ret {E} : MRet (Io E) := fun _ a p => (p, Done a).
#[export] Instance Io_bind {E} : MBind (Io E) := fun _ _ k c p =>
  match c p with
  | (p', Done a) => k a p'
  | (p', Failed e) => (p', Failed e)
  | (p', Waiting) => (p', Waiting)
  end.

Definition io_err {E A} (e : E) : Io E A := fun p => (p, Failed e).

Definition io_map_err {E F A} (f : E -> F) (c : Io E A) : Io F A := fun p =>
  match c p with
  | (p', Done a) => (p', Done a)
  | (p', Failed e) => (p', Failed (f e))
  | (p', Waiting) => (p', Waiting)
  end.

Definition at_end {A} (eof : IoErrorKind + A) : Io IoErrorKind A := fun p =>
  match p_end p with
  | InEof => match eof with inl e => (p, Failed e) | inr a => (p, Done a) end
  | InError e => (p, Failed e)
  | InWaits => (p, Waiting)
  end.

(** [AsyncReadExt::read_exact], [read_u8], [read_u16], [read_u32]. *)
Definition read_exact (n : nat) : Io IoErrorKind bytes := fun p =>
  if (n <=? length (p_in p))%nat then (set_in p (drop n (p_in p)), Done (take n (p_in p)))
  else at_end (inl UnexpectedEof) (set_in p []).

Definition read_uint (n : nat) : Io IoErrorKind Z := bs ← read_exact n; mret (be_value bs).

Fixpoint until_zero (s : bytes) : option (bytes * bytes) :=
  match s with
  | [] => None
  | x :: s' => if x =? 0 then Some ([0], s') else '(t, rest) ← until_zero s'; Some (x :: t, rest)
  end.

(** [AsyncBufReadExt::read_until(0)]: up to and including the delimiter, or
    all there is at the end of the stream. *)
Definition read_until_zero : Io IoErrorKind bytes := fun p =>
  match until_zero (p_in p) with
  | Some (t, rest) => (set_in p rest, Done t)
  | None => at_end (inr (p_in p)) (set_in p [])
  end.

(** [AsyncWriteExt::write_all] and [flush]. *)
Definition write_all (buf : bytes) : Io IoErrorKind unit := fun p =>
  match p_room p with
  | None => (put_out p buf None, Done tt)
  | Some (room, e) =>
      if (length buf <=? room)%nat then (put_out p buf (Some ((room - length buf)%nat, e)), Done tt)
      else (put_out p (take room buf) (Some (0%nat, e)), Failed e)
  end.

Definition flush : Io IoErrorKind unit := fun p =>
  match p_flush p with Some e => (p, Failed e) | None => (p, Done tt) end.

(** ** Errors *)

(** [handle_remote::FatalError]. *)
Inductive FatalError := ClientIo (e : IoErrorKind) | RequestStream | SendDatagram | MainLoopExitWithoutSendingStream.

(** [socks::Error]. *)
Inductive SocksError :=
| SocksWrite (e : IoErrorKind)
| SocksVersion (version : Z)
| InvalidCommand (command : Z)
| AddressType (atyp : Z)
| ProcessSocksRequest (what : string) (e : IoErrorKind)
| ParseAssociate
| OtherAuth
| Fatal (e : FatalError).

Definition context {A} (what : string) (c : Io IoErrorKind A) : Io SocksError A :=
  io_map_err (ProcessSocksRequest what) c.

(** ** SOCKS4 (v4.rs) *)

Definition pop (s : bytes) : bytes := removelast s.

Definition v4_read_request : Io SocksError (Z * bytes * Z) :=
  command ← context "read command" (read_uint 1);
  rport ← context "read port" (read_uint 2);
  ip ← context "read ip" (read_uint 4);
  user_id ← context "read user id" read_until_zero;
  rhost ← (if Z.shiftr ip 24 =? 0
           then domain ← context "read domain" read_until_zero; mret (pop domain)
           else mret (show_ipv4 ip));
  mret (command, rhost, rport).

Definition v4_write_response (response : Z) : Io SocksError unit :=
  _ ← context "write response" (write_all [0; response; 0; 0; 0; 0; 0; 0]);
  context "flush" flush.

(** ** SOCKS5 (v5.rs) *)

Definition v5_read_auth_methods : Io SocksError bytes :=
  num_methods ← context "read number of methods" (read_uint 1);
  context "read methods" (read_exact (Z.to_nat num_methods)).

Definition v5_write_auth_method (method : Z) : Io SocksError unit :=
  _ ← context "write auth method" (write_all [5; method]);
  context "flush" flush.

Definition v5_read_address : Io SocksError bytes :=
  address_type ← context "read address type" (read_uint 1);
  if address_type =? 1 then
    addr ← context "read address" (read_exact 4); mret (show_ipv4 (be_value addr))
  else if address_type =? 3 then
    len ← context "read domain length" (read_uint 1);
    context "read domain address" (read_exact (Z.to_nat len))
  else if address_type =? 4 then
    addr ← context "read address" (read_exact 16); mret (show_ipv6 (be_value addr))
  else
    _ ← context "write unsupported address type" (write_all [5; 8; 0; 1; 0; 0; 0; 0; 0; 0]);
    _ ← context "flush" flush;
    io_err (AddressType address_type).

Definition v5_read_request : Io SocksError (Z * bytes * Z) :=
  version ← context "read version" (read_uint 1);
  if negb (version =? 5) then io_err (SocksVersion version)
  else
    command ← context "read command" (read_uint 1);
    _ ← context "read reserved" (read_uint 1);
    address ← v5_read_address;
    port ← context "read port" (read_uint 2);
    mret (command, address, port).

Definition v5_response_bytes (response : Z) (local : SocketAddr) : bytes :=
  [5; response; 0; match sa_ip local with IpV4 _ => 1 | IpV6 _ => 4 end]
  ++ ip_octets (sa_ip local) ++ put_be 2 (sa_port local).

Definition v5_write_response (response : Z) (local : SocketAddr) : Io SocksError unit :=
  _ ← context "write response" (write_all (v5_response_bytes response local));
  context "flush" flush.

Definition v5_write_response_unspecified (response : Z) : Io SocksError unit :=
  _ ← context "write response" (write_all [5; response; 0; 1; 0; 0; 0; 0; 0; 0]);
  context "flush" flush.

(** ** Relayed datagrams (mod.rs) *)

(** [Bytes::split_to]. *)
Definition split_to {E} (n : nat) (buf : bytes) : res E (bytes * bytes) :=
  if (n <=? length buf)%nat then Ok (take n buf, drop n buf) else Panic.

(** [handle_udp_relay_header] on the octets received. *)
Definition udp_relay_header (buf : bytes) : res SocksError (option (bytes * Z * bytes)) :=
  if blen buf <? 4 then Err ParseAssociate
  else
    '(_, buf) ← get_be 2 buf;
    '(frag, buf) ← get_be 1 buf;
    if negb (frag =? 0) then Ok None
    else
      '(atyp, buf) ← get_be 1 buf;
      if atyp =? 1 then
        if blen buf <? 6 then Err ParseAssociate
        else
          '(addr, buf) ← get_be 4 buf;
          '(port, buf) ← get_be 2 buf;
          Ok (Some (show_ipv4 addr, port, buf))
      else if atyp =? 3 then
        if blen buf <? 1 then Err ParseAssociate
        else
          '(len, buf) ← get_be 1 buf;
          if blen buf <? len + 2 then Err ParseAssociate
          else
            '(dst, buf) ← split_to (Z.to_nat len) buf;
            '(port, buf) ← get_be 2 buf;
            Ok (Some (dst, port, buf))
      else if atyp =? 4 then
        if blen buf <? 18 then Err ParseAssociate
        else
          '(addr, buf) ← get_be 16 buf;
          '(port, buf) ← get_be 2 buf;
          Ok (Some (show_ipv6 addr, port, buf))
      else Ok None.

(** [send_udp_relay_response]: the datagram it sends to [target]. *)
Definition udp_relay_response (target : SocketAddr) (data : bytes) : bytes :=
  [0; 0; 0]
  ++ match sa_ip target with
     | IpV4 ip => ip_octets (IpV4 ip) ++ [1]
     | IpV6 ip => ip_octets (IpV6 ip) ++ [4]
     end
  ++ put_be 2 (sa_port target) ++ data.

(** ** Reference formats *)

(** A SOCKS5 address (RFC 1928, section 5). *)
Inductive SocksAddr := AddrIp (a : IpAddr) | AddrDomain (d : bytes).

Definition socks_addr_ok (a : SocksAddr) : Prop :=
  match a with AddrIp a => ip_ok a | AddrDomain d => bytes_ok d /\ blen d <= 255 end.

Definition encode_addr (a : SocksAddr) : bytes :=
  match a with
  | AddrIp (IpV4 ip) => 1 :: put_be 4 ip
  | AddrIp (IpV6 ip) => 4 :: put_be 16 ip
  | AddrDomain d => 3 :: blen d :: d
  end.

(** The host a stream or datagram is addressed to. *)
Definition addr_host (a : SocksAddr) : bytes :=
  match a with AddrIp a => show_ip a | AddrDomain d => d end.

(** What relayed datagrams look like in both directions (section 7). *)
Definition encode_relay (rsv : bytes) (a : SocksAddr) (port : Z) (data : bytes) : bytes :=
  rsv ++ [0] ++ encode_addr a ++ put_be 2 port ++ data.

(** ** Lemmas *)

Lemma get_be_1 {E} x (rest : bytes) : @get_be E 1 (x :: rest) = Ok (x, rest).
Proof. unfold get_be. cbn. now rewrite be_value_1. Qed.

Lemma blen_cons x bs : blen (x :: bs) = 1 + blen bs.
Proof. unfold blen. cbn. lia. Qed.

Lemma get_be_app {E} n xs (rest : bytes) : length xs = n -> @get_be E n (xs ++ rest) = Ok (be_value xs, rest).
Proof.
  intros <-. rewrite get_be_enough by (rewrite length_app; lia). now rewrite take_app_length, drop_app_length.
Qed.

Lemma get_be_2 {E} x y (rest : bytes) : @get_be E 2 (x :: y :: rest) = Ok (be_value [x; y], rest).
Proof. now apply (get_be_app 2 [x; y]). Qed.

(** A byte string with its first [n] octets split off. *)
Lemma split_bytes n (bs : bytes) :
  Z.of_nat n <= blen bs -> exists xs rest, bs = xs ++ rest /\ length xs = n.
Proof.
  unfold blen. intros H. exists (take n bs), (drop n bs). rewrite take_drop, length_take. split; [easy|lia].
Qed.

(** *** Reading *)

Lemma read_exact_app n xs rest p :
  p_in p = xs ++ rest -> length xs = n -> read_exact n p = (set_in p rest, Done xs).
Proof.
  intros Hp <-. unfold read_exact. rewrite Hp, length_app.
  destruct (Nat.leb_spec (length xs) (length xs + length rest)); [|lia]. now rewrite take_app_length, drop_app_length.
Qed.

Lemma read_uint_app n xs rest p :
  p_in p = xs ++ rest -> length xs = n -> read_uint n p = (set_in p rest, Done (be_value xs)).
Proof. intros Hp Hn. unfold read_uint, mbind, Io_bind. now rewrite (read_exact_app n xs rest). Qed.

Lemma until_zero_app s rest : Forall (fun x => x <> 0) s -> until_zero (s ++ 0 :: rest) = Some (s ++ [0], rest).
Proof.
  induction 1 as [|x s Hx _ IH]; [easy|]. cbn. destruct (Z.eqb_spec x 0); [easy|]. now rewrite IH.
Qed.

Lemma until_zero_None s : Forall (fun x => x <> 0) s -> until_zero s = None.
Proof. induction 1 as [|x s Hx _ IH]; [easy|]. cbn. destruct (Z.eqb_spec x 0); [easy|]. now rewrite IH. Qed.

Lemma read_until_zero_app s rest p :
  p_in p = s ++ 0 :: rest -> Forall (fun x => x <> 0) s -> read_until_zero p = (set_in p rest, Done (s ++ [0])).
Proof. intros Hp Hs. unfold read_until_zero. now rewrite Hp, until_zero_app. Qed.

Lemma pop_app s x : pop (s ++ [x]) = s.
Proof. apply removelast_last. Qed.

Lemma context_done {A} what (c : Io IoErrorKind A) p q a :
  c p = (q, Done a) -> context what c p = (q, Done a).
Proof. intros H. unfold context, io_map_err. now rewrite H. Qed.

Lemma set_in_in p i : p_in (set_in p i) = i.
Proof. easy. Qed.

Lemma set_in_set_in p i j : set_in (set_in p i) j = set_in p j.
Proof. easy. Qed.

Lemma io_bind_done {E A B} (k : A -> Io E B) (c : Io E A) p q a :
  c p = (q, Done a) -> (x ← c; k x) p = k a q.
Proof. intros H. unfold mbind, Io_bind. now rewrite H. Qed.

Lemma bytes_ok_cons x xs : bytes_ok (x :: xs) <-> u8_ok x /\ bytes_ok xs.
Proof. unfold bytes_ok. split; [intros H; invc H; auto|intros []; auto]. Qed.

(** *** Relayed datagrams *)

Lemma blen_put_be n z : blen (put_be n z) = Z.of_nat n.
Proof. unfold blen. now rewrite length_put_be. Qed.

Lemma get_be_u16 {E} port (data : bytes) : u16_ok port -> @get_be E 2 (put_be 2 port ++ data) = Ok (port, data).
Proof. intros H. apply get_be_put_be. unfold in_width in H. lia. Qed.

(** The first four octets of a datagram. *)
Lemma relay_prefix rsv frag atyp rest :
  length rsv = 2%nat ->
  udp_relay_header (rsv ++ [frag; atyp] ++ rest)
  = if negb (frag =? 0) then Ok None else udp_relay_header ([0; 0; 0; atyp] ++ rest).
Proof.
  intros Hl. unfold udp_relay_header. rewrite !blen_app. pose proof (blen_nonneg rest).
  replace (blen rsv) with 2 by (unfold blen; lia). cbn [blen length Z.of_nat].
  destruct (Z.ltb_spec (2 + (blen [frag; atyp] + blen rest)) 4) as [Hlt|_]; [change (blen [frag; atyp]) with 2 in Hlt; lia|].
  destruct (Z.ltb_spec (blen [0; 0; 0; atyp] + blen rest) 4) as [Hlt|_]; [change (blen [0; 0; 0; atyp]) with 4 in Hlt; lia|].
  rewrite get_be_app by easy. cbn [app mbind res_bind]. rewrite get_be_1, get_be_2. cbn [mbind res_bind].
  now destruct (frag =? 0).
Qed.

Lemma relay_header_addr a port data :
  socks_addr_ok a -> u16_ok port ->
  udp_relay_header ([0; 0; 0] ++ encode_addr a ++ put_be 2 port ++ data) = Ok (Some (addr_host a, port, data)).
Proof.
  intros Ha Hp. pose proof (blen_nonneg data).
  assert (H4 : forall x xs, (blen ([0; 0; 0] ++ (x :: xs) ++ put_be 2 port ++ data) <? 4) = false).
  { intros x xs. apply Z.ltb_ge. rewrite !blen_app, (blen_cons x xs). pose proof (blen_nonneg xs).
    pose proof (blen_nonneg (put_be 2 port)). change (blen [0; 0; 0]) with 3. lia. }
  destruct a as [[ip|ip]|d]; cbn [encode_addr addr_host show_ip]; unfold udp_relay_header; rewrite H4; clear H4;
    cbn [app]; rewrite get_be_2; cbn [mbind res_bind]; rewrite get_be_1; cbn [mbind res_bind Z.eqb negb];
    rewrite get_be_1; cbn [mbind res_bind Z.eqb Pos.eqb].
  - rewrite !blen_app, !blen_put_be. destruct (Z.ltb_spec (Z.of_nat 4 + (Z.of_nat 2 + blen data)) 6); [lia|].
    rewrite get_be_put_be by (unfold socks_addr_ok, ip_ok, in_width in Ha; lia). cbn [mbind res_bind].
    now rewrite get_be_u16.
  - rewrite !blen_app, !blen_put_be. destruct (Z.ltb_spec (Z.of_nat 16 + (Z.of_nat 2 + blen data)) 18); [lia|].
    rewrite get_be_put_be by (unfold socks_addr_ok, ip_ok, in_width in Ha; lia). cbn [mbind res_bind].
    now rewrite get_be_u16.
  - destruct Ha as [_ Hd]. rewrite blen_cons. pose proof (blen_nonneg (d ++ put_be 2 port ++ data)).
    destruct (Z.ltb_spec (1 + blen (d ++ put_be 2 port ++ data)) 1); [lia|]. rewrite get_be_1. cbn [mbind res_bind].
    rewrite !blen_app, blen_put_be. destruct (Z.ltb_spec (blen d + (Z.of_nat 2 + blen data)) (blen d + 2)); [lia|].
    unfold split_to. replace (Z.to_nat (blen d)) with (length d) by (unfold blen; lia). rewrite !length_app.
    destruct (Nat.leb_spec (length d) (length d + (length (put_be 2 port) + length data))); [|lia].
    rewrite take_app_length, drop_app_length. cbn [mbind res_bind]. now rewrite get_be_u16.
Qed.

Lemma relay_header_encode rsv a port data :
  length rsv = 2%nat -> socks_addr_ok a -> u16_ok port ->
  udp_relay_header (encode_relay rsv a port data) = Ok (Some (addr_host a, port, data)).
Proof.
  intros Hr Ha Hp. unfold encode_relay. rewrite <- (relay_header_addr a port data Ha Hp).
  assert (Hhd : exists t xs, encode_addr a = t :: xs) by (destruct a as [[]|]; cbn; eauto).
  destruct Hhd as (t & xs & ->). exact (relay_prefix rsv 0 t (xs ++ put_be 2 port ++ data) Hr).
Qed.

Lemma relay_header_dropped rsv frag atyp rest :
  length rsv = 2%nat -> frag <> 0 \/ (atyp <> 1 /\ atyp <> 3 /\ atyp <> 4) ->
  udp_relay_header (rsv ++ [frag; atyp] ++ rest) = Ok None.
Proof.
  intros Hr H. rewrite relay_prefix by easy. destruct (Z.eqb_spec frag 0) as [->|]; [|easy].
  destruct H as [|(H1 & H3 & H4)]; [easy|]. cbn [negb]. unfold udp_relay_header. rewrite blen_app.
  pose proof (blen_nonneg rest). change (blen [0; 0; 0; atyp]) with 4.
  destruct (Z.ltb_spec (4 + blen rest) 4); [lia|]. cbn [app]. rewrite get_be_2.
  cbn [mbind res_bind]. rewrite get_be_1. cbn [mbind res_bind Z.eqb negb]. rewrite get_be_1. cbn [mbind res_bind].
  destruct (Z.eqb_spec atyp 1); [easy|]. destruct (Z.eqb_spec atyp 3); [easy|]. now destruct (Z.eqb_spec atyp 4).
Qed.

Lemma take_bytes n bs :
  bytes_ok bs -> Z.of_nat n <= blen bs ->
  exists z rest, bs = put_be n z ++ rest /\ 0 <= z < 256 ^ Z.of_nat n /\ bytes_ok rest.
Proof.
  intros Hok Hn. destruct (split_bytes n bs Hn) as (xs & rest & -> & Hl). apply bytes_ok_app in Hok as [Hx Hr].
  exists (be_value xs), rest. rewrite put_be_be_value by easy. pose proof (be_value_bound xs Hx) as Hb. now rewrite Hl in Hb.
Qed.

Definition relay_dropped (buf : bytes) : Prop :=
  exists rsv frag atyp rest,
    buf = rsv ++ [frag; atyp] ++ rest /\ length rsv = 2%nat
    /\ (frag <> 0 \/ (atyp <> 1 /\ atyp <> 3 /\ atyp <> 4)).

Definition relay_accepted (buf dst : bytes) (port : Z) (data : bytes) : Prop :=
  exists rsv a,
    buf = encode_relay rsv a port data /\ length rsv = 2%nat /\ socks_addr_ok a /\ u16_ok port /\ dst = addr_host a.

Lemma u16_pow z : 0 <= z < 256 ^ Z.of_nat 2 -> u16_ok z.
Proof. easy. Qed.

(** An address of a fixed number of octets, then the port. *)
Lemma take_ip_port n rest :
  bytes_ok rest -> Z.of_nat n + 2 <= blen rest ->
  exists z port data, rest = put_be n z ++ put_be 2 port ++ data /\ 0 <= z < 256 ^ Z.of_nat n /\ u16_ok port.
Proof.
  intros Hok Hn. destruct (take_bytes n rest Hok ltac:(lia)) as (z & r1 & -> & Hz & Hr1).
  rewrite blen_app, blen_put_be in Hn. destruct (take_bytes 2 r1 Hr1 ltac:(lia)) as (port & data & -> & Hp & _).
  exists z, port, data. auto.
Qed.

(** The classification of a datagram by its address type. *)
Lemma relay_body_cases atyp rest :
  u8_ok atyp -> bytes_ok rest ->
  udp_relay_header ([0; 0; 0; atyp] ++ rest) = Err ParseAssociate
  \/ (atyp <> 1 /\ atyp <> 3 /\ atyp <> 4)
  \/ exists a port data, socks_addr_ok a /\ u16_ok port /\ atyp :: rest = encode_addr a ++ put_be 2 port ++ data.
Proof.
  intros Hat Hok. pose proof (blen_nonneg rest).
  assert (Hpre : udp_relay_header ([0; 0; 0; atyp] ++ rest)
    = if atyp =? 1 then if blen rest <? 6 then Err ParseAssociate else
        '(addr, buf) ← get_be 4 rest; '(port, buf) ← get_be 2 buf; Ok (Some (show_ipv4 addr, port, buf))
      else if atyp =? 3 then if blen rest <? 1 then Err ParseAssociate else
        '(len, buf) ← get_be 1 rest;
        if blen buf <? len + 2 then Err ParseAssociate else
          '(dst, buf) ← split_to (Z.to_nat len) buf; '(port, buf) ← get_be 2 buf; Ok (Some (dst, port, buf))
      else if atyp =? 4 then if blen rest <? 18 then Err ParseAssociate else
        '(addr, buf) ← get_be 16 rest; '(port, buf) ← get_be 2 buf; Ok (Some (show_ipv6 addr, port, buf))
      else Ok None).
  { unfold udp_relay_header. rewrite blen_app. change (blen [0; 0; 0; atyp]) with 4.
    destruct (Z.ltb_spec (4 + blen rest) 4); [lia|]. cbn [app]. rewrite get_be_2. cbn [mbind res_bind].
    rewrite get_be_1. cbn [mbind res_bind Z.eqb negb]. now rewrite get_be_1. }
  rewrite Hpre. clear Hpre.
  destruct (Z.eqb_spec atyp 1) as [->|H1]; [|destruct (Z.eqb_spec atyp 3) as [->|H3]; [|destruct (Z.eqb_spec atyp 4) as [->|H4]]].
  - destruct (Z.ltb_spec (blen rest) 6); [now left|]. right; right.
    destruct (take_ip_port 4 rest Hok ltac:(lia)) as (z & port & data & -> & Hz & Hp).
    exists (AddrIp (IpV4 z)), port, data. easy.
  - destruct (Z.ltb_spec (blen rest) 1); [now left|]. destruct rest as [|len rest]; [easy|].
    apply bytes_ok_cons in Hok as [Hlen Hok]. rewrite get_be_1. cbn [mbind res_bind].
    destruct (Z.ltb_spec (blen rest) (len + 2)) as [|Hge]; [now left|]. right; right. unfold in_width in Hlen.
    destruct (split_bytes (Z.to_nat len) rest ltac:(lia)) as (d & r1 & -> & Hd). apply bytes_ok_app in Hok as [Hdok Hr1].
    assert (blen d = len) by (unfold blen; lia). rewrite blen_app in Hge.
    destruct (take_bytes 2 r1 Hr1 ltac:(lia)) as (port & data & -> & Hp & _).
    exists (AddrDomain d), port, data. split_and!; [split; [easy|lia]|easy|]. cbn. congruence.
  - destruct (Z.ltb_spec (blen rest) 18); [now left|]. right; right.
    destruct (take_ip_port 16 rest Hok ltac:(lia)) as (z & port & data & -> & Hz & Hp).
    exists (AddrIp (IpV6 z)), port, data. easy.
  - right; left. auto.
Qed.

Lemma relay_header_cases buf :
  bytes_ok buf ->
  udp_relay_header buf = Err ParseAssociate
  \/ (relay_dropped buf /\ udp_relay_header buf = Ok None)
  \/ exists dst port data, relay_accepted buf dst port data /\ udp_relay_header buf = Ok (Some (dst, port, data)).
Proof.
  intros Hok. destruct (Z.ltb_spec (blen buf) 4) as [Hlt|Hge].
  { left. unfold udp_relay_header. now destruct (Z.ltb_spec (blen buf) 4); [|lia]. }
  destruct (split_bytes 2 buf ltac:(lia)) as (rsv & rest & -> & Hrsv). rewrite blen_app in Hge.
  assert (blen rsv = 2) by (unfold blen; lia).
  destruct rest as [|frag [|atyp rest]]; [change (blen []) with 0 in Hge; lia|change (blen [frag]) with 1 in Hge; lia|].
  change (frag :: atyp :: rest) with ([frag; atyp] ++ rest) in *.
  apply bytes_ok_app in Hok as [_ Hok]. apply bytes_ok_cons in Hok as [Hf Hok']. apply bytes_ok_cons in Hok' as [Ha Hok''].
  destruct (Z.eq_dec frag 0) as [->|Hfrag].
  - destruct (relay_body_cases atyp rest Ha Hok'') as [He|[Hd|(a & port & data & Haok & Hp & Heq)]].
    + left. now rewrite relay_prefix.
    + right; left. split; [exists rsv, 0, atyp, rest; auto|]. apply relay_header_dropped; auto.
    + right; right. exists (addr_host a), port, data.
      assert (Hbuf : rsv ++ [0; atyp] ++ rest = encode_relay rsv a port data) by (unfold encode_relay; now rewrite <- Heq).
      rewrite Hbuf. split; [now exists rsv, a|]. now apply relay_header_encode.
  - right; left. split; [exists rsv, frag, atyp, rest; auto|]. apply relay_header_dropped; auto.
Qed.

(** *** SOCKS5 addresses *)

Lemma read_address_encode a rest p :
  socks_addr_ok a -> p_in p = encode_addr a ++ rest ->
  v5_read_address p = (set_in p rest, Done (addr_host a)).
Proof.
  intros Ha Hp. unfold v5_read_address.
  destruct a as [[ip|ip]|d]; cbn [encode_addr] in Hp.
  1: erewrite io_bind_done by (apply context_done, (read_uint_app 1 [1] _ p Hp eq_refl)).
  2: erewrite io_bind_done by (apply context_done, (read_uint_app 1 [4] _ p Hp eq_refl)).
  3: erewrite io_bind_done by (apply context_done, (read_uint_app 1 [3] _ p Hp eq_refl)).
  all: rewrite be_value_1; cbn [Z.eqb Pos.eqb].
  - erewrite io_bind_done by (apply context_done, (read_exact_app 4 (put_be 4 ip) rest); [reflexivity|easy]).
    pose proof (be_value_ip (IpV4 ip) Ha) as Hv. cbn [ip_octets] in Hv. now rewrite Hv.
  - erewrite io_bind_done by (apply context_done, (read_exact_app 16 (put_be 16 ip) rest); [reflexivity|easy]).
    pose proof (be_value_ip (IpV6 ip) Ha) as Hv. cbn [ip_octets] in Hv. now rewrite Hv.
  - erewrite io_bind_done by (apply context_done, (read_uint_app 1 [blen d] (d ++ rest)); [reflexivity|easy]).
    rewrite be_value_1. erewrite context_done by (apply (read_exact_app _ d rest); [reflexivity|unfold blen; lia]). easy.
Qed.

(** ** Properties *)

(** C38: the header of a datagram for the SOCKS5 relay is accepted exactly when
    it is two reserved octets, fragment number zero, an address of one of the
    three types, a port and the data, and then the host is the domain or the
    address in text, the port and the data are those of the datagram.  It is
    dropped exactly when it is a fragment or its address type is unknown;
    anything else is an error, and no datagram makes the parser panic. *)
Theorem udp_header_exact buf :
  bytes_ok buf ->
  (forall dst port data, udp_relay_header buf = Ok (Some (dst, port, data)) <-> relay_accepted buf dst port data)
  /\ (udp_relay_header buf = Ok None <-> relay_dropped buf)
  /\ (forall e, udp_relay_header buf = Err e -> e = ParseAssociate)
  /\ udp_relay_header buf <> Panic.
Proof.
  intros Hok.
  assert (Hacc : forall dst port data, relay_accepted buf dst port data -> udp_relay_header buf = Ok (Some (dst, port, data))).
  { intros dst port data (rsv & a & -> & ? & ? & ? & ->). now apply relay_header_encode. }
  assert (Hdrop : relay_dropped buf -> udp_relay_header buf = Ok None).
  { intros (rsv & frag & atyp & rest & -> & ? & ?). now apply relay_header_dropped. }
  split_and!; try split; auto.
  - intros H. destruct (relay_header_cases buf Hok) as [He|[[_ He]|(d & po & da & Ha & He)]]; rewrite He in H; try easy.
    now injection H as <- <- <-.
  - intros H. destruct (relay_header_cases buf Hok) as [He|[[? He]|(d & po & da & Ha & He)]]; rewrite He in H; easy.
  - intros e H. destruct (relay_header_cases buf Hok) as [He|[[? He]|(d & po & da & Ha & He)]]; rewrite He in H; congruence.
  - intros H. destruct (relay_header_cases buf Hok) as [He|[[? He]|(d & po & da & Ha & He)]]; rewrite He in H; congruence.
Qed.

Lemma udp_header_exact_witness :
  let buf := [0; 0; 0; 3; 1; 97; 0; 53; 1; 2] in
  bytes_ok buf /\ udp_relay_header buf = Ok (Some ([97], 53, [1; 2])) /\ relay_accepted buf [97] 53 [1; 2].
Proof.
  cbv zeta. assert (Hok : bytes_ok [0; 0; 0; 3; 1; 97; 0; 53; 1; 2]) by (unfold bytes_ok; solve_ranges).
  split; [exact Hok|]. split; [vm_compute; reflexivity|].
  pose proof (udp_header_exact _ Hok) as [H _]. apply H. vm_compute. reflexivity.
Defined.

(** The reply for a client at 127.0.0.1:4096 read as a request. *)
Example relay_response_unreadable :
  udp_relay_response (MkSocketAddr (IpV4 2130706433) 4096) [104; 105]
  = [0; 0; 0; 127; 0; 0; 1; 1; 16; 0; 104; 105]
  /\ udp_relay_header (udp_relay_response (MkSocketAddr (IpV4 2130706433) 4096) [104; 105]) = Ok None.
Proof. split; reflexivity. Qed.
