(* ===== verification/UdpClients.v ===== *)
(** * UDP clients of the client side (src/src/client/mod.rs)

    The two maps between the UDP peers of the local listeners and the client
    identifiers carried as flow identifiers by datagrams, their insertion,
    refreshing and pruning, and the routing of replies. *)

From S2P Require Import Prelude Timing Net SocksWire Mux.

Open Scope penguin_scope.

(** ** Definitions *)

(** [config.rs]. *)
Definition UDP_PRUNE_TIMEOUT : Duration := duration_from_secs 10.
Definition MAX_UDP_PACKET_SIZE : nat := Nat.pow 2 16.

(** The supply of random identifiers ended before a free one was drawn. *)
Inductive Stalled := DrawsExhausted.

Section UdpClients.
(** A bound UDP socket and its own address; an instant is in nanoseconds. *)
Context {Socket : Type}.
Variable local_addr : Socket -> option SocketAddr.

Record ClientIdMapEntry := MkEntry {
  e_peer_addr : SocketAddr;
  e_our_addr : SocketAddr;
  e_socket : Socket;
  e_socks5 : bool;
  e_expires : Z;
}.

Definition entry_new (now : Z) (peer our : SocketAddr) (socket : Socket) (socks5 : bool) : ClientIdMapEntry :=
  MkEntry peer our socket socks5 (now + UDP_PRUNE_TIMEOUT).

Definition refresh (now : Z) (e : ClientIdMapEntry) : ClientIdMapEntry :=
  MkEntry (e_peer_addr e) (e_our_addr e) (e_socket e) (e_socks5 e) (now + UDP_PRUNE_TIMEOUT).

Record ClientIdMaps := MkMaps {
  client_id_map : gmap Z ClientIdMapEntry;
  client_addr_map : gmap (SocketAddr * SocketAddr) Z;
}.

Definition maps_new : ClientIdMaps := MkMaps ∅ ∅.

(** [add_udp_client]: an [expect] that fails is a panic. *)
Definition add_udp_client (draws : list Z) (now : Z) (addr : SocketAddr) (socket : Socket) (socks5 : bool)
    (m : ClientIdMaps) : res Stalled (ClientIdMaps * Z) :=
  match local_addr socket with
  | None => Panic
  | Some our_addr =>
      match client_addr_map m !! (addr, our_addr) with
      | Some client_id =>
          match client_id_map m !! client_id with
          | None => Panic
          | Some e => Ok (MkMaps (<[client_id := refresh now e]> (client_id_map m)) (client_addr_map m), client_id)
          end
      | None =>
          client_id ← ok_or (next_available_key draws (client_id_map m)) DrawsExhausted;
          Ok (MkMaps (<[client_id := entry_new now addr our_addr socket socks5]> (client_id_map m))
                     (<[(addr, our_addr) := client_id]> (client_addr_map m)), client_id)
      end
  end.

(** [prune_udp_clients]: [retain] visits the entries of the first map in an
    order of its own. *)
Fixpoint prune_loop (now : Z) (order : list (Z * ClientIdMapEntry)) (m : ClientIdMaps) : res Stalled ClientIdMaps :=
  match order with
  | [] => Ok m
  | (id, e) :: rest =>
      if now <? e_expires e then prune_loop now rest m
      else
        match client_addr_map m !! (e_peer_addr e, e_our_addr e) with
        | None => Panic
        | Some _ =>
            prune_loop now rest
              (MkMaps (delete id (client_id_map m)) (delete (e_peer_addr e, e_our_addr e) (client_addr_map m)))
        end
  end.

Definition prune_udp_clients (now : Z) (order : list (Z * ClientIdMapEntry)) (m : ClientIdMaps)
  : res Stalled ClientIdMaps := prune_loop now order m.

(** Where a datagram from the server goes. *)
Inductive reply :=
| ReplyStdout (data : bytes)
| ReplySend (socket : Socket) (content : bytes) (target : SocketAddr).

(** [ClientIdMaps::send_datagram_reply]; [None] is an unknown client. *)
Definition send_datagram_reply (m : ClientIdMaps) (client_id : Z) (data : bytes) : option reply :=
  if client_id =? 0 then Some (ReplyStdout data)
  else
    info ← client_id_map m !! client_id;
    Some (if e_socks5 info
          then ReplySend (e_socket info) (udp_relay_response (e_peer_addr info) data) (e_peer_addr info)
          else ReplySend (e_socket info) data (e_peer_addr info)).

(** ** Invariant *)

Definition entry_key (e : ClientIdMapEntry) : SocketAddr * SocketAddr := (e_peer_addr e, e_our_addr e).

Record maps_wf (m : ClientIdMaps) : Prop := {
  wf_forward : forall id e, client_id_map m !! id = Some e -> client_addr_map m !! entry_key e = Some id;
  wf_backward : forall key id, client_addr_map m !! key = Some id ->
                exists e, client_id_map m !! id = Some e /\ entry_key e = key;
  wf_socket : forall id e, client_id_map m !! id = Some e -> local_addr (e_socket e) = Some (e_our_addr e);
  wf_ids : forall id e, client_id_map m !! id = Some e -> valid_draw id;
}.

(** The operations of the handlers and of the pruning task. *)
Inductive maps_op :=
| OpAdd (draws : list Z) (now : Z) (addr : SocketAddr) (socket : Socket) (socks5 : bool)
| OpPrune (now : Z) (order : list (Z * ClientIdMapEntry) -> list (Z * ClientIdMapEntry)).

(** Sockets are bound, draws come from the generator, and the iteration order
    is some order of the entries. *)
Definition op_valid (o : maps_op) : Prop :=
  match o with
  | OpAdd draws _ _ socket _ => Forall valid_draw draws /\ is_Some (local_addr socket)
  | OpPrune _ order => forall l, order l ≡ₚ l
  end.

Definition run_maps_op (o : maps_op) (m : ClientIdMaps) : res Stalled ClientIdMaps :=
  match o with
  | OpAdd draws now addr socket socks5 => '(m', _) ← add_udp_client draws now addr socket socks5 m; Ok m'
  | OpPrune now order => prune_udp_clients now (order (map_to_list (client_id_map m))) m
  end.

Fixpoint run_maps_ops (os : list maps_op) (m : ClientIdMaps) : res Stalled ClientIdMaps :=
  match os with
  | [] => Ok m
  | o :: os' => m' ← run_maps_op o m; run_maps_ops os' m'
  end.

(** The entries that survive a pruning at [now]. *)
Definition alive (now : Z) (ide : Z * ClientIdMapEntry) : Prop := now < e_expires ide.2.

#[export] Instance alive_dec now ide : Decision (alive now ide).
Proof. unfold alive. apply _. Defined.

(** ** Lemmas *)

Lemma maps_new_wf : maps_wf maps_new.
Proof. split; intros *; cbn; now rewrite lookup_empty. Qed.

Lemma next_key_fresh {V} draws (map : gmap Z V) i :
  Forall valid_draw draws -> next_available_key draws map = Some i -> valid_draw i /\ map !! i = None.
Proof.
  intros Hd. induction Hd as [|d draws Hd _ IH]; [easy|]. cbn. destruct (decide (is_Some (map !! d))) as [|Hn]; [easy|].
  intros [= <-]. split; [easy|]. now apply eq_None_not_Some.
Qed.

Lemma entry_key_inj m i j e f :
  maps_wf m -> client_id_map m !! i = Some e -> client_id_map m !! j = Some f -> entry_key e = entry_key f -> i = j.
Proof. intros Hm Hi Hj Hk. apply (wf_forward _ Hm) in Hi, Hj. congruence. Qed.

(** Refreshing an entry. *)
Lemma refresh_wf m id e now :
  maps_wf m -> client_id_map m !! id = Some e ->
  maps_wf (MkMaps (<[id := refresh now e]> (client_id_map m)) (client_addr_map m)).
Proof.
  intros Hm He.
  assert (Hlook : forall j f, (<[id := refresh now e]> (client_id_map m)) !! j = Some f ->
    exists f0, client_id_map m !! j = Some f0 /\ entry_key f0 = entry_key f /\ e_socket f0 = e_socket f
               /\ e_our_addr f0 = e_our_addr f).
  { intros j f. rewrite lookup_insert_Some. intros [[<- <-]|[_ Hf]]; [exists e; auto|exists f; auto]. }
  split; cbn.
  - intros j f (f0 & Hf & <- & _)%Hlook. now apply (wf_forward _ Hm).
  - intros key j (f & Hf & <-)%(wf_backward _ Hm). destruct (Z.eq_dec id j) as [<-|Hne].
    + exists (refresh now e). rewrite lookup_insert_eq. assert (f = e) by congruence. now subst.
    + exists f. now rewrite lookup_insert_ne.
  - intros j f (f0 & Hf & _ & <- & <-)%Hlook. now apply (wf_socket _ Hm j).
  - intros j f (f0 & Hf & _)%Hlook. now apply (wf_ids _ Hm j f0).
Qed.

(** Inserting a new client. *)
Lemma insert_wf m id now addr our socket socks5 :
  maps_wf m -> valid_draw id -> client_id_map m !! id = None -> client_addr_map m !! (addr, our) = None ->
  local_addr socket = Some our ->
  maps_wf (MkMaps (<[id := entry_new now addr our socket socks5]> (client_id_map m))
                  (<[(addr, our) := id]> (client_addr_map m))).
Proof.
  intros Hm Hid Hn Hk Hs. split; cbn.
  - intros j f. rewrite lookup_insert_Some. intros [[<- <-]|[Hne Hf]]; [apply lookup_insert_eq|].
    pose proof (wf_forward _ Hm _ _ Hf) as Hfw. rewrite lookup_insert_ne; [easy|]. intros Heq. rewrite <- Heq in Hfw. congruence.
  - intros key j. rewrite lookup_insert_Some. intros [[<- <-]|[Hne Hj]].
    + exists (entry_new now addr our socket socks5). now rewrite lookup_insert_eq.
    + destruct (wf_backward _ Hm _ _ Hj) as (f & Hf & Hkf). exists f. rewrite lookup_insert_ne; [easy|congruence].
  - intros j f. rewrite lookup_insert_Some. intros [[<- <-]|[Hne Hf]]; [easy|now apply (wf_socket _ Hm j)].
  - intros j f. rewrite lookup_insert_Some. intros [[<- <-]|[Hne Hf]]; [easy|now apply (wf_ids _ Hm j f)].
Qed.

(** Removing a client from both maps. *)
Lemma delete_wf m id e :
  maps_wf m -> client_id_map m !! id = Some e ->
  maps_wf (MkMaps (delete id (client_id_map m)) (delete (entry_key e) (client_addr_map m))).
Proof.
  intros Hm He. split; cbn.
  - intros j f. rewrite lookup_delete_Some. intros [Hne Hf]. rewrite lookup_delete_ne; [now apply (wf_forward _ Hm)|].
    intros Hk. apply Hne. now apply (entry_key_inj m id j e f).
  - intros key j. rewrite lookup_delete_Some. intros [Hne Hj]. destruct (wf_backward _ Hm _ _ Hj) as (f & Hf & <-).
    exists f. rewrite lookup_delete_ne; [easy|]. intros <-. congruence.
  - intros j f. rewrite lookup_delete_Some. intros [_ Hf]. now apply (wf_socket _ Hm j).
  - intros j f. rewrite lookup_delete_Some. intros [_ Hf]. now apply (wf_ids _ Hm j f).
Qed.

(** Adding a client either finds it or inserts it; it never panics. *)
Lemma add_udp_client_spec draws now addr socket socks5 m our :
  maps_wf m -> Forall valid_draw draws -> local_addr socket = Some our ->
  match add_udp_client draws now addr socket socks5 m with
  | Ok (m', id) =>
      maps_wf m' /\ client_addr_map m' !! (addr, our) = Some id
      /\ (exists e, client_id_map m' !! id = Some e /\ entry_key e = (addr, our) /\ e_expires e = now + UDP_PRUNE_TIMEOUT)
      /\ (forall j, j <> id -> client_id_map m' !! j = client_id_map m !! j)
      /\ (forall id0, client_addr_map m !! (addr, our) = Some id0 -> id = id0 /\ client_addr_map m' = client_addr_map m)
  | Err _ => client_addr_map m !! (addr, our) = None /\ next_available_key draws (client_id_map m) = None
  | Panic => False
  end.
Proof.
  intros Hm Hd Hs. unfold add_udp_client. rewrite Hs.
  destruct (client_addr_map m !! (addr, our)) as [id|] eqn:Hk.
  - destruct (wf_backward _ Hm _ _ Hk) as (e & He & Hke). rewrite He.
    split; [now apply refresh_wf|]. cbn. split; [easy|]. split.
    + exists (refresh now e). now rewrite lookup_insert_eq.
    + split; [intros j Hj; now rewrite lookup_insert_ne|]. intros id0 [= <-]. easy.
  - destruct (next_available_key draws (client_id_map m)) as [id|] eqn:Hn; cbn [ok_or mbind res_bind]; [|easy].
    destruct (next_key_fresh _ _ _ Hd Hn) as [Hv Hfree].
    split; [now apply insert_wf|]. cbn. rewrite lookup_insert_eq. split; [easy|]. split.
    + exists (entry_new now addr our socket socks5). now rewrite lookup_insert_eq.
    + split; [intros j Hj; now rewrite lookup_insert_ne|easy].
Qed.

(** The pruning loop on entries of the map, each at most once. *)
Lemma prune_loop_spec now order m :
  maps_wf m -> NoDup order.*1 -> (forall id e, (id, e) ∈ order -> client_id_map m !! id = Some e) ->
  exists m', prune_loop now order m = Ok m' /\ maps_wf m'
    /\ (forall id e, client_id_map m' !! id = Some e
        <-> client_id_map m !! id = Some e /\ ((id, e) ∈ order -> now < e_expires e)).
Proof.
  revert m. induction order as [|[id e] rest IH]; intros m Hm Hnd Hin.
  - exists m. split; [easy|]. split; [easy|]. intros j f. split; [|tauto]. intros Hj. split; [easy|].
    intros Hc. now apply elem_of_nil in Hc.
  - cbn [fmap list_fmap fst] in Hnd. apply list.NoDup_cons in Hnd as [Hnotin Hnd]. cbn [prune_loop].
    assert (He : client_id_map m !! id = Some e) by (apply Hin; left).
    destruct (Z.ltb_spec now (e_expires e)) as [Hlive|Hdead].
    + destruct (IH m Hm Hnd) as (m' & Heq & Hm' & Hspec); [intros j f Hj; apply Hin; now right|].
      exists m'. split; [easy|]. split; [easy|]. intros j f. rewrite Hspec. split; intros [Hj Hr]; split; auto.
      * intros [[= -> ->]|Hj']%list_basics.list.elem_of_cons; auto.
      * intros Hj'. apply Hr. now right.
    + change (e_peer_addr e, e_our_addr e) with (entry_key e). rewrite (wf_forward _ Hm _ _ He).
      destruct (IH _ (delete_wf m id e Hm He) Hnd) as (m' & Heq & Hm' & Hspec).
      { intros j f Hj. cbn. rewrite lookup_delete_ne; [apply Hin; now right|]. intros <-. apply Hnotin.
        apply list_elem_of_fmap. now exists (id, f). }
      exists m'. split; [easy|]. split; [easy|]. intros j f. rewrite Hspec. cbn. rewrite lookup_delete_Some.
      split; intros [Hj Hr].
      * destruct Hj as [Hne Hj]. split; [easy|]. intros [[= -> ->]|Hj']%list_basics.list.elem_of_cons; [easy|auto].
      * split; [split; [|easy]|intros Hj'; apply Hr; now right]. intros <-. assert (f = e) by congruence. subst f.
        assert (now < e_expires e) by (apply Hr; left). lia.
Qed.

Lemma prune_spec now order m :
  maps_wf m -> order ≡ₚ map_to_list (client_id_map m) ->
  exists m', prune_udp_clients now order m = Ok m' /\ maps_wf m'
    /\ client_id_map m' = filter (alive now) (client_id_map m).
Proof.
  intros Hm Hperm.
  destruct (prune_loop_spec now order m Hm) as (m' & Heq & Hm' & Hspec).
  - rewrite Hperm. apply NoDup_fst_map_to_list.
  - intros id e. rewrite Hperm. apply elem_of_map_to_list.
  - exists m'. split; [easy|]. split; [easy|]. apply map_eq_iff. intros id. apply option_eq. intros e.
    rewrite Hspec, map_lookup_filter_Some. unfold alive. cbn. rewrite Hperm, elem_of_map_to_list. tauto.
Qed.

(** ** Properties *)

(** C23: whatever the handlers and the pruning task do, in any order, with any
    iteration order of the map, no [expect] of the two maps fails, and
    afterwards they are inverse to each other: every identifier is in the
    range of the generator and leads to one pair of addresses that leads back,
    so two clients never share an identifier and no client has two. *)
Theorem udp_maps_consistent os m :
  maps_wf m -> Forall op_valid os ->
  match run_maps_ops os m with
  | Ok m' => maps_wf m'
  | Err _ => True
  | Panic => False
  end.
Proof.
  intros Hm Hos. revert m Hm. induction Hos as [|o os Ho _ IH]; intros m Hm; [easy|]. cbn [run_maps_ops].
  destruct o as [draws now addr socket socks5|now order]; cbn [run_maps_op op_valid] in *.
  - destruct Ho as [Hd [our Hs]]. pose proof (add_udp_client_spec draws now addr socket socks5 m our Hm Hd Hs) as Hspec.
    destruct (add_udp_client draws now addr socket socks5 m) as [[m' id]|e|]; cbn [mbind res_bind]; [|easy|easy].
    apply IH, Hspec.
  - destruct (prune_spec now (order (map_to_list (client_id_map m))) m Hm (Ho _)) as (m' & -> & Hm' & _). now apply IH.
Qed.

(** A client that sends a datagram is answered at its own address through
    the socket it used, with the SOCKS5 header exactly when it is a SOCKS5
    client, until ten seconds after its last datagram: pruning in between
    keeps it. *)
Theorem udp_reply_routed draws now addr socket our socks5 m m' id :
  maps_wf m -> Forall valid_draw draws -> local_addr socket = Some our ->
  add_udp_client draws now addr socket socks5 m = Ok (m', id) ->
  id <> 0
  /\ (forall later order, later < now + UDP_PRUNE_TIMEOUT -> order ≡ₚ map_to_list (client_id_map m') ->
      exists m'', prune_udp_clients later order m' = Ok m'' /\
        exists e, client_id_map m'' !! id = Some e /\ e_peer_addr e = addr /\ local_addr (e_socket e) = Some our
          /\ forall data, send_datagram_reply m'' id data
             = Some (ReplySend (e_socket e) (if e_socks5 e then udp_relay_response addr data else data) addr)).
Proof.
  intros Hm Hd Hs Hadd. pose proof (add_udp_client_spec draws now addr socket socks5 m our Hm Hd Hs) as Hspec.
  rewrite Hadd in Hspec. destruct Hspec as (Hm' & _ & (e & He & Hkey & Hexp) & _).
  assert (Hid : id <> 0) by (pose proof (wf_ids _ Hm' _ _ He) as Hv; unfold valid_draw in Hv; lia).
  split; [easy|]. intros later order Hlater Hperm.
  destruct (prune_spec later order m' Hm' Hperm) as (m'' & Heq & _ & Hfilter). exists m''. split; [easy|].
  assert (He' : client_id_map m'' !! id = Some e).
  { rewrite Hfilter. apply map_lookup_filter_Some. split; [easy|]. unfold alive. cbn. lia. }
  pose proof (wf_socket _ Hm' _ _ He) as Hsock. unfold entry_key in Hkey. injection Hkey as Hpeer Hour.
  exists e. split; [easy|]. split; [easy|]. split; [congruence|]. intros data. unfold send_datagram_reply.
  destruct (Z.eqb_spec id 0); [easy|]. rewrite He'. cbn [mbind option_bind]. rewrite Hpeer. now destruct (e_socks5 e).
Qed.
End UdpClients.

Arguments ClientIdMaps Socket : clear implicits.
Arguments ClientIdMapEntry Socket : clear implicits.

(** ** Concrete runs *)

(** A socket is the port it is bound to on the loopback address. *)
Definition loopback_addr (port : Z) : option SocketAddr := Some (MkSocketAddr (IpV4 2130706433) port).

Definition sample_peer : SocketAddr := MkSocketAddr (IpV4 2130706434) 5000.

Definition sample_ops : list (@maps_op Z) :=
  [OpAdd [7] 0 sample_peer 53 false; OpAdd [7; 9] 1 sample_peer 54 true; OpAdd [] 2 sample_peer 53 false;
   OpPrune (duration_from_secs 10 + 1) (@rev _)].

Lemma udp_maps_consistent_witness :
  Forall (op_valid loopback_addr) sample_ops
  /\ match run_maps_ops loopback_addr sample_ops maps_new with
     | Ok m => maps_wf loopback_addr m
     | Err _ => True
     | Panic => False
     end.
Proof.
  assert (H : Forall (op_valid loopback_addr) sample_ops).
  { unfold sample_ops. repeat apply Forall_cons_2; try apply Forall_nil_2; cbn [op_valid].
    - split; [|now eexists]. repeat apply Forall_cons_2; try apply Forall_nil_2; unfold valid_draw, u32_max; lia.
    - split; [|now eexists]. repeat apply Forall_cons_2; try apply Forall_nil_2; unfold valid_draw, u32_max; lia.
    - split; [apply Forall_nil_2|now eexists].
    - intros l. symmetry. apply Permutation_rev. }
  split; [exact H|]. exact (udp_maps_consistent loopback_addr sample_ops maps_new (maps_new_wf _) H).
Defined.

(** The run keeps the refreshed client 7 and removes client 9. *)
Example sample_run :
  match run_maps_ops loopback_addr sample_ops maps_new with
  | Ok m => map_to_list (client_id_map m) = [(7, MkEntry sample_peer (MkSocketAddr (IpV4 2130706433) 53) 53 false 10000000002)]
            /\ map_to_list (client_addr_map m) = [((sample_peer, MkSocketAddr (IpV4 2130706433) 53), 7)]
  | _ => False
  end.
Proof. vm_compute. split; reflexivity. Qed.

Lemma udp_reply_routed_witness :
  exists m' : ClientIdMaps Z,
  add_udp_client loopback_addr [7] 0 sample_peer 53 true maps_new = Ok (m', 7)
  /\ 7 <> 0
  /\ exists m'' : ClientIdMaps Z,
       prune_udp_clients 5 (map_to_list (client_id_map m')) m' = Ok m''
       /\ exists e, client_id_map m'' !! 7 = Some e /\ e_peer_addr e = sample_peer
          /\ loopback_addr (e_socket e) = loopback_addr 53
          /\ forall data, send_datagram_reply m'' 7 data
             = Some (ReplySend (e_socket e) (if e_socks5 e then udp_relay_response sample_peer data else data) sample_peer).
Proof.
  eexists. split; [reflexivity|].
  match goal with |- _ /\ exists m'', prune_udp_clients _ _ ?m = _ /\ _ => set (m' := m) end.
  pose proof (udp_reply_routed loopback_addr [7] 0 sample_peer 53 (MkSocketAddr (IpV4 2130706433) 53) true maps_new m' 7
    (maps_new_wf _)) as H.
  destruct H as [Hid H]; [apply Forall_cons_2; [unfold valid_draw, u32_max; lia|apply Forall_nil_2]|reflexivity|reflexivity|].
  split; [exact Hid|]. apply H; [vm_compute; reflexivity|reflexivity].
Defined.
