(* ===== verification/Directory.v ===== *)
(** * The directory of UDP clients (src/src/client/mod.rs)

    What the two maps of the client are for: a directory that knows each
    client by its pair of addresses, forgets those not heard of for ten
    seconds, and says where their replies go.  The identifiers and the second
    map are its implementation; here the operations on the maps are shown to
    refine it, and the task that prunes them to go on for ever. *)

From S2P Require Import Prelude Timing Net SocksWire Mux UdpClients.

Open Scope penguin_scope.

Section Directory.
Context {Socket : Type}.
Variable local_addr : Socket -> option SocketAddr.
Abbreviation Maps := (ClientIdMaps Socket).
Abbreviation Entry := (ClientIdMapEntry Socket).
Abbreviation Key := (SocketAddr * SocketAddr)%type.

(** ** The task (client/mod.rs) *)

(** [prune_client_id_map_task]: one pruning per tick; each tick with its
    instant and the order in which the map is visited. *)
Fixpoint prune_client_id_map_task (ticks : list (Z * (list (Z * Entry) -> list (Z * Entry)))) (m : Maps) : res Stalled Maps :=
  match ticks with
  | [] => Ok m
  | (now, order) :: rest =>
      m' ← prune_udp_clients now (order (map_to_list (client_id_map m))) m;
      prune_client_id_map_task rest m'
  end.

(** ** The specification *)

Abbreviation Directory := (gmap Key Entry).

Definition spec_add (now : Z) (addr our : SocketAddr) (socket : Socket) (socks5 : bool) (d : Directory) : Directory :=
  match d !! (addr, our) with
  | Some e => <[(addr, our) := refresh now e]> d
  | None => <[(addr, our) := entry_new now addr our socket socks5]> d
  end.

Definition fresh_at (now : Z) (ke : Key * Entry) : Prop := now < e_expires ke.2.

#[local] Instance fresh_at_dec now ke : Decision (fresh_at now ke).
Proof. unfold fresh_at. apply _. Defined.

Definition spec_prune (now : Z) (d : Directory) : Directory := filter (fresh_at now) d.

Definition spec_op (d : Directory) (o : maps_op) : Directory :=
  match o with
  | OpAdd _ now addr socket socks5 =>
      match local_addr socket with Some our => spec_add now addr our socket socks5 d | None => d end
  | OpPrune now _ => spec_prune now d
  end.

(** Where a reply to a client goes. *)
Definition spec_reply (d : Directory) (key : Key) (data : bytes) : option (@reply Socket) :=
  e ← d !! key;
  Some (ReplySend (e_socket e) (if e_socks5 e then udp_relay_response (e_peer_addr e) data else data) (e_peer_addr e)).

(** What the maps stand for. *)
Definition directory (m : Maps) : Directory := omap (fun id => client_id_map m !! id) (client_addr_map m).

(** ** Lemmas *)

Lemma directory_lookup m key e :
  maps_wf local_addr m ->
  directory m !! key = Some e <-> exists id, client_id_map m !! id = Some e /\ entry_key e = key.
Proof.
  intros Hm. unfold directory. rewrite lookup_omap. split.
  - destruct (client_addr_map m !! key) as [id|] eqn:Hk; [|easy]. cbn. intros He. exists id. split; [easy|].
    destruct (wf_backward _ _ Hm _ _ Hk) as (f & Hf & Hkf). congruence.
  - intros (id & He & <-). now rewrite (wf_forward _ _ Hm _ _ He).
Qed.

(** An entry put under an identifier, with the rest of the maps as before. *)
Lemma directory_insert m m' id e :
  maps_wf local_addr m' -> maps_wf local_addr m ->
  client_id_map m' = <[id := e]> (client_id_map m) ->
  (forall f, client_id_map m !! id = Some f -> entry_key f = entry_key e) ->
  directory m' = <[entry_key e := e]> (directory m).
Proof.
  intros Hm' Hm Hins Hsame. apply map_eq. intros key. apply option_eq. intros f.
  rewrite (directory_lookup m' key f Hm'), lookup_insert_Some, (directory_lookup m key f Hm), Hins.
  setoid_rewrite lookup_insert_Some. split.
  - intros (j & [[<- <-]|[Hne Hf]] & Hk); [now left|]. right. split; [|eauto]. intros He. apply Hne.
    assert (Hid : client_id_map m' !! id = Some e) by (rewrite Hins; apply lookup_insert_eq).
    assert (Hj : client_id_map m' !! j = Some f) by (now rewrite Hins, lookup_insert_ne).
    apply (entry_key_inj local_addr m' id j e f Hm' Hid Hj). congruence.
  - intros [[<- <-]|[Hne (j & Hf & Hk)]]; [exists id; auto|]. exists j. split; [right|easy]. split; [|easy].
    intros <-. apply Hne. now rewrite <- Hk, (Hsame f Hf).
Qed.

Lemma add_refines draws now addr socket socks5 our m m' id :
  maps_wf local_addr m -> Forall valid_draw draws -> local_addr socket = Some our ->
  add_udp_client local_addr draws now addr socket socks5 m = Ok (m', id) ->
  maps_wf local_addr m' /\ directory m' = spec_add now addr our socket socks5 (directory m).
Proof.
  intros Hm Hd Hs Hadd. pose proof (add_udp_client_spec local_addr draws now addr socket socks5 m our Hm Hd Hs) as Hspec.
  rewrite Hadd in Hspec. destruct Hspec as [Hm' _]. split; [easy|]. unfold add_udp_client in Hadd. rewrite Hs in Hadd.
  unfold spec_add, directory at 2. rewrite lookup_omap.
  destruct (client_addr_map m !! (addr, our)) as [i|] eqn:Hk; cbn [mbind option_bind].
  - destruct (wf_backward _ _ Hm _ _ Hk) as (e & He & Hke). rewrite He in *. injection Hadd as <- <-.
    rewrite <- Hke. apply (directory_insert m _ i (refresh now e) Hm' Hm); [easy|]. intros f Hf. now replace f with e by congruence.
  - destruct (next_available_key draws (client_id_map m)) as [i|] eqn:Hn; cbn in Hadd; [|easy]. injection Hadd as <- <-.
    destruct (next_key_fresh _ _ _ Hd Hn) as [_ Hfree].
    apply (directory_insert m _ i (entry_new now addr our socket socks5) Hm' Hm); [easy|congruence].
Qed.

Lemma prune_refines now order m :
  maps_wf local_addr m -> order ≡ₚ map_to_list (client_id_map m) ->
  exists m', prune_udp_clients now order m = Ok m' /\ maps_wf local_addr m' /\ directory m' = spec_prune now (directory m).
Proof.
  intros Hm Hperm. destruct (prune_spec local_addr now order m Hm Hperm) as (m' & Heq & Hm' & Hf). exists m'.
  split_and!; [easy..|]. apply map_eq. intros key. apply option_eq. intros e. unfold spec_prune.
  rewrite map_lookup_filter_Some, (directory_lookup m' key e Hm'), (directory_lookup m key e Hm), Hf.
  setoid_rewrite map_lookup_filter_Some. unfold alive, fresh_at. cbn. split; [intros (id & [He Hl] & Hk)|intros [(id & He & Hk) Hl]]; eauto 10.
Qed.

Lemma op_refines o m m' :
  maps_wf local_addr m -> op_valid local_addr o -> run_maps_op local_addr o m = Ok m' ->
  maps_wf local_addr m' /\ directory m' = spec_op (directory m) o.
Proof.
  destruct o as [draws now addr socket socks5|now order]; cbn [run_maps_op op_valid spec_op]; intros Hm Ho H.
  - destruct Ho as [Hd [our Hs]]. rewrite Hs.
    destruct (add_udp_client local_addr draws now addr socket socks5 m) as [[m1 id]|e|] eqn:Hadd; [|easy..].
    injection H as <-. now apply (add_refines draws now addr socket socks5 our m m1 id).
  - destruct (prune_refines now _ m Hm (Ho _)) as (m1 & Heq & Hm1 & Hd). rewrite Heq in H. now injection H as <-.
Qed.

Lemma run_refines os m m' :
  maps_wf local_addr m -> Forall (op_valid local_addr) os -> run_maps_ops local_addr os m = Ok m' ->
  maps_wf local_addr m' /\ directory m' = foldl spec_op (directory m) os.
Proof.
  intros Hm Hos. revert m Hm. induction Hos as [|o os Ho _ IH]; intros m Hm Hrun; cbn in Hrun; [injection Hrun as <-; easy|].
  destruct (run_maps_op local_addr o m) as [m1| |] eqn:H1; [|easy..].
  destruct (op_refines o m m1 Hm Ho H1) as [Hm1 Hd]. cbn [foldl]. rewrite <- Hd. now apply IH.
Qed.

(** ** Properties *)

(** C24: the two maps implement the directory: whatever the handlers and the
    pruning task do, the maps stand for the directory to which the same was
    done, by pairs of addresses alone; and the reply to the identifier a
    client was given goes where the directory says for its addresses. *)
Theorem udp_directory_refined os m m' :
  maps_wf local_addr m -> Forall (op_valid local_addr) os -> run_maps_ops local_addr os m = Ok m' ->
  directory m' = foldl spec_op (directory m) os
  /\ forall key id data, client_addr_map m' !! key = Some id ->
     send_datagram_reply m' id data = spec_reply (directory m') key data
     /\ is_Some (send_datagram_reply m' id data).
Proof.
  intros Hm Hos Hrun. destruct (run_refines os m m' Hm Hos Hrun) as [Hm' Hd]. split; [easy|]. intros key id data Hk.
  destruct (wf_backward _ _ Hm' _ _ Hk) as (e & He & Hke). pose proof (wf_ids _ _ Hm' _ _ He) as Hv. unfold valid_draw in Hv.
  unfold send_datagram_reply, spec_reply, directory. rewrite lookup_omap, Hk. cbn.
  destruct (Z.eqb_spec id 0); [lia|]. rewrite He. cbn. destruct (e_socks5 e); eauto.
Qed.

(** Pruning does not depend on the order in which the map is visited: it
    is the filter of both maps by the date of the entries. *)
Theorem prune_is_filter now order m :
  maps_wf local_addr m -> order ≡ₚ map_to_list (client_id_map m) ->
  prune_udp_clients now order m
  = Ok (MkMaps (filter (alive now) (client_id_map m))
               (filter (fun kid => is_Some (filter (alive now) (client_id_map m) !! kid.2)) (client_addr_map m))).
Proof.
  intros Hm Hperm. destruct (prune_spec local_addr now order m Hm Hperm) as (m' & -> & Hm' & Hf). f_equal.
  destruct m' as [ids addrs]. cbn in Hf. subst ids. f_equal. apply map_eq. intros key. apply option_eq. intros id.
  rewrite map_lookup_filter_Some. cbn. split.
  - intros Hk. destruct (wf_backward _ _ Hm' _ _ Hk) as (e & He & Hke). cbn in He. split; [|now exists e].
    apply map_lookup_filter_Some in He as [He _]. rewrite <- Hke. now apply (wf_forward _ _ Hm).
  - intros [Hk [e He]]. destruct (wf_backward _ _ Hm _ _ Hk) as (f & Hff & Hkf).
    pose proof He as He'. apply map_lookup_filter_Some in He' as [He' _]. assert (f = e) by congruence. subst f.
    rewrite <- Hkf. now apply (wf_forward _ _ Hm' id e).
Qed.

(** The pruning task never stops on consistent maps, and after each tick no
    client is left that was not heard of for ten seconds. *)
Theorem prune_task_forever ticks m now order :
  maps_wf local_addr m -> Forall (fun t => forall l, t.2 l ≡ₚ l) (ticks ++ [(now, order)]) ->
  exists m', prune_client_id_map_task (ticks ++ [(now, order)]) m = Ok m' /\ maps_wf local_addr m'
    /\ forall id e, client_id_map m' !! id = Some e -> now < e_expires e.
Proof.
  revert m. induction ticks as [|[at_ ord] ticks IH]; intros m Hm Ht; cbn [app prune_client_id_map_task] in *;
    apply Forall_cons_iff in Ht as [Ho Ht];
    (match goal with |- context [prune_udp_clients ?t (?o _) m] =>
       destruct (prune_spec local_addr t (o (map_to_list (client_id_map m))) m Hm (Ho _)) as (m1 & Heq & Hm1 & Hf) end);
    rewrite Heq; cbn [mbind res_bind].
  - exists m1. split_and!; [easy..|]. intros id e. rewrite Hf, map_lookup_filter_Some. now intros [_ ?].
  - now apply IH.
Qed.
End Directory.

(** ** Concrete runs *)

Definition peer : SocketAddr := MkSocketAddr (IpV4 1) 9.

(** A client that sends twice, another that is forgotten. *)
Definition sample_ops : list (@maps_op Z) :=
  [OpAdd [5] 0 peer 53 true; OpAdd [7] 1 (MkSocketAddr (IpV4 2) 9) 53 false; OpAdd [] (2 * 10 ^ 9) peer 53 false;
   OpPrune (11 * 10 ^ 9) id].

Lemma sample_valid : Forall (op_valid loopback_addr) sample_ops.
Proof.
  unfold sample_ops. rewrite !Forall_cons_iff. cbn [op_valid]. rewrite !Forall_cons_iff. unfold valid_draw, u32_max.
  split_and!; try apply Forall_nil_2; try lia; try (eexists; reflexivity). reflexivity.
Qed.

Lemma udp_directory_refined_witness :
  exists m', run_maps_ops loopback_addr sample_ops maps_new = Ok m'
    /\ directory m' = foldl (spec_op loopback_addr) (directory maps_new) sample_ops
    /\ forall key id data, client_addr_map m' !! key = Some id ->
       send_datagram_reply m' id data = spec_reply (directory m') key data
       /\ is_Some (send_datagram_reply m' id data).
Proof.
  eexists. split; [vm_compute; reflexivity|].
  apply (udp_directory_refined loopback_addr sample_ops maps_new);
    [apply maps_new_wf|apply sample_valid|vm_compute; reflexivity].
Defined.

(** Pruning when the first client is current and the second is not. *)
Lemma prune_is_filter_witness :
  exists m, run_maps_ops loopback_addr (take 3 sample_ops) maps_new = Ok m
    /\ prune_udp_clients (11 * 10 ^ 9) (rev (map_to_list (client_id_map m))) m
       = Ok (MkMaps (filter (alive (11 * 10 ^ 9)) (client_id_map m))
                    (filter (fun kid => is_Some (filter (alive (11 * 10 ^ 9)) (client_id_map m) !! kid.2)) (client_addr_map m))).
Proof.
  eexists. split; [vm_compute; reflexivity|]. apply (prune_is_filter loopback_addr).
  - apply (run_refines loopback_addr (take 3 sample_ops) maps_new); [apply maps_new_wf| |vm_compute; reflexivity].
    apply Forall_take, sample_valid.
  - symmetry. apply Permutation_rev.
Defined.
