(* ===== verification/Socks.v ===== *)
(** * The SOCKS server (src/src/client/handle_remote/socks/mod.rs)

    The handler of a SOCKS4, 4a or 5 connection: version dispatch,
    authentication, CONNECT, UDP ASSOCIATE, and the loop that accepts
    connections. *)

From S2P Require Import Prelude Net SocksWire.

Open Scope penguin_scope.

(** ** Definitions *)

(** What the rest of the client and the system answer to a handler: a permit
    to request a stream, the stream, the copier on the connection (it takes
    the connection with what is left of its input), and a UDP socket. *)
Class SocksEnv (Socket : Type) := {
  env_reserve : outcome unit unit;
  env_channel : bytes -> Z -> outcome unit unit;
  env_copy : peer -> peer * outcome IoErrorKind (Z * Z);
  env_bind : bytes -> outcome IoErrorKind Socket;
  env_local_addr : Socket -> outcome IoErrorKind SocketAddr;
}.

Section Socks.
Context {Socket : Type} `{!SocksEnv Socket}.

Definition of_env {E A} (o : outcome E A) : Io E A := fun p => (p, o).

(** [stream_command_tx.reserve()]. *)
Definition reserve : Io SocksError unit := io_map_err (fun _ => Fatal RequestStream) (of_env env_reserve).

(** [request_tcp_channel] (tcp.rs). *)
Definition request_tcp_channel (host : bytes) (port : Z) : Io unit unit := fun p =>
  (log_event p (EvStreamRequest host port), env_channel host port).

Definition start_copy : Io IoErrorKind (Z * Z) := fun p => env_copy (log_event p EvCopy).

Definition handle_connect (rhost : bytes) (rport : Z) (version_is_5 : bool) : Io SocksError unit :=
  _ ← io_map_err (fun _ => Fatal MainLoopExitWithoutSendingStream) (request_tcp_channel rhost rport);
  _ ← (if version_is_5 then v5_write_response_unspecified 0 else v4_write_response 90);
  _ ← io_map_err SocksWrite start_copy;
  mret tt.

(** Waiting for the client to close the connection, then [relay_task.abort()]. *)
Definition await_disconnect : Io SocksError unit := fun p =>
  match read_exact 1 p with
  | (p, Waiting) => (p, Waiting)
  | (p, _) => (log_event p EvRelayAborted, Done tt)
  end.

Definition spawn_relay (addr : SocketAddr) : Io SocksError unit := fun p => (log_event p (EvRelayStarted addr), Done tt).

Definition associate_failed {A} (what : string) (e : IoErrorKind) : Io SocksError A :=
  _ ← v5_write_response_unspecified 1;
  io_err (ProcessSocksRequest what e).

(** [handle_associate]; an early return leaves the relay task running. *)
Definition handle_associate (local_addr : bytes) : Io SocksError unit :=
  match env_bind local_addr with
  | Waiting => of_env Waiting
  | Failed e => associate_failed "bind udp socket" e
  | Done socket =>
      match env_local_addr socket with
      | Waiting => of_env Waiting
      | Failed e => associate_failed "get udp socket local addr" e
      | Done sock_local_addr =>
          _ ← spawn_relay sock_local_addr;
          _ ← v5_write_response 0 sock_local_addr;
          await_disconnect
      end
  end.

Definition socks4 : Io SocksError unit :=
  '(command, rhost, rport) ← v4_read_request;
  if command =? 1 then _ ← reserve; handle_connect rhost rport false
  else _ ← v4_write_response 91; io_err (InvalidCommand command).

Definition no_auth (methods : bytes) : bool := existsb (fun m => m =? 0) methods.

Definition socks5 (local_addr : bytes) : Io SocksError unit :=
  methods ← v5_read_auth_methods;
  if negb (no_auth methods) then _ ← v5_write_auth_method 255; io_err OtherAuth
  else
    _ ← v5_write_auth_method 0;
    '(command, rhost, rport) ← v5_read_request;
    if command =? 1 then _ ← reserve; handle_connect rhost rport true
    else if command =? 3 then handle_associate local_addr
    else _ ← v5_write_response_unspecified 7; io_err (InvalidCommand command).

Definition on_socks_accept (local_addr : bytes) : Io SocksError unit :=
  version ← context "read version" (read_uint 1);
  if version =? 4 then socks4
  else if version =? 5 then socks5 local_addr
  else io_err (SocksVersion version).

(** The accept loop: it returns only on a fatal error of a job or when
    accepting fails; other errors of jobs are logged. *)
Inductive socks_event :=
| JobFinished (result : outcome SocksError unit)
| Accepted (p : peer)
| AcceptFailed (e : IoErrorKind).

Fixpoint socks_loop (events : list socks_event) (jobs : list peer) : list peer * outcome FatalError unit :=
  match events with
  | [] => (jobs, Waiting)
  | JobFinished (Failed (Fatal e)) :: _ => (jobs, Failed e)
  | JobFinished _ :: rest => socks_loop rest jobs
  | Accepted p :: rest => socks_loop rest (jobs ++ [p])
  | AcceptFailed e :: _ => (jobs, Failed (ClientIo e))
  end.

Definition handle_socks (listener : outcome IoErrorKind unit) (events : list socks_event)
  : list peer * outcome FatalError unit :=
  match listener with
  | Failed e => ([], Failed (ClientIo e))
  | Waiting => ([], Waiting)
  | Done _ => socks_loop events []
  end.

Definition handle_socks_stdio (stdio : peer) : peer * outcome FatalError unit :=
  match on_socks_accept (str "localhost") stdio with
  | (p, Failed (Fatal e)) => (p, Failed e)
  | (p, Failed _) => (p, Done tt)
  | (p, Done _) => (p, Done tt)
  | (p, Waiting) => (p, Waiting)
  end.

(** ** Reference: the requests of clients *)

Inductive socks_request :=
| Req4 (ip : Z) (user : bytes)
| Req4a (ip : Z) (user domain : bytes)
| Req5 (methods : bytes) (rsv : Z) (a : SocksAddr).

Definition no_nul (s : bytes) : Prop := Forall (fun x => x <> 0) s.

(** SOCKS4a marks a domain by an address below 1.0.0.0. *)
Definition request_ok (r : socks_request) : Prop :=
  match r with
  | Req4 ip user => u32_ok ip /\ 2 ^ 24 <= ip /\ no_nul user
  | Req4a ip user domain => 0 <= ip < 2 ^ 24 /\ no_nul user /\ no_nul domain
  | Req5 methods _ a => 0 ∈ methods /\ blen methods <= 255 /\ socks_addr_ok a
  end.

(** What the client sends before the request proper is answered. *)
Definition encode_request (r : socks_request) (command port : Z) : bytes :=
  match r with
  | Req4 ip user => [4] ++ [command] ++ put_be 2 port ++ put_be 4 ip ++ user ++ [0]
  | Req4a ip user domain => [4] ++ [command] ++ put_be 2 port ++ put_be 4 ip ++ (user ++ [0]) ++ domain ++ [0]
  | Req5 methods rsv a =>
      [5] ++ [blen methods] ++ methods ++ [5] ++ [command] ++ [rsv] ++ encode_addr a ++ put_be 2 port
  end.

Definition request_host (r : socks_request) : bytes :=
  match r with
  | Req4 ip _ => show_ipv4 ip
  | Req4a _ _ domain => domain
  | Req5 _ _ a => addr_host a
  end.

(** A SOCKS4 or 4a request that the end of the input cut short: what is missing
    is the zero after the user or the domain, or both zeros of an empty domain.
    The last octet of a domain without its zero is taken for the zero. *)
Definition cut_short (r : socks_request) (missing : bytes) : Prop :=
  match r with
  | Req4 _ _ => missing = [0]
  | Req4a _ _ domain => missing = [0] \/ domain = [] /\ missing = [0; 0]
  | Req5 _ _ _ => False
  end.

Definition cut_host (r : socks_request) : bytes :=
  match r with Req4a _ _ domain => pop domain | _ => request_host r end.

(** All the server writes when it answers with the given code. *)
Definition replies (r : socks_request) (code4 code5 : Z) : bytes :=
  match r with
  | Req4 _ _ | Req4a _ _ _ => [0; code4; 0; 0; 0; 0; 0; 0]
  | Req5 _ _ _ => [5; 0] ++ [5; code5; 0; 1; 0; 0; 0; 0; 0; 0]
  end.

(** A connection whose writes succeed. *)
Definition writable (p : peer) : Prop := p_room p = None /\ p_flush p = None.

(** [p] after reading and writing. *)
Definition step_peer (p : peer) (rest out : bytes) : peer :=
  Peer rest (p_end p) (p_out p ++ out) None None (p_log p).

(** ** Lemmas *)

Lemma write_all_ok p buf : writable p -> write_all buf p = (put_out p buf None, Done tt).
Proof. intros [Hr _]. unfold write_all. now rewrite Hr. Qed.

Lemma write_flush_ok what p buf :
  writable p ->
  (_ ← context what (write_all buf); context "flush" flush) p = (put_out p buf None, Done tt).
Proof.
  intros Hw. rewrite (io_bind_done _ _ p (put_out p buf None) tt) by now apply context_done, write_all_ok.
  unfold context, io_map_err, flush. cbn. destruct Hw as [_ Hf]. now rewrite Hf.
Qed.

Lemma no_nul_pop s : no_nul s -> pop (s ++ [0]) = s.
Proof. intros _. apply pop_app. Qed.

Lemma no_auth_spec methods : 0 ∈ methods -> no_auth methods = true.
Proof.
  intros H%list_elem_of_In. apply existsb_exists. exists 0. split; [easy|]. easy.
Qed.

Lemma no_auth_elem methods : no_auth methods = true -> 0 ∈ methods.
Proof.
  intros H%existsb_exists. destruct H as (x & Hx & ->%Z.eqb_eq). now apply list_elem_of_In.
Qed.

(** One read at the head of the input. *)
Lemma bind_read_uint {A} what n xs rest p (k : Z -> Io SocksError A) :
  p_in p = xs ++ rest -> length xs = n ->
  (z ← context what (read_uint n); k z) p = k (be_value xs) (set_in p rest).
Proof. intros Hp Hl. apply io_bind_done, context_done. now apply read_uint_app. Qed.

Lemma bind_read_uint_be {A} what n z rest p (k : Z -> Io SocksError A) :
  p_in p = put_be n z ++ rest -> 0 <= z < 256 ^ Z.of_nat n ->
  (z ← context what (read_uint n); k z) p = k z (set_in p rest).
Proof.
  intros Hp Hz. rewrite (bind_read_uint _ _ (put_be n z) rest) by (easy || apply length_put_be).
  now rewrite be_value_put_be_small.
Qed.

Lemma bind_read_byte {A} what x rest p (k : Z -> Io SocksError A) :
  p_in p = [x] ++ rest -> (z ← context what (read_uint 1); k z) p = k x (set_in p rest).
Proof. intros Hp. rewrite (bind_read_uint _ _ [x] rest) by easy. now rewrite be_value_1. Qed.

Lemma bind_read_until {A} what s rest p (k : bytes -> Io SocksError A) :
  p_in p = (s ++ [0]) ++ rest -> no_nul s ->
  (t ← context what read_until_zero; k t) p = k (s ++ [0]) (set_in p rest).
Proof.
  intros Hp Hs. apply io_bind_done, context_done. apply read_until_zero_app; [|easy].
  rewrite Hp. now rewrite <- app_assoc.
Qed.

(** Reading a SOCKS4 or 4a request after its version. *)
Lemma v4_read_spec r command port rest p :
  request_ok r -> u16_ok port ->
  match r with Req5 _ _ _ => False | _ => True end ->
  [4] ++ p_in p = encode_request r command port ++ rest ->
  v4_read_request p = (set_in p rest, Done (command, request_host r, port)).
Proof.
  intros Hr Hport Hkind Hin. unfold v4_read_request. destruct r as [ip user|ip user domain|]; [..|easy];
    apply (f_equal tail) in Hin; cbn [encode_request app tail] in Hin; rewrite <- ?app_assoc in Hin.
  - destruct Hr as (Hip & Hhigh & Huser). unfold in_width in Hip.
    rewrite (bind_read_byte _ _ _ _ _ Hin). cbv beta.
    rewrite (bind_read_uint_be _ 2 port _ _ _ (set_in_in _ _)) by (unfold in_width in Hport; lia). cbv beta.
    rewrite (bind_read_uint_be _ 4 ip _ _ _ (set_in_in _ _)) by lia. cbv beta.
    rewrite (bind_read_until _ user rest _ _) by (cbn; rewrite <- ?app_assoc; easy).
    replace (Z.shiftr ip 24 =? 0) with false; [easy|]. symmetry. apply Z.eqb_neq. rewrite Z.shiftr_div_pow2 by lia.
    intros H0. apply Z.div_small_iff in H0; lia.
  - destruct Hr as (Hip & Huser & Hdomain).
    rewrite (bind_read_byte _ _ _ _ _ Hin). cbv beta.
    rewrite (bind_read_uint_be _ 2 port _ _ _ (set_in_in _ _)) by (unfold in_width in Hport; lia). cbv beta.
    rewrite (bind_read_uint_be _ 4 ip _ _ _ (set_in_in _ _)) by lia. cbv beta.
    rewrite (bind_read_until _ user ((domain ++ [0]) ++ rest) _ _) by (cbn; rewrite <- ?app_assoc; easy).
    replace (Z.shiftr ip 24 =? 0) with true.
    2: { symmetry. apply Z.eqb_eq. rewrite Z.shiftr_div_pow2 by lia. apply Z.div_small. lia. }
    unfold mbind at 1, Io_bind at 1. rewrite (bind_read_until _ domain rest _ _) by easy. cbn. now rewrite pop_app.
Qed.

Lemma v5_read_spec rsv a command port rest p :
  socks_addr_ok a -> u16_ok port ->
  p_in p = [5] ++ [command] ++ [rsv] ++ encode_addr a ++ put_be 2 port ++ rest ->
  v5_read_request p = (set_in p rest, Done (command, addr_host a, port)).
Proof.
  intros Ha Hport Hin. unfold v5_read_request. rewrite (bind_read_byte _ _ _ _ _ Hin). cbn [Z.eqb Pos.eqb negb].
  rewrite (bind_read_byte _ _ _ _ _ (set_in_in _ _)). cbv beta.
  rewrite (bind_read_byte _ _ _ _ _ (set_in_in _ _)). cbv beta.
  rewrite (io_bind_done _ _ _ _ _ (read_address_encode a _ _ Ha (set_in_in _ _))).
  rewrite (bind_read_uint_be _ 2 port rest _ _ (set_in_in _ _)) by (unfold in_width in Hport; lia). easy.
Qed.

Lemma read_methods_spec methods rest p :
  p_in p = [blen methods] ++ methods ++ rest ->
  v5_read_auth_methods p = (set_in p rest, Done methods).
Proof.
  intros Hin. unfold v5_read_auth_methods. rewrite (bind_read_byte _ _ _ _ _ Hin).
  assert (Hl : length methods = Z.to_nat (blen methods)) by (unfold blen; lia).
  exact (context_done _ _ _ _ _ (read_exact_app _ methods rest (set_in p (methods ++ rest)) eq_refl Hl)).
Qed.

(** *** What a successful read says of the input *)

(** [q] is [p] after consuming a prefix of its input. *)
Definition consumed (p : peer) (xs : bytes) (q : peer) : Prop := p_in p = xs ++ p_in q /\ q = set_in p (p_in q).

Lemma consumed_trans p xs q ys q' : consumed p xs q -> consumed q ys q' -> consumed p (xs ++ ys) q'.
Proof. intros [H1 ->] [H2 ->]. cbn in *. split; [now rewrite H1, H2, <- app_assoc|easy]. Qed.

Lemma consumed_end p xs q : consumed p xs q -> p_end q = p_end p.
Proof. now intros [_ ->]. Qed.

Lemma consumed_bytes p xs q : consumed p xs q -> bytes_ok (p_in p) -> bytes_ok xs /\ bytes_ok (p_in q).
Proof. intros [-> _]. apply bytes_ok_app. Qed.

Lemma at_end_done {A} (e : IoErrorKind) p q (a : A) : at_end (inl e) p <> (q, Done a).
Proof. unfold at_end. now destruct (p_end p). Qed.

Lemma context_inv {A} what (c : Io IoErrorKind A) p q a : context what c p = (q, Done a) -> c p = (q, Done a).
Proof. unfold context, io_map_err. destruct (c p) as [? [| |]]; intros [= -> ->]; easy. Qed.

Lemma read_exact_inv n p q xs : read_exact n p = (q, Done xs) -> consumed p xs q /\ length xs = n.
Proof.
  unfold read_exact. destruct (Nat.leb_spec n (length (p_in p))) as [Hn|_]; [|now intros H%at_end_done].
  intros [= <- <-]. split; [|rewrite length_take; lia]. split; [|easy]. cbn. now rewrite take_drop.
Qed.

Lemma read_uint_inv n p q z :
  bytes_ok (p_in p) -> read_uint n p = (q, Done z) -> consumed p (put_be n z) q /\ 0 <= z < 256 ^ Z.of_nat n.
Proof.
  intros Hok H. unfold read_uint, mbind, Io_bind in H. destruct (read_exact n p) as [p' [xs| |]] eqn:Hr; [|easy|easy].
  injection H as <- <-. apply read_exact_inv in Hr as [Hc <-]. destruct (consumed_bytes _ _ _ Hc Hok) as [Hxs _].
  rewrite put_be_be_value by easy. split; [easy|]. now apply be_value_bound.
Qed.

Lemma until_zero_inv s t rest : until_zero s = Some (t, rest) -> exists u, t = u ++ [0] /\ s = t ++ rest /\ no_nul u.
Proof.
  revert t. induction s as [|x s IH]; intros t H; [easy|]. cbn in H. destruct (Z.eqb_spec x 0) as [->|Hx].
  - injection H as <- <-. exists []. repeat split. apply Forall_nil_2.
  - destruct (until_zero s) as [[t' r']|]; [|easy]. injection H as <- ->. destruct (IH t' eq_refl) as (u & -> & -> & Hu).
    exists (x :: u). repeat split. now apply Forall_cons_2.
Qed.

Lemma until_zero_none s : until_zero s = None -> no_nul s.
Proof.
  induction s as [|x s IH]; [intros _; apply Forall_nil_2|]. cbn. destruct (Z.eqb_spec x 0) as [|Hx]; [easy|].
  destruct (until_zero s) as [[t r]|]; [easy|]. intros _. apply Forall_cons_2; [exact Hx|now apply IH].
Qed.

(** Up to the zero, or all there was before the end. *)
Lemma read_until_inv p q t :
  read_until_zero p = (q, Done t) ->
  consumed p t q /\ ((exists u, t = u ++ [0] /\ no_nul u) \/ (p_end p = InEof /\ no_nul t /\ p_in q = [])).
Proof.
  unfold read_until_zero. destruct (until_zero (p_in p)) as [[t' rest]|] eqn:Hu.
  - intros [= <- <-]. apply until_zero_inv in Hu as (u & -> & Hs & Hn). split; [now split|]. left. now exists u.
  - unfold at_end. cbn. destruct (p_end p) eqn:He; try easy. intros [= <- <-]. split; [split; [cbn; now rewrite app_nil_r|easy]|].
    right. split; [easy|]. split; [now apply until_zero_none|easy].
Qed.

(** Take the first step of a bind that succeeded. *)
Ltac bind_inv H :=
  unfold mbind at 1, Io_bind at 1 in H;
  match type of H with
  | (match ?c ?p with (_, _) => _ end) = _ =>
      let Hc := fresh "Hc" in destruct (c p) as [? [?| |]] eqn:Hc; [|easy|easy]; try apply context_inv in Hc
  end.

Lemma byte_of_pow z : 0 <= z < 256 ^ Z.of_nat 1 -> put_be 1 z = [z].
Proof. intros Hz. rewrite <- (be_value_1 z) at 1. apply put_be_be_value; [|easy]. apply bytes_ok_cons. split; [exact Hz|apply Forall_nil_2]. Qed.

Lemma small_address ip : 0 <= ip < 256 ^ Z.of_nat 4 -> (ip / 2 ^ 24 = 0 -> 0 <= ip < 2 ^ 24) /\ (ip / 2 ^ 24 <> 0 -> u32_ok ip /\ 2 ^ 24 <= ip).
Proof.
  intros Hz. split; intros H0; [apply Z.div_small_iff in H0; lia|]. split; [exact Hz|].
  destruct (Z.lt_ge_cases ip (2 ^ 24)) as [Hlt|]; [|easy]. rewrite Z.div_small in H0; lia.
Qed.

(** What the reader of SOCKS4 accepts: a request, or one cut short. *)
Lemma v4_read_inv p q command host port :
  bytes_ok (p_in p) -> v4_read_request p = (q, Done (command, host, port)) ->
  u16_ok port
  /\ ((exists r, request_ok r /\ host = request_host r /\ [4] ++ p_in p = encode_request r command port ++ p_in q)
      \/ (p_end p = InEof /\ exists r missing, request_ok r /\ cut_short r missing /\ host = cut_host r
           /\ ([4] ++ p_in p) ++ missing = encode_request r command port)).
Proof.
  intros Hok H. unfold v4_read_request in H.
  bind_inv H. apply read_uint_inv in Hc as [Hc1 Hz1]; [|easy]. destruct (consumed_bytes _ _ _ Hc1 Hok) as [_ Hok1].
  bind_inv H. apply read_uint_inv in Hc as [Hc2 Hz2]; [|easy]. destruct (consumed_bytes _ _ _ Hc2 Hok1) as [_ Hok2].
  bind_inv H. apply read_uint_inv in Hc as [Hc3 Hz3]; [|easy]. destruct (small_address _ Hz3) as [Hsmall Hbig].
  pose proof (consumed_trans _ _ _ _ _ (consumed_trans _ _ _ _ _ Hc1 Hc2) Hc3) as Hc123.
  rewrite byte_of_pow in Hc123 by easy.
  bind_inv H. apply read_until_inv in Hc as [Hc4 Huser]. rewrite (consumed_end _ _ _ Hc123) in Huser.
  pose proof (consumed_trans _ _ _ _ _ Hc123 Hc4) as Hc1234. clear Hc1 Hc2 Hc3 Hc4 Hc123.
  destruct (Z.eqb_spec (Z.shiftr a1 24) 0) as [H0|H0]; rewrite Z.shiftr_div_pow2 in H0 by lia.
  - bind_inv H. bind_inv Hc. apply read_until_inv in Hc0 as [Hc5 Hdomain]. rewrite (consumed_end _ _ _ Hc1234) in Hdomain.
    pose proof (consumed_trans _ _ _ _ _ Hc1234 Hc5) as [Hall _]. injection Hc as <- <-. injection H as <- <- <- <-. split; [exact Hz2|].
    destruct Huser as [(user & -> & Huser)|(He & Huser & Hin)].
    + destruct Hdomain as [(domain & -> & Hdomain)|(He & Hdomain & Hnil)]; [left|right; split; [easy|]].
      * exists (Req4a a1 user domain). rewrite pop_app, Hall. split; [now split; [apply Hsmall|]|]. split; [easy|].
        cbn [encode_request]. now rewrite <- !app_assoc.
      * exists (Req4a a1 user a4), [0]. rewrite Hall, Hnil, app_nil_r. split; [now split; [apply Hsmall|]|]. split; [now left|]. split; [easy|].
        cbn [encode_request]. now rewrite <- !app_assoc.
    + right. split; [easy|]. destruct Hc5 as [Hc5 _]. rewrite Hin in Hc5. destruct a4 as [|]; [|easy]. cbn [app] in Hc5.
      exists (Req4a a1 a2 []), [0; 0]. rewrite Hall, <- Hc5. split; [split; [now apply Hsmall|]; split; [easy|apply Forall_nil_2]|]. split; [now right|].
      split; [easy|]. cbn [encode_request]. now rewrite <- !app_assoc.
  - cbn [mret Io_ret] in H. bind_inv H. injection Hc as <- <-. injection H as <- <- <- <-. split; [exact Hz2|]. destruct Hc1234 as [Hall _].
    destruct (Hbig H0) as [Hip Hge].
    destruct Huser as [(user & -> & Huser)|(He & Huser & Hin)]; [left|right; split; [easy|]].
    + exists (Req4 a1 user). rewrite Hall. split; [easy|]. split; [easy|]. cbn [encode_request]. now rewrite <- !app_assoc.
    + exists (Req4 a1 a2), [0]. rewrite Hall, Hin, app_nil_r. split; [easy|]. split; [easy|]. split; [easy|].
      cbn [encode_request]. now rewrite <- !app_assoc.
Qed.

Lemma read_address_inv p q host :
  bytes_ok (p_in p) -> v5_read_address p = (q, Done host) ->
  exists a, socks_addr_ok a /\ host = addr_host a /\ consumed p (encode_addr a) q.
Proof.
  intros Hok H. unfold v5_read_address in H.
  bind_inv H. apply read_uint_inv in Hc as [Hc1 Hz1]; [|easy]. destruct (consumed_bytes _ _ _ Hc1 Hok) as [_ Hok1].
  rewrite byte_of_pow in Hc1 by easy.
  destruct (Z.eqb_spec a 1) as [->|]; [|destruct (Z.eqb_spec a 3) as [->|]; [|destruct (Z.eqb_spec a 4) as [->|]]].
  - bind_inv H. apply read_exact_inv in Hc as [Hc2 Hl]. destruct (consumed_bytes _ _ _ Hc2 Hok1) as [Hxs _].
    injection H as <- <-. exists (AddrIp (IpV4 (be_value a))). split.
    + pose proof (be_value_bound a Hxs) as Hb. rewrite Hl in Hb. exact Hb.
    + split; [easy|]. cbn [encode_addr]. rewrite put_be_be_value by easy. exact (consumed_trans _ _ _ _ _ Hc1 Hc2).
  - bind_inv H. apply read_uint_inv in Hc as [Hc2 Hz2]; [|easy]. destruct (consumed_bytes _ _ _ Hc2 Hok1) as [_ Hok2].
    rewrite byte_of_pow in Hc2 by easy. apply context_inv, read_exact_inv in H as [Hc3 Hl].
    destruct (consumed_bytes _ _ _ Hc3 Hok2) as [Hxs _]. exists (AddrDomain host).
    assert (blen host = a) by (unfold blen; lia). split; [split; [easy|lia]|]. split; [easy|]. cbn [encode_addr].
    rewrite H. exact (consumed_trans _ _ _ _ _ Hc1 (consumed_trans _ _ _ _ _ Hc2 Hc3)).
  - bind_inv H. apply read_exact_inv in Hc as [Hc2 Hl]. destruct (consumed_bytes _ _ _ Hc2 Hok1) as [Hxs _].
    injection H as <- <-. exists (AddrIp (IpV6 (be_value a))). split.
    + pose proof (be_value_bound a Hxs) as Hb. rewrite Hl in Hb. exact Hb.
    + split; [easy|]. cbn [encode_addr]. rewrite put_be_be_value by easy. exact (consumed_trans _ _ _ _ _ Hc1 Hc2).
  - bind_inv H. bind_inv H. easy.
Qed.

Lemma v5_read_inv p q command host port :
  bytes_ok (p_in p) -> v5_read_request p = (q, Done (command, host, port)) ->
  exists rsv a, socks_addr_ok a /\ u16_ok port /\ host = addr_host a
    /\ consumed p ([5] ++ [command] ++ [rsv] ++ encode_addr a ++ put_be 2 port) q.
Proof.
  intros Hok H. unfold v5_read_request in H.
  bind_inv H. apply read_uint_inv in Hc as [Hc1 Hz1]; [|easy]. destruct (consumed_bytes _ _ _ Hc1 Hok) as [_ Hok1].
  rewrite byte_of_pow in Hc1 by easy. destruct (Z.eqb_spec a 5) as [->|]; [|easy]. cbn [negb] in H.
  bind_inv H. apply read_uint_inv in Hc as [Hc2 Hz2]; [|easy]. destruct (consumed_bytes _ _ _ Hc2 Hok1) as [_ Hok2].
  bind_inv H. apply read_uint_inv in Hc as [Hc3 Hz3]; [|easy]. destruct (consumed_bytes _ _ _ Hc3 Hok2) as [_ Hok3].
  rewrite byte_of_pow in Hc2, Hc3 by easy.
  bind_inv H. apply read_address_inv in Hc as (a2 & Ha & -> & Hc4); [|easy]. destruct (consumed_bytes _ _ _ Hc4 Hok3) as [_ Hok4].
  bind_inv H. apply read_uint_inv in Hc as [Hc5 Hz5]; [|easy]. injection H as <- <- <- <-.
  exists a0, a2. do 3 (split; [easy|]).
  exact (consumed_trans _ _ _ _ _ Hc1 (consumed_trans _ _ _ _ _ Hc2 (consumed_trans _ _ _ _ _ Hc3 (consumed_trans _ _ _ _ _ Hc4 Hc5)))).
Qed.

(** *** Handlers that ask nothing of the rest of the client *)

Definition silent {E A} (c : Io E A) : Prop := forall p, p_log (c p).1 = p_log p.

Lemma silent_ret {E A} (a : A) : silent (mret a : Io E A).
Proof. easy. Qed.

Lemma silent_err {E A} (e : E) : silent (@io_err E A e).
Proof. easy. Qed.

Lemma silent_bind {E A B} (c : Io E A) (k : A -> Io E B) : silent c -> (forall a, silent (k a)) -> silent (x ← c; k x).
Proof.
  intros Hc Hk p. unfold mbind, Io_bind. pose proof (Hc p) as H. destruct (c p) as [q [a|e|]]; cbn in *; [|easy|easy].
  now rewrite Hk.
Qed.

Lemma silent_map_err {E F A} (f : E -> F) (c : Io E A) : silent c -> silent (io_map_err f c).
Proof. intros Hc p. unfold io_map_err. pose proof (Hc p) as H. now destruct (c p) as [q [a|e|]]. Qed.

Lemma silent_if {E A} (b : bool) (c d : Io E A) : silent c -> silent d -> silent (if b then c else d).
Proof. now destruct b. Qed.

Lemma silent_of_env {E A} (o : outcome E A) : silent (of_env o).
Proof. easy. Qed.

Lemma at_end_log {A} (x : IoErrorKind + A) p : p_log (at_end x p).1 = p_log p.
Proof. unfold at_end. destruct (p_end p), x; easy. Qed.

Lemma silent_read_exact n : silent (read_exact n).
Proof. intros p. unfold read_exact. case_bool; [easy|now rewrite at_end_log]. Qed.

Lemma silent_read_until : silent read_until_zero.
Proof. intros p. unfold read_until_zero. destruct (until_zero (p_in p)) as [[]|]; [easy|now rewrite at_end_log]. Qed.

Lemma silent_write_all buf : silent (write_all buf).
Proof. intros p. unfold write_all. destruct (p_room p) as [[]|]; [case_bool|]; easy. Qed.

Lemma silent_flush : silent flush.
Proof. intros p. unfold flush. now destruct (p_flush p). Qed.

Create HintDb silent.
#[local] Hint Resolve silent_ret silent_err silent_bind silent_map_err silent_if silent_of_env silent_read_exact
  silent_read_until silent_write_all silent_flush : silent.
#[local] Hint Unfold read_uint context v4_read_request v4_write_response v5_read_auth_methods v5_write_auth_method
  v5_read_address v5_read_request v5_write_response v5_write_response_unspecified associate_failed reserve : silent.

Ltac silent := repeat (autounfold with silent; intros; (apply silent_bind || apply silent_map_err || apply silent_if
  || (repeat case_match); auto with silent)); auto with silent.

Lemma silent_v4_read_request : silent v4_read_request.
Proof. silent. Qed.

Lemma silent_v5_read_request : silent v5_read_request.
Proof. silent. Qed.

Lemma silent_v5_read_auth_methods : silent v5_read_auth_methods.
Proof. silent. Qed.

Lemma silent_write_auth m : silent (v5_write_auth_method m).
Proof. silent. Qed.

Lemma silent_response4 c : silent (v4_write_response c).
Proof. silent. Qed.

Lemma silent_response5 c : silent (v5_write_response_unspecified c).
Proof. silent. Qed.

#[local] Hint Resolve silent_v4_read_request silent_v5_read_request silent_v5_read_auth_methods silent_write_auth
  silent_response4 silent_response5 : silent.

(** [c] logs no request for a stream. *)
Definition no_request {E A} (c : Io E A) : Prop :=
  forall p h po, EvStreamRequest h po ∈ p_log (c p).1 -> EvStreamRequest h po ∈ p_log p.

Lemma silent_no_request {E A} (c : Io E A) : silent c -> no_request c.
Proof. intros Hc p h po. now rewrite Hc. Qed.

Lemma no_request_bind {E A B} (c : Io E A) (k : A -> Io E B) :
  no_request c -> (forall a, no_request (k a)) -> no_request (x ← c; k x).
Proof.
  intros Hc Hk p h po. unfold mbind, Io_bind. pose proof (Hc p h po) as H. destruct (c p) as [q [a|e|]]; cbn in *; [|easy|easy].
  intros Hin. now apply H, (Hk a).
Qed.

(** A logged event that is no request. *)
Lemma log_other p e h po :
  match e with EvStreamRequest _ _ => False | _ => True end ->
  EvStreamRequest h po ∈ p_log (log_event p e) -> EvStreamRequest h po ∈ p_log p.
Proof.
  intros He. cbn. rewrite !list_elem_of_In, in_app_iff. intros [H|[->|[]]]; [easy|]. destruct He.
Qed.

Lemma associate_no_request local : no_request (handle_associate local).
Proof.
  unfold handle_associate. destruct (env_bind local) as [s|e|]; [|apply silent_no_request; silent..].
  destruct (env_local_addr s) as [a|e|]; [|apply silent_no_request; silent..].
  apply no_request_bind; [|intros ?; apply no_request_bind; [apply silent_no_request; silent|intros ?]].
  - intros p h po. now apply log_other.
  - intros p h po. unfold await_disconnect. pose proof (silent_read_exact 1 p) as Hs.
    destruct (read_exact 1 p) as [q [a'|e|]]; cbn [fst] in *; [| |now rewrite Hs];
      intros H%log_other; try easy; now rewrite Hs in H.
Qed.

Lemma connect_request rhost rport v p h po :
  no_request env_copy ->
  EvStreamRequest h po ∈ p_log (handle_connect rhost rport v p).1 ->
  EvStreamRequest h po ∈ p_log p \/ (h, po) = (rhost, rport).
Proof.
  intros Hcopy. unfold handle_connect, mbind at 1, Io_bind at 1, io_map_err at 1, request_tcp_channel.
  set (p' := log_event p _).
  assert (Hp' : EvStreamRequest h po ∈ p_log p' -> EvStreamRequest h po ∈ p_log p \/ (h, po) = (rhost, rport)).
  { unfold p'. cbn. rewrite !list_elem_of_In, in_app_iff. intros [H|[[= -> ->]|[]]]; auto. }
  destruct (env_channel rhost rport); [|exact Hp'..]. intros Hin. apply Hp'. revert Hin.
  apply (no_request_bind _ (fun _ => _ ← io_map_err SocksWrite start_copy; mret tt)).
  - apply silent_no_request. destruct v; silent.
  - intros _. apply no_request_bind; [|intros _; apply silent_no_request; silent].
    intros q h' po'. unfold io_map_err, start_copy. pose proof (Hcopy (log_event q EvCopy) h' po') as Hc.
    destruct (env_copy (log_event q EvCopy)) as [q' [[]|e|]]; cbn [fst] in *; intros Hq; apply (log_other q EvCopy); auto.
Qed.

(** Follow a bind whose first step asks nothing. *)
Lemma bind_request {A B} (c : Io SocksError A) (k : A -> Io SocksError B) p h po :
  silent c -> p_log p = [] -> EvStreamRequest h po ∈ p_log ((x ← c; k x) p).1 ->
  exists q a, c p = (q, Done a) /\ p_log q = [] /\ EvStreamRequest h po ∈ p_log (k a q).1.
Proof.
  intros Hc Hp. unfold mbind, Io_bind. pose proof (Hc p) as H. rewrite Hp in H.
  destruct (c p) as [q [a|e|]]; cbn in *; [now eauto|rewrite H; intros Hn; now apply elem_of_nil in Hn..].
Qed.

Lemma silent_none {A} (c : Io SocksError A) p h po :
  silent c -> p_log p = [] -> EvStreamRequest h po ∈ p_log (c p).1 -> False.
Proof. intros Hc Hp. rewrite Hc, Hp. now intros H%elem_of_nil. Qed.

(** *** Running the handler forwards *)

Lemma reserve_done p : env_reserve = Done tt -> reserve p = (p, Done tt).
Proof. intros H. unfold reserve, io_map_err, of_env. now rewrite H. Qed.

(** The answer to a request on a connection whose writes succeed. *)
Definition reply_connect (v5 : bool) : bytes :=
  if v5 then [5; 0; 0; 1; 0; 0; 0; 0; 0; 0] else [0; 90; 0; 0; 0; 0; 0; 0].

Lemma handle_connect_done rhost rport v p :
  writable p -> env_channel rhost rport = Done tt ->
  handle_connect rhost rport v p
  = match env_copy (log_event (put_out (log_event p (EvStreamRequest rhost rport)) (reply_connect v) None) EvCopy) with
    | (q, Done _) => (q, Done tt)
    | (q, Failed e) => (q, Failed (SocksWrite e))
    | (q, Waiting) => (q, Waiting)
    end.
Proof.
  intros Hw Hc. unfold handle_connect, mbind at 1, Io_bind at 1, io_map_err at 1, request_tcp_channel. rewrite Hc.
  set (p' := log_event p _). assert (Hw' : writable p') by exact Hw.
  rewrite (io_bind_done _ _ p' (put_out p' (reply_connect v) None) tt) by (destruct v; now apply write_flush_ok).
  unfold mbind, Io_bind, io_map_err, start_copy.
  destruct (env_copy (log_event (put_out p' (reply_connect v) None) EvCopy)) as [q [[]| |]]; reflexivity.
Qed.

(** Up to the command, a request is read whole. *)
Lemma accept_reads local r command port rest p :
  request_ok r -> u16_ok port -> writable p -> p_in p = encode_request r command port ++ rest ->
  on_socks_accept local p
  = match r with
    | Req5 _ _ _ =>
        let q := put_out (set_in p rest) [5; 0] None in
        (if command =? 1 then _ ← reserve; handle_connect (request_host r) port true
         else if command =? 3 then handle_associate local
         else _ ← v5_write_response_unspecified 7; io_err (InvalidCommand command)) q
    | _ =>
        (if command =? 1 then _ ← reserve; handle_connect (request_host r) port false
         else _ ← v4_write_response 91; io_err (InvalidCommand command)) (set_in p rest)
    end.
Proof.
  intros Hr Hport Hw Hin. unfold on_socks_accept.
  assert (H4 : match r with Req5 _ _ _ => False | _ => True end ->
    [4] ++ tail (encode_request r command port ++ rest) = encode_request r command port ++ rest) by now destruct r.
  assert (Hv4 : match r with Req5 _ _ _ => False | _ => True end ->
    (version ← context "read version" (read_uint 1);
     if version =? 4 then socks4 else if version =? 5 then socks5 local else io_err (SocksVersion version)) p
    = (if command =? 1 then _ ← reserve; handle_connect (request_host r) port false
       else _ ← v4_write_response 91; io_err (InvalidCommand command)) (set_in p rest)).
  { intros Hk. rewrite (bind_read_byte _ 4 (tail (encode_request r command port ++ rest))) by (now rewrite Hin, H4).
    cbn [Z.eqb Pos.eqb]. unfold socks4.
    rewrite (io_bind_done _ _ _ (set_in p rest) (command, request_host r, port)); [easy|].
    rewrite (v4_read_spec r command port rest) by (easy || exact (H4 Hk)). easy. }
  destruct r as [ip user|ip user domain|methods rsv a]; [now apply Hv4..|]. clear Hv4 H4.
  destruct Hr as (Hm & Hlen & Ha). cbn [encode_request] in Hin. rewrite <- !app_assoc in Hin.
  rewrite (bind_read_byte _ _ _ _ _ Hin). cbn [Z.eqb Pos.eqb]. unfold socks5.
  rewrite (io_bind_done _ _ _ _ _ (read_methods_spec methods _ _ (set_in_in _ _))). rewrite no_auth_spec by easy. cbn [negb].
  erewrite io_bind_done by (apply write_flush_ok; exact Hw).
  erewrite (io_bind_done _ v5_read_request); [|eapply (v5_read_spec rsv a command port rest); [easy|easy|reflexivity]].
  reflexivity.
Qed.

(** ** Properties *)

(** C21: a well-formed CONNECT request, of SOCKS4, 4a or 5, to which the client
    can answer with a stream, asks for exactly one stream to exactly the host
    and port it names (an address as its text), is answered by exactly the
    success reply of its version, and hands the connection with what was sent
    after the request to the copier, whose failure is the failure of the
    handler. *)
Theorem socks_connect local r port rest p :
  request_ok r -> u16_ok port -> writable p -> p_in p = encode_request r 1 port ++ rest ->
  env_reserve = Done tt -> env_channel (request_host r) port = Done tt ->
  on_socks_accept local p
  = match env_copy (Peer rest (p_end p) (p_out p ++ replies r 90 0) None (p_flush p)
                         (p_log p ++ [EvStreamRequest (request_host r) port; EvCopy])) with
    | (q, Done _) => (q, Done tt)
    | (q, Failed e) => (q, Failed (SocksWrite e))
    | (q, Waiting) => (q, Waiting)
    end.
Proof.
  intros Hr Hport Hw Hin Hres Hch. rewrite (accept_reads local r 1 port rest p Hr Hport Hw Hin).
  destruct r as [ip user|ip user domain|methods rsv a]; cbv zeta; cbn [Z.eqb Pos.eqb];
    rewrite (io_bind_done _ _ _ _ _ (reserve_done _ Hres)), handle_connect_done by (exact Hch || (destruct Hw; now split));
    unfold log_event, put_out, set_in; cbn [p_in p_end p_out p_room p_flush p_log]; rewrite <- !app_assoc; reflexivity.
Qed.

(** C22: every stream the handler asks for was asked for by its client (the
    copier, whose part begins once a stream is open, asks for none): a request for a host and port only follows a complete, well-formed CONNECT
    request for them, with no-authentication among the methods of SOCKS5; or,
    when the client has closed its side, a SOCKS4 or 4a CONNECT request that
    lacks only what its closing cut off: the zero after the user or the domain
    (both, where the domain is empty).  Of a domain without its zero the last
    octet is lost, and the stream is asked for with what is left. *)
Theorem socks_request_sound local p host port :
  bytes_ok (p_in p) -> p_log p = [] -> no_request env_copy ->
  EvStreamRequest host port ∈ p_log (on_socks_accept local p).1 ->
  u16_ok port
  /\ ((exists r rest, request_ok r /\ host = request_host r /\ p_in p = encode_request r 1 port ++ rest)
      \/ (p_end p = InEof /\ exists r missing, request_ok r /\ cut_short r missing /\ host = cut_host r
           /\ p_in p ++ missing = encode_request r 1 port)).
Proof.
  intros Hok Hlog Hcopy H. unfold on_socks_accept in H.
  apply bind_request in H as (q & version & Hc & Hq & H); [|silent|easy].
  apply context_inv, read_uint_inv in Hc as [Hc1 Hz1]; [|easy]. rewrite byte_of_pow in Hc1 by easy.
  destruct (consumed_bytes _ _ _ Hc1 Hok) as [_ Hok1]. pose proof (consumed_end _ _ _ Hc1) as Hend1.
  assert (Hconn : forall v rhost rport q0, p_log q0 = [] ->
    EvStreamRequest host port ∈ p_log ((_ ← reserve; handle_connect rhost rport v) q0).1 -> (host, port) = (rhost, rport)).
  { intros v rhost rport q0 Hq0 Hin. apply bind_request in Hin as (q1 & [] & _ & Hq1 & Hin); [|silent|easy].
    apply connect_request in Hin as [Hin|Hin]; [|easy|easy]. rewrite Hq1 in Hin. now apply elem_of_nil in Hin. }
  destruct (Z.eqb_spec version 4) as [->|]; [|destruct (Z.eqb_spec version 5) as [->|]].
  - unfold socks4 in H. apply bind_request in H as (q2 & [[command rhost] rport] & Hr & Hq2 & H); [|auto with silent|easy].
    destruct (Z.eqb_spec command 1) as [->|]; [|exfalso; eapply silent_none; [|exact Hq2|exact H]; silent].
    apply Hconn in H as [= -> ->]; [|easy].
    apply v4_read_inv in Hr as [Hp Hr]; [|easy]. split; [exact Hp|]. rewrite Hend1 in Hr. destruct Hc1 as [-> _].
    destruct Hr as [(r & Hrok & -> & Hin)|[He Hcut]]; [left; now exists r, (p_in q2)|right; now split].
  - unfold socks5 in H. apply bind_request in H as (q2 & methods & Hm & Hq2 & H); [|auto with silent|easy].
    unfold v5_read_auth_methods in Hm. bind_inv Hm. apply read_uint_inv in Hc as [Hc2 Hz2]; [|easy].
    rewrite byte_of_pow in Hc2 by easy. destruct (consumed_bytes _ _ _ Hc2 Hok1) as [_ Hok2].
    apply context_inv, read_exact_inv in Hm as [Hc3 Hl]. destruct (consumed_bytes _ _ _ Hc3 Hok2) as [_ Hok3].
    destruct (no_auth methods) eqn:Hna; cbn [negb] in H; [|exfalso; eapply silent_none; [|exact Hq2|exact H]; silent].
    unfold mbind at 1, Io_bind at 1 in H. pose proof (silent_write_auth 0 q2) as Hs.
    assert (Hin3 : p_in (v5_write_auth_method 0 q2).1 = p_in q2).
    { unfold v5_write_auth_method, mbind, Io_bind, context, io_map_err, write_all, flush.
      destruct (p_room q2) as [[]|]; [case_bool|]; cbn; destruct (p_flush q2); easy. }
    destruct (v5_write_auth_method 0 q2) as [q3 [[]|e|]]; cbn [fst] in *;
      [|rewrite Hs, Hq2 in H; now apply elem_of_nil in H..].
    rewrite Hq2 in Hs. apply bind_request in H as (q4 & [[command rhost] rport] & Hr & Hq4 & H); [|auto with silent|easy].
    destruct (Z.eqb_spec command 1) as [->|].
    + apply Hconn in H as [= -> ->]; [|easy].
      apply v5_read_inv in Hr as (rsv & a' & Ha & Hp & -> & Hc4); [|now rewrite Hin3].
      assert (Hbl : blen methods = a) by (unfold blen; lia).
      split; [exact Hp|]. left. exists (Req5 methods rsv a'), (p_in q4). split; [split_and!; [now apply no_auth_elem|lia|easy]|].
      split; [easy|]. destruct Hc1 as [-> _], Hc2 as [-> _], Hc3 as [-> _], Hc4 as [Hc4 _].
      rewrite <- Hin3, Hc4. cbn [encode_request]. rewrite Hbl. now rewrite <- !app_assoc.
    + destruct (Z.eqb_spec command 3) as [->|].
      * apply associate_no_request in H. rewrite Hq4 in H. now apply elem_of_nil in H.
      * exfalso. eapply silent_none; [|exact Hq4|exact H]. silent.
  - exfalso. eapply silent_none; [|exact Hq|exact H]. silent.
Qed.

(** C39: what is refused is refused with the reply of its version and nothing
    is asked of the rest of the client: an unsupported command, a SOCKS5
    client without the no-authentication method, a SOCKS5 address type that
    does not exist, and a version other than 4 and 5, which gets no reply. *)
Theorem socks_refusals local p rest :
  writable p ->
  (forall r command port,
     request_ok r -> u16_ok port -> command <> 1 -> match r with Req5 _ _ _ => command <> 3 | _ => True end ->
     p_in p = encode_request r command port ++ rest ->
     on_socks_accept local p
     = (Peer rest (p_end p) (p_out p ++ replies r 91 7) None (p_flush p) (p_log p), Failed (InvalidCommand command)))
  /\ (forall methods,
     ~ 0 ∈ methods -> p_in p = [5] ++ [blen methods] ++ methods ++ rest ->
     on_socks_accept local p
     = (Peer rest (p_end p) (p_out p ++ [5; 255]) None (p_flush p) (p_log p), Failed OtherAuth))
  /\ (forall methods command rsv atyp,
     0 ∈ methods -> atyp <> 1 -> atyp <> 3 -> atyp <> 4 ->
     p_in p = [5] ++ [blen methods] ++ methods ++ [5] ++ [command] ++ [rsv] ++ [atyp] ++ rest ->
     on_socks_accept local p
     = (Peer rest (p_end p) (p_out p ++ [5; 0] ++ [5; 8; 0; 1; 0; 0; 0; 0; 0; 0]) None (p_flush p) (p_log p),
        Failed (AddressType atyp)))
  /\ (forall version,
     version <> 4 -> version <> 5 -> p_in p = [version] ++ rest ->
     on_socks_accept local p = (set_in p rest, Failed (SocksVersion version))).
Proof.
  intros Hw. split; [|split; [|split]].
  - intros r command port Hr Hport H1 H3 Hin. rewrite (accept_reads local r command port rest p Hr Hport Hw Hin).
    destruct (Z.eqb_spec command 1); [easy|].
    destruct r as [ip user|ip user domain|methods rsv a]; cbv zeta;
      [erewrite io_bind_done by (apply write_flush_ok; exact Hw); reflexivity..|].
    destruct (Z.eqb_spec command 3); [easy|].
    assert (Hw' : writable (put_out (set_in p rest) [5; 0] None)) by (destruct Hw; now split).
    erewrite io_bind_done by (apply write_flush_ok; exact Hw').
    unfold put_out, set_in; cbn [p_in p_end p_out p_room p_flush p_log]; rewrite <- !app_assoc. reflexivity.
  - intros methods Hm Hin. unfold on_socks_accept. rewrite (bind_read_byte _ _ _ _ _ Hin). cbn [Z.eqb Pos.eqb]. unfold socks5.
    rewrite (io_bind_done _ _ _ _ _ (read_methods_spec methods _ _ (set_in_in _ _))).
    destruct (no_auth methods) eqn:Hna; [now apply no_auth_elem in Hna|]. cbn [negb].
    erewrite io_bind_done by (apply write_flush_ok; exact Hw). reflexivity.
  - intros methods command rsv atyp Hm H1 H3 H4 Hin. unfold on_socks_accept.
    rewrite (bind_read_byte _ _ _ _ _ Hin). cbn [Z.eqb Pos.eqb]. unfold socks5.
    rewrite (io_bind_done _ _ _ _ _ (read_methods_spec methods _ _ (set_in_in _ _))). rewrite no_auth_spec by easy. cbn [negb].
    erewrite io_bind_done by (apply write_flush_ok; exact Hw).
    set (p0 := put_out _ [5; 0] None). assert (Hw0 : writable p0) by (destruct Hw; now split).
    unfold mbind at 1, Io_bind at 1. unfold v5_read_request.
    rewrite (bind_read_byte _ 5 ([command] ++ [rsv] ++ [atyp] ++ rest) p0) by easy. cbn [Z.eqb Pos.eqb negb].
    rewrite (bind_read_byte _ _ _ _ _ (set_in_in _ _)). cbv beta.
    rewrite (bind_read_byte _ _ _ _ _ (set_in_in _ _)). cbv beta.
    unfold mbind at 1, Io_bind at 1. unfold v5_read_address.
    rewrite (bind_read_byte _ _ _ _ _ (set_in_in _ _)). cbv beta.
    destruct (Z.eqb_spec atyp 1); [easy|]. destruct (Z.eqb_spec atyp 3); [easy|]. destruct (Z.eqb_spec atyp 4); [easy|].
    set (p1 := set_in _ rest). assert (Hw1 : writable p1) by exact Hw0.
    rewrite (io_bind_done _ _ p1 (put_out p1 [5; 8; 0; 1; 0; 0; 0; 0; 0; 0] None) tt) by now apply context_done, write_all_ok.
    unfold mbind, Io_bind, context, io_map_err, flush, io_err. destruct Hw as [_ Hf]. cbn. rewrite Hf.
    unfold p1, p0, put_out, set_in; cbn [p_in p_end p_out p_room p_flush p_log]. rewrite Hf, <- app_assoc. reflexivity.
  - intros version H4 H5 Hin. unfold on_socks_accept. rewrite (bind_read_byte _ _ _ _ _ Hin).
    destruct (Z.eqb_spec version 4); [easy|]. destruct (Z.eqb_spec version 5); easy.
Qed.
End Socks.

(** ** Concrete runs *)

(** A client that grants every request and whose copier ends at once. *)
Definition sample_env : SocksEnv Z := {|
  env_reserve := Done tt;
  env_channel := fun _ _ => Done tt;
  env_copy := fun p => (p, Done (0, 0));
  env_bind := fun _ => Done 0;
  env_local_addr := fun _ => Done (MkSocketAddr (IpV4 2130706433) 4000);
|}.

Definition conn (input : bytes) (e : input_end) : peer := Peer input e [] None None [].

(** SOCKS5 CONNECT to example:80, then one octet for the other end. *)
Definition sample_request : socks_request := Req5 [2; 0] 0 (AddrDomain (str "example")).

Definition sample_conn : peer := conn (encode_request sample_request 1 80 ++ [7]) InWaits.

Lemma sample_request_ok : request_ok sample_request.
Proof.
  split; [right; left|]. split; [vm_compute; discriminate|]. split; [apply bytes_of_string_ok|vm_compute; discriminate].
Defined.

Lemma socks_connect_witness :
  @on_socks_accept Z sample_env (str "localhost") sample_conn
  = (Peer [7] InWaits ([5; 0] ++ [5; 0; 0; 1; 0; 0; 0; 0; 0; 0]) None None
       [EvStreamRequest (str "example") 80; EvCopy], Done tt).
Proof.
  rewrite (@socks_connect Z sample_env (str "localhost") sample_request 80 [7] sample_conn sample_request_ok);
    [reflexivity|vm_compute; split; [discriminate|reflexivity]|split; reflexivity|reflexivity..].
Defined.

(** A SOCKS4a client that closes its side before the terminating zero. *)
Definition cut_conn : peer := conn ([4; 1; 0; 80; 0; 0; 0; 1; 0] ++ str "example") InEof.

Ltac octets := unfold bytes_ok; vm_compute p_in; repeat apply Forall_cons_2; try apply Forall_nil_2; (unfold in_width; split; [discriminate|reflexivity]).

Lemma socks_request_sound_witness :
  (EvStreamRequest (str "example") 80 ∈ p_log (@on_socks_accept Z sample_env (str "localhost") sample_conn).1
   /\ exists r rest, request_ok r /\ str "example" = request_host r /\ p_in sample_conn = encode_request r 1 80 ++ rest)
  /\ (EvStreamRequest (str "exampl") 80 ∈ p_log (@on_socks_accept Z sample_env (str "localhost") cut_conn).1
      /\ u16_ok 80
      /\ ((exists r rest, request_ok r /\ str "exampl" = request_host r /\ p_in cut_conn = encode_request r 1 80 ++ rest)
          \/ (p_end cut_conn = InEof /\ exists r missing, request_ok r /\ cut_short r missing /\ str "exampl" = cut_host r
               /\ p_in cut_conn ++ missing = encode_request r 1 80))).
Proof.
  assert (H : EvStreamRequest (str "example") 80 ∈ p_log (@on_socks_accept Z sample_env (str "localhost") sample_conn).1)
    by (vm_compute; left).
  assert (Hcut : EvStreamRequest (str "exampl") 80 ∈ p_log (@on_socks_accept Z sample_env (str "localhost") cut_conn).1)
    by (vm_compute; left).
  split; (split; [assumption|]).
  - destruct (@socks_request_sound Z sample_env (str "localhost") sample_conn (str "example") 80) as [_ [Hr|[He _]]];
      [octets|reflexivity|intros p h po Hp; exact Hp|exact H|exact Hr|discriminate He].
  - apply (@socks_request_sound Z sample_env (str "localhost") cut_conn (str "exampl") 80);
      [octets|reflexivity|intros p h po Hp; exact Hp|exact Hcut].
Defined.

(** BIND over SOCKS4. *)
Lemma socks_refusals_witness :
  @on_socks_accept Z sample_env (str "localhost") (conn (encode_request (Req4 2130706433 []) 2 80) InEof)
  = (Peer [] InEof ([] ++ replies (Req4 2130706433 []) 91 7) None None [], Failed (InvalidCommand 2)).
Proof.
  assert (Hw : writable (conn (encode_request (Req4 2130706433 []) 2 80) InEof)) by (split; reflexivity).
  destruct (@socks_refusals Z sample_env (str "localhost") _ [] Hw) as [H _].
  apply (H (Req4 2130706433 []) 2 80);
    [split; [vm_compute; split; [discriminate|reflexivity]|split; [vm_compute; discriminate|apply Forall_nil_2]]
    |vm_compute; split; [discriminate|reflexivity]|discriminate|exact I|reflexivity].
Defined.

(** It loses the last octet of the domain: the handler asks for [exampl]. *)
Example truncated_domain :
  p_log (@on_socks_accept Z sample_env (str "localhost") cut_conn).1
  = [EvStreamRequest (str "exampl") 80; EvCopy].
Proof. reflexivity. Qed.

(** When the reply to UDP ASSOCIATE cannot be written, the relay has been
    started and is not stopped. *)
Example relay_not_stopped :
  @on_socks_accept Z sample_env (str "localhost")
    (Peer ([5; 1; 0] ++ [5; 3; 0; 1; 0; 0; 0; 0; 0; 0]) InEof [] (Some (2%nat, BrokenPipe)) None [])
  = (Peer [] InEof [5; 0] (Some (0%nat, BrokenPipe)) None [EvRelayStarted (MkSocketAddr (IpV4 2130706433) 4000)],
     Failed (ProcessSocksRequest "write response" BrokenPipe)).
Proof. reflexivity. Qed.

(** The accept loop survives every error of a connection but a fatal one. *)
Example accept_loop_survives :
  @handle_socks (Done tt) [JobFinished (Failed OtherAuth); Accepted sample_conn; JobFinished (Failed (Fatal RequestStream))]
  = ([sample_conn], Failed RequestStream).
Proof. reflexivity. Qed.
