(* ===== verification/Client.v ===== *)
(** * The client main loop (src/src/client/mod.rs, maybe_retryable.rs, ws_connect.rs)

    Connecting, serving the requests of the local handlers over the
    multiplexor, and reconnecting: which errors are retried, with which
    delays, and what becomes of the requests for streams. *)

From S2P Require Import Prelude Timing Frame Mux Remote Net SocksWire UdpClients.

Open Scope penguin_scope.

(** ** Errors *)

(** [client::Error]. *)
Inductive ClientError :=
| MaxRetryCountReached (last : ClientError)
| ParseRemote (e : RemoteError)
| RemoteHandlerExited (e : FatalError)
| Tungstenite (e : WsError)
| Tls
| MuxFailed (e : Error)
| HandshakeTimeout
| HandshakeCancelled
| StreamRequestTimeout
| RemoteDisconnected.

(** [MaybeRetryableError for std::io::Error]. *)
Definition io_retryable (e : IoErrorKind) : bool :=
  match e with
  | AddrNotAvailable | BrokenPipe | ConnectionRefused | ConnectionReset | HostUnreachable | NetworkUnreachable
  | ConnectionAborted | NotConnected | NetworkDown | TimedOut | UnexpectedEof => true
  | _ => false
  end.

(** ... for [tungstenite]'s protocol errors and errors. *)
Definition protocol_retryable (e : WsProtocolError) : bool :=
  match e with
  | ReceivedAfterClosing | ResetWithoutClosingHandshake | SendAfterClosing | HandshakeIncomplete => true
  | _ => false
  end.

Definition ws_retryable (e : WsError) : bool :=
  match e with
  | WsIo k => io_retryable k
  | WsAlreadyClosed | WsConnectionClosed => true
  | WsProtocol p => protocol_retryable p
  | _ => false
  end.

(** ... for the multiplexor's errors. *)
Definition mux_retryable (e : Error) : bool :=
  match e with
  | SendStreamToClient | Closed => true
  | WebSocketError w => ws_retryable w
  | _ => false
  end.

(** ... for the client's. *)
Definition retryable (e : ClientError) : bool :=
  match e with
  | Tungstenite w => ws_retryable w
  | MuxFailed m => mux_retryable m
  | HandshakeTimeout | StreamRequestTimeout | RemoteDisconnected => true
  | _ => false
  end.

(** ** The WebSocket handshake (ws_connect.rs) *)

(** The parts of [ClientArgs] the client uses; a header map has one value per
    lower case name, as [insert] leaves it. *)
Record ClientArgs := MkArgs {
  ca_scheme : option bytes;
  ca_psk : option bytes;
  ca_hostname : option bytes;
  ca_header : list (bytes * bytes);
  ca_max_retry_count : Z;
  ca_max_retry_interval : Z;
  ca_channel_timeout : OptionalDuration;
}.

Definition insert_opt (name : bytes) (value : option bytes) (headers : gmap bytes bytes) : gmap bytes bytes :=
  match value with Some v => <[name := v]> headers | None => headers end.

(** The headers of the request, from those [into_client_request] puts there. *)
Definition handshake_headers (args : ClientArgs) (base : gmap bytes bytes) : gmap bytes bytes :=
  let headers := <[str "sec-websocket-protocol" := PROTOCOL_VERSION]> base in
  let headers := insert_opt (str "x-penguin-psk") (ca_psk args) headers in
  let headers := insert_opt (str "host") (ca_hostname args) headers in
  foldl (fun hs header => <[header.1 := header.2]> hs) headers (ca_header args).

(** Which branch of the [select!] of [handshake] is taken. *)
Inductive handshake_event :=
| HsConnected
| HsFailed (e : WsError)
| HsTimeout
| HsCtrlC.

(** [None] is a connection. *)
Definition handshake (args : ClientArgs) (request_ok tls_ok : bool) (e : handshake_event)
  : res ClientError unit :=
  match ca_scheme args with
  | None => Panic
  | Some scheme =>
      if negb request_ok then Err (Tungstenite WsOther)
      else if bool_decide (scheme = str "wss") && negb tls_ok then Err Tls
      else
        match e with
        | HsConnected => Ok tt
        | HsFailed w => Err (Tungstenite w)
        | HsTimeout => Err HandshakeTimeout
        | HsCtrlC => Err HandshakeCancelled
        end
  end.

Section Client.
(** Streams as the multiplexor hands them out, and UDP sockets. *)
Context {Stream Socket : Type}.

(** ** A session *)

(** [StreamCommand]: who asked, and for what. *)
Record StreamCommand := MkCommand { sc_tx : nat; sc_host : bytes; sc_port : Z }.

(** What the main loop shares with the handlers and leaves behind: the queue
    of requests, the parked request, the streams given to their requesters,
    the datagrams sent, and what was done with the datagrams received. *)
Record session := MkSession {
  se_queue : list StreamCommand;
  se_failed : option StreamCommand;
  se_delivered : list (StreamCommand * Stream);
  se_sent : list MuxDatagram;
  se_replies : list (option (@reply Socket));
}.

Definition set_failed (f : option StreamCommand) (st : session) : session :=
  MkSession (se_queue st) f (se_delivered st) (se_sent st) (se_replies st).
Definition set_queue (q : list StreamCommand) (st : session) : session :=
  MkSession q (se_failed st) (se_delivered st) (se_sent st) (se_replies st).
Definition deliver (c : StreamCommand) (s : Stream) (st : session) : session :=
  MkSession (se_queue st) (se_failed st) (se_delivered st ++ [(c, s)]) (se_sent st) (se_replies st).

(** [new_stream_channel]: how long it takes and what it returns. *)
Record channel_future := MkFuture { cf_time : Duration; cf_result : Error + Stream }.

Definition future_timeout (d : Duration) (f : channel_future) : res unit (Error + Stream) :=
  if cf_time f <=? d then Ok (cf_result f) else Err tt.

(** [get_send_stream_chan]; sending the stream to a requester that has gone
    is ignored. *)
Definition get_send_stream_chan (channel_timeout : OptionalDuration) (future : channel_future)
    (stream_command : StreamCommand) (st : session) : session * outcome ClientError unit :=
  match optional_timeout future_timeout cf_result channel_timeout future with
  | Ok (inr stream) => (deliver stream_command stream st, Done tt)
  | Ok (inl e) => (set_failed (Some stream_command) st, Failed (MuxFailed e))
  | Err _ => (set_failed (Some stream_command) st, Failed StreamRequestTimeout)
  | Panic => (st, Waiting)                  (* a timeout does not panic *)
  end.

(** What can happen during a session, with the answers of the multiplexor: a
    handler queues a request; the select takes one of its branches. *)
Inductive session_event :=
| HandlerRequests (c : StreamCommand)
| MuxTaskEnded (r : option Error)
| TakeRequest (future : channel_future)
| TakeDatagram (d : MuxDatagram) (r : option Error)
| DatagramArrived (clients : ClientIdMaps Socket) (d : MuxDatagram)
| CtrlC (task : option (option Error))      (* the end of the task, unless it was seen before *)
| AllDisabled.

(** The body of the loop of [on_connected]: [None] goes on. *)
Definition session_step (channel_timeout : OptionalDuration) (e : session_event) (st : session)
  : session * option (outcome ClientError unit) :=
  match e with
  | HandlerRequests c => (set_queue (se_queue st ++ [c]) st, None)
  | MuxTaskEnded None => (st, None)
  | MuxTaskEnded (Some e) => (st, Some (Failed (MuxFailed e)))
  | TakeRequest future =>
      match se_queue st with
      | [] => (st, None)
      | c :: q =>
          match get_send_stream_chan channel_timeout future c (set_queue q st) with
          | (st, Done _) => (st, None)
          | (st, other) => (st, Some other)
          end
      end
  | TakeDatagram d None =>
      (MkSession (se_queue st) (se_failed st) (se_delivered st) (se_sent st ++ [d]) (se_replies st), None)
  | TakeDatagram d (Some _) => (st, None)
  | DatagramArrived clients d =>
      (MkSession (se_queue st) (se_failed st) (se_delivered st) (se_sent st)
         (se_replies st ++ [send_datagram_reply clients (dg_flow_id d) (dg_data d)]), None)
  | CtrlC (Some (Some e)) => (st, Some (Failed (MuxFailed e)))
  | CtrlC _ => (st, Some (Done tt))
  | AllDisabled => (st, Some (Failed RemoteDisconnected))
  end.

Fixpoint session_loop (channel_timeout : OptionalDuration) (events : list session_event) (st : session)
  : session * outcome ClientError unit :=
  match events with
  | [] => (st, Waiting)
  | e :: rest =>
      match session_step channel_timeout e st with
      | (st, None) => session_loop channel_timeout rest st
      | (st, Some r) => (st, r)
      end
  end.

(** [on_connected]: the parked request first. *)
Definition on_connected (channel_timeout : OptionalDuration) (first : channel_future) (events : list session_event)
    (st : session) : session * outcome ClientError unit :=
  match se_failed st with
  | Some c =>
      match get_send_stream_chan channel_timeout first c (set_failed None st) with
      | (st, Done _) => session_loop channel_timeout events st
      | other => other
      end
  | None => session_loop channel_timeout events st
  end.

(** ** Reconnecting (client_main_inner) *)

(** One round: the handshake, what happens once connected, requests that are
    queued while waiting to reconnect, and whether Ctrl-C ends the wait. *)
Record attempt := MkAttempt {
  at_handshake : res ClientError unit;
  at_first : channel_future;
  at_events : list session_event;
  at_requests : list StreamCommand;
  at_interrupted : bool;
}.

Inductive main_exit := Exited (r : res ClientError unit) | Running.

Definition initial_backoff (args : ClientArgs) : Backoff :=
  backoff_new (duration_from_millis 200) (duration_from_millis (ca_max_retry_interval args)) 2 (ca_max_retry_count args).

(** The handshake, and [on_connected] with [inspect_err(backoff.reset())]. *)
Definition run_attempt (channel_timeout : OptionalDuration) (a : attempt) (backoff : Backoff) (st : session)
  : session * Backoff * main_exit :=
  match at_handshake a with
  | Panic => (st, backoff, Exited Panic)
  | Err e => (st, backoff, Exited (Err e))
  | Ok _ =>
      match on_connected channel_timeout (at_first a) (at_events a) st with
      | (st, Done _) => (st, backoff, Exited (Ok tt))
      | (st, Failed e) => (st, backoff_reset backoff, Exited (Err e))
      | (st, Waiting) => (st, backoff, Running)
      end
  end.

(** The retry loop, with the waits between its rounds. *)
Fixpoint retry_loop (channel_timeout : OptionalDuration) (attempts : list attempt) (backoff : Backoff) (st : session)
  : session * list Duration * main_exit :=
  match attempts with
  | [] => (st, [], Running)
  | a :: rest =>
      match run_attempt channel_timeout a backoff st with
      | (st, backoff, Exited (Err e)) =>
          if negb (retryable e) then (st, [], Exited (Err e))
          else
            match backoff_advance backoff with
            | Ok (_, None) => (st, [], Exited (Err (MaxRetryCountReached e)))
            | Ok (backoff, Some interval) =>
                let st := set_queue (se_queue st ++ at_requests a) st in
                if at_interrupted a then (st, [interval], Exited (Err HandshakeCancelled))
                else
                  let '(st, waits, r) := retry_loop channel_timeout rest backoff st in
                  (st, interval :: waits, r)
            | _ => (st, [], Exited Panic)
            end
      | (st, _, other) => (st, [], other)
      end
  end.

(** [check_listeners_future] over the results of the handlers: the first
    error ends it, and so does the end of the last handler. *)
Fixpoint check_listeners (handlers : nat) (results : list (res FatalError unit)) : main_exit :=
  match handlers, results with
  | 0%nat, _ => Exited (Ok tt)
  | S _, [] => Running
  | S _, Err e :: _ => Exited (Err (RemoteHandlerExited e))
  | S _, Panic :: _ => Exited Panic
  | S n, Ok _ :: rest => check_listeners n rest
  end.

(** The biased [select!] of [client_main_inner]: the handlers are looked at
    before the main future. *)
Definition client_main_inner (handlers : nat) (results : list (res FatalError unit)) (main : main_exit) : main_exit :=
  match check_listeners handlers results with
  | Exited r => Exited r
  | Running => main
  end.

(** ** Reference notions *)

(** The requests handlers queued during a session, in order. *)
Definition event_request (e : session_event) : list StreamCommand :=
  match e with HandlerRequests c => [c] | _ => [] end.

(** The requests a session knows of, oldest first: answered, parked, queued. *)
Definition requests (st : session) : list StreamCommand :=
  map fst (se_delivered st) ++ option_list (se_failed st) ++ se_queue st.

(** All that handlers would queue if every round ran to its end. *)
Definition attempts_requests (attempts : list attempt) : list StreamCommand :=
  concat (map (fun a => concat (map event_request (at_events a)) ++ at_requests a) attempts).

(** A round that does not connect, for a reason that is retried. *)
Definition failing (a : attempt) (e : ClientError) : Prop :=
  at_handshake a = Err e /\ retryable e = true /\ at_interrupted a = false.

(** The wait before reconnecting for the [k]-th time in a row. *)
Definition retry_wait (args : ClientArgs) (k : nat) : Duration :=
  Z.min (duration_from_millis 200 * 2 ^ Z.of_nat k) (duration_from_millis (ca_max_retry_interval args)).

(** The types of the arguments. *)
Definition args_ok (args : ClientArgs) : Prop :=
  u32_ok (ca_max_retry_count args) /\ u64_ok (ca_max_retry_interval args).

(** ** Lemmas *)

(** [st'] knows the requests of [st] and then [ps]. *)
Definition grown (st st' : session) (ps : list StreamCommand) : Prop := requests st' = requests st ++ ps.

Lemma grown_refl st : grown st st [].
Proof. unfold grown. now rewrite app_nil_r. Qed.

Lemma grown_trans st st1 st2 ps qs : grown st st1 ps -> grown st1 st2 qs -> grown st st2 (ps ++ qs).
Proof. unfold grown. intros -> ->. now rewrite <- ?app_assoc in *. Qed.

Lemma grown_push st q : grown st (set_queue (se_queue st ++ q) st) q.
Proof. unfold grown, requests. cbn. now rewrite <- !app_assoc. Qed.

(** A request taken out is delivered or parked. *)
Lemma get_send_requests t f c st :
  se_failed st = None ->
  match get_send_stream_chan t f c st with
  | (st', Done _) => se_failed st' = None /\ requests st' = map fst (se_delivered st) ++ c :: se_queue st
  | (st', Failed _) => se_failed st' = Some c /\ requests st' = map fst (se_delivered st) ++ c :: se_queue st
  | (_, Waiting) => False
  end.
Proof.
  intros Hf. unfold get_send_stream_chan, optional_timeout, future_timeout.
  assert (H : match cf_result f with
    | inr stream => requests (deliver c stream st) = map fst (se_delivered st) ++ c :: se_queue st
    | inl _ => True end).
  { destruct (cf_result f); [easy|]. unfold requests. cbn. rewrite Hf, map_app, <- app_assoc. easy. }
  destruct t as [d|]; [destruct (cf_time f <=? d)|]; destruct (cf_result f) as [e|stream]; cbn in *; auto.
Qed.

Lemma session_step_grown t e st :
  se_failed st = None ->
  let '(st', r) := session_step t e st in
  grown st st' (event_request e) /\ (r = None -> se_failed st' = None).
Proof.
  intros Hf. destruct e as [c|[e|]|f|d [e|]|m d|[[e|]|]|]; cbn [session_step event_request];
    try (split; [exact (grown_refl st)|easy]); [split; [apply grown_push|easy]|].
  destruct (se_queue st) as [|c q] eqn:Hq; [split; [apply grown_refl|easy]|].
  pose proof (get_send_requests t f c (set_queue q st) Hf) as H.
  assert (Hreq : requests st = map fst (se_delivered st) ++ c :: q) by (unfold requests; now rewrite Hf, Hq).
  destruct (get_send_stream_chan t f c (set_queue q st)) as [st' [[]|e|]]; [| |easy]; destruct H as [H1 H2]; cbn in H2;
    (split; [unfold grown; now rewrite app_nil_r, H2|]); [easy|easy].
Qed.

Lemma session_loop_grown t events st :
  se_failed st = None ->
  exists ps, grown st (session_loop t events st).1 ps /\ sublist ps (concat (map event_request events)).
Proof.
  revert st. induction events as [|e rest IH]; intros st Hf; [exists []; split; [apply grown_refl|constructor]|].
  cbn [session_loop map concat]. pose proof (session_step_grown t e st Hf) as H.
  destruct (session_step t e st) as [st1 [r|]]; destruct H as [Hg H1].
  - exists (event_request e). split; [easy|]. apply sublist_inserts_r. reflexivity.
  - destruct (IH st1 (H1 eq_refl)) as (ps & Hps & Hsub). exists (event_request e ++ ps).
    split; [now apply (grown_trans st st1)|]. now apply sublist_app.
Qed.

Lemma on_connected_grown t first events st :
  exists ps, grown st (on_connected t first events st).1 ps /\ sublist ps (concat (map event_request events)).
Proof.
  unfold on_connected. destruct (se_failed st) as [c|] eqn:Hf; [|now apply session_loop_grown].
  pose proof (get_send_requests t first c (set_failed None st) eq_refl) as H. cbn in H.
  assert (Hreq : requests st = map fst (se_delivered st) ++ c :: se_queue st) by (unfold requests; now rewrite Hf).
  destruct (get_send_stream_chan t first c (set_failed None st)) as [st' [[]|e|]]; [| |easy]; destruct H as [H1 H2].
  - destruct (session_loop_grown t events st' H1) as (ps & Hg & Hs). exists ps. split; [|easy].
    unfold grown in *. congruence.
  - exists []. split; [unfold grown; cbn; rewrite app_nil_r; congruence|apply sublist_nil_l].
Qed.

Lemma run_attempt_grown t a b st :
  exists ps, grown st (run_attempt t a b st).1.1 ps /\ sublist ps (concat (map event_request (at_events a))).
Proof.
  unfold run_attempt. destruct (at_handshake a) as [[]|e|];
    [|exists []; split; [apply grown_refl|apply sublist_nil_l]..].
  destruct (on_connected_grown t (at_first a) (at_events a) st) as (ps & Hg & Hs). exists ps. split; [|easy].
  now destruct (on_connected t (at_first a) (at_events a) st) as [st' [[]|e|]].
Qed.

(** The generator of the waits after [k] failures in a row. *)
Definition retry_state (args : ClientArgs) (k : nat) (b : Backoff) : Prop :=
  backoff_at (duration_from_millis 200) (duration_from_millis (ca_max_retry_interval args)) 2 (ca_max_retry_count args)
    (Z.of_nat k) b.

Lemma retry_advance args k b :
  args_ok args -> retry_state args k b -> ca_max_retry_count args = 0 \/ Z.of_nat k < ca_max_retry_count args ->
  exists b', backoff_advance b = Ok (b', Some (retry_wait args k)) /\ retry_state args (S k) b'.
Proof.
  intros [Hc Hm] Hat Hk.
  assert (Hw : backoff_wait (duration_from_millis 200) (duration_from_millis (ca_max_retry_interval args)) 2
    (ca_max_retry_count args) (Z.of_nat k) = Some (retry_wait args k)).
  { unfold backoff_wait, retry_wait. case_bool; [|easy]. bool_prop. lia. }
  unfold in_width in Hc, Hm.
  destruct (backoff_advance_at (duration_from_millis 200) (duration_from_millis (ca_max_retry_interval args)) 2
    (ca_max_retry_count args) (Z.of_nat k) b) as (b' & Hadv & Hb');
    try assumption; try (unfold duration_from_millis, duration_max; lia).
  rewrite Hw in Hadv, Hb'. exists b'. split; [easy|]. unfold retry_state. now rewrite Nat2Z.inj_succ.
Qed.

Lemma retry_step t args k a e b later st :
  args_ok args -> retry_state args k b -> ca_max_retry_count args = 0 \/ Z.of_nat k < ca_max_retry_count args ->
  failing a e ->
  exists b' st', retry_state args (S k) b'
    /\ (retry_loop t (a :: later) b st).1.2 = retry_wait args k :: (retry_loop t later b' st').1.2
    /\ (retry_loop t (a :: later) b st).2 = (retry_loop t later b' st').2.
Proof.
  intros Hargs Hat Hk (Hh & Hr & Hi). destruct (retry_advance args k b Hargs Hat Hk) as (b' & Hadv & Hb').
  exists b', (set_queue (se_queue st ++ at_requests a) st). split; [easy|].
  cbn [retry_loop]. unfold run_attempt. rewrite Hh, Hr. cbn [negb]. rewrite Hadv, Hi.
  now destruct (retry_loop t later b' _) as [[st3 waits] r].
Qed.

Lemma retry_run t args attempts errors later k b st :
  args_ok args -> Forall2 failing attempts errors -> retry_state args k b ->
  ca_max_retry_count args = 0 \/ Z.of_nat (k + length attempts) <= ca_max_retry_count args ->
  exists b' st', retry_state args (k + length attempts) b'
    /\ (retry_loop t (attempts ++ later) b st).1.2
       = map (retry_wait args) (seq k (length attempts)) ++ (retry_loop t later b' st').1.2
    /\ (retry_loop t (attempts ++ later) b st).2 = (retry_loop t later b' st').2.
Proof.
  intros Hargs Hall. revert k b st. induction Hall as [|a e attempts errors Ha _ IH]; intros k b st Hat Hk.
  - exists b, st. cbn [length app seq map]. now rewrite Nat.add_0_r.
  - cbn [length] in Hk.
    destruct (retry_step t args k a e b (attempts ++ later) st Hargs Hat ltac:(lia) Ha) as (b1 & st1 & Hat1 & Hw & Hr).
    destruct (IH (S k) b1 st1 Hat1 ltac:(lia)) as (b2 & st2 & Hat2 & Hw2 & Hr2).
    exists b2, st2. cbn [length app seq map]. replace (k + S (length attempts))%nat with (S k + length attempts)%nat by lia.
    split; [easy|]. rewrite Hw, Hr, Hw2, Hr2. easy.
Qed.

(** ** Properties *)

(** C20: no request of a handler for a stream is lost, duplicated or
    overtaken, across any number of connections and failures: at any time the
    requests answered, then the one parked, then those still queued, are the
    earlier requests in their order followed by requests made since. *)
Theorem stream_requests_conserved t attempts b st :
  exists ps, requests (retry_loop t attempts b st).1.1 = requests st ++ ps
             /\ sublist ps (attempts_requests attempts).
Proof.
  revert b st. induction attempts as [|a rest IH]; intros b st; [exists []; split; [apply grown_refl|constructor]|].
  cbn [retry_loop attempts_requests map concat]. change (concat (map _ rest)) with (attempts_requests rest).
  destruct (run_attempt_grown t a b st) as (ps & Hg & Hs).
  assert (Hstop : exists qs, requests (run_attempt t a b st).1.1 = requests st ++ qs
    /\ sublist qs ((concat (map event_request (at_events a)) ++ at_requests a) ++ attempts_requests rest)).
  { exists ps. split; [easy|]. now do 2 apply sublist_inserts_r. }
  destruct (run_attempt t a b st) as [[st1 b1] [[[]|e|]|]]; cbn [fst] in *; try exact Hstop.
  destruct (negb (retryable e)); [exact Hstop|].
  destruct (backoff_advance b1) as [[b2 [interval|]]| |]; [|exact Hstop..].
  pose proof (grown_trans _ _ _ _ _ Hg (grown_push st1 (at_requests a))) as Hg2.
  destruct (at_interrupted a).
  - exists (ps ++ at_requests a). split; [easy|]. apply sublist_inserts_r. now apply sublist_app.
  - destruct (IH b2 (set_queue (se_queue st1 ++ at_requests a) st1)) as (qs & Hqs & Hsub).
    exists ((ps ++ at_requests a) ++ qs).
    destruct (retry_loop t rest b2 (set_queue (se_queue st1 ++ at_requests a) st1)) as [[st3 waits] r]. cbn [fst] in *.
    split; [exact (grown_trans _ _ _ _ _ Hg2 Hqs)|]. apply sublist_app; [now apply sublist_app|easy].
Qed.

(** C32: while no handshake succeeds, the client waits 200 ms, then twice as
    long every time up to the configured maximum, and it gives up with the
    error of the round after the last permitted wait, never when the count is
    zero.  A round that connected makes it start over: what follows does not
    depend on the failures before. *)
Theorem retry_schedule t args st :
  args_ok args ->
  (forall attempts errors,
     Forall2 failing attempts errors ->
     ca_max_retry_count args = 0 \/ Z.of_nat (length attempts) <= ca_max_retry_count args ->
     (retry_loop t attempts (initial_backoff args) st).1.2 = map (retry_wait args) (seq 0 (length attempts))
     /\ (retry_loop t attempts (initial_backoff args) st).2 = Running)
  /\ (forall attempts errors a e later,
     Forall2 failing attempts errors -> failing a e ->
     0 < Z.of_nat (length attempts) -> Z.of_nat (length attempts) = ca_max_retry_count args ->
     (retry_loop t (attempts ++ a :: later) (initial_backoff args) st).1.2
       = map (retry_wait args) (seq 0 (length attempts))
     /\ (retry_loop t (attempts ++ a :: later) (initial_backoff args) st).2
       = Exited (Err (MaxRetryCountReached e)))
  /\ (forall a later b,
     at_handshake a = Ok tt -> backoff_reset b = initial_backoff args ->
     retry_loop t (a :: later) b st = retry_loop t (a :: later) (initial_backoff args) st).
Proof.
  intros Hargs.
  split; [|split].
  - intros attempts errors Hall Hle.
    destruct (retry_run t args attempts errors [] 0%nat (initial_backoff args) st Hargs Hall (backoff_at_new _ _ _ _) Hle) as (b' & st1 & _ & Hw & Hr).
    rewrite app_nil_r in Hw, Hr. cbn [retry_loop fst snd] in Hw, Hr. now rewrite app_nil_r in Hw.
  - intros attempts errors a e later Hall (Hh & Hr & _) Hpos Hlen.
    destruct (retry_run t args attempts errors (a :: later) 0%nat (initial_backoff args) st Hargs Hall (backoff_at_new _ _ _ _) ltac:(lia))
      as (b' & st1 & Hat & -> & ->).
    destruct Hat as (_ & _ & _ & Hmc & _ & Hcount).
    assert (Hnone : backoff_advance b' = Ok (b', None)).
    { unfold backoff_advance. rewrite Hmc. case_bool; [easy|]. apply andb_false_iff in Heqb as [Hb|Hb]; bool_prop; lia. }
    cbn [retry_loop]. unfold run_attempt. rewrite Hh, Hr. cbn [negb]. rewrite Hnone. cbn [fst snd]. now rewrite app_nil_r.
  - intros a later b Hh Hb. cbn [retry_loop]. unfold run_attempt. rewrite Hh.
    destruct (on_connected t (at_first a) (at_events a) st) as [st1 [[]|e|]]; [easy| |easy].
    now rewrite Hb.
Qed.
End Client.

Arguments session Stream Socket : clear implicits.
Arguments attempt Stream Socket : clear implicits.

(** ** Concrete runs *)

Definition sample_args : ClientArgs := MkArgs (Some (str "ws")) None None [] 2 300 None.

Definition sample_failure : attempt nat nat :=
  MkAttempt (Err HandshakeTimeout) (MkFuture 0 (inr 0%nat)) [] [] false.

Definition empty_session : session nat nat := MkSession [] None [] [] [].

(** Two failures allowed: 200 ms, then the maximum of 300 ms, then the end. *)
Lemma retry_schedule_witness :
  (retry_loop None ([sample_failure; sample_failure] ++ [sample_failure]) (initial_backoff sample_args) empty_session).1.2
    = [duration_from_millis 200; duration_from_millis 300]
  /\ (retry_loop None ([sample_failure; sample_failure] ++ [sample_failure]) (initial_backoff sample_args) empty_session).2
    = Exited (Err (MaxRetryCountReached HandshakeTimeout)).
Proof.
  assert (Hargs : args_ok sample_args) by (split; vm_compute; split; (discriminate || reflexivity)).
  assert (Hf : failing sample_failure HandshakeTimeout) by (split; [reflexivity|split; reflexivity]).
  destruct (retry_schedule None sample_args empty_session Hargs) as (_ & H & _).
  apply (H [sample_failure; sample_failure] [HandshakeTimeout; HandshakeTimeout] sample_failure HandshakeTimeout []);
    [apply Forall2_cons; [exact Hf|apply Forall2_cons; [exact Hf|apply Forall2_nil]]|exact Hf|reflexivity|reflexivity].
Defined.

(** A request that fails with the connection is answered by the next one. *)
Example request_survives_reconnect :
  let c := MkCommand 5 (str "h") 80 in
  let dies := MkAttempt (Ok tt) (MkFuture 0 (inr 0%nat)) [HandlerRequests c; TakeRequest (MkFuture 0 (inl Closed))] [] false in
  let lives := MkAttempt (Ok tt) (MkFuture 0 (inr 9%nat)) [CtrlC None] [] false in
  retry_loop (Some (duration_from_secs 10)) [dies; lives] (initial_backoff sample_args) empty_session
  = (MkSession [] None [(c, 9%nat)] [] [], [duration_from_millis 200], Exited (Ok tt)).
Proof. reflexivity. Qed.

(** The key the client was given reaches the server unless a custom header of
    the same name replaces it. *)
Example psk_header :
  handshake_headers (MkArgs (Some (str "wss")) (Some (str "k")) None [] 0 0 None) ∅ !! str "x-penguin-psk" = Some (str "k").
Proof. reflexivity. Qed.

(** After a clean close by the server the loop only waits: datagrams are
    dropped, and no reconnection happens until a request for a stream fails. *)
Example clean_close_not_noticed :
  let d := MkMuxDatagram 1 (str "h") 9 [1] in
  (session_loop (Stream := nat) (Socket := nat) None
     [MuxTaskEnded None; TakeDatagram d (Some Closed); TakeDatagram d (Some Closed)] empty_session)
  = (empty_session, Waiting).
Proof. reflexivity. Qed.
