(* ===== verification/Handlers.v ===== *)
(** * Local listeners (src/src/client/handle_remote/mod.rs, tcp.rs, udp.rs and
    the relay task of socks/mod.rs)

    Which handler a remote specification starts, the loops that turn local
    connections into requests for streams, and those that turn local datagrams
    into datagrams of the multiplexor. *)

From S2P Require Import Prelude Runtime Timing Frame Stream Buffered Mux Remote Net SocksWire UdpClients Client.

Open Scope penguin_scope.

(** ** Dispatch *)

Inductive handler :=
| HandleTcp (lhost : bytes) (lport : Z) (rhost : bytes) (rport : Z)
| HandleUdp (lhost : bytes) (lport : Z) (rhost : bytes) (rport : Z)
| HandleTcpStdio (rhost : bytes) (rport : Z)
| HandleUdpStdio (rhost : bytes) (rport : Z)
| HandleSocks (lhost : bytes) (lport : Z)
| HandleSocksStdio.

(** [handle_remote]. *)
Definition handle_remote (remote : Remote) : handler :=
  match local_addr remote, remote_addr remote, protocol remote with
  | LocalInet lhost lport, RemoteInet rhost rport, Tcp => HandleTcp lhost lport rhost rport
  | LocalInet lhost lport, RemoteInet rhost rport, Udp => HandleUdp lhost lport rhost rport
  | Stdio, RemoteInet rhost rport, Tcp => HandleTcpStdio rhost rport
  | Stdio, RemoteInet rhost rport, Udp => HandleUdpStdio rhost rport
  | LocalInet lhost lport, Socks, _ => HandleSocks lhost lport
  | Stdio, Socks, _ => HandleSocksStdio
  end.

(** ** Standard input and output

    [Stdio] reads from the one and writes to the other; it is a reader and
    writer a stream can be copied to, in the buffer of Buffered.v. *)

Class StdStreams (I O : Type) := {
  stdin_poll_read : nat -> I -> I * poll (res IoErrorKind bytes);     (* into so many octets *)
  stdout_poll_write : bytes -> O -> O * poll (res IoErrorKind Z);
  stdout_poll_flush : O -> O * poll (res IoErrorKind unit);
  stdout_poll_shutdown : O -> O * poll (res IoErrorKind unit);
  stdin_rest : I -> bytes;                                            (* not read yet *)
  stdout_done : O -> bytes;                                           (* written so far *)
  stdin_read_views : forall n i, (0 < n)%nat ->
    match (stdin_poll_read n i).2 with
    | Ready (Ok bs) => stdin_rest i = bs ++ stdin_rest (stdin_poll_read n i).1 /\ (bs = [] -> stdin_rest i = [])
    | _ => stdin_rest (stdin_poll_read n i).1 = stdin_rest i
    end;
  stdout_write_views : forall bs o,
    match (stdout_poll_write bs o).2 with
    | Ready (Ok n) => 0 <= n <= blen bs /\ stdout_done (stdout_poll_write bs o).1 = stdout_done o ++ take (Z.to_nat n) bs
    | _ => stdout_done (stdout_poll_write bs o).1 = stdout_done o
    end;
  stdout_flush_views : forall o, stdout_done (stdout_poll_flush o).1 = stdout_done o;
  stdout_shutdown_views : forall o, stdout_done (stdout_poll_shutdown o).1 = stdout_done o;
}.

Section Stdio.
Context {I O : Type} `{!StdStreams I O}.

Record StdioStream := MkStdio { sd_stdin : I; sd_stdout : O }.

(** [AsyncRead] and [AsyncWrite] for [Stdio]. *)
Definition stdio_poll_read (n : nat) (s : StdioStream) : StdioStream * poll (res IoErrorKind bytes) :=
  let '(i, r) := stdin_poll_read n (sd_stdin s) in (MkStdio i (sd_stdout s), r).
Definition stdio_poll_write (bs : bytes) (s : StdioStream) : StdioStream * poll (res IoErrorKind Z) :=
  let '(o, r) := stdout_poll_write bs (sd_stdout s) in (MkStdio (sd_stdin s) o, r).
Definition stdio_poll_flush (s : StdioStream) : StdioStream * poll (res IoErrorKind unit) :=
  let '(o, r) := stdout_poll_flush (sd_stdout s) in (MkStdio (sd_stdin s) o, r).
Definition stdio_poll_shutdown (s : StdioStream) : StdioStream * poll (res IoErrorKind unit) :=
  let '(o, r) := stdout_poll_shutdown (sd_stdout s) in (MkStdio (sd_stdin s) o, r).

(** [Stdio::new], of the two streams of the process. *)
Definition stdio_new (stdin : I) (stdout : O) : StdioStream := MkStdio stdin stdout.

#[local] Obligation Tactic := idtac.

#[export] Program Instance stdio_async : AsyncRW StdioStream := {
  io_poll_read := stdio_poll_read;
  io_poll_write := stdio_poll_write;
  io_poll_flush := stdio_poll_flush;
  io_poll_shutdown := stdio_poll_shutdown;
  io_rest s := stdin_rest (sd_stdin s);
  io_done s := stdout_done (sd_stdout s);
}.
Next Obligation.
  intros n [i o] Hn. pose proof (stdin_read_views n i Hn) as H. unfold stdio_poll_read. cbn in *.
  destruct (stdin_poll_read n i) as [i' [[bs|e|]|]]; cbn in *; easy.
Qed.
Next Obligation.
  intros bs [i o]. pose proof (stdout_write_views bs o) as H. unfold stdio_poll_write. cbn in *.
  destruct (stdout_poll_write bs o) as [o' [[n|e|]|]]; cbn in *; easy.
Qed.
Next Obligation.
  intros [i o]. pose proof (stdout_flush_views o) as H. unfold stdio_poll_flush. cbn in *.
  now destruct (stdout_poll_flush o) as [o' r].
Qed.
Next Obligation.
  intros [i o]. pose proof (stdout_shutdown_views o) as H. unfold stdio_poll_shutdown. cbn in *.
  now destruct (stdout_poll_shutdown o) as [o' r].
Qed.
End Stdio.

(** ** TCP (tcp.rs)

    A round of a loop is what its awaited calls answer; [Waiting] is an answer
    that does not come. *)

Section Tcp.
Context {Conn Stream : Type}.

Record tcp_round := MkTcpRound {
  tr_reserve : outcome unit unit;
  tr_accept : outcome IoErrorKind Conn;
  tr_channel : outcome unit Stream;
}.

Definition open_tcp_listener (bind : outcome IoErrorKind bool) : res IoErrorKind (option unit) :=
  match bind with
  | Done true => Ok (Some tt)
  | Done false => Panic                 (* no local address: the [expect] *)
  | Failed e => Err e
  | Waiting => Ok None
  end.

(** The requests made and the copiers spawned, in order. *)
Fixpoint tcp_loop (rhost : bytes) (rport : Z) (rounds : list tcp_round)
  : list (bytes * Z) * list (Conn * Stream) * outcome FatalError unit :=
  match rounds with
  | [] => ([], [], Waiting)
  | r :: rest =>
      match tr_reserve r with
      | Waiting => ([], [], Waiting)
      | Failed _ => ([], [], Failed RequestStream)
      | Done _ =>
          match tr_accept r with
          | Waiting => ([], [], Waiting)
          | Failed e => ([], [], Failed (ClientIo e))
          | Done tcp_stream =>
              match tr_channel r with
              | Waiting => ([(rhost, rport)], [], Waiting)
              | Failed _ => ([(rhost, rport)], [], Failed MainLoopExitWithoutSendingStream)
              | Done channel =>
                  let '(reqs, spawned, r) := tcp_loop rhost rport rest in
                  ((rhost, rport) :: reqs, (tcp_stream, channel) :: spawned, r)
              end
          end
      end
  end.

Definition handle_tcp (bind : outcome IoErrorKind bool) (rhost : bytes) (rport : Z) (rounds : list tcp_round)
  : list (bytes * Z) * list (Conn * Stream) * res FatalError (option unit) :=
  match open_tcp_listener bind with
  | Panic => ([], [], Panic)
  | Err e => ([], [], Err (ClientIo e))
  | Ok None => ([], [], Ok None)
  | Ok (Some _) =>
      match tcp_loop rhost rport rounds with
      | (reqs, spawned, Done _) => (reqs, spawned, Ok (Some tt))
      | (reqs, spawned, Failed e) => (reqs, spawned, Err e)
      | (reqs, spawned, Waiting) => (reqs, spawned, Ok None)
      end
  end.

Record stdio_round := MkStdioRound {
  sr_reserve : outcome unit unit;
  sr_channel : outcome unit Stream;
  sr_copy : outcome IoErrorKind (Z * Z);
}.

(** [handle_tcp_stdio]: how many streams were asked for, and the result. *)
Fixpoint handle_tcp_stdio (rounds : list stdio_round) : nat * outcome FatalError unit :=
  match rounds with
  | [] => (0%nat, Waiting)
  | r :: rest =>
      match sr_reserve r with
      | Waiting => (0%nat, Waiting)
      | Failed _ => (0%nat, Failed RequestStream)
      | Done _ =>
          match sr_channel r with
          | Waiting => (1%nat, Waiting)
          | Failed _ => (1%nat, Failed MainLoopExitWithoutSendingStream)
          | Done channel =>
              match sr_copy r with
              | Waiting => (1%nat, Waiting)
              | Done _ => (1%nat, Done tt)
              | Failed error =>
                  if io_retryable error then let '(n, r) := handle_tcp_stdio rest in (S n, r)
                  else (1%nat, Failed (ClientIo error))
              end
          end
      end
  end.
End Tcp.

(** ** UDP (udp.rs, socks/mod.rs) *)

Section Udp.
Context {Socket : Type} {C : Type -> Type} `{!Mpsc C}.
Variable local_addr : Socket -> option SocketAddr.

(** What the handlers share: the client maps and the channel of datagrams to
    the main loop. *)
Record udp_state := MkUdp { us_maps : ClientIdMaps Socket; us_tx : C MuxDatagram }.

(** Why a loop does not go on: an error, a full channel, or no more draws. *)
Inductive udp_stop := StopFatal (e : FatalError) | StopSocks (e : SocksError) | StopFull | StopDraws.

(** [datagram_tx.send(frame).await]. *)
Definition send_datagram_tx (d : MuxDatagram) (st : udp_state) : udp_state * res udp_stop unit :=
  let '(tx, r) := try_send d (us_tx st) in
  (MkUdp (us_maps st) tx,
   match r with
   | None => Ok tt
   | Some TrySendClosed => Err (StopFatal SendDatagram)
   | Some TrySendFull => Err StopFull
   end).

(** Registering the client of a packet and queueing its datagram. *)
Definition forward_datagram (draws : list Z) (now : Z) (addr : SocketAddr) (socket : Socket) (socks5 : bool)
    (host : bytes) (port : Z) (data : bytes) (st : udp_state) : udp_state * res udp_stop unit :=
  match add_udp_client local_addr draws now addr socket socks5 (us_maps st) with
  | Panic => (st, Panic)
  | Err DrawsExhausted => (st, Err StopDraws)
  | Ok (maps, client_id) =>
      send_datagram_tx (MkMuxDatagram client_id host port data) (MkUdp maps (us_tx st))
  end.

(** A packet received, or the error of [recv_from]; a buffer of
    [MAX_UDP_PACKET_SIZE] octets receives at most its length. *)
Inductive udp_recv :=
| Received (draws : list Z) (now : Z) (data : bytes) (addr : SocketAddr)
| RecvFailed (e : IoErrorKind).

Definition truncate (data : bytes) : bytes := take MAX_UDP_PACKET_SIZE data.

(** The body of the loop of [handle_udp]. *)
Definition handle_udp_step (socket : Socket) (rhost : bytes) (rport : Z) (r : udp_recv) (st : udp_state)
  : udp_state * res udp_stop unit :=
  match r with
  | RecvFailed e => (st, Err (StopFatal (ClientIo e)))
  | Received draws now data addr => forward_datagram draws now addr socket false rhost rport (truncate data) st
  end.

(** The body of the loop of [udp_relay]. *)
Definition udp_relay_step (socket : Socket) (r : udp_recv) (st : udp_state) : udp_state * res udp_stop unit :=
  match r with
  | RecvFailed e => (st, Err (StopSocks (SocksWrite e)))
  | Received draws now data addr =>
      match udp_relay_header (truncate data) with
      | Panic => (st, Panic)
      | Err e => (st, Err (StopSocks e))
      | Ok None => (st, Ok tt)
      | Ok (Some (dst, port, payload)) => forward_datagram draws now addr socket true dst port payload st
      end
  end.

(** A loop over what it receives; the results are [None] while it runs. *)
Fixpoint udp_loop (step : udp_recv -> udp_state -> udp_state * res udp_stop unit) (rs : list udp_recv) (st : udp_state)
  : udp_state * option (res udp_stop unit) :=
  match rs with
  | [] => (st, None)
  | r :: rest =>
      match step r st with
      | (st, Ok _) => udp_loop step rest st
      | (st, stop) => (st, Some stop)
      end
  end.

Definition handle_udp (bind : outcome IoErrorKind Socket) (rhost : bytes) (rport : Z) (rs : list udp_recv)
    (st : udp_state) : udp_state * option (res udp_stop unit) :=
  match bind with
  | Waiting => (st, None)
  | Failed e => (st, Some (Err (StopFatal (ClientIo e))))
  | Done socket =>
      match local_addr socket with
      | None => (st, Some Panic)
      | Some _ => udp_loop (handle_udp_step socket rhost rport) rs st
      end
  end.

Definition udp_relay (socket : Socket) (rs : list udp_recv) (st : udp_state) : udp_state * option (res udp_stop unit) :=
  udp_loop (udp_relay_step socket) rs st.

(** [read_line]: up to and including a line feed, or the rest at the end of
    the input, and the empty string after that; invalid UTF-8 is an error. *)
Fixpoint take_line (s : bytes) : bytes * bytes :=
  match s with
  | [] => ([], [])
  | x :: s' => if x =? 10 then ([x], s') else let '(l, rest) := take_line s' in (x :: l, rest)
  end.

(** [n] rounds of the loop of [handle_udp_stdio]. *)
Fixpoint handle_udp_stdio (n : nat) (rhost : bytes) (rport : Z) (stdin : bytes) (st : udp_state)
  : bytes * udp_state * option (res udp_stop unit) :=
  match n with
  | 0%nat => (stdin, st, None)
  | S n' =>
      let '(line, rest) := take_line stdin in
      if negb (utf8_ok line) then (rest, st, Some (Err (StopFatal (ClientIo OtherIoKind))))
      else
        match send_datagram_tx (MkMuxDatagram 0 rhost rport line) st with
        | (st, Ok _) => handle_udp_stdio n' rhost rport rest st
        | (st, stop) => (rest, st, Some stop)
        end
  end.

(** ** Reference notions *)

(** The datagram a received packet stands for, given the final maps. *)
Definition stands_for (our : SocketAddr) (host : bytes) (port : Z) (maps : ClientIdMaps Socket) (r : udp_recv)
    (d : MuxDatagram) : Prop :=
  match r with
  | RecvFailed _ => False
  | Received _ _ data addr =>
      dg_target_host d = host /\ dg_target_port d = port /\ dg_data d = truncate data
      /\ client_addr_map maps !! (addr, our) = Some (dg_flow_id d)
  end.

Definition recv_valid (r : udp_recv) : Prop :=
  match r with Received draws _ _ _ => Forall valid_draw draws | RecvFailed _ => True end.

(** ** Lemmas *)

(** Adding a client keeps the identifiers of all others. *)
Lemma add_udp_client_mono draws now addr socket socks5 m m' id :
  add_udp_client local_addr draws now addr socket socks5 m = Ok (m', id) ->
  client_addr_map m ⊆ client_addr_map m'.
Proof.
  unfold add_udp_client. destruct (local_addr socket) as [our|]; [|easy].
  destruct (client_addr_map m !! (addr, our)) as [id0|] eqn:Hk.
  - destruct (client_id_map m !! id0); [|easy]. intros [= <- _]. easy.
  - destruct (next_available_key draws (client_id_map m)); [|easy]. cbn. intros [= <- _]. now apply insert_subseteq.
Qed.

Lemma send_datagram_tx_queue d st :
  let '(st', r) := send_datagram_tx d st in
  us_maps st' = us_maps st /\ r <> Panic
  /\ queue (us_tx st') = queue (us_tx st) ++ match r with Ok _ => [d] | _ => [] end.
Proof.
  unfold send_datagram_tx. pose proof (view_try_send _ d (us_tx st)) as Hv. pose proof (res_try_send _ d (us_tx st)) as Hr.
  destruct (try_send d (us_tx st)) as [tx r]. cbn [fst snd us_maps us_tx] in *. rewrite Hv.
  rewrite spec_send_queue, <- Hr. destruct r as [[|]|]; rewrite ?app_nil_r; easy.
Qed.

(** One packet of a plain listener. *)
Lemma forward_datagram_spec draws now addr socket our socks5 host port data st :
  maps_wf local_addr (us_maps st) -> Forall valid_draw draws -> local_addr socket = Some our ->
  let '(st', r) := forward_datagram draws now addr socket socks5 host port data st in
  maps_wf local_addr (us_maps st') /\ client_addr_map (us_maps st) ⊆ client_addr_map (us_maps st') /\ r <> Panic
  /\ exists ds, queue (us_tx st') = queue (us_tx st) ++ ds
     /\ match r with
        | Ok _ => exists id, ds = [MkMuxDatagram id host port data]
                  /\ client_addr_map (us_maps st') !! (addr, our) = Some id
        | _ => ds = []
        end.
Proof.
  intros Hm Hd Hs. unfold forward_datagram.
  pose proof (add_udp_client_spec local_addr draws now addr socket socks5 (us_maps st) our Hm Hd Hs) as Hadd.
  pose proof (add_udp_client_mono draws now addr socket socks5 (us_maps st)) as Hmono.
  destruct (add_udp_client local_addr draws now addr socket socks5 (us_maps st)) as [[m' id]|[]|]; [| |easy].
  - destruct Hadd as (Hm' & Hid & _). specialize (Hmono m' id eq_refl).
    pose proof (send_datagram_tx_queue (MkMuxDatagram id host port data) (MkUdp m' (us_tx st))) as Hq.
    destruct (send_datagram_tx _ _) as [st' r]. destruct Hq as (Hmaps & Hnp & Hq). cbn in Hmaps, Hq. rewrite Hmaps.
    split_and!; auto. eexists. split; [exact Hq|]. destruct r; eauto.
  - do 3 (split; [easy|]). exists []. now rewrite app_nil_r.
Qed.

(** ** Properties *)

(** A plain UDP listener never panics and keeps the client maps
    consistent, and every packet it has handled has become exactly one
    datagram to the configured target, in the order of arrival, with the
    packet's octets and the identifier under which replies find its sender;
    the packet at which the loop stopped, if any, has become none. *)
Theorem udp_packets_forwarded socket our rhost rport rs st :
  maps_wf local_addr (us_maps st) -> Forall recv_valid rs -> local_addr socket = Some our ->
  let '(st', stop) := udp_loop (handle_udp_step socket rhost rport) rs st in
  maps_wf local_addr (us_maps st') /\ stop <> Some Panic
  /\ exists handled rest ds,
       rs = handled ++ rest /\ queue (us_tx st') = queue (us_tx st) ++ ds
       /\ Forall2 (stands_for our rhost rport (us_maps st')) handled ds
       /\ (stop = None -> rest = []).
Proof.
  intros Hm Hrs Hs.
  enough (Hgen : forall st0, maps_wf local_addr (us_maps st0) ->
    let '(st', stop) := udp_loop (handle_udp_step socket rhost rport) rs st0 in
    maps_wf local_addr (us_maps st') /\ client_addr_map (us_maps st0) ⊆ client_addr_map (us_maps st') /\ stop <> Some Panic
    /\ exists handled rest ds,
       rs = handled ++ rest /\ queue (us_tx st') = queue (us_tx st0) ++ ds
       /\ Forall2 (stands_for our rhost rport (us_maps st')) handled ds /\ (stop = None -> rest = [])).
  { specialize (Hgen st Hm). destruct (udp_loop _ rs st) as [st' stop]. tauto. }
  clear st Hm. induction Hrs as [|r rs Hr _ IH]; intros st Hm.
  { cbn. do 3 (split; [easy|]). exists [], [], []. rewrite ?app_nil_r. split; [easy|]. split; [easy|]. split; [constructor|easy]. }
  assert (Hstop : forall stop, stop <> Some Panic -> stop <> None ->
    maps_wf local_addr (us_maps st) /\ client_addr_map (us_maps st) ⊆ client_addr_map (us_maps st) /\ stop <> Some (@Panic udp_stop unit)
    /\ exists handled rest ds,
       r :: rs = handled ++ rest /\ queue (us_tx st) = queue (us_tx st) ++ ds
       /\ Forall2 (stands_for our rhost rport (us_maps st)) handled ds /\ (stop = None -> rest = [])).
  { intros stop H1 H2. do 3 (split; [easy|]). exists [], (r :: rs), []. rewrite ?app_nil_r. split; [easy|]. split; [easy|]. split; [constructor|easy]. }
  cbn [udp_loop]. destruct r as [draws now data addr|e]; cbn [handle_udp_step]; [|now apply Hstop].
  pose proof (forward_datagram_spec draws now addr socket our false rhost rport (truncate data) st Hm Hr Hs) as Hf.
  destruct (forward_datagram draws now addr socket false rhost rport (truncate data) st) as [st1 [[]|e|]];
    destruct Hf as (Hm1 & Hmono & Hnp & ds & Hq & Hds); [| |easy].
  - destruct Hds as (id & -> & Hid). specialize (IH st1 Hm1). destruct (udp_loop _ rs st1) as [st' stop].
    destruct IH as (Hm' & Hmono' & Hnp' & handled & rest & ds & -> & Hq' & Hall & Hend). split; [exact Hm'|]. split; [etransitivity; [exact Hmono|exact Hmono']|]. split; [exact Hnp'|].
    exists (Received draws now data addr :: handled), rest, (MkMuxDatagram id rhost rport (truncate data) :: ds).
    split; [reflexivity|]. split; [rewrite Hq', Hq, <- app_assoc; reflexivity|]. split; [|exact Hend]. constructor; [|exact Hall]. do 3 (split; [reflexivity|]).
    exact (lookup_weaken _ _ _ _ Hid Hmono').
  - subst ds. rewrite app_nil_r in Hq. split; [exact Hm1|]. split; [exact Hmono|]. split; [discriminate|].
    exists [], (Received draws now data addr :: rs), []. rewrite app_nil_r. split; [reflexivity|]. split; [exact Hq|]. split; [constructor|discriminate].
Qed.
End Udp.

Arguments udp_state Socket C : clear implicits.

(** ** Concrete runs *)

Definition sample_udp : udp_state Z chan_state := MkUdp maps_new (unbounded_channel (C := chan_state)).

Lemma udp_packets_forwarded_witness :
  let run := udp_loop (handle_udp_step loopback_addr 53 (str "dns") 53)
               [Received [4] 0 [1; 2] sample_peer; Received [] 1 [3] sample_peer] sample_udp in
  map dg_data (queue (us_tx run.1)) = [[1; 2]; [3]]
  /\ maps_wf loopback_addr (us_maps run.1).
Proof.
  assert (Hr : Forall recv_valid [Received [4] 0 [1; 2] sample_peer; Received [] 1 [3] sample_peer]).
  { apply Forall_cons_2; [apply Forall_cons_2; [unfold valid_draw, u32_max; lia|apply Forall_nil_2]|].
    apply Forall_cons_2; [apply Forall_nil_2|apply Forall_nil_2]. }
  cbv zeta. split; [vm_compute; reflexivity|].
  pose proof (udp_packets_forwarded loopback_addr 53 (MkSocketAddr (IpV4 2130706433) 53) (str "dns") 53 _ sample_udp
    (maps_new_wf loopback_addr) Hr eq_refl) as H.
  destruct (udp_loop (handle_udp_step loopback_addr 53 (str "dns") 53) _ sample_udp) as [st stop]. exact (proj1 H).
Defined.

(** At the end of the standard input the handler goes on sending empty
    datagrams, as many as the channel takes. *)
Example stdio_end_repeats :
  map dg_data (queue (us_tx (handle_udp_stdio 4 (str "h") 9 [104; 10] sample_udp).1.2))
  = [[104; 10]; []; []; []].
Proof. vm_compute. reflexivity. Qed.

(** One malformed packet ends the relay of a SOCKS5 client. *)
Example relay_ends_on_malformed :
  (udp_relay loopback_addr 53 [Received [4] 0 [0; 0; 0] sample_peer; Received [4] 0 [0; 0; 0; 1; 1; 1; 1; 1; 0; 9] sample_peer]
     sample_udp).2
  = Some (Err (StopSocks ParseAssociate)).
Proof. vm_compute. reflexivity. Qed.
