(* ===== verification/Tls.v ===== *)
(** * TLS configuration (src/src/tls)

    How the configuration of the server and of the client is put together from
    files and switches, and the identity that can be replaced while the server
    runs.  [Rustls] follows rustls.rs, [Native] native.rs, the rest mod.rs.
    Parsing PEM, checking a chain against a key and building a verifier are the
    libraries', and parameters here; the contents of the files are a function
    of their path. *)

From S2P Require Import Prelude Remote.

Open Scope penguin_scope.

(** ** Definitions *)

Abbreviation Path := bytes.

(** The contents of the files, as the reads find them. *)
Definition Files := Path -> IoErrorKind + bytes.

(** Error type for TLS configuration; [RE], [VE] and [CE] are the error types
    of the libraries. *)
Inductive TlsError {RE VE CE : Type} :=
| ReadCert (e : IoErrorKind)
| EmptyClientCertStore
| RustlsFailed (e : RE)
| VerifierFailed (e : VE)
| CertParse (e : CE)
| PrivateKeyNotSupported.
Arguments TlsError : clear implicits.

(** A [Result] of a library that does not panic, with the conversion of [?]. *)
Definition try_with {E F A} (f : E -> F) (r : E + A) : res F A :=
  match r with inl e => Err (f e) | inr a => Ok a end.

(** [Iterator::collect] into a [Result<Vec<_>, _>]: the first error, if any. *)
Fixpoint collect_results {E A} (l : list (E + A)) : E + list A :=
  match l with
  | [] => inr []
  | inl e :: _ => inl e
  | inr a :: l' => match collect_results l' with inl e => inl e | inr as_ => inr (a :: as_) end
  end.

Definition TLS_ALPN : list bytes := [str "h2"; str "http/1.1"].

Module Rustls.
Section Rustls.
Context {Cert Key Verifier Provider RE VE CE : Type}.

(** What the code calls of [rustls], [rustls_pemfile] and the certificate
    stores. *)
Class Library := {
  pem_certs : bytes -> list (IoErrorKind + Cert);
  pem_private_key : bytes -> IoErrorKind + option Key;
  parsable : Cert -> bool;                       (* what a [RootCertStore] accepts *)
  root_add : Cert -> RE + unit;                  (* [RootCertStore::add] on one certificate *)
  verifier_build : list Cert -> VE + Verifier;   (* [WebPkiClientVerifier::builder(..).build()] *)
  server_single_cert : list Cert -> Key -> RE + unit;
  client_auth_cert : list Cert -> Key -> RE + unit;
  default_provider : option Provider;            (* [CryptoProvider::get_default()] *)
}.
Context {lib : Library}.

(** Which roots were compiled in; the native ones are loaded on each call. *)
Inductive SystemRoots := NativeRoots (loaded : option (list Cert)) | WebpkiRoots (roots : list Cert).

(** [ServerConfig] and [ClientConfig], as far as the code sets them. *)
Record ServerConfig := MkServerConfig {
  sc_client_verifier : option Verifier;          (* [None]: no client authentication *)
  sc_certs : list Cert;
  sc_key : Key;
  sc_alpn_protocols : list bytes;
}.

Inductive ServerVerification := WithRoots (roots : list Cert) | EmptyVerifier (provider : Provider).

Record ClientConfig := MkClientConfig {
  cc_verification : ServerVerification;
  cc_client_auth : option (list Cert * Key);     (* [None]: no client authentication *)
  cc_alpn_protocols : list bytes;
}.

Abbreviation Error := (TlsError RE VE CE).

(** [get_system_certs]: adding stops at the first certificate refused. *)
Fixpoint add_all (roots : list Cert) (certs : list Cert) : res Error (list Cert) :=
  match certs with
  | [] => Ok roots
  | cert :: rest => _ ← try_with RustlsFailed (root_add cert); add_all (roots ++ [cert]) rest
  end.

Definition get_system_certs (system : SystemRoots) : res Error (list Cert) :=
  match system with
  | NativeRoots None => Panic
  | NativeRoots (Some certs) => add_all [] certs
  | WebpkiRoots roots => Ok roots
  end.

(** [load_ca_store]: certificates that do not parse are ignored, a store
    without any is an error. *)
Definition load_ca_store (files : Files) (ca_path : Path) : res Error (list Cert) :=
  client_ca ← try_with ReadCert (files ca_path);
  client_ca ← try_with ReadCert (collect_results (pem_certs client_ca));
  let store := List.filter parsable client_ca in
  if Nat.eqb (length store) 0 then Err EmptyClientCertStore else Ok store.

Definition generate_rustls_rootcertstore (files : Files) (system : SystemRoots) (custom_ca_path : option Path)
  : res Error (list Cert) :=
  match custom_ca_path with
  | Some custom_ca_path => load_ca_store files custom_ca_path
  | None => get_system_certs system
  end.

(** [try_load_certificate]: the certificates are parsed first, but what is
    wrong with them is looked at after the key. *)
Definition try_load_certificate (files : Files) (tls_key tls_cert : option Path)
  : res Error (option (list Cert * Key)) :=
  match tls_key, tls_cert with
  | Some key, Some cert =>
      certs ← try_with ReadCert (files cert);
      let certs := collect_results (pem_certs certs) in
      key ← try_with ReadCert (files key);
      key ← try_with ReadCert (pem_private_key key);
      key ← ok_or key PrivateKeyNotSupported;
      certs ← try_with ReadCert certs;
      Ok (Some (certs, key))
  | _, _ => Ok None
  end.

Definition make_server_config_from_mem (files : Files) (certs : list Cert) (key : Key) (client_ca_path : option Path)
  : res Error ServerConfig :=
  verifier ← match client_ca_path with
             | Some client_ca_path =>
                 store ← load_ca_store files client_ca_path;
                 verifier ← try_with VerifierFailed (verifier_build store);
                 Ok (Some verifier)
             | None => Ok None
             end;
  _ ← try_with RustlsFailed (server_single_cert certs key);
  Ok (MkServerConfig verifier certs key [str "h2"; str "http/1.1"]).

Definition make_server_config (files : Files) (cert_path key_path : Path) (client_ca_path : option Path)
  : res Error ServerConfig :=
  loaded ← try_load_certificate files (Some key_path) (Some cert_path);
  match loaded with
  | None => Panic                                (* the [expect] *)
  | Some (certs, key) => make_server_config_from_mem files certs key client_ca_path
  end.

(** [make_server_config_from_rcgen_pem]: [crt_key] is the serialised key pair. *)
Definition make_server_config_from_rcgen_pem (files : Files) (certs crt_key : bytes) (client_ca_path : option Path)
  : res Error ServerConfig :=
  let certs := collect_results (pem_certs certs) in
  key ← try_with ReadCert (pem_private_key crt_key);
  key ← ok_or key PrivateKeyNotSupported;
  certs ← try_with ReadCert certs;
  make_server_config_from_mem files certs key client_ca_path.

(** The certificate verifier that accepts everything; without a process-wide
    provider making it panics. *)
Definition empty_verifier : res Error ServerVerification :=
  match default_provider with Some p => Ok (EmptyVerifier p) | None => Panic end.

Definition make_client_config (files : Files) (system : SystemRoots) (cert_path key_path ca_path : option Path)
    (tls_skip_verify : bool) (tls_alpn : option (list bytes)) : res Error ClientConfig :=
  roots ← generate_rustls_rootcertstore files system ca_path;
  client_certificate ← try_load_certificate files key_path cert_path;
  '(verification, auth) ←
    match tls_skip_verify, client_certificate with
    | true, Some (cert_chain, key_der) =>
        verifier ← empty_verifier;
        _ ← try_with RustlsFailed (client_auth_cert cert_chain key_der);
        Ok (verifier, Some (cert_chain, key_der))
    | true, None => verifier ← empty_verifier; Ok (verifier, None)
    | false, Some (cert_chain, key_der) =>
        _ ← try_with RustlsFailed (client_auth_cert cert_chain key_der);
        Ok (WithRoots roots, Some (cert_chain, key_der))
    | false, None => Ok (WithRoots roots, None)
    end;
  Ok (MkClientConfig verification auth (default [] tls_alpn)).

(** [make_tls_connector] of mod.rs, with this library. *)
Definition make_tls_connector (files : Files) (system : SystemRoots) (tls_cert tls_key tls_ca : option Path)
    (tls_insecure : bool) : res Error ClientConfig :=
  make_client_config files system tls_cert tls_key tls_ca tls_insecure (Some TLS_ALPN).

(** [ServerCertVerifier for EmptyVerifier]: the certificate is accepted
    unseen; signatures are checked with the algorithms of the provider. *)
Section EmptyVerifier.
Context {Request Dss Algorithms Schemes : Type}.
Variable signature_verification_algorithms : Provider -> Algorithms.
Variables rustls_verify_tls12_signature rustls_verify_tls13_signature :
  bytes -> Cert -> Dss -> Algorithms -> RE + unit.
Variable supported_schemes : Algorithms -> Schemes.

Definition verify_server_cert (self : Provider) (request : Request) : RE + unit := inr tt.

Definition verify_tls12_signature (self : Provider) (message : bytes) (cert : Cert) (dss : Dss) : RE + unit :=
  rustls_verify_tls12_signature message cert dss (signature_verification_algorithms self).

Definition verify_tls13_signature (self : Provider) (message : bytes) (cert : Cert) (dss : Dss) : RE + unit :=
  rustls_verify_tls13_signature message cert dss (signature_verification_algorithms self).

Definition supported_verify_schemes (self : Provider) : Schemes :=
  supported_schemes (signature_verification_algorithms self).
End EmptyVerifier.

(** ** Reference notions *)

(** The files hold a chain and a key that parse. *)
Definition certificate_at (files : Files) (key cert : Path) (chain : list Cert) (k : Key) : Prop :=
  exists cert_text key_text,
    files cert = inr cert_text /\ collect_results (pem_certs cert_text) = inr chain
    /\ files key = inr key_text /\ pem_private_key key_text = inr (Some k).

(** The file holds certificates that parse, those of [store] being usable. *)
Definition ca_store_at (files : Files) (ca : Path) (store : list Cert) : Prop :=
  exists text certs,
    files ca = inr text /\ collect_results (pem_certs text) = inr certs
    /\ store = List.filter parsable certs /\ store <> [].

(** Who may connect to a server: anybody, or the holders of a certificate the
    verifier of these authorities accepts. *)
Definition client_policy (files : Files) (client_ca_path : option Path) (verifier : option Verifier) : Prop :=
  match client_ca_path with
  | None => verifier = None
  | Some ca => exists store v, ca_store_at files ca store /\ verifier_build store = inr v /\ verifier = Some v
  end.

(** ** Lemmas *)

Lemma try_with_ok {E F A} (f : E -> F) (r : E + A) a : try_with f r = Ok a <-> r = inr a.
Proof. destruct r; cbn; split; congruence. Qed.

Lemma try_with_bind {E F A B} (f : E -> F) (r : E + A) (k : A -> res F B) b :
  (x ← try_with f r; k x) = Ok b <-> exists a, r = inr a /\ k a = Ok b.
Proof.
  destruct r as [e|a]; cbn; [split; [easy|now intros (? & ? & ?)]|].
  split; [eauto|]. intros (a' & Ha & H). injection Ha as <-. exact H.
Qed.

Lemma ok_or_bind {E A B} (o : option A) (e : E) (k : A -> res E B) b :
  (x ← ok_or o e; k x) = Ok b <-> exists a, o = Some a /\ k a = Ok b.
Proof.
  destruct o as [a|]; cbn; [|split; [easy|now intros (? & ? & ?)]].
  split; [eauto|]. intros (a' & [= <-] & H). exact H.
Qed.

Lemma load_ca_store_ok files ca store : load_ca_store files ca = Ok store <-> ca_store_at files ca store.
Proof.
  unfold load_ca_store, ca_store_at. rewrite try_with_bind. split.
  - intros (text & Hf & H). apply try_with_bind in H as (certs & Hc & H). exists text, certs.
    destruct (List.filter parsable certs) as [|c cs]; [easy|]. now injection H as <-.
  - intros (text & certs & Hf & Hc & -> & Hn). exists text. split; [easy|]. rewrite Hc. cbn [try_with mbind res_bind].
    now destruct (List.filter parsable certs).
Qed.

Lemma certificate_loaded files key cert chain k :
  try_load_certificate files (Some key) (Some cert) = Ok (Some (chain, k)) <-> certificate_at files key cert chain k.
Proof.
  unfold try_load_certificate, certificate_at. rewrite try_with_bind. split.
  - intros (ct & Hct & H). apply try_with_bind in H as (kt & Hkt & H). apply try_with_bind in H as (ko & Hko & H).
    apply ok_or_bind in H as (k' & -> & H). apply try_with_bind in H as (chain' & Hch & [= -> ->]). eauto 10.
  - intros (ct & kt & Hct & Hch & Hkt & Hko). exists ct. split; [easy|]. rewrite Hkt, Hch. cbn. rewrite Hko. easy.
Qed.

Lemma certificate_given files key cert r :
  try_load_certificate files (Some key) (Some cert) = Ok r -> exists chain k, r = Some (chain, k).
Proof.
  unfold try_load_certificate. intros H. apply try_with_bind in H as (ct & _ & H).
  apply try_with_bind in H as (kt & _ & H). apply try_with_bind in H as (ko & _ & H).
  apply ok_or_bind in H as (k' & -> & H). apply try_with_bind in H as (chain' & _ & [= <-]). eauto.
Qed.

Lemma server_from_mem_ok files certs key ca cfg :
  make_server_config_from_mem files certs key ca = Ok cfg <->
  client_policy files ca (sc_client_verifier cfg) /\ server_single_cert certs key = inr tt
  /\ cfg = MkServerConfig (sc_client_verifier cfg) certs key TLS_ALPN.
Proof.
  unfold make_server_config_from_mem. split.
  - intros H. destruct ca as [ca|]; cbn [mbind res_bind] in H.
    + destruct (load_ca_store files ca) as [store| |] eqn:Hs; [|easy..]. cbn in H.
      destruct (verifier_build store) as [|v] eqn:Hv; [easy|]. cbn in H.
      destruct (server_single_cert certs key) as [|[]]; [easy|]. injection H as <-.
      split; [|easy]. exists store, v. now rewrite <- load_ca_store_ok.
    + now destruct (server_single_cert certs key) as [|[]]; [|injection H as <-].
  - intros (Hp & Hs & ->). rewrite Hs. destruct ca as [ca|]; cbn in Hp |- *; [|now rewrite Hp].
    destruct Hp as (store & v & Hl & Hv & ->). apply load_ca_store_ok in Hl as ->. cbn. now rewrite Hv.
Qed.

Lemma from_mem_never_panics files certs key ca : make_server_config_from_mem files certs key ca <> Panic.
Proof.
  unfold make_server_config_from_mem, load_ca_store. destruct ca as [ca|]; cbn.
  - destruct (files ca) as [|t]; [easy|]. cbn. destruct (collect_results (pem_certs t)) as [|cs]; [easy|]. cbn.
    destruct (Nat.eqb _ _); [easy|]. cbn. destruct (verifier_build _); [easy|]. cbn.
    now destruct (server_single_cert certs key).
  - now destruct (server_single_cert certs key).
Qed.

(** The [expect] on the loaded pair never fires. *)
Lemma make_server_config_never_panics files cert key ca : make_server_config files cert key ca <> Panic.
Proof.
  unfold make_server_config. destruct (try_load_certificate files (Some key) (Some cert)) as [r| |] eqn:Hr; cbn; [|easy|].
  - destruct (certificate_given _ _ _ _ Hr) as (chain & k & ->). apply from_mem_never_panics.
  - revert Hr. unfold try_load_certificate. destruct (files cert) as [|ct]; [easy|]. cbn.
    destruct (files key) as [|kt]; [easy|]. cbn. destruct (pem_private_key kt) as [|[k|]]; [easy| |easy]. cbn.
    now destruct (collect_results _).
Qed.

Lemma from_rcgen_pem_never_panics files certs crt_key ca : make_server_config_from_rcgen_pem files certs crt_key ca <> Panic.
Proof.
  unfold make_server_config_from_rcgen_pem. destruct (pem_private_key crt_key) as [|[k|]]; [easy| |easy]. cbn.
  destruct (collect_results _); [easy|]. apply from_mem_never_panics.
Qed.

Lemma empty_store_refused files certs key ca text :
  files ca = inr text -> collect_results (pem_certs text) = inr certs -> List.filter parsable certs = [] ->
  forall chain, make_server_config_from_mem files chain key (Some ca) = Err EmptyClientCertStore.
Proof. intros Hf Hc He chain. unfold make_server_config_from_mem, load_ca_store. rewrite Hf. cbn. rewrite Hc. cbn. now rewrite He. Qed.

(** ** Properties *)

(** C26: a server configuration is made exactly when the chain and the key
    parse and fit each other, and it asks for client certificates exactly
    when an authority file is given: a file that cannot be read, does not
    parse or holds no usable certificate never gives a server that lets
    everybody in, but an error; the [expect] on the loaded pair never fires. *)
Theorem server_config_exact files cert key ca :
  (forall cfg, make_server_config files cert key ca = Ok cfg <->
     exists chain k, certificate_at files key cert chain k /\ server_single_cert chain k = inr tt
       /\ client_policy files ca (sc_client_verifier cfg)
       /\ cfg = MkServerConfig (sc_client_verifier cfg) chain k TLS_ALPN)
  /\ make_server_config files cert key ca <> Panic
  /\ (forall p text certs chain k, ca = Some p -> certificate_at files key cert chain k ->
       files p = inr text -> collect_results (pem_certs text) = inr certs -> List.filter parsable certs = [] ->
       make_server_config files cert key ca = Err EmptyClientCertStore).
Proof.
  split_and!.
  - intros cfg. unfold make_server_config. split.
    + intros H. destruct (try_load_certificate files (Some key) (Some cert)) as [r| |] eqn:Hr; [|easy..].
      destruct (certificate_given _ _ _ _ Hr) as (chain & k & ->). cbn in H. apply server_from_mem_ok in H as (Hp & Hs & Hc).
      exists chain, k. now rewrite <- certificate_loaded.
    + intros (chain & k & Hl & Hs & Hp & Hc). apply certificate_loaded in Hl as ->. now apply server_from_mem_ok.
  - apply make_server_config_never_panics.
  - intros p text certs chain k -> Hl Hf Hc He. unfold make_server_config. apply certificate_loaded in Hl as ->. cbn.
    now apply (empty_store_refused files certs k p text).
Qed.

(** The configuration from a certificate just issued follows the same rules. *)
Theorem server_config_from_pem_exact files certs crt_key ca cfg :
  make_server_config_from_rcgen_pem files certs crt_key ca = Ok cfg <->
  exists chain k, pem_private_key crt_key = inr (Some k) /\ collect_results (pem_certs certs) = inr chain
    /\ server_single_cert chain k = inr tt /\ client_policy files ca (sc_client_verifier cfg)
    /\ cfg = MkServerConfig (sc_client_verifier cfg) chain k TLS_ALPN.
Proof.
  unfold make_server_config_from_rcgen_pem. rewrite try_with_bind. split.
  - intros (ko & Hk & H). apply ok_or_bind in H as (k & -> & H). apply try_with_bind in H as (chain & Hc & H).
    apply server_from_mem_ok in H as (Hp & Hs & He). eauto 8.
  - intros (chain & k & Hk & Hc & Hs & Hp & He). exists (Some k). split; [easy|]. cbn. rewrite Hc. cbn.
    now apply server_from_mem_ok.
Qed.

(** Which pair a client presents, and the checks that lead to it. *)
Definition client_identity (files : Files) (cert_path key_path : option Path) (auth : option (list Cert * Key)) : Prop :=
  match key_path, cert_path with
  | Some key, Some cert =>
      exists chain k, certificate_at files key cert chain k /\ client_auth_cert chain k = inr tt /\ auth = Some (chain, k)
  | _, _ => auth = None
  end.

(** Which server a client accepts. *)
Definition server_policy (skip : bool) (roots : list Cert) (v : ServerVerification) : Prop :=
  if skip then exists p, default_provider = Some p /\ v = EmptyVerifier p else v = WithRoots roots.

(** C27: a client verifies the server against the authorities of the file it
    was given, or else those of the system, unless verification was switched
    off, and nothing else switches it off; even then the authority file must
    load.  It presents a certificate exactly when both the certificate and
    the key are given. *)
Theorem client_config_exact files system cert_path key_path ca_path skip alpn cfg :
  make_client_config files system cert_path key_path ca_path skip alpn = Ok cfg <->
  (exists roots, match ca_path with Some ca => ca_store_at files ca roots | None => get_system_certs system = Ok roots end
     /\ server_policy skip roots (cc_verification cfg))
  /\ client_identity files cert_path key_path (cc_client_auth cfg)
  /\ cc_alpn_protocols cfg = default [] alpn.
Proof.
  unfold make_client_config, empty_verifier.
  assert (Hroots : forall roots, generate_rustls_rootcertstore files system ca_path = Ok roots <->
    match ca_path with Some ca => ca_store_at files ca roots | None => get_system_certs system = Ok roots end)
    by (intros roots; destruct ca_path; [apply load_ca_store_ok|easy]).
  assert (Hid : forall auth, client_identity files cert_path key_path auth <->
    exists l, try_load_certificate files key_path cert_path = Ok l /\ auth = l
              /\ match l with Some (c, k) => client_auth_cert c k = inr tt | None => True end).
  { intros auth. unfold client_identity. destruct key_path as [kp|], cert_path as [cp|];
      try (split; [intros ->; now exists None|intros (l & H & -> & _); injection H as <-; easy]). split.
    - intros (chain & k & Hl & Ha & ->). apply certificate_loaded in Hl. now exists (Some (chain, k)).
    - intros (l & Hl & -> & Ha). destruct (certificate_given _ _ _ _ Hl) as (chain & k & ->).
      exists chain, k. now rewrite <- certificate_loaded. }
  rewrite Hid. setoid_rewrite <- Hroots. clear Hroots Hid. unfold server_policy. split.
  - intros H. destruct (generate_rustls_rootcertstore files system ca_path) as [roots| |]; [|easy..]. cbn in H.
    destruct (try_load_certificate files key_path cert_path) as [l| |]; [|easy..]. cbn in H.
    destruct skip, l as [[c k]|]; [destruct default_provider as [p|]; [|easy]; cbn in H| |cbn in H|];
      try (destruct (client_auth_cert c k) as [|[]] eqn:Ha; [easy|]; cbn in H);
      try (destruct default_provider as [p|]; [|easy]); injection H as <-; cbn; eauto 10.
  - intros ((roots & -> & Hv) & (l & -> & Hauth & Ha) & Halpn). destruct cfg as [v auth al]. cbn in *. subst.
    destruct skip; [destruct Hv as (p & -> & ->)|rewrite Hv]; destruct l as [[c k]|]; cbn; rewrite ?Ha; easy.
Qed.
End Rustls.
End Rustls.

(** ** Witnesses *)

Module Concrete.
(** A library on small values: a text holds one certificate per octet, those
    above 9 do not parse, the key file is [0 :: key]; a chain fits a key when
    it starts with it. *)
#[export] Instance library : @Rustls.Library Z Z (list Z) unit unit unit := {|
  Rustls.pem_certs := fun text => inr <$> text;
  Rustls.pem_private_key := fun text => inr match text with 0 :: k :: _ => Some k | _ => None end;
  Rustls.parsable := fun c => c <? 10;
  Rustls.root_add := fun c => inr tt;
  Rustls.verifier_build := fun store => inr store;
  Rustls.server_single_cert := fun chain k => match chain with c :: _ => if c =? k then inr tt else inl tt | [] => inl tt end;
  Rustls.client_auth_cert := fun chain k => match chain with c :: _ => if c =? k then inr tt else inl tt | [] => inl tt end;
  Rustls.default_provider := Some tt;
|}.

(** The authorities at ["ca"], a pair at ["cert"] and ["key"], a file without
    usable certificates at ["none"]. *)
Definition files : Files := fun path =>
  if is_str path "ca" then inr [3; 12; 4] else if is_str path "cert" then inr [7; 3]
  else if is_str path "key" then inr [0; 7] else if is_str path "none" then inr [20; 30] else inl OtherIoKind.

Definition server ca : res (TlsError unit unit unit) _ := Rustls.make_server_config files (str "cert") (str "key") ca.

Lemma server_config_exact_witness :
  server (Some (str "none")) = Err EmptyClientCertStore
  /\ server (Some (str "ca")) = Ok (Rustls.MkServerConfig (Some [3; 4]) [7; 3] 7 TLS_ALPN).
Proof.
  split.
  - destruct (Rustls.server_config_exact (CE := unit) files (str "cert") (str "key") (Some (str "none"))) as (_ & _ & H).
    apply (H (str "none") [20; 30] [20; 30] [7; 3] 7); try reflexivity. exists [7; 3], [0; 7]. now split_and!.
  - apply (Rustls.server_config_exact (CE := unit) files (str "cert") (str "key") (Some (str "ca"))).
    exists [7; 3], 7. split_and!; try reflexivity; [exists [7; 3], [0; 7]; now split_and!|].
    exists [3; 4], [3; 4]. split_and!; try reflexivity. exists [3; 12; 4], [3; 12; 4]. now split_and!.
Defined.
End Concrete.

(** ** native.rs *)

Module Native.
Section Native.
Context {Identity Acceptor Connector Certificate RE VE CE : Type}.

(** The settings a [TlsConnectorBuilder] was given. *)
Record ConnectorSettings := MkSettings {
  cs_accept_invalid_certs : bool;
  cs_accept_invalid_hostnames : bool;
  cs_alpns : list bytes;
  cs_root_certificates : list Certificate;       (* besides those of the system *)
  cs_identity : option Identity;
}.

Class Library := {
  identity_from_pkcs8 : bytes -> bytes -> CE + Identity;
  certificate_from_pem : bytes -> CE + Certificate;
  acceptor_build : Identity -> CE + Acceptor;
  connector_build : ConnectorSettings -> CE + Connector;
}.
Context {lib : Library}.

Abbreviation Error := (TlsError RE VE CE).

Definition read_key_cert (files : Files) (key_path cert_path : Path) : res Error Identity :=
  key ← try_with ReadCert (files key_path);
  cert ← try_with ReadCert (files cert_path);
  try_with CertParse (identity_from_pkcs8 cert key).

(** The authorities of the clients are not used. *)
Definition make_server_config_from_mem (identity : Identity) (client_ca_path : option Path) : res Error Acceptor :=
  try_with CertParse (acceptor_build identity).

Definition make_server_config (files : Files) (cert_path key_path : Path) (client_ca_path : option Path)
  : res Error Acceptor :=
  identity ← read_key_cert files key_path cert_path;
  make_server_config_from_mem identity client_ca_path.

Definition make_server_config_from_rcgen_pem (certs crt_key : bytes) (client_ca_path : option Path)
  : res Error Acceptor :=
  identity ← try_with CertParse (identity_from_pkcs8 certs crt_key);
  make_server_config_from_mem identity client_ca_path.

Definition make_client_config (files : Files) (cert_path key_path ca_path : option Path)
    (tls_skip_verify : bool) (tls_alpn : option (list bytes)) : res Error Connector :=
  roots ← match ca_path with
          | Some ca_path =>
              ca ← try_with ReadCert (files ca_path);
              cert ← try_with CertParse (certificate_from_pem ca);
              Ok [cert]
          | None => Ok []
          end;
  identity ← match cert_path with
             | Some cert_path =>
                 identity ← read_key_cert files (default cert_path key_path) cert_path;
                 Ok (Some identity)
             | None => Ok None
             end;
  try_with CertParse
    (connector_build (MkSettings tls_skip_verify tls_skip_verify (default [] tls_alpn) roots identity)).

(** [make_tls_connector] of mod.rs, with this library. *)
Definition make_tls_connector (files : Files) (tls_cert tls_key tls_ca : option Path) (tls_insecure : bool)
  : res Error Connector := make_client_config files tls_cert tls_key tls_ca tls_insecure (Some TLS_ALPN).

(** ** Properties *)

(** With this library the server lets everybody in: the authorities given for
    its clients, even a file that does not exist, change nothing. *)
Theorem native_client_ca_ignored files cert key certs crt_key ca ca' :
  make_server_config files cert key ca = make_server_config files cert key ca'
  /\ make_server_config_from_rcgen_pem certs crt_key ca = make_server_config_from_rcgen_pem certs crt_key ca'.
Proof. easy. Qed.

(** A certificate without a key is used as both. *)
Theorem native_key_defaults files cert ca skip alpn :
  make_client_config files (Some cert) None ca skip alpn
  = make_client_config files (Some cert) (Some cert) ca skip alpn.
Proof. easy. Qed.
End Native.
End Native.

(** ** mod.rs: the identity that can be replaced *)

Section Identity.
Context {Config PemPair E : Type}.
(** [make_server_config] and [make_server_config_from_rcgen_pem] of the
    library compiled in. *)
Variable make_server_config : Files -> Path -> Path -> option Path -> res E Config.
Variable make_server_config_from_rcgen_pem : Files -> PemPair -> option Path -> res E Config.

(** [Arc<ArcSwap<_>>]: the configuration it holds now. *)
Definition TlsIdentity := Config.

Definition make_tls_identity (files : Files) (cert_path key_path : Path) (client_ca_path : option Path)
  : res E TlsIdentity := make_server_config files cert_path key_path client_ca_path.

Definition make_tls_identity_from_rcgen_pem (files : Files) (pair : PemPair) (client_ca_path : option Path)
  : res E TlsIdentity := make_server_config_from_rcgen_pem files pair client_ca_path.

(** The [?] comes before [identity.store]. *)
Definition store_if_ok (identity : TlsIdentity) (new : res E Config) : TlsIdentity * res E unit :=
  match new with
  | Ok new => (new, Ok tt)
  | Err e => (identity, Err e)
  | Panic => (identity, Panic)
  end.

Definition reload_tls_identity (identity : TlsIdentity) (files : Files) (cert_path key_path : Path)
    (client_ca_path : option Path) : TlsIdentity * res E unit :=
  store_if_ok identity (make_server_config files cert_path key_path client_ca_path).

Definition reload_tls_identity_from_rcgen_pem (identity : TlsIdentity) (files : Files) (pair : PemPair)
    (client_ca_path : option Path) : TlsIdentity * res E unit :=
  store_if_ok identity (make_server_config_from_rcgen_pem files pair client_ca_path).
End Identity.
