(* ===== verification/Acme.v ===== *)
(** * ACME (src/src/server/acme)

    Obtaining and renewing the certificate of the server: the challenge
    helper (challenge_helper.rs), the order of one certificate and the renewal
    (mod.rs).  The directory, the [instant_acme] client, the helper process
    and the key generator are outside: [AcmeEnv] is what the code calls of
    them, over a state of their own, so that a call may answer anything and
    the same call differently the next time. *)

From S2P Require Import Prelude Timing Tls.

Open Scope penguin_scope.

(** ** Definitions *)

(** *** Data *)

Inductive Action := Create | Remove.

Definition as_str (self : Action) : bytes :=
  match self with Create => str "create" | Remove => str "remove" end.

(** Of [instant_acme], with the values the code looks at. *)
Inductive AuthorizationStatus := AuthPending | AuthValid | AuthOther (name : bytes).
Inductive ChallengeType := Http01 | OtherChallenge (name : bytes).
Inductive OrderStatus := OrderReady | OrderInvalidStatus | OrderOther (name : bytes).

#[export] Instance OrderStatus_eq_dec : EqDecision OrderStatus.
Proof. solve_decision. Defined.

Record Challenge := MkChallenge { ch_type : ChallengeType; ch_url : bytes; ch_token : bytes }.
Record Authorization := MkAuthorization { au_status : AuthorizationStatus; au_challenges : list Challenge }.

Inductive AcmeError {IE GE TE : Type} :=
| InstantAcme (e : IE)
| ChallengeHelperExecution (e : IoErrorKind)
| CertificateGeneration (e : GE)
| AuthInvalid (status : AuthorizationStatus)
| OrderInvalid (status : OrderStatus)
| NoHttp01ChallengeSupport
| AcmeTls (e : TE).
Arguments AcmeError : clear implicits.

(** How many times to check the order status before giving up. *)
Definition MAX_ORDER_RETRIES : Z := 10.

(** What the program did outside, oldest first. *)
Inductive event :=
| Helper (action : Action) (key_auth : bytes) (started : bool)
| ChallengeReady (url : bytes)
| Refreshed
| Slept (d : Duration)
| Finalized (csr : bytes)
| Polled.

Section Acme.
Context {S Account Order Child Params KeyPair IE GE TE Config : Type}.

(** The certificate signing request, keys and the conversations with the
    directory and the helper.  [key_authorization] is pure. *)
Class AcmeEnv := {
  account_create : list bytes -> bool -> bytes -> S -> S * (IE + Account);
  new_order : Account -> list bytes -> S -> S * (IE + Order);
  authorizations : Order -> S -> S * (IE + list Authorization);
  key_authorization : Order -> Challenge -> bytes;
  set_challenge_ready : Order -> bytes -> S -> S * (IE + unit);
  refresh : Order -> S -> S * (IE + unit);
  status : Order -> S -> OrderStatus;                    (* [order.state().status] *)
  finalize : Order -> bytes -> S -> S * (IE + unit);
  certificate : Order -> S -> S * (IE + option bytes);
  spawn : bytes -> bytes -> bytes -> S -> S * (IoErrorKind + Child);   (* command, two arguments *)
  wait : Child -> S -> S * (IoErrorKind + unit);          (* any exit status is an [Ok] *)
  sleep : Duration -> S -> S;
  certificate_params : list bytes -> GE + Params;
  generate_key : S -> S * (GE + KeyPair);
  serialize_request : Params -> KeyPair -> GE + bytes;
  serialize_pem : KeyPair -> bytes;
}.
Context {env : AcmeEnv}.

(** [Client], with the contents of its [tls_config] cell. *)
Record Client := MkClient {
  cl_account : Account;
  cl_challenge_helper : bytes;
  cl_domain_names : list bytes;
  cl_tls_ca : option Path;
  cl_tls_config : Config;
}.

(** The outside, what was done to it, and [ACME_CLIENT]. *)
Record World := MkWorld { wd_env : S; wd_log : list event; wd_client : option Client }.

Abbreviation Error := (AcmeError IE GE TE).

(** An [async] function: its result, or still waiting when the rounds given
    to it are used up. *)
Inductive progress (A : Type) := Finished (r : res Error A) | StillWaiting.
Arguments Finished {A} _.
Arguments StillWaiting {A}.

Definition Acme (A : Type) : Type := World -> World * progress A.

#[local] Instance Acme_ret : MRet Acme := fun _ a w => (w, Finished (Ok a)).
#[local] Instance Acme_bind : MBind Acme := fun _ _ k c w =>
  match c w with
  | (w, Finished (Ok a)) => k a w
  | (w, Finished (Err e)) => (w, Finished (Err e))
  | (w, Finished Panic) => (w, Finished Panic)
  | (w, StillWaiting) => (w, StillWaiting)
  end.

Definition fail {A} (e : Error) : Acme A := fun w => (w, Finished (Err e)).
Definition still_waiting {A} : Acme A := fun w => (w, StillWaiting).
Definition panic {A} : Acme A := fun w => (w, Finished Panic).
Definition of_sum {E A} (f : E -> Error) (r : E + A) : Acme A := fun w => (w, Finished (try_with f r)).
Definition log_event (e : event) : Acme unit := fun w =>
  (MkWorld (wd_env w) (wd_log w ++ [e]) (wd_client w), Finished (Ok tt)).
(** A call of the outside, and one whose error [?] converts with [f]. *)
Definition call_env {A} (f : S -> S * A) : Acme A := fun w =>
  let '(s, a) := f (wd_env w) in (MkWorld s (wd_log w) (wd_client w), Finished (Ok a)).
Definition try_env {E A} (conv : E -> Error) (f : S -> S * (E + A)) : Acme A := r ← call_env f; of_sum conv r.
Definition order_status (order : Order) : Acme OrderStatus := fun w => (w, Finished (Ok (status order (wd_env w)))).

(** *** challenge_helper.rs *)

(** [ChallengeHelper::call]. *)
Definition call (self : bytes) (action : Action) (key_authorization : bytes) : Acme Child :=
  cmd ← call_env (spawn self (as_str action) key_authorization);
  _ ← log_event (Helper action key_authorization (match cmd with inr _ => true | inl _ => false end));
  of_sum ChallengeHelperExecution cmd.

(** [let _ = self.call(Action::Remove, key_auth)] for each. *)
Fixpoint remove_all (self : bytes) (keys : list bytes) : Acme unit :=
  match keys with
  | [] => mret tt
  | key_auth :: rest => fun w => remove_all self rest (call self Remove key_auth w).1
  end.

(** [Iterator::find] on the challenges. *)
Definition is_http01 (c : Challenge) : bool := match ch_type c with Http01 => true | _ => false end.

Definition one_challenge (self : bytes) (auth : Authorization) (order : Order) : Acme (option (bytes * bytes)) :=
  match au_status auth with
  | AuthValid => mret None
  | AuthPending =>
      match List.find is_http01 (au_challenges auth) with
      | None => fail NoHttp01ChallengeSupport
      | Some http_challenge =>
          let key_auth := key_authorization order http_challenge in
          child ← call self Create key_auth;
          _ ← try_env ChallengeHelperExecution (wait child);
          mret (Some (key_auth, ch_url http_challenge))
      end
  | other => fail (AuthInvalid other)
  end.

Fixpoint process_loop (self : bytes) (auths : list Authorization) (order : Order) (executed_challenges : list bytes)
  : Acme (list bytes) :=
  match auths with
  | [] => mret executed_challenges
  | auth :: rest => fun w =>
      match one_challenge self auth order w with
      | (w, Finished (Ok (Some (key_auth, challenge_url)))) =>
          (_ ← log_event (ChallengeReady challenge_url);
           _ ← try_env InstantAcme (set_challenge_ready order challenge_url);
           process_loop self rest order (executed_challenges ++ [key_auth])) w
      | (w, Finished (Ok None)) => process_loop self rest order executed_challenges w
      | (w, Finished (Err e)) => (_ ← remove_all self executed_challenges; fail e) w
      | (w, Finished Panic) => (w, Finished Panic)
      | (w, StillWaiting) => (w, StillWaiting)
      end
  end.

Definition process_challenges (self : bytes) (authorizations : list Authorization) (order : Order)
  : Acme (list bytes) := process_loop self authorizations order [].

(** *** mod.rs: [issue] *)

Definition new_backoff : Backoff :=
  backoff_new (duration_from_secs 5) (duration_from_secs 60) 2 MAX_ORDER_RETRIES.

(** The loop that waits for the order; [order_cleanup] is [remove_all]. *)
Fixpoint wait_ready (fuel : nat) (helper : bytes) (keyauths : list bytes) (order : Order) (backoff : Backoff)
  : Acme unit :=
  st ← order_status order;
  if decide (st = OrderReady) then mret tt
  else
    match fuel with
    | O => still_waiting
    | Datatypes.S fuel' =>
        _ ← log_event Refreshed;
        _ ← try_env InstantAcme (refresh order);
        st ← order_status order;
        if decide (st = OrderInvalidStatus) then
          _ ← remove_all helper keyauths; fail (OrderInvalid OrderInvalidStatus)
        else
          match backoff_advance backoff with
          | Ok (backoff', Some d) =>
              _ ← log_event (Slept d);
              _ ← call_env (fun s => (sleep d s, tt));
              wait_ready fuel' helper keyauths order backoff'
          | Ok (_, None) => _ ← remove_all helper keyauths; fail (OrderInvalid st)
          | _ => panic
          end
    end.

(** Polling for the certificate once a second. *)
Fixpoint poll_certificate (fuel : nat) (order : Order) : Acme bytes :=
  match fuel with
  | O => still_waiting
  | Datatypes.S fuel' =>
      _ ← log_event Polled;
      cert ← try_env InstantAcme (certificate order);
      match cert with
      | Some cert_chain_pem => mret cert_chain_pem
      | None =>
          _ ← log_event (Slept (duration_from_secs 1));
          _ ← call_env (fun s => (sleep (duration_from_secs 1) s, tt));
          poll_certificate fuel' order
      end
  end.

(** From the order's being ready to its certificate. *)
Definition finish_order (polls : nat) (domains : list bytes) (order : Order) : Acme (KeyPair * bytes) :=
  st ← order_status order;
  if decide (st = OrderReady) then
    params ← of_sum CertificateGeneration (certificate_params domains);
    private_key ← try_env CertificateGeneration generate_key;
    csr ← of_sum CertificateGeneration (serialize_request params private_key);
    _ ← log_event (Finalized csr);
    _ ← try_env InstantAcme (finalize order csr);
    cert_chain_pem ← poll_certificate polls order;
    mret (private_key, cert_chain_pem)
  else panic.                                             (* the [assert_eq!] *)

(** [rounds] and [polls] bound the two loops of the model. *)
Definition issue (rounds polls : nat) (account : Account) (challenge_helper : bytes) (domains : list bytes)
  : Acme (KeyPair * bytes) :=
  order ← try_env InstantAcme (new_order account domains);
  auths ← try_env InstantAcme (authorizations order);
  keyauths ← process_challenges challenge_helper auths order;
  _ ← wait_ready rounds challenge_helper keyauths order new_backoff;
  issued ← finish_order polls domains order;
  _ ← remove_all challenge_helper keyauths;
  mret issued.

(** *** mod.rs: [Client] *)

(** The arguments of the server that ACME uses. *)
Record AcmeArgs := MkAcmeArgs {
  aa_challenge_helper : option bytes;
  aa_email : option bytes;
  aa_accept_tos : bool;
  aa_url : bytes;
  aa_domain : list bytes;
  aa_tls_ca : option Path;
}.

(** [make_server_config_from_rcgen_pem] of the TLS library, on the chain and
    the serialised key. *)
Variable make_config_from_pem : Files -> bytes * bytes -> option Path -> res TE Config.

Definition get_client : Acme (option Client) := fun w => (w, Finished (Ok (wd_client w))).

(** [OnceLock::set(..).expect(..)]. *)
Definition set_client (c : Client) : Acme unit := fun w =>
  match wd_client w with
  | None => (MkWorld (wd_env w) (wd_log w) (Some c), Finished (Ok tt))
  | Some _ => (w, Finished Panic)
  end.

Definition of_res {E A} (f : E -> Error) (r : res E A) : Acme A := fun w => (w, Finished (map_err f r)).

Definition contacts (email : option bytes) : list bytes :=
  match email with Some email => [str "mailto:" ++ email] | None => [] end.

Definition populate_or_get (rounds polls : nat) (files : Files) (args : AcmeArgs) : Acme Client :=
  match aa_challenge_helper args with
  | None => panic                                          (* the [expect] *)
  | Some helper =>
      client ← get_client;
      match client with
      | Some client => mret client
      | None =>
          account ← try_env InstantAcme
                      (account_create (contacts (aa_email args)) (aa_accept_tos args) (aa_url args));
          '(keypair, cert) ← issue rounds polls account helper (aa_domain args);
          config ← of_res AcmeTls
                     (make_tls_identity_from_rcgen_pem make_config_from_pem files (cert, serialize_pem keypair) (aa_tls_ca args));
          _ ← set_client (MkClient account helper (aa_domain args) (aa_tls_ca args) config);
          client ← get_client;
          match client with Some client => mret client | None => panic end
      end
  end.

Definition set_tls_config (self : Client) (config : Config) : Client :=
  MkClient (cl_account self) (cl_challenge_helper self) (cl_domain_names self) (cl_tls_ca self) config.

(** One turn of the loop of [get_tls_config_spawn_renewal], after the tick:
    errors are only logged. *)
Definition renew_once (rounds polls : nat) (files : Files) (self : Client) : Acme Client := fun w =>
  match issue rounds polls (cl_account self) (cl_challenge_helper self) (cl_domain_names self) w with
  | (w, Finished (Ok (keypair, cert))) =>
      match reload_tls_identity_from_rcgen_pem make_config_from_pem (cl_tls_config self) files
              (cert, serialize_pem keypair) (cl_tls_ca self) with
      | (config, Panic) => (w, Finished Panic)
      | (config, _) => (w, Finished (Ok (set_tls_config self config)))
      end
  | (w, Finished (Err e)) => (w, Finished (Ok self))
  | (w, Finished Panic) => (w, Finished Panic)
  | (w, StillWaiting) => (w, StillWaiting)
  end.

(** The interval between renewals. *)
Definition renewal_interval : Duration := duration_from_secs (30 * 24 * 60 * 60).

(** The loop over as many ticks as the list has file systems; the first tick
    of the interval is skipped, so each turn waits for the interval first. *)
Fixpoint renewal_loop (rounds polls : nat) (ticks : list Files) (self : Client) : Acme Client :=
  match ticks with
  | [] => mret self
  | files :: rest =>
      _ ← log_event (Slept renewal_interval);
      _ ← call_env (fun s => (sleep renewal_interval s, tt));
      self ← renew_once rounds polls files self;
      renewal_loop rounds polls rest self
  end.

(** ** Reference notions *)

(** The helper's calls of a log. *)
Definition helper_calls (log : list event) : list (Action * bytes) :=
  omap (fun e => match e with Helper a k _ => Some (a, k) | _ => None end) log.

Definition slept (log : list event) : list Duration :=
  omap (fun e => match e with Slept d => Some d | _ => None end) log.

(** What is done to a key in each call. *)
Definition all_calls (a : Action) (keys : list bytes) : list (Action * bytes) := map (fun k => (a, k)) keys.

(** The key authorisation an authorisation asks for, if it is pending and the
    directory offers HTTP-01. *)
Definition pending_key (order : Order) (auth : Authorization) : option bytes :=
  match au_status auth with
  | AuthPending => key_authorization order <$> List.find is_http01 (au_challenges auth)
  | _ => None
  end.

Definition pending_keys (order : Order) (auths : list Authorization) : list bytes := omap (pending_key order) auths.

(** Nothing to do for it, or something that can be done. *)
Definition satisfiable (order : Order) (auth : Authorization) : Prop :=
  au_status auth = AuthValid \/ is_Some (pending_key order auth).

(** A computation that extends the log by [t] and leaves the client alone. *)
Definition emits (w w' : World) (t : list event) : Prop :=
  wd_log w' = wd_log w ++ t /\ wd_client w' = wd_client w.

(** The challenge files there may be after some calls of the helper. *)
Definition file_call (s : gset bytes) (c : Action * bytes) : gset bytes :=
  match c with (Create, k) => s ∪ {[k]} | (Remove, k) => s ∖ {[k]} end.

Definition left_behind (log : list event) : gset bytes := foldl file_call ∅ (helper_calls log).

(** The waits of the loop that waits for an order. *)
Definition order_waits : list Duration := map duration_from_secs [5; 10; 20; 40; 60; 60; 60; 60; 60; 60].

(** How often the order was asked for its status. *)
Definition refreshes (log : list event) : nat :=
  length (List.filter (fun e => match e with Refreshed => true | _ => false end) log).

(** How often the certificate was asked for. *)
Definition polled (log : list event) : nat :=
  length (List.filter (fun e => match e with Polled => true | _ => false end) log).

(** The order of a renewal waits for its certificate: it was asked for [polls]
    times and not given once. *)
Definition unanswered (polls : nat) (w' : World) : Prop :=
  exists order w t, poll_certificate polls order w = (w', StillWaiting) /\ emits w w' t /\ polled t = polls.

(** One renewal, from what [issue] makes of its order.  The new identity is
    made from the chain and then the key of that very order; an order that
    fails and a pair that is not accepted leave the client as it was. *)
Inductive turn (rounds polls : nat) (files : Files) (self : Client) (w w' : World) : Client -> Prop :=
| turn_replaces keypair cert config :
    issue rounds polls (cl_account self) (cl_challenge_helper self) (cl_domain_names self) w = (w', Finished (Ok (keypair, cert))) ->
    make_config_from_pem files (cert, serialize_pem keypair) (cl_tls_ca self) = Ok config ->
    turn rounds polls files self w w' (set_tls_config self config)
| turn_refuses keypair cert e :
    issue rounds polls (cl_account self) (cl_challenge_helper self) (cl_domain_names self) w = (w', Finished (Ok (keypair, cert))) ->
    make_config_from_pem files (cert, serialize_pem keypair) (cl_tls_ca self) = Err e ->
    turn rounds polls files self w w' self
| turn_fails e :
    issue rounds polls (cl_account self) (cl_challenge_helper self) (cl_domain_names self) w = (w', Finished (Err e)) ->
    turn rounds polls files self w w' self.

(** The world after the interval. *)
Definition after_interval (w : World) : World :=
  MkWorld (sleep renewal_interval (wd_env w)) (wd_log w ++ [Slept renewal_interval]) (wd_client w).

(** Renewals one interval apart, and the client that serves at their end: all
    the ticks are used up, or an order waits for its certificate. *)
Inductive renewing (rounds polls : nat) : list Files -> Client -> World -> Client -> World -> progress Client -> Prop :=
| renewing_done self w : renewing rounds polls [] self w self w (Finished (Ok self))
| renewing_turn files ticks self w self1 w1 self' w' p :
    turn rounds polls files self (after_interval w) w1 self1 ->
    renewing rounds polls ticks self1 w1 self' w' p ->
    renewing rounds polls (files :: ticks) self w self' w' p
| renewing_waits files ticks self w w' :
    issue rounds polls (cl_account self) (cl_challenge_helper self) (cl_domain_names self) (after_interval w) = (w', StillWaiting) ->
    unanswered polls w' ->
    renewing rounds polls (files :: ticks) self w self w' StillWaiting.

(** The identity a client started with, or one made from what an order for its
    account and domains gave on one of the ticks. *)
Definition identity_of (rounds polls : nat) (ticks : list Files) (self : Client) (config : Config) : Prop :=
  config = cl_tls_config self
  \/ exists files w w' keypair cert, files ∈ ticks
      /\ issue rounds polls (cl_account self) (cl_challenge_helper self) (cl_domain_names self) w = (w', Finished (Ok (keypair, cert)))
      /\ make_config_from_pem files (cert, serialize_pem keypair) (cl_tls_ca self) = Ok config.

(** The errors after which nothing is cleaned up: those of the directory and
    of making the request. *)
Definition abandons (e : Error) : bool :=
  match e with InstantAcme _ | CertificateGeneration _ => true | _ => false end.

(** ** Lemmas *)

Lemma emits_refl w : emits w w [].
Proof. split; [now rewrite app_nil_r|easy]. Qed.

Lemma emits_trans w1 w2 w3 t1 t2 : emits w1 w2 t1 -> emits w2 w3 t2 -> emits w1 w3 (t1 ++ t2).
Proof. intros [H1 C1] [H2 C2]. split; [now rewrite H2, H1, app_assoc|congruence]. Qed.

Lemma helper_calls_app t1 t2 : helper_calls (t1 ++ t2) = helper_calls t1 ++ helper_calls t2.
Proof. apply omap_app. Qed.

Lemma slept_app t1 t2 : slept (t1 ++ t2) = slept t1 ++ slept t2.
Proof. apply omap_app. Qed.

Lemma refreshes_app t1 t2 : refreshes (t1 ++ t2) = (refreshes t1 + refreshes t2)%nat.
Proof. unfold refreshes. now rewrite List.filter_app, length_app. Qed.

Lemma all_calls_app a k1 k2 : all_calls a (k1 ++ k2) = all_calls a k1 ++ all_calls a k2.
Proof. apply map_app. Qed.

Lemma try_env_run {E A} (conv : E -> Error) (f : S -> S * (E + A)) w :
  exists w' r, try_env conv f w = (w', Finished (try_with conv r)) /\ emits w w' [] /\ f (wd_env w) = (wd_env w', r).
Proof.
  unfold try_env, call_env, of_sum, mbind, Acme_bind. destruct (f (wd_env w)) as [s r] eqn:E0.
  eexists _, r. split; [reflexivity|]. split; [|easy]. split; [now rewrite app_nil_r|easy].
Qed.

Lemma call_run self a k w :
  exists w' c, call self a k w = (w', Finished (try_with ChallengeHelperExecution c))
    /\ emits w w' [Helper a k (match c with inr _ => true | inl _ => false end)].
Proof.
  unfold call, call_env, log_event, of_sum, mbind, Acme_bind. destruct (spawn _ _ _ _) as [s c].
  eexists _, c. split; [reflexivity|easy].
Qed.

Lemma remove_all_run self keys w :
  exists w' t, remove_all self keys w = (w', Finished (Ok tt)) /\ emits w w' t
    /\ helper_calls t = all_calls Remove keys /\ slept t = [] /\ refreshes t = 0%nat.
Proof.
  revert w. induction keys as [|k keys IH]; intros w; cbn [remove_all].
  - exists w, []. split_and!; [easy|apply emits_refl|easy..].
  - destruct (call_run self Remove k w) as (w1 & c & -> & H1). cbn [fst].
    destruct (IH w1) as (w2 & t & -> & H2 & Hc & Hs & Hr). eexists w2, _. split; [reflexivity|].
    split; [exact (emits_trans _ _ _ _ _ H1 H2)|]. rewrite helper_calls_app, slept_app, refreshes_app, Hc, Hs, Hr.
    now destruct c.
Qed.

(** Cleaning up before an error. *)
Lemma clean_and_fail {A} self keys (e : Error) w :
  exists w' t, (_ ← remove_all self keys; fail e : Acme A) w = (w', Finished (Err e)) /\ emits w w' t
    /\ helper_calls t = all_calls Remove keys /\ slept t = [] /\ refreshes t = 0%nat.
Proof.
  destruct (remove_all_run self keys w) as (w' & t & Hr & H). exists w', t. unfold mbind, Acme_bind. now rewrite Hr.
Qed.

(** One challenge: nothing, an error without effect, or a call of the helper. *)
Lemma one_challenge_run self auth order w :
  exists w' t r, one_challenge self auth order w = (w', Finished r) /\ emits w w' t /\ slept t = [] /\ r <> Panic
    /\ match r with
       | Ok None => au_status auth = AuthValid /\ helper_calls t = []
       | Ok (Some (k, url)) => pending_key order auth = Some k /\ helper_calls t = [(Create, k)]
       | Err e => abandons e = false /\ (helper_calls t = []
                  \/ exists k, pending_key order auth = Some k /\ helper_calls t = [(Create, k)])
       | Panic => True
       end.
Proof.
  unfold one_challenge, pending_key. destruct (au_status auth) eqn:Hst.
  - destruct (List.find is_http01 _) as [c|]; cbn [fmap option_fmap option_map].
    + destruct (call_run self Create (key_authorization order c) w) as (w1 & r & Hc & He).
      destruct r as [e|child].
      { eexists w1, _, _. unfold mbind, Acme_bind. rewrite Hc. split; [reflexivity|].
        split_and!; [exact He|easy..|]. right. now eexists. }
      destruct (try_env_run ChallengeHelperExecution (wait child) w1) as (w2 & r & Hw & He2 & _).
      pose proof (emits_trans _ _ _ _ _ He He2) as Hem. unfold mbind, Acme_bind. rewrite Hc. cbn [try_with]. rewrite Hw.
      destruct r as [e|[]]; eexists w2, _, _; (split; [reflexivity|]); (split; [exact Hem|]); split_and!; try easy.
      right. now eexists.
    + eexists w, [], _. split; [reflexivity|]. split_and!; try easy; [apply emits_refl|now left].
  - eexists w, [], _. split; [reflexivity|]. split_and!; try easy. apply emits_refl.
  - eexists w, [], _. split; [reflexivity|]. split_and!; try easy; [apply emits_refl|now left].
Qed.

(** What [process_challenges] has done when it ends, started from the keys [ex]. *)
Definition processed (order : Order) (auths : list Authorization) (ex : list bytes) (t : list event)
    (r : res Error (list bytes)) : Prop :=
  match r with
  | Ok keys => keys = ex ++ pending_keys order auths /\ Forall (satisfiable order) auths
               /\ helper_calls t = all_calls Create (pending_keys order auths)
  | Err e => exists finished attempted, finished ++ attempted `prefix_of` pending_keys order auths
               /\ (length attempted <= 1)%nat /\ (abandons e = true -> attempted = [])
               /\ helper_calls t = all_calls Create (finished ++ attempted)
                                   ++ (if abandons e then [] else all_calls Remove (ex ++ finished))
  | Panic => False
  end.

Lemma processed_none order auth auths ex t r :
  au_status auth = AuthValid -> processed order auths ex t r -> processed order (auth :: auths) ex t r.
Proof.
  intros Hv. unfold processed. replace (pending_keys order (auth :: auths)) with (pending_keys order auths)
    by (unfold pending_keys, pending_key; cbn; now rewrite Hv).
  destruct r; [|easy..]. intros (-> & Hf & Hc). split_and!; [easy| |easy]. constructor; [now left|easy].
Qed.

Lemma processed_some order auth auths ex k t1 t r :
  pending_key order auth = Some k -> helper_calls t1 = [(Create, k)] ->
  processed order auths (ex ++ [k]) t r -> processed order (auth :: auths) ex (t1 ++ t) r.
Proof.
  intros Hk Ht. unfold processed. replace (pending_keys order (auth :: auths)) with (k :: pending_keys order auths)
    by (unfold pending_keys; cbn; now rewrite Hk).
  rewrite helper_calls_app, Ht. destruct r as [keys|e|]; [| |easy].
  - intros (-> & Hf & ->). rewrite <- app_assoc. split_and!; [easy| |easy]. constructor; [right; exists k; exact Hk|easy].
  - intros (fin & att & Hp & Hl & Ha & ->). exists (k :: fin), att. split_and!; [|easy..|].
    + cbn. now apply prefix_cons.
    + cbn [all_calls map app]. now rewrite <- app_assoc.
Qed.

Lemma pending_keys_head order auth auths k :
  pending_key order auth = Some k -> [k] `prefix_of` pending_keys order (auth :: auths).
Proof. intros Hk. unfold pending_keys. cbn. rewrite Hk. now exists (pending_keys order auths). Qed.

Lemma process_loop_run self auths order ex w :
  exists w' t r, process_loop self auths order ex w = (w', Finished r) /\ emits w w' t /\ slept t = []
    /\ processed order auths ex t r.
Proof.
  revert ex w. induction auths as [|auth auths IH]; intros ex w; cbn [process_loop].
  { eexists w, [], _. split; [reflexivity|]. split; [apply emits_refl|]. split; [easy|].
    split_and!; [now rewrite app_nil_r|constructor|easy]. }
  destruct (one_challenge_run self auth order w) as (w1 & t1 & r & -> & H1 & Hs1 & Hp & Hr).
  destruct r as [[[k url]|]|e|]; [| | |easy].
  - destruct Hr as [Hk Hc]. unfold log_event at 1, mbind, Acme_bind. cbn [wd_env wd_log wd_client].
    set (w2 := MkWorld (wd_env w1) _ _).
    assert (H2 : emits w1 w2 [ChallengeReady url]) by easy.
    destruct (try_env_run InstantAcme (set_challenge_ready order url) w2) as (w3 & r & Hw & H3 & _). rewrite Hw.
    pose proof (emits_trans _ _ _ _ _ H1 (emits_trans _ _ _ _ _ H2 H3)) as H. rewrite app_nil_r in H.
    destruct r as [e|[]]; cbn [try_with].
    + eexists w3, _, _. split; [reflexivity|]. split; [exact H|]. rewrite slept_app, Hs1. split; [easy|].
      exists [k], []. cbn. split_and!; [now apply pending_keys_head|lia|easy|]. rewrite helper_calls_app, Hc. easy.
    + destruct (IH (ex ++ [k]) w3) as (w4 & t & r & -> & H4 & Hs & Hpr). eexists w4, _, r. split; [reflexivity|].
      split; [exact (emits_trans _ _ _ _ _ H H4)|]. rewrite !slept_app, Hs1, Hs. split; [easy|].
      apply (processed_some order auth auths ex k); [easy| |easy]. now rewrite helper_calls_app, Hc.
  - destruct Hr as [Hv Hc]. destruct (IH ex w1) as (w2 & t & r & -> & H2 & Hs & Hpr). eexists w2, _, r.
    split; [reflexivity|]. split; [exact (emits_trans _ _ _ _ _ H1 H2)|]. rewrite slept_app, Hs1, Hs. split; [easy|].
    apply processed_none; [easy|]. revert Hpr. unfold processed. now rewrite helper_calls_app, Hc.
  - destruct Hr as [Ha Hr]. destruct (clean_and_fail (A := list bytes) self ex e w1) as (w2 & t & -> & H2 & Hc & Hs & _).
    eexists w2, _, _.
    split; [reflexivity|]. split; [exact (emits_trans _ _ _ _ _ H1 H2)|]. rewrite slept_app, Hs1, Hs. split; [easy|].
    cbn. rewrite Ha, helper_calls_app, Hc. destruct Hr as [Hn|(k & Hk & Hn)]; rewrite Hn.
    + exists [], []. cbn. rewrite app_nil_r. split_and!; [apply prefix_nil|lia|easy|easy].
    + exists [], [k]. cbn. rewrite app_nil_r. split_and!; [now apply pending_keys_head|lia|easy|easy].
Qed.

(** The generator of the loop, after [k] waits. *)
Definition order_backoff (k : nat) (b : Backoff) : Prop :=
  backoff_at (duration_from_secs 5) (duration_from_secs 60) 2 MAX_ORDER_RETRIES (Z.of_nat k) b.

Lemma order_backoff_advance k b :
  order_backoff k b -> (k <= 10)%nat ->
  exists b', backoff_advance b = Ok (b', order_waits !! k) /\ ((k < 10)%nat -> order_backoff (Datatypes.S k) b').
Proof.
  intros Hb Hk. unfold order_backoff in *.
  destruct (backoff_advance_at (duration_from_secs 5) (duration_from_secs 60) 2 MAX_ORDER_RETRIES (Z.of_nat k) b)
    as (b' & -> & Hb'); try (unfold duration_from_secs, MAX_ORDER_RETRIES, duration_max in *; lia || easy).
  exists b'.
  assert (Hw : backoff_wait (duration_from_secs 5) (duration_from_secs 60) 2 MAX_ORDER_RETRIES (Z.of_nat k)
                 = order_waits !! k) by (do 11 (destruct k as [|k]; [reflexivity|]); lia).
    rewrite Hw in *. split; [easy|]. intros Hl.
    destruct (lookup_lt_is_Some_2 order_waits k) as [d Hd]; [exact Hl|]. rewrite Hd in Hb'. now rewrite Nat2Z.inj_succ.
Qed.

(** What the loop that waits for the order has done when it ends. *)
Definition waited (fuel k : nat) (keys : list bytes) (order : Order) (w' : World) (t : list event)
    (p : progress unit) : Prop :=
  slept t `prefix_of` drop k order_waits /\ (refreshes t <= 11 - k)%nat
  /\ match p with
     | Finished (Ok _) => status order (wd_env w') = OrderReady /\ helper_calls t = []
     | Finished (Err (OrderInvalid _)) => helper_calls t = all_calls Remove keys
     | Finished (Err (InstantAcme _)) => helper_calls t = []
     | StillWaiting => helper_calls t = [] /\ (fuel + k <= 10)%nat
     | _ => False
     end.

(** An end of the loop right after a refresh. *)
Lemma waited_end fuel k keys order w' t p :
  (k <= 10)%nat -> refreshes t = 1%nat -> slept t = [] ->
  match p with
  | Finished (Err (OrderInvalid _)) => helper_calls t = all_calls Remove keys
  | Finished (Err (InstantAcme _)) => helper_calls t = []
  | _ => False
  end -> waited fuel k keys order w' t p.
Proof.
  intros Hk Hr Hs Hp. split; [rewrite Hs; apply prefix_nil|]. split; [lia|]. destruct p as [[|[]|]|]; easy.
Qed.

(** A turn that sleeps, then the rest. *)
Lemma waited_step fuel k keys order w' t1 t p d :
  (k < 10)%nat -> order_waits !! k = Some d -> refreshes t1 = 1%nat -> slept t1 = [d] -> helper_calls t1 = [] ->
  waited fuel (Datatypes.S k) keys order w' t p -> waited (Datatypes.S fuel) k keys order w' (t1 ++ t) p.
Proof.
  intros Hk Hd Hr Hs Hh (Hp & Hn & Hm). unfold waited.
  rewrite slept_app, refreshes_app, helper_calls_app, Hs, Hr, Hh, (drop_S order_waits d k Hd).
  split; [now apply prefix_cons|]. split; [lia|]. destruct p as [[|[]|]|]; try easy. destruct Hm. split; [easy|lia].
Qed.

Lemma refresh_run order w :
  exists w' r, (_ ← log_event Refreshed; try_env InstantAcme (refresh order)) w = (w', Finished (try_with InstantAcme r))
    /\ emits w w' [Refreshed].
Proof.
  unfold log_event, mbind, Acme_bind. set (w1 := MkWorld _ _ _). assert (H1 : emits w w1 [Refreshed]) by easy.
  destruct (try_env_run InstantAcme (refresh order) w1) as (w2 & r & -> & H2 & _).
  exists w2, r. split; [easy|exact (emits_trans _ _ _ _ _ H1 H2)].
Qed.

Lemma acme_assoc {A B D} (c : Acme A) (k : A -> Acme B) (h : B -> Acme D) w :
  (a ← c; b ← k a; h b) w = (b ← (a ← c; k a); h b) w.
Proof. unfold mbind, Acme_bind. now destruct (c w) as [w1 [[a|e|]|]]. Qed.

(** Logging a wait and waiting. *)
Lemma sleep_run d w :
  exists w', (_ ← log_event (Slept d); call_env (fun s => (sleep d s, tt))) w = (w', Finished (Ok tt))
    /\ emits w w' [Slept d].
Proof. eexists. split; [reflexivity|easy]. Qed.

Lemma wait_ready_run fuel helper keys order k b w :
  order_backoff k b -> (k <= 10)%nat ->
  exists w' t p, wait_ready fuel helper keys order b w = (w', p) /\ emits w w' t /\ waited fuel k keys order w' t p.
Proof.
  revert k b w. induction fuel as [|fuel IH]; intros k b w Hb Hk; cbn [wait_ready];
    unfold order_status, mbind at 1, Acme_bind at 1; destruct (decide _) as [Hr|Hr].
  1,3: exists w, [], (Finished (Ok tt)); split; [easy|]; split; [apply emits_refl|]; split;
       [apply prefix_nil|split; [apply Nat.le_0_l|easy]].
  { exists w, [], StillWaiting. split; [easy|]. split; [apply emits_refl|]. split; [apply prefix_nil|].
    split; [apply Nat.le_0_l|]. split; [easy|lia]. }
  rewrite acme_assoc. destruct (refresh_run order w) as (w1 & r & Hw & H1).
  unfold mbind at 1, Acme_bind at 1. rewrite Hw. destruct r as [e|[]]; cbn [try_with].
  { eexists w1, _, _. split; [reflexivity|]. split; [exact H1|]. now apply waited_end. }
  unfold mbind at 1, Acme_bind at 1. destruct (decide _) as [Hi|Hi].
  { destruct (clean_and_fail (A := unit) helper keys (OrderInvalid OrderInvalidStatus) w1) as (w2 & t & -> & H2 & Hc & Hs & Hn).
    eexists w2, _, _. split; [reflexivity|]. split; [exact (emits_trans _ _ _ _ _ H1 H2)|].
    apply waited_end; [easy|now rewrite refreshes_app, Hn|now rewrite slept_app, Hs|easy]. }
  destruct (order_backoff_advance k b Hb Hk) as (b' & -> & Hb').
  destruct (order_waits !! k) as [d|] eqn:Hd.
  - assert (k < 10)%nat by now apply lookup_lt_Some in Hd.
    rewrite acme_assoc. destruct (sleep_run d w1) as (w2 & Hw2 & H2). unfold mbind at 1, Acme_bind at 1. rewrite Hw2.
    destruct (IH (Datatypes.S k) b' w2) as (w3 & t & p & -> & H3 & Hp); [auto|lia|].
    pose proof (emits_trans _ _ _ _ _ (emits_trans _ _ _ _ _ H1 H2) H3) as Hem. eexists w3, _, p.
    split; [reflexivity|]. split; [exact Hem|]. now apply (waited_step fuel k keys order w3 _ t p d).
  - match goal with |- context [fail ?e] => destruct (clean_and_fail (A := unit) helper keys e w1) as (w2 & t & -> & H2 & Hc & Hs & Hn) end.
    eexists w2, _, _. split; [reflexivity|]. split; [exact (emits_trans _ _ _ _ _ H1 H2)|].
    apply waited_end; [easy|now rewrite refreshes_app, Hn|now rewrite slept_app, Hs|easy].
Qed.

Definition logged (e : event) (w : World) : World := MkWorld (wd_env w) (wd_log w ++ [e]) (wd_client w).

Lemma log_run {A} e (k : Acme A) w : (_ ← log_event e; k) w = k (logged e w).
Proof. easy. Qed.

Lemma logged_emits e w : emits w (logged e w) [e].
Proof. easy. Qed.

(** Polling and everything after the order is ready leave the helper alone. *)
Definition request_ok {A} (p : progress A) : Prop :=
  match p with Finished (Err e) => abandons e = true | Finished Panic => False | _ => True end.

Lemma poll_certificate_run fuel order w :
  exists w' t p, poll_certificate fuel order w = (w', p) /\ emits w w' t /\ helper_calls t = [] /\ request_ok p.
Proof.
  revert w. induction fuel as [|fuel IH]; intros w; cbn [poll_certificate].
  { exists w, [], StillWaiting. split; [easy|]. split; [apply emits_refl|easy]. }
  rewrite log_run. pose proof (logged_emits Polled w) as H1.
  destruct (try_env_run InstantAcme (certificate order) (logged Polled w)) as (w2 & r & Hw & H2 & _).
  pose proof (emits_trans _ _ _ _ _ H1 H2) as H12. unfold mbind at 1, Acme_bind at 1. rewrite Hw.
  destruct r as [e|[c|]]; cbn [try_with].
  1,2: eexists w2, _, _; split; [reflexivity|]; split; [exact H12|easy].
  rewrite acme_assoc. destruct (sleep_run (duration_from_secs 1) w2) as (w3 & Hw3 & H3).
  unfold mbind at 1, Acme_bind at 1. rewrite Hw3. destruct (IH w3) as (w4 & t & p & -> & H4 & Hc & Hp).
  eexists w4, _, p. split; [reflexivity|]. split; [exact (emits_trans _ _ _ _ _ (emits_trans _ _ _ _ _ H12 H3) H4)|].
  now rewrite helper_calls_app, Hc.
Qed.

(** Without an answer there is no end to it. *)
Lemma poll_without_limit fuel order w :
  (forall s, (certificate order s).2 = inr None) -> (poll_certificate fuel order w).2 = StillWaiting.
Proof.
  intros Hn. revert w. induction fuel as [|fuel IH]; intros w; cbn [poll_certificate]; [easy|]. rewrite log_run.
  destruct (try_env_run InstantAcme (certificate order) (logged Polled w)) as (w1 & r & Hw & _ & Hr).
  assert (r = inr None) as -> by (rewrite <- (Hn (wd_env (logged Polled w))), Hr; easy).
  unfold mbind at 1, Acme_bind at 1. rewrite Hw. cbn [try_with]. rewrite acme_assoc.
  destruct (sleep_run (duration_from_secs 1) w1) as (w2 & Hw2 & _). unfold mbind at 1, Acme_bind at 1. rewrite Hw2. apply IH.
Qed.

Lemma of_sum_run {E A} (f : E -> Error) (r : E + A) (w : World) :
  of_sum f r w = (w, Finished (try_with f r)).
Proof. easy. Qed.

(** What follows the wait: nothing of the helper, and the request is sent
    before anything can be returned or waited for. *)
Definition requested {A} (t : list event) (p : progress A) : Prop :=
  helper_calls t = [] /\ request_ok p
  /\ match p with Finished (Ok _) | StillWaiting => exists csr, Finalized csr ∈ t | _ => True end.

Lemma finish_order_run polls domains order w :
  status order (wd_env w) = OrderReady ->
  exists w' t p, finish_order polls domains order w = (w', p) /\ emits w w' t /\ requested t p.
Proof.
  intros Hr. unfold finish_order, order_status. unfold mbind at 1, Acme_bind at 1. rewrite decide_True by easy.
  unfold mbind at 1, Acme_bind at 1. rewrite of_sum_run. destruct (certificate_params domains) as [e|params].
  { eexists w, [], _. split; [reflexivity|]. split; [apply emits_refl|now split_and!]. }
  cbn [try_with]. destruct (try_env_run CertificateGeneration generate_key w) as (w1 & r & Hw1 & H1 & _).
  unfold mbind at 1, Acme_bind at 1. rewrite Hw1. destruct r as [e|key]; cbn [try_with].
  { eexists w1, [], _. split; [reflexivity|]. split; [exact H1|now split_and!]. }
  unfold mbind at 1, Acme_bind at 1. rewrite of_sum_run. destruct (serialize_request params key) as [e|csr]; cbn [try_with].
  { eexists w1, [], _. split; [reflexivity|]. split; [exact H1|now split_and!]. }
  rewrite log_run. pose proof (emits_trans _ _ _ _ _ H1 (logged_emits (Finalized csr) w1)) as H2.
  destruct (try_env_run InstantAcme (finalize order csr) (logged (Finalized csr) w1)) as (w3 & r & Hw3 & H3 & _).
  pose proof (emits_trans _ _ _ _ _ H2 H3) as H23. unfold mbind at 1, Acme_bind at 1. rewrite Hw3.
  destruct r as [e|[]]; cbn [try_with].
  { eexists w3, _, _. split; [reflexivity|]. split; [exact H23|now split_and!]. }
  destruct (poll_certificate_run polls order w3) as (w4 & t & p & Hp & H4 & Hc & Hq).
  unfold mbind, Acme_bind. rewrite Hp. assert (Hin : Finalized csr ∈ ([] ++ [Finalized csr]) ++ [] ++ t) by set_solver.
  destruct p as [[c|e|]|]; [| |easy|]; eexists w4, _, _; (split; [reflexivity|]);
    (split; [exact (emits_trans _ _ _ _ _ H23 H4)|]); split_and!; try easy; exists csr; rewrite <- !app_assoc in *; exact Hin.
Qed.

Lemma order_backoff_new : order_backoff 0 new_backoff.
Proof. apply backoff_at_new. Qed.

(** What has become of the challenge files when [issue] returns or waits. *)
Definition files_after {A} (t : list event) (p : progress A) : Prop :=
  match p with
  | Finished (Ok _) => exists keys t1 t2 csr, t = t1 ++ t2 /\ Finalized csr ∈ t1
      /\ helper_calls t1 = all_calls Create keys /\ helper_calls t2 = all_calls Remove keys
  | Finished (Err e) => exists finished attempted, (length attempted <= 1)%nat
      /\ helper_calls t = all_calls Create (finished ++ attempted) ++ (if abandons e then [] else all_calls Remove finished)
  | Finished Panic => False
  | StillWaiting => exists keys csr, Finalized csr ∈ t /\ helper_calls t = all_calls Create keys
  end.

Lemma files_after_nothing {A} (t : list event) (e : Error) :
  helper_calls t = [] -> abandons e = true -> files_after (A := A) t (Finished (Err e)).
Proof. intros Ht He. exists [], []. cbn. rewrite He, Ht. split; [lia|easy]. Qed.

(** Everything after the challenges. *)
Lemma issue_tail rounds polls helper domains order keys w :
  (11 <= rounds)%nat ->
  exists w' t p, (_ ← wait_ready rounds helper keys order new_backoff;
                  issued ← finish_order polls domains order;
                  _ ← remove_all helper keys; mret issued) w = (w', p) /\ emits w w' t
    /\ forall t0, helper_calls t0 = all_calls Create keys -> files_after (t0 ++ t) p.
Proof.
  intros Hf. destruct (wait_ready_run rounds helper keys order 0 new_backoff w order_backoff_new)
    as (w1 & t1 & p1 & H1 & He1 & _ & _ & Hw); [lia|]. unfold mbind at 1, Acme_bind at 1. rewrite H1.
  assert (Herr : forall e c, p1 = Finished (Err e) -> helper_calls t1 = c ->
    c = (if abandons e then [] else all_calls Remove keys) ->
    forall t0, helper_calls t0 = all_calls Create keys -> files_after (A := KeyPair * bytes) (t0 ++ t1) (Finished (Err e))).
  { intros e c _ Hc -> t0 Ht. exists keys, []. rewrite app_nil_r, helper_calls_app, Ht, Hc. split; [cbn; lia|easy]. }
  destruct p1 as [[[]|e|]|]; [|exists w1, t1, (Finished (Err e))|easy|lia].
  2: { split; [easy|]. split; [easy|]. destruct e; try easy; eapply Herr; easy. }
  destruct Hw as [Hr Hc1]. destruct (finish_order_run polls domains order w1 Hr) as (w2 & t2 & p2 & H2 & He2 & Hc2 & Hq & Hfin).
  pose proof (emits_trans _ _ _ _ _ He1 He2) as He. unfold mbind at 1, Acme_bind at 1. rewrite H2.
  destruct p2 as [[issued|e|]|]; [| |easy|].
  - destruct (remove_all_run helper keys w2) as (w3 & t3 & H3 & He3 & Hc3 & _). destruct Hfin as [csr Hin].
    eexists w3, _, (Finished (Ok issued)). unfold mbind, Acme_bind. rewrite H3. split; [easy|].
    split; [exact (emits_trans _ _ _ _ _ He He3)|]. intros t0 Ht0. exists keys, (t0 ++ t1 ++ t2), t3, csr.
    rewrite <- !app_assoc. split_and!; [easy|set_solver| |easy]. now rewrite !helper_calls_app, Ht0, Hc1, Hc2, !app_nil_r.
  - exists w2, (t1 ++ t2), (Finished (Err e)). split; [easy|]. split; [easy|]. intros t0 Ht0. exists keys, [].
    rewrite !helper_calls_app, Ht0, Hc1, Hc2. cbn in Hq. rewrite Hq, !app_nil_r. split; [cbn; lia|easy].
  - exists w2, (t1 ++ t2), StillWaiting. split; [easy|]. split; [easy|]. intros t0 Ht0. destruct Hfin as [csr Hin].
    exists keys, csr. split; [set_solver|]. now rewrite !helper_calls_app, Ht0, Hc1, Hc2, !app_nil_r.
Qed.

(** How every run of [issue] ends. *)
Lemma issue_run rounds polls account helper domains w :
  (11 <= rounds)%nat ->
  exists w' t p, issue rounds polls account helper domains w = (w', p)
    /\ emits w w' t /\ files_after t p.
Proof.
  intros Hf. unfold issue.
  destruct (try_env_run InstantAcme (new_order account domains) w) as (w1 & r & H1 & He1 & _).
  unfold mbind at 1, Acme_bind at 1. rewrite H1. destruct r as [e|order]; cbn [try_with].
  { exists w1, [], (Finished (Err (InstantAcme e))). split; [easy|]. split; [exact He1|]. now apply files_after_nothing. }
  destruct (try_env_run InstantAcme (authorizations order) w1) as (w2 & r & H2 & He2 & _).
  pose proof (emits_trans _ _ _ _ _ He1 He2) as He12.
  unfold mbind at 1, Acme_bind at 1. rewrite H2. destruct r as [e|auths]; cbn [try_with].
  { exists w2, [], (Finished (Err (InstantAcme e))). split; [easy|]. split; [exact He12|]. now apply files_after_nothing. }
  destruct (process_loop_run helper auths order [] w2) as (w3 & t3 & r & H3 & He3 & _ & Hp).
  pose proof (emits_trans _ _ _ _ _ He12 He3) as He. cbn [app] in He.
  unfold process_challenges. unfold mbind at 1, Acme_bind at 1. rewrite H3.
  destruct r as [keys|e|]; [| |easy].
  - destruct Hp as (-> & _ & Hc). cbn [app].
    destruct (issue_tail rounds polls helper domains order (pending_keys order auths) w3 Hf) as (w4 & t4 & p & H4 & He4 & Hfa).
    eexists w4, _, p. split; [exact H4|]. split; [exact (emits_trans _ _ _ _ _ He He4)|]. now apply Hfa.
  - exists w3, t3, (Finished (Err e)). split; [easy|]. split; [exact He|].
    destruct Hp as (fin & att & _ & Hl & _ & Hc). exists fin, att. now split.
Qed.

Lemma left_behind_creates keys s : foldl file_call s (all_calls Create keys) = s ∪ list_to_set keys.
Proof.
  revert s. induction keys as [|k keys IH]; intros s; [set_solver|]. change (all_calls Create (k :: keys))
    with ((Create, k) :: all_calls Create keys). cbn [foldl]. rewrite IH. cbn. set_solver.
Qed.

Lemma left_behind_removes keys s : foldl file_call s (all_calls Remove keys) = s ∖ list_to_set keys.
Proof.
  revert s. induction keys as [|k keys IH]; intros s; [set_solver|]. change (all_calls Remove (k :: keys))
    with ((Remove, k) :: all_calls Remove keys). cbn [foldl]. rewrite IH. cbn. set_solver.
Qed.

(** ** Properties *)

(** C25: issuing a certificate leaves no challenge file behind when it
    succeeds, and at most the one whose creation just failed when a challenge
    cannot be met or the order fails; the files are removed after the request
    was sent.  It never panics, and with eleven rounds the only thing it can
    still be waiting for is the certificate.  When the directory fails, or
    the request cannot be made, the files stay. *)
Theorem issue_cleans_up rounds polls account helper domains w :
  (11 <= rounds)%nat ->
  exists w' t p, issue rounds polls account helper domains w = (w', p)
    /\ emits w w' t /\ files_after t p
    /\ match p with
       | Finished (Ok _) => left_behind t = ∅
       | Finished (Err e) => abandons e = false -> exists k, left_behind t ⊆ {[k]}
       | _ => True
       end.
Proof.
  intros Hf. destruct (issue_run rounds polls account helper domains w Hf) as (w' & t & p & Hi & He & Hp).
  exists w', t, p. split_and!; try easy. unfold left_behind. destruct p as [[issued|e|]|]; [| |easy..].
  - destruct Hp as (keys & t1 & t2 & csr & -> & _ & Hc1 & Hc2).
    rewrite helper_calls_app, Hc1, Hc2, foldl_app, left_behind_creates, left_behind_removes. set_solver.
  - destruct Hp as (fin & att & Hl & Hc). intros Ha. rewrite Hc, Ha, all_calls_app, !foldl_app, !left_behind_creates,
      left_behind_removes. destruct att as [|k [|]]; cbn in Hl; [exists []|exists k|lia]; set_solver.
Qed.

(** C33: the wait for an order ends: within eleven refreshes and ten sleeps of
    5, 10, 20, 40 and then 60 seconds, 435 seconds in all, it reports an order
    that is ready, gives up on an invalid or a late one after removing every
    challenge file, or passes on an error of the directory. *)
Theorem order_wait_bounded rounds helper keys order w :
  (11 <= rounds)%nat ->
  exists w' t r, wait_ready rounds helper keys order new_backoff w = (w', Finished r) /\ emits w w' t
    /\ slept t `prefix_of` order_waits /\ foldr Z.add 0 (slept t) <= duration_from_secs 435 /\ (refreshes t <= 11)%nat
    /\ match r with
       | Ok _ => status order (wd_env w') = OrderReady /\ helper_calls t = []
       | Err (OrderInvalid _) => helper_calls t = all_calls Remove keys
       | Err (InstantAcme _) => helper_calls t = []
       | _ => False
       end.
Proof.
  intros Hf. destruct (wait_ready_run rounds helper keys order 0 new_backoff w order_backoff_new)
    as (w1 & t1 & p1 & -> & He & Hs & Hr & Hw); [lia|]. change (drop 0 order_waits) with order_waits in Hs.
  destruct p1 as [r|]; [|lia]. exists w1, t1, r. split_and!; try easy.
  destruct Hs as [rest Hrest]. assert (Hsum : foldr Z.add 0 order_waits = foldr Z.add 0 (slept t1) + foldr Z.add 0 rest).
  { rewrite Hrest, foldr_app. clear. induction (slept t1) as [|d l IH]; cbn; lia. }
  assert (Hpos : Forall (fun d => 0 <= d) rest).
  { assert (Forall (fun d => 0 <= d) order_waits) as Hall by now repeat constructor.
    rewrite Hrest in Hall. now apply Forall_app in Hall as [_ ?]. }
  assert (0 <= foldr Z.add 0 rest) by (clear - Hpos; induction Hpos; cbn; lia).
  change (foldr Z.add 0 order_waits) with (duration_from_secs 435) in Hsum. lia.
Qed.

Lemma acme_bind_ok {A B} (c : Acme A) (k : A -> Acme B) w w' b :
  (a ← c; k a) w = (w', Finished (Ok b)) ->
  exists w1 a, c w = (w1, Finished (Ok a)) /\ k a w1 = (w', Finished (Ok b)).
Proof. unfold mbind, Acme_bind. destruct (c w) as [w1 [[a|e|]|]]; [eauto|easy..]. Qed.

(** Who a new client works for, and what it serves with. *)
Lemma populate_made rounds polls files args w w' c :
  wd_client w = None -> populate_or_get rounds polls files args w = (w', Finished (Ok c)) ->
  cl_tls_ca c = aa_tls_ca args
  /\ exists pair, make_config_from_pem files pair (aa_tls_ca args) = Ok (cl_tls_config c).
Proof.
  intros Hn. unfold populate_or_get. destruct (aa_challenge_helper args) as [helper|]; [|easy].
  intros H. apply acme_bind_ok in H as (w1 & c1 & Hg & H). unfold get_client in Hg. rewrite Hn in Hg. injection Hg as <- <-.
  apply acme_bind_ok in H as (w2 & account & _ & H). apply acme_bind_ok in H as (w3 & [key cert] & _ & H).
  apply acme_bind_ok in H as (w4 & config & Hc & H). unfold of_res in Hc. injection Hc as -> Hc.
  apply acme_bind_ok in H as (w5 & [] & Hs & H). unfold set_client in Hs. destruct (wd_client w4); [easy|]. injection Hs as <-.
  apply acme_bind_ok in H as (w6 & c6 & Hg & H). injection Hg as <- <-. cbn in H. injection H as <- <-. cbn. split; [easy|].
  unfold make_tls_identity_from_rcgen_pem in Hc. destruct (make_config_from_pem _ _ _) eqn:E0; cbn in Hc; [injection Hc as <-|easy..]. eauto.
Qed.

(** One renewal keeps everything but the configuration, which is kept or made
    anew. *)
Lemma renew_once_made rounds polls files self w w' self' :
  renew_once rounds polls files self w = (w', Finished (Ok self')) ->
  self' = set_tls_config self (cl_tls_config self')
  /\ (cl_tls_config self' = cl_tls_config self
      \/ exists pair, make_config_from_pem files pair (cl_tls_ca self) = Ok (cl_tls_config self')).
Proof.
  unfold renew_once, reload_tls_identity_from_rcgen_pem, store_if_ok.
  destruct (issue _ _ _ _ _ _) as [w1 [[[key cert]|e|]|]]; [| |easy..].
  - destruct (make_config_from_pem _ _ _) as [config|e|] eqn:Hc; [| |easy]; intros H; injection H as <- <-; cbn; split; try easy; eauto.
  - intros H; injection H as <- <-. split; [now destruct self|now left].
Qed.

(** The configuration is made from an issued certificate without a panic. *)
Hypothesis make_config_total : forall files pair ca, make_config_from_pem files pair ca <> Panic.

(** The process has one client: once there is one, it is returned and nothing
    is asked of the directory; otherwise a certificate is issued and the
    client kept exactly when that works, so that a failure can be retried;
    neither [expect] fires. *)
Theorem populate_once rounds polls files args helper w :
  (11 <= rounds)%nat -> aa_challenge_helper args = Some helper ->
  exists w' p, populate_or_get rounds polls files args w = (w', p) /\ p <> Finished Panic
    /\ match wd_client w with
       | Some c => p = Finished (Ok c) /\ w' = w
       | None =>
           match p with
           | Finished (Ok c) => wd_client w' = Some c /\ cl_domain_names c = aa_domain args
               /\ (exists pair, make_config_from_pem files pair (aa_tls_ca args) = Ok (cl_tls_config c))
               /\ populate_or_get rounds polls files args w' = (w', Finished (Ok c))
           | _ => wd_client w' = None
           end
       end.
Proof.
  intros Hf Hh. assert (Hagain : forall w c, wd_client w = Some c ->
    populate_or_get rounds polls files args w = (w, Finished (Ok c))).
  { intros w0 c Hc. unfold populate_or_get, get_client, mbind, Acme_bind. now rewrite Hh, Hc. }
  destruct (wd_client w) as [c|] eqn:Hc; [exists w, (Finished (Ok c)); now rewrite (Hagain w c Hc)|].
  unfold populate_or_get at 1. rewrite Hh. unfold mbind at 1, Acme_bind at 1. cbn [get_client]. rewrite Hc.
  match goal with |- context [try_env InstantAcme ?f] => destruct (try_env_run InstantAcme f w) as (w1 & r & H1 & He1 & _) end.
  unfold mbind at 1, Acme_bind at 1. rewrite H1. destruct r as [e|account]; cbn [try_with].
  { exists w1, (Finished (Err (InstantAcme e))). split_and!; try easy. now rewrite (proj2 He1). }
  destruct (issue_run rounds polls account helper (aa_domain args) w1 Hf) as (w2 & t & p & H2 & He2 & Hp).
  assert (Hc2 : wd_client w2 = None) by (now rewrite (proj2 He2), (proj2 He1)).
  unfold mbind at 1, Acme_bind at 1. rewrite H2. destruct p as [[[key cert]|e|]|]; [| |easy|].
  2: exists w2, (Finished (Err e)); now split_and!.
  2: exists w2, StillWaiting; now split_and!.
  unfold of_res, make_tls_identity_from_rcgen_pem. unfold mbind at 1, Acme_bind at 1.
  destruct (make_config_from_pem _ _ _) as [config|e|] eqn:Hcfg; cbn [map_err].
  - unfold set_client, get_client, mbind, Acme_bind. rewrite Hc2. eexists _, _. split; [reflexivity|]. cbn. split; [easy|].
    split_and!; try easy; [eauto|now apply Hagain].
  - exists w2, (Finished (Err (AcmeTls e))). now split_and!.
  - now apply make_config_total in Hcfg.
Qed.

Lemma acme_bind_waits {A B} (c : Acme A) (k : A -> Acme B) w w' :
  (a ← c; k a) w = (w', StillWaiting) ->
  c w = (w', StillWaiting) \/ exists w1 a, c w = (w1, Finished (Ok a)) /\ k a w1 = (w', StillWaiting).
Proof. unfold mbind, Acme_bind. destruct (c w) as [w1 [[a|e|]|]]; [eauto|easy..|]. intros [= <-]. now left. Qed.

Lemma try_env_answers {E A} (conv : E -> Error) (f : S -> S * (E + A)) w w' : try_env conv f w <> (w', StillWaiting).
Proof. destruct (try_env_run conv f w) as (w1 & r & -> & _). easy. Qed.

(** Skip the first of two steps, which answers. *)
Ltac waits_after H :=
  apply acme_bind_waits in H as [H|(? & ? & _ & H)]; [exfalso; first [exact (try_env_answers _ _ _ _ H)|discriminate H]|].

Lemma poll_unanswered fuel order w w' : poll_certificate fuel order w = (w', StillWaiting) -> exists t, emits w w' t /\ polled t = fuel.
Proof.
  revert w. induction fuel as [|fuel IH]; intros w; cbn [poll_certificate]; [intros [= <-]; exists []; split; [apply emits_refl|easy]|].
  rewrite log_run. destruct (try_env_run InstantAcme (certificate order) (logged Polled w)) as (w2 & r & Hw & H2 & _).
  unfold mbind at 1, Acme_bind at 1. rewrite Hw. destruct r as [e|[c|]]; cbn [try_with]; [easy..|].
  rewrite acme_assoc. destruct (sleep_run (duration_from_secs 1) w2) as (w3 & Hw3 & H3).
  unfold mbind at 1, Acme_bind at 1. rewrite Hw3. intros H. destruct (IH w3 H) as (t & Ht & Hn).
  eexists. split; [exact (emits_trans _ _ _ _ _ (emits_trans _ _ _ _ _ (emits_trans _ _ _ _ _ (logged_emits Polled w) H2) H3) Ht)|].
  unfold polled in *. cbn. now rewrite Hn.
Qed.

(** With eleven rounds for its state, an order waits for nothing else. *)
Lemma issue_waits rounds polls account helper domains w w' :
  (11 <= rounds)%nat -> issue rounds polls account helper domains w = (w', StillWaiting) -> unanswered polls w'.
Proof.
  intros Hf H. unfold issue in H. waits_after H. waits_after H. rename x0 into order, x2 into auths.
  apply acme_bind_waits in H as [H|(w3 & keys & _ & H)].
  { destruct (process_loop_run helper auths order [] x1) as (w3 & t & r & H3 & _). unfold process_challenges in H. now rewrite H3 in H. }
  apply acme_bind_waits in H as [H|(w4 & [] & _ & H)].
  { destruct (wait_ready_run rounds helper keys order 0 new_backoff w3 order_backoff_new) as (w4 & t & p & H4 & _ & _ & _ & Hw); [lia|].
    rewrite H4 in H. injection H as -> ->. lia. }
  apply acme_bind_waits in H as [H|(w5 & issued & _ & H)].
  - unfold finish_order in H. waits_after H. destruct (decide _); [|easy]. do 5 waits_after H.
    apply acme_bind_waits in H as [H|(? & ? & _ & H)]; [|easy]. destruct (poll_unanswered _ _ _ _ H) as (t & Ht & Hn). exists order; eexists _, t; split; [exact H|now split].
  - destruct (remove_all_run helper keys w5) as (w6 & t & H6 & _). apply acme_bind_waits in H as [H|(? & ? & _ & H)]; [now rewrite H6 in H|easy].
Qed.

(** A turn of the loop is a renewal, or waits. *)
Lemma renew_turn rounds polls files self w :
  (11 <= rounds)%nat ->
  (exists w' self', renew_once rounds polls files self w = (w', Finished (Ok self')) /\ turn rounds polls files self w w' self')
  \/ exists w', renew_once rounds polls files self w = (w', StillWaiting) /\ unanswered polls w'
      /\ issue rounds polls (cl_account self) (cl_challenge_helper self) (cl_domain_names self) w = (w', StillWaiting).
Proof.
  intros Hf. unfold renew_once, reload_tls_identity_from_rcgen_pem, store_if_ok.
  destruct (issue_run rounds polls (cl_account self) (cl_challenge_helper self) (cl_domain_names self) w Hf) as (w1 & t & p & Hi & _ & Hp).
  rewrite Hi. destruct p as [[[keypair cert]|e|]|]; [left|left|easy|right].
  - destruct (make_config_from_pem files (cert, serialize_pem keypair) (cl_tls_ca self)) as [config|e|] eqn:Hc.
    + eexists w1, _. split; [reflexivity|]. now apply (turn_replaces _ _ _ _ _ _ keypair cert).
    + eexists w1, _. split; [reflexivity|]. replace (set_tls_config self (cl_tls_config self)) with self by now destruct self.
      now apply (turn_refuses _ _ _ _ _ _ keypair cert e).
    + now apply make_config_total in Hc.
  - exists w1, self. split; [easy|]. now apply (turn_fails _ _ _ _ _ _ e).
  - exists w1. split; [easy|]. split; [exact (issue_waits _ _ _ _ _ _ _ Hf Hi)|easy].
Qed.

(** A turn changes the identity only, and an identity of a later client is one
    of the former. *)
Lemma identity_turn rounds polls files ticks self w w' self1 config :
  turn rounds polls files self w w' self1 -> identity_of rounds polls ticks self1 config ->
  self1 = set_tls_config self (cl_tls_config self1) /\ identity_of rounds polls (files :: ticks) self config.
Proof.
  intros Ht Hid. split; [destruct Ht; now destruct self|].
  destruct Hid as [->|(f & w1 & w2 & k & c & Hin & H)].
  - destruct Ht as [keypair cert cfg Hi Hc| |]; [right|now left..]. exists files, w, w', keypair, cert. split; [left|now split].
  - right. exists f, w1, w2, k, c. split; [now right|]. now destruct Ht.
Qed.

Lemma renewing_identity rounds polls ticks self w self' w' p :
  renewing rounds polls ticks self w self' w' p ->
  self' = set_tls_config self (cl_tls_config self') /\ identity_of rounds polls ticks self (cl_tls_config self').
Proof.
  induction 1 as [self w|files ticks self w self1 w1 self' w' p Ht _ [IH1 IH2]|files ticks self w w' _ _];
    [split; [now destruct self|now left]| |split; [now destruct self|now left]].
  destruct (identity_turn _ _ _ _ _ _ _ _ _ Ht IH2) as [E Hid]. split; [|exact Hid]. rewrite IH1, E. reflexivity.
Qed.

(** What the loop holds at its end is what serves; what waits has waited. *)
Lemma renewing_result rounds polls ticks self w self' w' p :
  renewing rounds polls ticks self w self' w' p ->
  match p with Finished (Ok c) => c = self' | Finished _ => False | StillWaiting => unanswered polls w' end.
Proof. now induction 1. Qed.

(** C34: whatever the directory, the helper and the files do, and as long as
    making a configuration returns or fails without a panic, no turn of the
    renewal fails or panics: an order that ends, well or with an error, is
    followed by the next one interval later, and only a directory that never
    answers for a certificate, asked for it every second, keeps the loop
    waiting.  The identity served changes only to one made from the chain and
    the key of a renewal's order, when these are accepted; so at the end, and
    while an order waits, it is the one before or one made from such an order
    for the same account, domains and authorities. *)
Theorem renewal_keeps_serving rounds polls ticks self w :
  (11 <= rounds)%nat ->
  exists w' p self', renewal_loop rounds polls ticks self w = (w', p)
    /\ renewing rounds polls ticks self w self' w' p
    /\ self' = set_tls_config self (cl_tls_config self')
    /\ identity_of rounds polls ticks self (cl_tls_config self').
Proof.
  intros Hf. enough (exists w' p self', renewal_loop rounds polls ticks self w = (w', p) /\ renewing rounds polls ticks self w self' w' p) as (w' & p & self' & H & Hr).
  { exists w', p, self'. split; [exact H|]. split; [exact Hr|]. exact (renewing_identity _ _ _ _ _ _ _ _ Hr). }
  revert self w. induction ticks as [|files ticks IH]; intros self w; cbn [renewal_loop].
  { exists w, (Finished (Ok self)), self. split; [easy|apply renewing_done]. }
  change ((_ ← log_event (Slept renewal_interval); _ ← call_env (fun s => (sleep renewal_interval s, tt));
           self' ← renew_once rounds polls files self; renewal_loop rounds polls ticks self') w)
    with ((self' ← renew_once rounds polls files self; renewal_loop rounds polls ticks self') (after_interval w)).
  unfold mbind, Acme_bind.
  destruct (renew_turn rounds polls files self (after_interval w) Hf) as [(w1 & self1 & -> & Ht)|(w1 & -> & Hu & Hi)].
  - destruct (IH self1 w1) as (w' & p & self' & H & Hr). exists w', p, self'. split; [exact H|]. now apply (renewing_turn _ _ _ _ _ _ self1 w1).
  - exists w1, StillWaiting, self. split; [easy|]. now apply renewing_waits.
Qed.
End Acme.

Arguments Finished {IE GE TE A} _.
Arguments StillWaiting {IE GE TE A}.

(** ** Witnesses *)

Module Concrete.
(** A directory that follows a script: the head is the state of the order, an
    [inl] is a refresh that fails. *)
Definition Script := list (unit + OrderStatus).

Definition challenge : Challenge := MkChallenge Http01 (str "http://ca/1") (str "tok").

#[export] Instance scripted : @AcmeEnv Script unit unit unit unit Z unit unit := {|
  account_create := fun _ _ _ s => (s, inr tt);
  new_order := fun _ _ s => (s, inr tt);
  authorizations := fun _ s => (s, inr [MkAuthorization AuthValid []; MkAuthorization AuthPending [challenge]]);
  key_authorization := fun _ c => ch_token c ++ str ".key";
  set_challenge_ready := fun _ _ s => (s, match s with [] => inl tt | _ => inr tt end);
  refresh := fun _ s => (tail s, match tail s with inr _ :: _ => inr tt | _ => inl tt end);
  status := fun _ s => match s with inr st :: _ => st | _ => OrderInvalidStatus end;
  finalize := fun _ _ s => (s, inr tt);
  certificate := fun _ s => (s, inr (Some (str "chain")));
  spawn := fun _ _ _ s => (s, inr tt);
  wait := fun _ s => (s, inr tt);
  sleep := fun _ s => s;
  certificate_params := fun _ => inr tt;
  generate_key := fun s => (s, inr 7);
  serialize_request := fun _ _ => inr [1];
  serialize_pem := fun k => [k];
|}.

Definition processing : unit + OrderStatus := inr (OrderOther (str "processing")).

Definition world (s : Script) : World := @MkWorld Script unit (list Z) s [] None.

Definition key : bytes := str "tok.key".

Definition run (s : Script) := issue (TE := unit) 11 3 tt (str "helper") [str "example.org"] (world s).

Lemma issue_cleans_up_witness :
  exists w' t p, run [processing; inr OrderReady] = (w', p) /\ emits (world [processing; inr OrderReady]) w' t
    /\ files_after t p
    /\ match p with
       | Finished (Ok _) => left_behind t = ∅
       | Finished (Err e) => abandons e = false -> exists k, left_behind t ⊆ {[k]}
       | _ => True
       end.
Proof. apply issue_cleans_up. lia. Defined.

Example run_issues :
  exists w', run [processing; inr OrderReady] = (w', Finished (Ok (7, str "chain")))
  /\ wd_log w' = [Helper Create key true; ChallengeReady (str "http://ca/1"); Refreshed; Slept (duration_from_secs 5);
                  Finalized [1]; Polled; Helper Remove key true].
Proof. eexists. split; vm_compute; reflexivity. Qed.

Lemma order_wait_bounded_witness :
  exists w' t r, wait_ready (TE := unit) 11 (str "helper") [key] tt new_backoff (world [processing; inr OrderReady]) = (w', Finished r)
    /\ emits (world [processing; inr OrderReady]) w' t
    /\ slept t `prefix_of` order_waits /\ foldr Z.add 0 (slept t) <= duration_from_secs 435 /\ (refreshes t <= 11)%nat
    /\ match r with
       | Ok _ => status tt (wd_env w') = OrderReady /\ helper_calls t = []
       | Err (OrderInvalid _) => helper_calls t = all_calls Remove [key]
       | Err (InstantAcme _) => helper_calls t = []
       | _ => False
       end.
Proof. apply order_wait_bounded. lia. Defined.

(** An order that is ready at the last refresh is refused all the same, with
    the error that its status, ready, is invalid. *)
Example ready_too_late :
  (run (replicate 11 processing ++ [inr OrderReady])).2 = Finished (Err (OrderInvalid OrderReady)).
Proof. vm_compute. reflexivity. Qed.

(** A refresh that fails once ends the attempt and leaves the challenge file. *)
Example refresh_failure_leaks :
  exists w', run [processing; inl tt; inr OrderReady] = (w', Finished (Err (InstantAcme tt)))
  /\ left_behind (wd_log w') = {[key]}.
Proof. eexists. split; vm_compute; reflexivity. Qed.

(** So does a directory that does not take the challenge. *)
Example challenge_refusal_leaks :
  exists w', run [] = (w', Finished (Err (InstantAcme tt))) /\ left_behind (wd_log w') = {[key]}.
Proof. eexists. split; vm_compute; reflexivity. Qed.

(** A configuration is the chain and the key, refused when the chain is empty. *)
Definition config_of (files : Files) (pair : bytes * bytes) (ca : option Path) : res unit (list Z) :=
  match pair.1 with [] => Err tt | _ => Ok (pair.1 ++ pair.2) end.

Definition client : Client := MkClient (Account := unit) tt (str "helper") [str "example.org"] None [0].

(** A directory that never has the certificate. *)
Definition silent : @AcmeEnv Script unit unit unit unit Z unit unit := {|
  account_create := account_create; new_order := new_order; authorizations := authorizations; key_authorization := key_authorization;
  set_challenge_ready := set_challenge_ready; refresh := refresh; status := status; finalize := finalize;
  certificate := fun _ s => (s, inr None);
  spawn := spawn; wait := wait; sleep := sleep; certificate_params := certificate_params; generate_key := generate_key;
  serialize_request := serialize_request; serialize_pem := serialize_pem;
|}.

(** Two renewals, and one that waits. *)
Lemma renewal_keeps_serving_witness :
  let files : Files := fun _ => inl OtherIoKind in
  (exists w' self', renewal_loop config_of 11 3 [files; files] client (world [inr OrderReady]) = (w', Finished (Ok self'))
     /\ renewing config_of 11 3 [files; files] client (world [inr OrderReady]) self' w' (Finished (Ok self'))
     /\ identity_of config_of 11 3 [files; files] client (str "chain" ++ [7])
     /\ cl_tls_config self' = str "chain" ++ [7])
  /\ exists w', renewal_loop (env := silent) config_of 11 3 [files] client (world [inr OrderReady]) = (w', StillWaiting)
     /\ unanswered (env := silent) (TE := unit) 3 w'.
Proof.
  assert (Htotal : forall (files : Files) pair (ca : option Path), config_of files pair ca <> Panic) by (intros files [[|x c] k] ca; discriminate).
  intros files. split.
  - destruct (renewal_keeps_serving config_of Htotal 11 3 [files; files] client (world [inr OrderReady]) ltac:(lia)) as (w' & p & self' & H & Hr & _ & Hid).
    assert (E : (renewal_loop config_of 11 3 [files; files] client (world [inr OrderReady])).2 = Finished (Ok (set_tls_config client (str "chain" ++ [7]))))
      by (vm_compute; reflexivity).
    rewrite H in E. cbn [snd] in E. subst p. pose proof (renewing_result _ _ _ _ _ _ _ _ _ Hr) as <-.
    exists w', (set_tls_config client (str "chain" ++ [7])). now split_and!.
  - destruct (renewal_keeps_serving (env := silent) config_of Htotal 11 3 [files] client (world [inr OrderReady]) ltac:(lia)) as (w' & p & self' & H & Hr & _).
    assert (E : (renewal_loop (env := silent) config_of 11 3 [files] client (world [inr OrderReady])).2 = StillWaiting) by (vm_compute; reflexivity).
    rewrite H in E. cbn [snd] in E. subst p. exists w'. split; [exact H|]. exact (renewing_result _ _ _ _ _ _ _ _ _ Hr).
Defined.

Example renewal_replaces :
  (renewal_loop config_of 11 3 [fun _ => inl OtherIoKind] client (world [inr OrderReady])).2
  = Finished (Ok (set_tls_config client (str "chain" ++ [7]))).
Proof. vm_compute. reflexivity. Qed.
End Concrete.
