(* ===== verification/Args.v ===== *)
(** * Command line values (src/src/arg.rs, arg_to_sockaddrs of src/src/server/mod.rs)

    The parsers of the values that have one of their own: the server URL, the
    backend URL and a custom header, and the listening addresses of the
    server.  URLs are taken apart and put together by the [http] crate, whose
    functions are parameters here. *)

From S2P Require Import Prelude Remote Net.

Open Scope penguin_scope.

(** ** Definitions *)

(** [http::uri::Parts], with the texts of its components. *)
Record Parts := MkParts { pt_scheme : option bytes; pt_authority : option bytes; pt_path_and_query : option bytes }.

Inductive ServerUrlError := UrlParse | IncorrectScheme (scheme : bytes) | MissingHost | BuildUrl.

Inductive BackendUrlError := BackendUrlParse | MissingAuthority | InvalidScheme (scheme : bytes).

Record BackendUrl := MkBackend { bk_scheme : bytes; bk_authority : bytes; bk_path : bytes }.

Inductive HeaderError := HeaderValueError | HeaderNameError | HeaderFormat (s : bytes).

Record Header := MkHeader { hd_name : bytes; hd_value : bytes }.

(** [str::starts_with] on a literal. *)
Fixpoint has_prefix (p s : bytes) : bool :=
  match p, s with
  | [], _ => true
  | x :: p', y :: s' => (x =? y) && has_prefix p' s'
  | _ :: _, [] => false
  end.

(** [char::is_whitespace] on ASCII, and [str::trim]. *)
Definition is_space (c : Z) : bool := (c =? 32) || ((9 <=? c) && (c <=? 13)).

Fixpoint trim_start (s : bytes) : bytes :=
  match s with x :: s' => if is_space x then trim_start s' else s | [] => [] end.

Definition trim (s : bytes) : bytes := rev (trim_start (rev (trim_start s))).

Definition has_known_scheme (url : bytes) : bool :=
  has_prefix (str "http://") url || has_prefix (str "https://") url
  || has_prefix (str "ws://") url || has_prefix (str "wss://") url.

Section Urls.
(** [Uri::from_str] with [into_parts], [Uri::builder]. *)
Context {Uri : Type}.
Variable uri_parts : bytes -> option Parts.
Variable uri_build : bytes -> bytes -> bytes -> option Uri.

(** The scheme of the WebSocket for that of a URL. *)
Definition websocket_scheme (scheme : bytes) : res ServerUrlError bytes :=
  if is_str scheme "http" || is_str scheme "ws" then Ok (str "ws")
  else if is_str scheme "https" || is_str scheme "wss" then Ok (str "wss")
  else Err (IncorrectScheme scheme).

(** [FromStr for ServerUrl]. *)
Definition server_url_from_str (url : bytes) : res ServerUrlError Uri :=
  url_parts ← match uri_parts url with
              | Some parts => Ok parts
              | None =>
                  if negb (has_known_scheme url) then ok_or (uri_parts (str "ws://" ++ url)) UrlParse
                  else Err UrlParse
              end;
  let old_scheme := default (str "http") (pt_scheme url_parts) in
  new_scheme ← websocket_scheme old_scheme;
  authority ← ok_or (pt_authority url_parts) MissingHost;
  ok_or (uri_build new_scheme authority (default (str "/") (pt_path_and_query url_parts))) BuildUrl.

(** [FromStr for BackendUrl]. *)
Definition backend_url_from_str (url : bytes) : res BackendUrlError BackendUrl :=
  url_parts ← ok_or (uri_parts url) BackendUrlParse;
  let scheme := default (str "http") (pt_scheme url_parts) in
  if negb (is_str scheme "http") && negb (is_str scheme "https") then Err (InvalidScheme scheme)
  else
    authority ← ok_or (pt_authority url_parts) MissingAuthority;
    Ok (MkBackend scheme authority (default (str "/") (pt_path_and_query url_parts))).
End Urls.

(** [Display for BackendUrl]. *)
Definition show_backend (b : BackendUrl) : bytes := bk_scheme b ++ str "://" ++ bk_authority b ++ bk_path b.

Section Headers.
(** [HeaderName::from_str] and [HeaderValue::from_str]. *)
Variable header_name : bytes -> option bytes.
Variable header_value : bytes -> option bytes.

(** [FromStr for Header]. *)
Definition header_from_str (s : bytes) : res HeaderError Header :=
  '(name, value) ← ok_or (split_once ch_colon s) (HeaderFormat s);
  name ← ok_or (header_name name) HeaderNameError;
  value ← ok_or (header_value (trim value)) HeaderValueError;
  Ok (MkHeader name value).
End Headers.

Inductive AddrError := InvalidHost (host : bytes).

(** The port of the [i]-th host: its own, or the last one. *)
Definition port_for (ports : list Z) (last_port : Z) (i : nat) : Z := nth i ports last_port.

(** The [collect] over the zip of hosts and ports stops at the first host
    that is no address. *)
Fixpoint collect_sockaddrs (ports : list Z) (last_port : Z) (i : nat) (hosts : list bytes)
  : res AddrError (list SocketAddr) :=
  match hosts with
  | [] => Ok []
  | h :: hosts' =>
      let host := remove_brackets h in
      ip ← ok_or (ip_from_str host) (InvalidHost host);
      rest ← collect_sockaddrs ports last_port (S i) hosts';
      Ok (MkSocketAddr ip (port_for ports last_port i) :: rest)
  end.

(** [slice::last]. *)
Definition last_of (ports : list Z) : option Z := hd_error (rev ports).

(** [arg_to_sockaddrs]: no port is a failed [expect], no host a failed
    assertion. *)
Definition arg_to_sockaddrs (hosts : list bytes) (ports : list Z) : res AddrError (list SocketAddr) :=
  match last_of ports with
  | None => Panic
  | Some last_port => match hosts with [] => Panic | _ => collect_sockaddrs ports last_port 0 hosts end
  end.

(** ** Lemmas *)

Lemma collect_sockaddrs_spec ports last_port i hosts addrs :
  collect_sockaddrs ports last_port i hosts = Ok addrs ->
  length addrs = length hosts
  /\ forall k h, hosts !! k = Some h ->
     exists ip, ip_from_str (remove_brackets h) = Some ip
                /\ addrs !! k = Some (MkSocketAddr ip (port_for ports last_port (i + k))).
Proof.
  revert i addrs. induction hosts as [|h hosts IH]; intros i addrs H; cbn in H; [injection H as <-; split; [easy|now intros []]|].
  destruct (ip_from_str (remove_brackets h)) as [ip|] eqn:Hip; [|easy]. cbn in H.
  destruct (collect_sockaddrs ports last_port (S i) hosts) as [rest| |] eqn:Hc; [|easy..]. injection H as <-.
  destruct (IH (S i) rest Hc) as [Hl Hk]. split; [cbn; congruence|].
  intros [|k] h' Hh; cbn in Hh; [injection Hh as <-; exists ip; now rewrite Nat.add_0_r|].
  destruct (Hk k h' Hh) as (ip' & Hip' & Ha). exists ip'. split; [easy|]. replace (i + S k)%nat with (S i + k)%nat by lia. exact Ha.
Qed.

(** Every host gets a listening address, with its own port or the last. *)
Lemma arg_to_sockaddrs_ports hosts ports addrs :
  arg_to_sockaddrs hosts ports = Ok addrs ->
  length addrs = length hosts
  /\ forall k a, addrs !! k = Some a ->
     sa_port a = match ports !! k with Some p => p | None => default 0 (last_of ports) end.
Proof.
  unfold arg_to_sockaddrs. destruct (last_of ports) as [lp|] eqn:Hlast; [|easy]. destruct hosts as [|h hosts]; [easy|].
  intros H. destruct (collect_sockaddrs_spec _ _ _ _ _ H) as [Hl Hk]. split; [easy|]. intros k a Ha.
  destruct (lookup_lt_is_Some_2 (h :: hosts) k) as [h' Hh]; [rewrite <- Hl; now apply lookup_lt_Some in Ha|].
  destruct (Hk k h' Hh) as (ip & _ & Ha'). assert (a = MkSocketAddr ip (port_for ports lp k)) as -> by (cbn in Ha'; congruence).
  cbn. unfold port_for. destruct (ports !! k) as [p|] eqn:Hp.
  - now apply nth_lookup_Some.
  - apply nth_overflow. now apply lookup_ge_None.
Qed.

Section UrlLemmas.
Context {Uri : Type}.
Variable uri_parts : bytes -> option Parts.
Variable uri_build : bytes -> bytes -> bytes -> option Uri.

(** A server URL is a WebSocket URL: what is accepted was built with the
    scheme [ws] or [wss], the latter exactly for a secure scheme. *)
Lemma server_url_scheme url u :
  server_url_from_str uri_parts uri_build url = Ok u ->
  exists parts authority,
    (uri_parts url = Some parts \/ (uri_parts url = None /\ has_known_scheme url = false
                                    /\ uri_parts (str "ws://" ++ url) = Some parts))
    /\ pt_authority parts = Some authority
    /\ uri_build (if is_str (default (str "http") (pt_scheme parts)) "https"
                     || is_str (default (str "http") (pt_scheme parts)) "wss" then str "wss" else str "ws")
                 authority (default (str "/") (pt_path_and_query parts)) = Some u.
Proof.
  unfold server_url_from_str. intros H.
  assert (Hparts : exists parts, (uri_parts url = Some parts \/ (uri_parts url = None /\ has_known_scheme url = false
      /\ uri_parts (str "ws://" ++ url) = Some parts))
    /\ (let old_scheme := default (str "http") (pt_scheme parts) in
        new_scheme ← websocket_scheme old_scheme;
        authority ← ok_or (pt_authority parts) MissingHost;
        ok_or (uri_build new_scheme authority (default (str "/") (pt_path_and_query parts))) BuildUrl) = Ok u).
  { destruct (uri_parts url) as [parts|] eqn:Hp; [exists parts; auto|].
    destruct (has_known_scheme url) eqn:Hk; [easy|]. cbn [negb] in H.
    destruct (uri_parts (str "ws://" ++ url)) as [parts|] eqn:Hp2; [|easy]. exists parts. auto. }
  clear H. destruct Hparts as (parts & Hp & H). cbv zeta in H. exists parts.
  unfold websocket_scheme in H. set (sch := default (str "http") (pt_scheme parts)) in *.
  assert (Hdisj : is_str sch "http" || is_str sch "ws" = true -> is_str sch "https" || is_str sch "wss" = false).
  { unfold is_str. intros [E|E]%orb_prop; apply bool_decide_eq_true in E; rewrite E; reflexivity. }
  destruct (is_str sch "http" || is_str sch "ws") eqn:H1.
  - rewrite (Hdisj eq_refl). cbn [mbind res_bind] in H. destruct (pt_authority parts) as [au|] eqn:Ha; [|easy].
    exists au. split; [easy|]. split; [easy|]. cbn [ok_or mbind res_bind] in H. now destruct (uri_build _ au _); [inj H|].
  - destruct (is_str sch "https" || is_str sch "wss"); [|easy]. cbn [mbind res_bind] in H.
    destruct (pt_authority parts) as [au|] eqn:Ha; [|easy].
    exists au. split; [easy|]. split; [easy|]. cbn [ok_or mbind res_bind] in H. now destruct (uri_build _ au _); [inj H|].
Qed.
End UrlLemmas.

(** ** Examples *)

Example trim_header : trim (str "  a b ") = str "a b".
Proof. reflexivity. Qed.

(** Three hosts and two ports: the last host shares the last port. *)
Example sockaddrs_repeat :
  arg_to_sockaddrs [str "0.0.0.0"; str "[::]"; str "1.1.1.1"] [80; 443]
  = Ok [MkSocketAddr (IpV4 0) 80; MkSocketAddr (IpV6 0) 443; MkSocketAddr (IpV4 16843009) 443].
Proof. reflexivity. Qed.
