(* ===== verification/Service.v ===== *)
(** * The HTTP service of the server (src/src/server/service.rs)

    Which requests are upgraded to a WebSocket and what every other request is
    answered: the endpoints, the check of the credentials, the reverse proxy
    and the 404 page. *)

From S2P Require Import Prelude Frame Remote Args.

Open Scope penguin_scope.

(** ** Definitions *)

(** A request as the service looks at it: the header map gives the first value
    of a lower case name; the upgrade extension is there or not. *)
Record Request := MkRequest {
  rq_method : bytes;
  rq_path : bytes;
  rq_path_and_query : option bytes;
  rq_headers : gmap bytes bytes;
  rq_on_upgrade : bool;
  rq_body : bytes;
}.

Record Response := MkResponse { rs_status : Z; rs_headers : list (bytes * bytes); rs_body : bytes }.

Inductive ServiceError := Http | ClientFailed | BodyFailed.

(** [State], without the HTTP client and the timeouts. *)
Record State := MkState {
  st_backend : option BackendUrl;
  st_ws_psk : option bytes;
  st_not_found_resp : bytes;
  st_obfs : bool;
  st_reverse : bool;
}.

Definition UPGRADE : bytes := str "upgrade".
Definition WEBSOCKET : bytes := str "websocket".
Definition WANTED_PROTOCOL : bytes := PROTOCOL_VERSION.
Definition WEBSOCKET_VERSION : bytes := str "13".

(** [header_matches!]: equality up to the case of ASCII letters. *)
Definition header_matches (given : option bytes) (wanted : bytes) : bool :=
  match given with
  | Some v => bool_decide (to_lowercase v = to_lowercase wanted)
  | None => false
  end.

Definition ends_with_slash (s : bytes) : bool := ends_with ch_slash s.

(** The path of a proxied request. *)
Definition backend_path (base_path req_path_query : bytes) : bytes :=
  if ends_with_slash base_path && starts_with ch_slash req_path_query
  then base_path ++ drop 1 req_path_query
  else base_path ++ req_path_query.

(** [PathAndQuery::path]: up to the query. *)
Definition path_of (path_and_query : bytes) : bytes :=
  match find 63 path_and_query with Some i => take i path_and_query | None => path_and_query end.

Section Service.
(** SHA-1, base64, the [http] crate's URI builder and header values, the HTTP
    client, and the version of the package. *)
Context {Uri Body : Type}.
Variable sha1 : bytes -> bytes.
Variable base64 : bytes -> bytes.
Variable header_value : bytes -> option bytes.
Variable uri_build : bytes -> bytes -> bytes -> option Uri.
Variable client_request : Uri -> Request -> option (Z * list (bytes * bytes) * Body).
Variable collect : Body -> option bytes.
Variable pkg_version : bytes.

Definition websocket_guid : bytes := str "258EAFA5-E914-47DA-95CA-C5AB0DC85B11".

(** [make_sec_websocket_accept]. *)
Definition make_sec_websocket_accept (key : bytes) : res ServiceError bytes :=
  match header_value (base64 (sha1 (key ++ websocket_guid))) with
  | Some v => Ok v
  | None => Panic
  end.

Definition not_found_handler (st : State) : res ServiceError Response :=
  Ok (MkResponse 404 [] (st_not_found_resp st)).

(** [exec_request]: the answer is collected before it is passed on. *)
Definition exec_request (uri : Uri) (req : Request) : res ServiceError Response :=
  '(status, headers, body) ← ok_or (client_request uri req) ClientFailed;
  body ← ok_or (collect body) BodyFailed;
  Ok (MkResponse status headers body).

(** [backend_or_404_handler]: a failing backend is answered as a missing page. *)
Definition backend_or_404_handler (st : State) (req : Request) : res ServiceError Response :=
  match st_backend st with
  | Some backend =>
      let req_path_query := default (rq_path req) (rq_path_and_query req) in
      let new_path := backend_path (path_of (bk_path backend)) req_path_query in
      match uri_build (bk_scheme backend) (bk_authority backend) new_path with
      | None => Err Http
      | Some uri =>
          match exec_request uri req with
          | Ok resp => Ok resp
          | Err _ => not_found_handler st
          | Panic => Panic
          end
      end
  | None => not_found_handler st
  end.

(** A request whose upgrade extension was taken out. *)
Definition without_upgrade (req : Request) : Request :=
  MkRequest (rq_method req) (rq_path req) (rq_path_and_query req) (rq_headers req) false (rq_body req).

(** What a handler answers, and the reverse flag of the WebSocket task it
    spawned, if any. *)
Definition answer : Type := res ServiceError (Response * option bool).

Definition plain_answer (r : res ServiceError Response) : answer := resp ← r; Ok (resp, None).

(** [ws_handler]. *)
Definition ws_handler (st : State) (req : Request) (reverse : bool) : answer :=
  let on_upgrade := rq_on_upgrade req in
  let req := without_upgrade req in
  let headers := rq_headers req in
  let connection := headers !! str "connection" in
  let upgrade := headers !! str "upgrade" in
  let sec_websocket_key := headers !! str "sec-websocket-key" in
  let sec_websocket_protocol := headers !! str "sec-websocket-protocol" in
  let sec_websocket_version := headers !! str "sec-websocket-version" in
  let x_penguin_psk := headers !! str "x-penguin-psk" in
  if negb (is_str (rq_method req) "GET") then plain_answer (backend_or_404_handler st req)
  else if bool_decide (is_Some (st_ws_psk st)) && negb (bool_decide (x_penguin_psk = st_ws_psk st))
  then plain_answer (backend_or_404_handler st req)
  else
    match sec_websocket_key with
    | None => plain_answer (backend_or_404_handler st req)
    | Some sec_websocket_key =>
        if negb (header_matches connection UPGRADE) || negb (header_matches upgrade WEBSOCKET)
           || negb (header_matches sec_websocket_version WEBSOCKET_VERSION)
           || negb (header_matches sec_websocket_protocol WANTED_PROTOCOL)
        then plain_answer (backend_or_404_handler st req)
        else if negb on_upgrade then plain_answer (backend_or_404_handler st req)
        else
          sec_websocket_accept ← make_sec_websocket_accept sec_websocket_key;
          Ok (MkResponse 101 [(str "connection", UPGRADE); (str "upgrade", WEBSOCKET);
                              (str "sec-websocket-protocol", WANTED_PROTOCOL);
                              (str "sec-websocket-accept", sec_websocket_accept)] [],
              Some reverse)
    end.

(** [Service::call]. *)
Definition call (st : State) (req : Request) : answer :=
  if is_str (rq_path req) "/health" && negb (st_obfs st) then Ok (MkResponse 200 [] (str "OK"), None)
  else if is_str (rq_path req) "/version" && negb (st_obfs st) then Ok (MkResponse 200 [] pkg_version, None)
  else if is_str (rq_path req) "/ws" then ws_handler st req (st_reverse st)
  else plain_answer (backend_or_404_handler st req).

(** ** Reference notions *)

(** The handshake a client of the protocol makes, with the right key. *)
Definition authorized (st : State) (req : Request) (key : bytes) : Prop :=
  rq_path req = str "/ws" /\ rq_method req = str "GET"
  /\ (forall psk, st_ws_psk st = Some psk -> rq_headers req !! str "x-penguin-psk" = Some psk)
  /\ rq_headers req !! str "sec-websocket-key" = Some key
  /\ header_matches (rq_headers req !! str "connection") UPGRADE = true
  /\ header_matches (rq_headers req !! str "upgrade") WEBSOCKET = true
  /\ header_matches (rq_headers req !! str "sec-websocket-version") WEBSOCKET_VERSION = true
  /\ header_matches (rq_headers req !! str "sec-websocket-protocol") WANTED_PROTOCOL = true
  /\ rq_on_upgrade req = true.

(** ** Lemmas *)

Lemma plain_answer_no_upgrade r resp reverse : plain_answer r <> Ok (resp, Some reverse).
Proof. unfold plain_answer. destruct r; cbn; congruence. Qed.

Lemma exec_request_total uri req : exec_request uri req <> Panic.
Proof.
  unfold exec_request. destruct (client_request uri req) as [[[status headers] body]|]; [|easy]. cbn. now destruct (collect body).
Qed.

(** The handler of the WebSocket endpoint either upgrades or answers as the
    backend does. *)
Lemma ws_handler_cases st req reverse :
  (exists key, rq_path req = str "/ws" -> authorized st req key
               /\ ws_handler st req reverse
                  = (accept ← make_sec_websocket_accept key;
                     Ok (MkResponse 101 [(str "connection", UPGRADE); (str "upgrade", WEBSOCKET);
                                         (str "sec-websocket-protocol", WANTED_PROTOCOL);
                                         (str "sec-websocket-accept", accept)] [], Some reverse)))
  \/ (ws_handler st req reverse = plain_answer (backend_or_404_handler st (without_upgrade req))
      /\ forall key, ~ authorized st req key).
Proof.
  unfold ws_handler. cbv zeta. unfold authorized. cbn [without_upgrade rq_method rq_headers].
  destruct (is_str (rq_method req) "GET") eqn:Hm; cbn [negb];
    [apply bool_decide_eq_true in Hm|right; split; [easy|]; intros key H; apply bool_decide_eq_false in Hm; now apply Hm, H].
  destruct (bool_decide (is_Some (st_ws_psk st)) && negb (bool_decide (rq_headers req !! str "x-penguin-psk" = st_ws_psk st))) eqn:Hpsk.
  { right. split; [easy|]. apply andb_prop in Hpsk as [[psk Hs]%bool_decide_eq_true Hne%negb_true_iff].
    apply bool_decide_eq_false in Hne. intros key (_ & _ & H & _). rewrite (H psk Hs) in Hne. congruence. }
  destruct (rq_headers req !! str "sec-websocket-key") as [key|] eqn:Hkey;
    [|right; split; [easy|]; now intros key (_ & _ & _ & H & _)].
  destruct (header_matches (rq_headers req !! str "connection") UPGRADE) eqn:H1; cbn [negb orb];
    [|right; split; [easy|]; now intros k (_ & _ & _ & _ & H & _)].
  destruct (header_matches (rq_headers req !! str "upgrade") WEBSOCKET) eqn:H2; cbn [negb orb];
    [|right; split; [easy|]; now intros k (_ & _ & _ & _ & _ & H & _)].
  destruct (header_matches (rq_headers req !! str "sec-websocket-version") WEBSOCKET_VERSION) eqn:H3; cbn [negb orb];
    [|right; split; [easy|]; now intros k (_ & _ & _ & _ & _ & _ & H & _)].
  destruct (header_matches (rq_headers req !! str "sec-websocket-protocol") WANTED_PROTOCOL) eqn:H4; cbn [negb orb];
    [|right; split; [easy|]; now intros k (_ & _ & _ & _ & _ & _ & _ & H & _)].
  destruct (rq_on_upgrade req) eqn:H5; cbn [negb];
    [|right; split; [easy|]; now intros k (_ & _ & _ & _ & _ & _ & _ & _ & H)].
  left. exists key. intros Hpath. split; [|easy]. split_and!; auto. intros psk Hs.
  apply andb_false_iff in Hpsk as [Hn|Hn]; [apply bool_decide_eq_false in Hn; rewrite Hs in Hn; now destruct Hn|].
  apply negb_false_iff, bool_decide_eq_true in Hn. congruence.
Qed.

(** ** Properties *)

(** C17: a request becomes a WebSocket exactly when it is a complete handshake
    of the protocol at [/ws] with the configured key, if one is configured,
    and then the answer is the 101 of the RFC with the accept value of its key
    and the task gets the reverse flag of the server.  Every other request to
    [/ws] is answered by the backend or the 404 page, as a request to a path
    without an endpoint is; no request makes the service panic as long as
    base64 texts are header values. *)
Theorem upgrade_exact st req :
  (forall s, header_value (base64 s) = Some (base64 s)) ->
  (forall resp reverse,
     call st req = Ok (resp, Some reverse)
     <-> exists key, authorized st req key /\ reverse = st_reverse st
         /\ resp = MkResponse 101 [(str "connection", UPGRADE); (str "upgrade", WEBSOCKET);
                                   (str "sec-websocket-protocol", WANTED_PROTOCOL);
                                   (str "sec-websocket-accept", base64 (sha1 (key ++ websocket_guid)))] [])
  /\ (rq_path req = str "/ws" -> (forall key, ~ authorized st req key) ->
      call st req = plain_answer (backend_or_404_handler st (without_upgrade req)))
  /\ call st req <> Panic.
Proof.
  intros Hvalue. pose proof exec_request_total as Hexec.
  assert (Hws : rq_path req = str "/ws" -> call st req = ws_handler st req (st_reverse st)).
  { intros Hp. unfold call. now rewrite Hp. }
  assert (Hother : rq_path req <> str "/ws" -> exists r, call st req = plain_answer r /\ r <> Panic).
  { intros Hp. unfold call.
    replace (is_str (rq_path req) "/ws") with false by (symmetry; now apply bool_decide_eq_false_2).
    destruct (is_str (rq_path req) "/health" && negb (st_obfs st)); [now exists (Ok (MkResponse 200 [] (str "OK")))|].
    destruct (is_str (rq_path req) "/version" && negb (st_obfs st)); [now exists (Ok (MkResponse 200 [] pkg_version))|].
    exists (backend_or_404_handler st req). split; [easy|]. unfold backend_or_404_handler.
    destruct (st_backend st); [|easy]. destruct (uri_build _ _ _) as [u|]; [|easy].
    pose proof (Hexec u req). now destruct (exec_request u req). }
  assert (Hbackend : forall r, backend_or_404_handler st r <> Panic).
  { intros r. unfold backend_or_404_handler. destruct (st_backend st); [|easy]. destruct (uri_build _ _ _) as [u|]; [|easy].
    pose proof (Hexec u r). now destruct (exec_request u r). }
  assert (Haccept : forall key, make_sec_websocket_accept key = Ok (base64 (sha1 (key ++ websocket_guid)))).
  { intros key. unfold make_sec_websocket_accept. now rewrite Hvalue. }
  destruct (decide (rq_path req = str "/ws")) as [Hp|Hp].
  - rewrite (Hws Hp). destruct (ws_handler_cases st req (st_reverse st)) as [[key Hk]|[Hk Hnone]].
    + destruct (Hk Hp) as [Hauth ->]. rewrite Haccept. cbn [mbind res_bind]. split; [|split; [|discriminate]].
      * intros resp reverse. split; [intros [= <- <-]; exists key; auto|].
        intros (key' & Hauth' & -> & ->). destruct Hauth as (_ & _ & _ & Hk1 & _), Hauth' as (_ & _ & _ & Hk2 & _).
        rewrite Hk1 in Hk2. now injection Hk2 as <-.
      * intros _ Hnone. now destruct (Hnone key).
    + rewrite Hk. split; [|split; [easy|]].
      * intros resp reverse. split; [intros H; now apply plain_answer_no_upgrade in H|]. intros (key & Hauth & _). now destruct (Hnone key).
      * unfold plain_answer. pose proof (Hbackend (without_upgrade req)) as Hb.
        now destruct (backend_or_404_handler st (without_upgrade req)).
  - destruct (Hother Hp) as (r & -> & Hr). split; [|split; [easy|]].
    + intros resp reverse. split; [intros H; now apply plain_answer_no_upgrade in H|]. intros (key & (Hp' & _) & _). easy.
    + unfold plain_answer. now destruct r.
Qed.

(** The joint of base and path has one slash where both sides bring one. *)
Lemma backend_path_joint base path :
  backend_path (base ++ [ch_slash]) (ch_slash :: path) = base ++ [ch_slash] ++ path.
Proof.
  unfold backend_path, ends_with_slash, ends_with. rewrite rev_app_distr. cbn. now rewrite <- app_assoc.
Qed.
End Service.

(** ** Concrete runs *)

Definition sample_state : State := MkState None (Some (str "secret")) (str "Not found") true false.

Definition sample_upgrade (psk : bytes) : Request :=
  MkRequest (str "GET") (str "/ws") None
    (list_to_map [(str "connection", str "Upgrade"); (str "upgrade", str "websocket");
                  (str "sec-websocket-version", str "13"); (str "sec-websocket-protocol", PROTOCOL_VERSION);
                  (str "sec-websocket-key", str "dGhlIHNhbXBsZSBub25jZQ=="); (str "x-penguin-psk", psk)])
    true [].

(** The digest and its text stand for themselves here. *)
Lemma upgrade_exact_witness :
  let run := call (Uri := unit) (fun s => s) (fun s => s) Some (fun _ _ _ => None) (fun _ _ => None) (fun b : bytes => Some b) (str "0")
               sample_state in
  run (sample_upgrade (str "secret"))
    = Ok (MkResponse 101 [(str "connection", UPGRADE); (str "upgrade", WEBSOCKET);
                          (str "sec-websocket-protocol", WANTED_PROTOCOL);
                          (str "sec-websocket-accept", str "dGhlIHNhbXBsZSBub25jZQ==" ++ websocket_guid)] [], Some false)
  /\ run (sample_upgrade (str "guess")) = Ok (MkResponse 404 [] (str "Not found"), None)
  /\ exists key, authorized sample_state (sample_upgrade (str "secret")) key.
Proof.
  cbv zeta. split; [vm_compute; reflexivity|]. split; [vm_compute; reflexivity|].
  destruct (upgrade_exact (Uri := unit) (fun s => s) (fun s => s) Some (fun _ _ _ => None) (fun _ _ => None) (fun b : bytes => Some b) (str "0")
              sample_state (sample_upgrade (str "secret"))) as [H _]; [reflexivity|].
  destruct (H (MkResponse 101 [(str "connection", UPGRADE); (str "upgrade", WEBSOCKET);
                          (str "sec-websocket-protocol", WANTED_PROTOCOL);
                          (str "sec-websocket-accept", str "dGhlIHNhbXBsZSBub25jZQ==" ++ websocket_guid)] []) false) as [H1 _].
  destruct (H1 ltac:(vm_compute; reflexivity)) as (key & Hauth & _). exists key. exact Hauth.
Defined.

(** A connection header of several tokens, as browsers send it, is refused. *)
Example connection_list_refused : header_matches (Some (str "keep-alive, Upgrade")) UPGRADE = false.
Proof. vm_compute. reflexivity. Qed.
