(* ===== verification/Forwarder.v ===== *)
(** * Forwarding on the server (src/src/server/forwarder.rs)

    The task that relays the datagrams of one UDP client of the tunnel, the
    choice of its socket, and the task of one TCP stream. *)

From S2P Require Import Prelude Runtime Net Mux UdpClients.

Open Scope penguin_scope.

(** ** Definitions *)

Inductive ForwarderError := FwIo (e : IoErrorKind) | FwHost.

Section Binding.
(** [UdpSocket::bind] on port 0 of an address, for each call, and the local
    address of a bound socket. *)
Context {Socket : Type}.
Variable bind : nat -> IpAddr -> IoErrorKind + Socket.
Variable local_addr : Socket -> option SocketAddr.

Definition unspecified_like (target : SocketAddr) : IpAddr :=
  match sa_ip target with IpV4 _ => IpV4 0 | IpV6 _ => IpV6 0 end.

Fixpoint bind_loop (i : nat) (targets : list SocketAddr) (last_err : option IoErrorKind)
  : res ForwarderError (Socket * SocketAddr) :=
  match targets with
  | [] => Err (FwIo (default InvalidInput last_err))
  | target :: rest =>
      match bind i (unspecified_like target) with
      | inl e => bind_loop (S i) rest (Some e)
      | inr socket =>
          match local_addr socket with
          | None => Panic
          | Some _ => Ok (socket, target)
          end
      end
  end.

(** [bind_for_target] on the result of [lookup_host]. *)
Definition bind_for_target (lookup : IoErrorKind + list SocketAddr) : res ForwarderError (Socket * SocketAddr) :=
  match lookup with
  | inl e => Err (FwIo e)
  | inr targets => bind_loop 0 targets None
  end.
End Binding.

Section Forwarder.
Context {C : Type -> Type} `{!Mpsc C}.

(** The channel to the main loop and what was sent: octets and where to. *)
Record fw_state := MkFw { fw_tx : C MuxDatagram; fw_sent : list (bytes * (bytes * Z)) }.

(** One round of the loop: which branch of the [select!] was taken.  An error
    of [recv_from] only disables its branch. *)
Inductive fw_event :=
| SocketReceived (data : bytes)
| SocketFailed
| ChannelDatagram (d : MuxDatagram) (sent : option IoErrorKind)
| ForwardTimeout.

(** What comes back to the client. *)
Definition reply_frame (first : MuxDatagram) (data : bytes) : MuxDatagram :=
  MkMuxDatagram (dg_flow_id first) (dg_target_host first) (dg_target_port first) (take MAX_UDP_PACKET_SIZE data).

Definition sent_entry (d : MuxDatagram) : bytes * (bytes * Z) := (dg_data d, (dg_target_host d, dg_target_port d)).

Definition fw_step (first : MuxDatagram) (e : fw_event) (st : fw_state) : fw_state * option (res ForwarderError unit) :=
  match e with
  | SocketReceived data =>
      let '(tx, r) := try_send (reply_frame first data) (fw_tx st) in
      (MkFw tx (fw_sent st), match r with Some TrySendClosed => Some (Ok tt) | _ => None end)
  | SocketFailed => (st, None)
  | ChannelDatagram d sent =>
      if negb (utf8_ok (dg_target_host d)) then (st, Some (Err FwHost))
      else
        match sent with
        | Some e => (st, Some (Err (FwIo e)))
        | None => (MkFw (fw_tx st) (fw_sent st ++ [sent_entry d]), None)
        end
  | ForwardTimeout => (st, Some (Ok tt))
  end.

Fixpoint fw_loop (first : MuxDatagram) (events : list fw_event) (st : fw_state)
  : fw_state * option (res ForwarderError unit) :=
  match events with
  | [] => (st, None)
  | e :: rest =>
      match fw_step first e st with
      | (st, None) => fw_loop first rest st
      | (st, stop) => (st, stop)
      end
  end.

(** [udp_forward_on]: [bound] is the result of [bind_for_target], [sent] that
    of sending the first datagram. *)
Definition udp_forward_on {Socket} (first : MuxDatagram) (bound : res ForwarderError (Socket * SocketAddr))
    (sent : option IoErrorKind) (events : list fw_event) (st : fw_state)
  : fw_state * option (res ForwarderError unit) :=
  if negb (utf8_ok (dg_target_host first)) then (st, Some (Err FwHost))
  else
    match bound with
    | Panic => (st, Some Panic)
    | Err e => (st, Some (Err e))
    | Ok _ =>
        match sent with
        | Some e => (st, Some (Err (FwIo e)))
        | None => fw_loop first events (MkFw (fw_tx st) (fw_sent st ++ [sent_entry first]))
        end
    end.

(** [tcp_forwarder_on_channel] with the answers of connecting, of the peer's
    address and of the copier. *)
Definition tcp_forwarder_on_channel (dest_host : bytes) (connect : IoErrorKind + unit) (peer_addr : IoErrorKind + SocketAddr)
    (copy : IoErrorKind + (Z * Z)) : res ForwarderError unit :=
  if negb (utf8_ok dest_host) then Err FwHost
  else
    match connect with
    | inl e => Err (FwIo e)
    | inr _ =>
        match peer_addr with
        | inl e => Err (FwIo e)
        | inr _ => match copy with inl e => Err (FwIo e) | inr _ => Ok tt end
        end
    end.

(** ** Reference notions *)

Definition received_data (e : fw_event) : list bytes := match e with SocketReceived data => [data] | _ => [] end.
Definition forwarded (e : fw_event) : list MuxDatagram := match e with ChannelDatagram d None => [d] | _ => [] end.

(** ** Lemmas *)

(** One round: what it adds to the channel and to the socket. *)
Lemma fw_step_spec first e st :
  let '(st', stop) := fw_step first e st in
  exists ds, queue (fw_tx st') = queue (fw_tx st) ++ ds
    /\ sublist ds (map (reply_frame first) (received_data e))
    /\ (rx_open (fw_tx st) = true -> capacity (fw_tx st) = None -> ds = map (reply_frame first) (received_data e))
    /\ rx_open (fw_tx st') = rx_open (fw_tx st) /\ capacity (fw_tx st') = capacity (fw_tx st)
    /\ stop <> Some Panic
    /\ (stop = None -> fw_sent st' = fw_sent st ++ map sent_entry (forwarded e)
                       /\ Forall (fun d => utf8_ok (dg_target_host d) = true) (forwarded e))
    /\ (stop <> None -> fw_sent st' = fw_sent st).
Proof.
  destruct e as [data| |d sent|]; cbn [fw_step received_data forwarded map].
  - pose proof (view_try_send _ (reply_frame first data) (fw_tx st)) as Hv.
    pose proof (res_try_send _ (reply_frame first data) (fw_tx st)) as Hr.
    destruct (try_send (reply_frame first data) (fw_tx st)) as [tx r]. cbn [fst snd fw_tx fw_sent] in *.
    pose proof (spec_send_flags (reply_frame first data) (chan_view (fw_tx st))) as (F1 & _ & F3).
    exists (match r with None => [reply_frame first data] | Some _ => [] end). rewrite Hv, spec_send_queue, <- Hr.
    split; [destruct r; [now rewrite app_nil_r|easy]|]. split; [destruct r; [apply sublist_nil_l|easy]|].
    split; [intros Ho Hc; rewrite Hr, spec_send_unbounded by easy; now rewrite Ho|].
    split; [easy|]. split; [easy|]. split; [now destruct r as [[]|]|]. split; [|easy].
    intros _. rewrite app_nil_r. split; [easy|apply Forall_nil_2].
  - exists []. rewrite !app_nil_r. split_and!; try easy.
  - destruct (utf8_ok (dg_target_host d)) eqn:Hu; cbn [negb].
    + destruct sent as [e|]; exists []; cbn [fw_tx fw_sent]; rewrite !app_nil_r; split_and!; try easy.
      intros _. split; [easy|]. now apply Forall_cons_2; [|apply Forall_nil_2].
    + exists []. rewrite !app_nil_r. split_and!; try easy; now destruct sent.
  - exists []. rewrite !app_nil_r. split_and!; easy.
Qed.

(** ** Properties *)

(** C35: the forwarder of a UDP client relays faithfully: whatever happens, the
    datagrams it queues for the client are responses it received, in their
    order, each cut to the size of the buffer and carrying the identifier,
    host and port of the first datagram of the client, and all of them when
    the channel has room; what it sends out is the first datagram and then
    those of the channel, each with its own data to its own target, in their
    order, until the round at which it stops. *)
Theorem udp_forward_faithful {Socket} first (bound : Socket * SocketAddr) events st :
  utf8_ok (dg_target_host first) = true ->
  let '(st', stop) := udp_forward_on first (Ok bound) None events st in
  exists handled rest ds last,
    events = handled ++ rest
    /\ queue (fw_tx st') = queue (fw_tx st) ++ ds
    /\ sublist ds (map (reply_frame first) (concat (map received_data handled)))
    /\ (rx_open (fw_tx st) = true -> capacity (fw_tx st) = None ->
        ds = map (reply_frame first) (concat (map received_data handled)))
    /\ fw_sent st' = fw_sent st ++ map sent_entry (first :: concat (map forwarded (take last handled)))
    /\ stop <> Some Panic
    /\ (stop = None -> rest = [] /\ last = length handled)
    /\ (stop <> None -> length handled = S last).
Proof.
  intros Hutf. unfold udp_forward_on. rewrite Hutf. cbn [negb].
  set (st0 := MkFw (fw_tx st) (fw_sent st ++ [sent_entry first])).
  assert (Hgen : forall st1,
    let '(st', stop) := fw_loop first events st1 in
    exists handled rest ds last,
      events = handled ++ rest /\ queue (fw_tx st') = queue (fw_tx st1) ++ ds
      /\ sublist ds (map (reply_frame first) (concat (map received_data handled)))
      /\ (rx_open (fw_tx st1) = true -> capacity (fw_tx st1) = None ->
          ds = map (reply_frame first) (concat (map received_data handled)))
      /\ fw_sent st' = fw_sent st1 ++ map sent_entry (concat (map forwarded (take last handled)))
      /\ stop <> Some Panic /\ (stop = None -> rest = [] /\ last = length handled)
      /\ (stop <> None -> length handled = S last)).
  { clear st0. induction events as [|e events IH]; intros st1.
    { cbn. exists [], [], [], 0%nat. cbn. rewrite !app_nil_r. split_and!; easy. }
    cbn [fw_loop]. pose proof (fw_step_spec first e st1) as He. destruct (fw_step first e st1) as [st2 [stop|]].
    - destruct He as (ds & Hq & Hsub & Hall & _ & _ & Hnp & _ & Hsent).
      exists [e], events, ds, 0%nat. cbn. rewrite !app_nil_r. split_and!; try easy. now apply Hsent.
    - destruct He as (ds & Hq & Hsub & Hall & Ho & Hc & _ & Hsent & _). destruct (Hsent eq_refl) as [Hsent' _].
      specialize (IH st2). destruct (fw_loop first events st2) as [st3 stop].
      destruct IH as (handled & rest & ds' & last & -> & Hq' & Hsub' & Hall' & Hs' & Hnp & Hnone & Hsome).
      exists (e :: handled), rest, (ds ++ ds'), (S last). cbn [app map concat take length].
      rewrite Hq', Hq, Hs', Hsent', <- !app_assoc, !map_app. split_and!; auto.
      + now apply sublist_app.
      + intros H1 H2. rewrite (Hall H1 H2), (Hall' (eq_trans Ho H1) (eq_trans Hc H2)). easy.
      + intros Hn. destruct (Hnone Hn) as [-> ->]. easy. }
  specialize (Hgen st0). destruct (fw_loop first events st0) as [st' stop].
  destruct Hgen as (handled & rest & ds & last & H1 & H2 & H3 & H4 & H5 & H6).
  exists handled, rest, ds, last. cbn [st0 fw_tx fw_sent] in *. rewrite <- app_assoc in H5. auto 10.
Qed.

(** A socket is bound on the family of the target it will send to, the first
    one for which that works. *)
Lemma bind_loop_first {Socket} (bind : nat -> IpAddr -> IoErrorKind + Socket) local_addr i targets last_err socket target :
  bind_loop bind local_addr i targets last_err = Ok (socket, target) ->
  exists k, targets !! k = Some target /\ bind (i + k)%nat (unspecified_like target) = inr socket
    /\ forall j t, (j < k)%nat -> targets !! j = Some t -> exists e, bind (i + j)%nat (unspecified_like t) = inl e.
Proof.
  revert i last_err. induction targets as [|t targets IH]; intros i last_err H; [easy|]. cbn in H.
  destruct (bind i (unspecified_like t)) as [e|s] eqn:Hb.
  - destruct (IH (S i) (Some e) H) as (k & Hk & Hbk & Hall). exists (S k). split; [easy|].
    split; [now rewrite Nat.add_succ_r|]. intros [|j] t' Hj Ht'; cbn in Ht'.
    + injection Ht' as <-. exists e. now rewrite Nat.add_0_r.
    + rewrite Nat.add_succ_r. apply (Hall j t'); [lia|easy].
  - destruct (local_addr s); [|easy]. injection H as <- <-. exists 0%nat. rewrite Nat.add_0_r. split_and!; easy.
Qed.
End Forwarder.

Arguments fw_state C : clear implicits.

(** ** Concrete runs *)

Definition sample_first : MuxDatagram := MkMuxDatagram 9 (str "dns") 53 [1].

Lemma udp_forward_faithful_witness :
  let run := udp_forward_on (Socket := nat) sample_first (Ok (0%nat, MkSocketAddr (IpV4 1) 53)) None
               [SocketReceived [7; 8]; ChannelDatagram (MkMuxDatagram 9 (str "ntp") 123 [2]) None; ForwardTimeout]
               (MkFw (unbounded_channel (C := chan_state)) []) in
  run.2 = Some (Ok tt)
  /\ queue (fw_tx run.1) = [MkMuxDatagram 9 (str "dns") 53 [7; 8]]
  /\ fw_sent run.1 = [([1], (str "dns", 53)); ([2], (str "ntp", 123))]
  /\ run.2 <> Some Panic.
Proof.
  cbv zeta. split; [vm_compute; reflexivity|]. split; [vm_compute; reflexivity|]. split; [vm_compute; reflexivity|].
  pose proof (udp_forward_faithful (Socket := nat) sample_first (0%nat, MkSocketAddr (IpV4 1) 53)
    [SocketReceived [7; 8]; ChannelDatagram (MkMuxDatagram 9 (str "ntp") 123 [2]) None; ForwardTimeout]
    (MkFw (unbounded_channel (C := chan_state)) []) eq_refl) as H.
  destruct (udp_forward_on (Socket := nat) sample_first _ _ _ _) as [st stop].
  destruct H as (handled & rest & ds & last & _ & _ & _ & _ & _ & H & _). exact H.
Defined.
