(* ===== verification/Server.v ===== *)
(** * Serving a WebSocket (src/src/server/websocket.rs) and a connection
    (src/src/server/mod.rs)

    The loop that serves one multiplexor: its jobs, the channels of its UDP
    clients and when it ends; what a connection goes through before its
    requests reach the service.  Accepting them is in Serve.v. *)

From S2P Require Import Prelude Runtime Timing Config Mux UdpClients Forwarder.

Open Scope penguin_scope.

(** ** Definitions *)

Definition BIND_BUFFER_SIZE : Z := 2 ^ 4.
Definition INCOMING_DATAGRAM_BUFFER_SIZE : nat := 64.

(** The options of the multiplexor. *)
Definition websocket_options (reverse : bool) : Options :=
  bind_buffer_size options_new (if reverse then BIND_BUFFER_SIZE else 0).

Section Websocket.
Context {C : Type -> Type} `{!Mpsc C} {Stream : Type}.

(** A spawned forwarder; a UDP forwarder holds the receiver of a channel. *)
Inductive job := TcpJob (s : Stream) | UdpJob (first : MuxDatagram) (chan : nat).

(** The locals of [handle_websocket]: the senders by flow identifier, the
    channels behind them, the running jobs, the channel from the forwarders
    (whose first sender the loop keeps), whether the multiplexor still
    answers, and the datagrams given to it. *)
Record ws_state := MkWs {
  wv_udp_clients : gmap Z nat;
  wv_chans : gmap nat (C MuxDatagram);
  wv_next_chan : nat;
  wv_jobs : list job;
  wv_datagram_send : C MuxDatagram;
  wv_mux_open : bool;
  wv_sent : list MuxDatagram;
}.

Definition ws_initial : ws_state := MkWs ∅ ∅ 0 [] (channel INCOMING_DATAGRAM_BUFFER_SIZE) true [].

Definition set_jobs (jobs : list job) (st : ws_state) : ws_state :=
  MkWs (wv_udp_clients st) (wv_chans st) (wv_next_chan st) jobs (wv_datagram_send st) (wv_mux_open st) (wv_sent st).
Definition set_chans (chans : gmap nat (C MuxDatagram)) (st : ws_state) : ws_state :=
  MkWs (wv_udp_clients st) chans (wv_next_chan st) (wv_jobs st) (wv_datagram_send st) (wv_mux_open st) (wv_sent st).
Definition set_clients (clients : gmap Z nat) (st : ws_state) : ws_state :=
  MkWs clients (wv_chans st) (wv_next_chan st) (wv_jobs st) (wv_datagram_send st) (wv_mux_open st) (wv_sent st).
Definition set_send (c : C MuxDatagram) (sent : list MuxDatagram) (st : ws_state) : ws_state :=
  MkWs (wv_udp_clients st) (wv_chans st) (wv_next_chan st) (wv_jobs st) c (wv_mux_open st) sent.
Definition close_mux (st : ws_state) : ws_state :=
  MkWs (wv_udp_clients st) (wv_chans st) (wv_next_chan st) (wv_jobs st) (wv_datagram_send st) false (wv_sent st).

(** The end of a job: a UDP forwarder drops its receiver. *)
Definition end_job (j : job) (st : ws_state) : ws_state :=
  match j with
  | TcpJob _ => st
  | UdpJob _ chan => set_chans (alter rx_drop chan (wv_chans st)) st
  end.

(** A datagram of the multiplexor. *)
Definition dispatch_datagram (d : MuxDatagram) (st : ws_state) : ws_state :=
  let flow_id := dg_flow_id d in
  match wv_udp_clients st !! flow_id with
  | Some chan =>
      match wv_chans st !! chan with
      | None => st
      | Some sender =>
          let '(sender', r) := try_send d sender in
          let st := set_chans (<[chan := sender']> (wv_chans st)) st in
          match r with
          | Some TrySendClosed => set_clients (delete flow_id (wv_udp_clients st)) st
          | _ => st
          end
      end
  | None =>
      let chan := wv_next_chan st in
      MkWs (<[flow_id := chan]> (wv_udp_clients st))
           (<[chan := channel INCOMING_DATAGRAM_BUFFER_SIZE]> (wv_chans st)) (S chan)
           (wv_jobs st ++ [UdpJob d chan]) (wv_datagram_send st) (wv_mux_open st) (wv_sent st)
  end.

(** What can happen: the branches of the [select!], and what the jobs and the
    multiplexor do on their own. *)
Inductive ws_event :=
| JobEnds (i : nat)                         (* the job finishes and [join_next] returns it *)
| StreamAccepted (s : Stream)
| DatagramReceived (d : MuxDatagram)
| SendDatagramBranch
| ElseBranch
| ForwarderSends (d : MuxDatagram)          (* a job queues a datagram *)
| ForwarderTakes (i : nat)                  (* a UDP job receives from its channel *)
| MuxCloses.

Inductive ws_status := Looping | Exited.

(** The [else] branch needs every other branch disabled: no job to join, both
    queues of the multiplexor at their end, and no datagram nor sender left on
    the channel from the forwarders. *)
Definition else_enabled (st : ws_state) : bool :=
  match wv_jobs st with [] => true | _ => false end && negb (wv_mux_open st)
  && match (poll_recv (wv_datagram_send st)).2 with Ready None => true | _ => false end.

(** One event; [None] when it cannot happen. *)
Definition ws_step (e : ws_event) (st : ws_state) : option (ws_state * ws_status) :=
  match e with
  | JobEnds i =>
      j ← wv_jobs st !! i;
      Some (end_job j (set_jobs (delete i (wv_jobs st)) st), Looping)
  | StreamAccepted s => if wv_mux_open st then Some (set_jobs (wv_jobs st ++ [TcpJob s]) st, Looping) else None
  | DatagramReceived d => if wv_mux_open st then Some (dispatch_datagram d st, Looping) else None
  | SendDatagramBranch =>
      match poll_recv (wv_datagram_send st) with
      | (c, Ready (Some d)) => Some (set_send c (if wv_mux_open st then wv_sent st ++ [d] else wv_sent st) st, Looping)
      | _ => None
      end
  | ElseBranch => if else_enabled st then Some (st, Exited) else None
  | ForwarderSends d =>
      match wv_jobs st with
      | [] => None
      | _ => Some (set_send (try_send d (wv_datagram_send st)).1 (wv_sent st) st, Looping)
      end
  | ForwarderTakes i =>
      match wv_jobs st !! i with
      | Some (UdpJob _ chan) => Some (set_chans (alter (fun c => (poll_recv c).1) chan (wv_chans st)) st, Looping)
      | _ => None
      end
  | MuxCloses => Some (close_mux st, Looping)
  end.

Fixpoint ws_run (events : list ws_event) (st : ws_state) : option (ws_state * ws_status) :=
  match events with
  | [] => Some (st, Looping)
  | e :: rest =>
      match ws_step e st with
      | Some (st, Looping) => ws_run rest st
      | other => other
      end
  end.

(** [handle_websocket]: shutting the jobs down follows the loop. *)
Definition handle_websocket (events : list ws_event) : option (ws_state * ws_status) := ws_run events ws_initial.

(** ** Invariant *)

(** The datagrams that are with, or were left by, the forwarder of a channel. *)
Definition chan_of (st : ws_state) (flow_id : Z) : option (C MuxDatagram) :=
  chan ← wv_udp_clients st !! flow_id; wv_chans st !! chan.

Record ws_wf (st : ws_state) : Prop := {
  ww_chans : forall flow_id chan, wv_udp_clients st !! flow_id = Some chan ->
             is_Some (wv_chans st !! chan) /\ (chan < wv_next_chan st)%nat;
  ww_inj : forall f g chan, wv_udp_clients st !! f = Some chan -> wv_udp_clients st !! g = Some chan -> f = g;
  ww_flows : forall f chan c d, wv_udp_clients st !! f = Some chan -> wv_chans st !! chan = Some c ->
             d ∈ queue c -> dg_flow_id d = f;
  ww_jobs : forall i first chan, wv_jobs st !! i = Some (UdpJob first chan) -> (chan < wv_next_chan st)%nat
            /\ forall f, wv_udp_clients st !! f = Some chan -> dg_flow_id first = f;
  ww_send : tx_open (wv_datagram_send st) = true /\ rx_open (wv_datagram_send st) = true;
}.

(** ** Lemmas *)

Lemma ws_initial_wf : ws_wf ws_initial.
Proof.
  split; cbn; intros *; rewrite ?lookup_empty, ?lookup_nil; try easy. now rewrite view_channel.
Qed.

(** A map of channels in which one channel changed. *)
Definition chan_kept (c c' : C MuxDatagram) : Prop := forall d, d ∈ queue c' -> d ∈ queue c.

Lemma set_chans_wf st i c c' :
  ws_wf st -> wv_chans st !! i = Some c -> (forall f d, wv_udp_clients st !! f = Some i -> d ∈ queue c' -> dg_flow_id d = f) ->
  ws_wf (set_chans (<[i := c']> (wv_chans st)) st).
Proof.
  intros Hw Hi Hq. split; cbn.
  - intros f chan Hf. destruct (ww_chans _ Hw f chan Hf) as [Hs Hl]. split; [|easy]. apply lookup_insert_is_Some'. now right.
  - apply (ww_inj _ Hw).
  - intros f chan c0 d Hf Hc Hd. apply lookup_insert_Some in Hc as [[<- <-]|[_ Hc]]; [now apply Hq|].
    now apply (ww_flows _ Hw f chan c0).
  - apply (ww_jobs _ Hw).
  - apply (ww_send _ Hw).
Qed.

Lemma alter_chans_wf st i (g : C MuxDatagram -> C MuxDatagram) :
  ws_wf st -> (forall c, chan_kept c (g c)) -> ws_wf (set_chans (alter g i (wv_chans st)) st).
Proof.
  intros Hw Hg. destruct (wv_chans st !! i) as [c|] eqn:Hc.
  - replace (alter g i (wv_chans st)) with (<[i := g c]> (wv_chans st)).
    + apply (set_chans_wf st i c); [easy|easy|]. intros f d Hf Hd. now apply (ww_flows _ Hw f i c), Hg.
    + apply map_eq_iff. intros j. destruct (Nat.eq_dec i j) as [<-|Hne];
        [rewrite lookup_insert_eq, lookup_alter_eq, Hc; easy|now rewrite lookup_insert_ne, lookup_alter_ne].
  - replace (alter g i (wv_chans st)) with (wv_chans st); [now destruct st|]. apply map_eq_iff. intros j.
    destruct (Nat.eq_dec i j) as [<-|Hne]; [now rewrite lookup_alter_eq, Hc|now rewrite lookup_alter_ne].
Qed.

Lemma kept_rx_drop (c : C MuxDatagram) : chan_kept c (rx_drop c).
Proof. intros d. rewrite view_rx_drop. cbn. now intros H%elem_of_nil. Qed.

Lemma kept_recv (c : C MuxDatagram) : chan_kept c (poll_recv c).1.
Proof.
  intros d. rewrite view_poll_recv. unfold spec_recv. destruct (queue c) as [|x q] eqn:Hq; cbn; rewrite ?Hq; [easy|].
  intros H. now right.
Qed.

Lemma set_jobs_wf st jobs :
  ws_wf st -> (forall i first chan, jobs !! i = Some (UdpJob first chan) -> UdpJob first chan ∈ wv_jobs st) ->
  ws_wf (set_jobs jobs st).
Proof.
  intros Hw Hj. split; cbn; try apply Hw. intros i first chan Hi.
  destruct (list_elem_of_lookup_1 _ _ (Hj i first chan Hi)) as [k Hk]. now apply (ww_jobs _ Hw k).
Qed.

Lemma set_send_wf st c sent :
  ws_wf st -> tx_open c = true /\ rx_open c = true -> ws_wf (set_send c sent st).
Proof. intros Hw Hc. split; cbn; try apply Hw; easy. Qed.

Lemma dispatch_wf d st : ws_wf st -> ws_wf (dispatch_datagram d st).
Proof.
  intros Hw. unfold dispatch_datagram. destruct (wv_udp_clients st !! dg_flow_id d) as [chan|] eqn:Hf.
  - destruct (wv_chans st !! chan) as [c|] eqn:Hc; [|easy].
    pose proof (view_try_send _ d c) as Hv. pose proof (res_try_send _ d c) as Hr.
    destruct (try_send d c) as [c' r]. cbn [fst snd] in *.
    assert (Hw' : ws_wf (set_chans (<[chan := c']> (wv_chans st)) st)).
    { apply (set_chans_wf st chan c); [easy|easy|]. intros f x Hfx. rewrite Hv, spec_send_queue.
      intros Hx. assert (f = dg_flow_id d) as -> by now apply (ww_inj _ Hw f _ chan).
      assert (Hx' : x ∈ queue c \/ x = d).
      { destruct (spec_send d (chan_view c)).2; [now left|]. apply list_elem_of_In, in_app_iff in Hx as [Hx|[<-|[]]]; [|now right].
        left. now apply list_elem_of_In. }
      destruct Hx' as [Hx'| ->]; [|easy]. now apply (ww_flows _ Hw (dg_flow_id d) chan c). }
    destruct r as [[]|]; try exact Hw'. destruct Hw' as [w1 w2 w3 w4 w5]. split; cbn in *.
    + intros f ch [_ Hf']%lookup_delete_Some. now apply (w1 f).
    + intros f g ch [_ Hf']%lookup_delete_Some [_ Hg']%lookup_delete_Some. now apply (w2 f g ch).
    + intros f ch c0 x [_ Hf']%lookup_delete_Some. now apply w3.
    + intros i first ch Hi. destruct (w4 i first ch Hi) as [Hl Hfl]. split; [easy|].
      intros f [_ Hf']%lookup_delete_Some. now apply Hfl.
    + easy.
  - split; cbn.
    + intros f ch. rewrite lookup_insert_Some. intros [[<- <-]|[_ Hf']]; [rewrite lookup_insert_eq; split; [easy|lia]|].
      destruct (ww_chans _ Hw f ch Hf') as [Hs Hl]. split; [|lia]. apply lookup_insert_is_Some'. now right.
    + intros f g ch. rewrite !lookup_insert_Some. intros [[<- <-]|[Hne Hf']] [[<- Heq]|[Hne' Hg']]; try easy.
      * apply (ww_chans _ Hw) in Hg' as [_ Hl]. lia.
      * subst ch. apply (ww_chans _ Hw) in Hf' as [_ Hl]. lia.
      * now apply (ww_inj _ Hw f g ch).
    + intros f ch c0 x. rewrite !lookup_insert_Some. intros [[<- <-]|[Hne Hf']] [[Heq <-]|[Hne' Hc0]] Hx; try easy.
      * rewrite view_channel in Hx. now apply elem_of_nil in Hx.
      * rewrite view_channel in Hx. now apply elem_of_nil in Hx.
      * now apply (ww_flows _ Hw f ch c0).
    + intros i first ch Hi. apply lookup_app_Some in Hi as [Hi|[_ Hi]].
      * destruct (ww_jobs _ Hw i first ch Hi) as [Hl Hfl]. split; [lia|]. intros f.
        rewrite lookup_insert_Some. intros [[_ Heq]|[_ Hf']]; [lia|now apply Hfl].
      * destruct (i - length (wv_jobs st))%nat as [|n]; [|easy]. cbn in Hi. injection Hi as <- <-. split; [lia|].
        intros f. rewrite lookup_insert_Some. intros [[<- _]|[_ Hf']]; [easy|].
        apply (ww_chans _ Hw) in Hf' as [_ Hl]. lia.
    + apply (ww_send _ Hw).
Qed.

Lemma else_disabled st : ws_wf st -> else_enabled st = false.
Proof.
  intros Hw. destruct (ww_send _ Hw) as [Ht Hr]. unfold else_enabled. rewrite res_poll_recv. unfold spec_recv.
  destruct (queue (wv_datagram_send st)); cbn; rewrite ?Ht, ?Hr; cbn; apply andb_false_r.
Qed.

Lemma ws_step_wf e st st' status : ws_wf st -> ws_step e st = Some (st', status) -> ws_wf st' /\ status = Looping.
Proof.
  intros Hw. destruct e as [i|s|d| | |d|i|]; cbn [ws_step].
  - destruct (wv_jobs st !! i) as [j|] eqn:Hj; [|easy]. cbn. intros [= <- <-]. split; [|easy].
    assert (Hw' : ws_wf (set_jobs (delete i (wv_jobs st)) st)).
    { apply set_jobs_wf; [easy|]. intros k first chan Hk. apply list_elem_of_lookup_2 in Hk.
      eapply elem_of_sublist, sublist_delete. exact Hk. }
    destruct j; [exact Hw'|]. now apply alter_chans_wf; [|apply kept_rx_drop].
  - case_bool; [|easy]. intros [= <- <-]. split; [|easy]. apply set_jobs_wf; [easy|]. intros k first chan Hk.
    apply list_elem_of_lookup_2, list_elem_of_In, in_app_iff in Hk as [Hk|[[=]|[]]]. now apply list_elem_of_In.
  - case_bool; [|easy]. intros [= <- <-]. split; [now apply dispatch_wf|easy].
  - pose proof (view_poll_recv _ (wv_datagram_send st)) as Hv. destruct (poll_recv (wv_datagram_send st)) as [c [[d|]|]]; try easy.
    cbn [fst] in Hv. intros [= <- <-]. split; [|easy]. apply set_send_wf; [easy|]. rewrite Hv.
    pose proof (spec_recv_flags (chan_view (wv_datagram_send st))) as (-> & -> & _). destruct (ww_send _ Hw). easy.
  - now rewrite (else_disabled st Hw).
  - destruct (wv_jobs st); [easy|]. intros [= <- <-]. split; [|easy]. apply set_send_wf; [easy|].
    rewrite view_try_send. pose proof (spec_send_flags d (chan_view (wv_datagram_send st))) as (-> & -> & _). destruct (ww_send _ Hw). easy.
  - destruct (wv_jobs st !! i) as [[|first chan]|]; try easy. intros [= <- <-]. split; [|easy].
    apply alter_chans_wf; [easy|apply kept_recv].
  - intros [= <- <-]. split; [|easy]. now destruct Hw.
Qed.

Lemma ws_run_wf events st st' status :
  ws_wf st -> ws_run events st = Some (st', status) -> ws_wf st' /\ status = Looping.
Proof.
  revert st. induction events as [|e events IH]; intros st Hw H; [now injection H as <- <-|]. cbn [ws_run] in H.
  destruct (ws_step e st) as [[st1 s]|] eqn:He; [|easy]. destruct (ws_step_wf e st st1 s Hw He) as [Hw1 ->].
  now apply (IH st1).
Qed.

(** ** Properties *)

(** C36: in every state the loop reaches, different UDP clients have different
    channels, every datagram waiting for a forwarder belongs to the client the
    forwarder was started for, and the forwarder of a job serves exactly the
    client of its first datagram. *)
Theorem udp_clients_separated events st status :
  handle_websocket events = Some (st, status) -> ws_wf st.
Proof. intros H. eapply ws_run_wf; [apply ws_initial_wf|exact H]. Qed.

(** The loop never ends, whatever happens: the [else] branch that should
    end it when the multiplexor has closed is never enabled, because the loop
    itself keeps a sender of the channel its last branch receives from. *)
Theorem websocket_never_exits events st status :
  handle_websocket events = Some (st, status) -> status = Looping /\ else_enabled st = false.
Proof.
  intros H. destruct (ws_run_wf events ws_initial st status ws_initial_wf H) as [Hw Hs].
  split; [exact Hs|now apply else_disabled].
Qed.
End Websocket.

Arguments ws_state C Stream : clear implicits.

(** ** Serving a connection (mod.rs) *)

(** How serving one connection ends; a future is the time it takes and its
    result. *)
Inductive served := ServedOk | ServedError | ServedTimeout | TlsError | TlsTimeout.

Definition await_within {A} (d : Duration) (f : Duration * A) : res unit A := if f.1 <=? d then Ok f.2 else Err tt.

Definition serve_connection (http_timeout : OptionalDuration) (conn : Duration * bool) : served :=
  match optional_timeout await_within snd http_timeout conn with
  | Ok true => ServedOk
  | Ok false => ServedError
  | _ => ServedTimeout
  end.

Definition serve_connection_tls (tls_timeout http_timeout : OptionalDuration) (accept : Duration * bool)
    (conn : Duration * bool) : served :=
  match optional_timeout await_within snd tls_timeout accept with
  | Ok true => serve_connection http_timeout conn
  | Ok false => TlsError
  | _ => TlsTimeout
  end.

(** No timeout means waiting as long as it takes. *)
Lemma serve_without_timeout conn : serve_connection None conn <> ServedTimeout.
Proof. unfold serve_connection. cbn. now destruct (conn.2). Qed.

(** ** Concrete runs *)

Definition sample_datagram (flow_id : Z) (data : bytes) : MuxDatagram := MkMuxDatagram flow_id (str "h") 9 data.

(** Two clients, one of which gets a second datagram; then all jobs end and
    the multiplexor closes. *)
Definition sample_ws_events : list (@ws_event nat) :=
  [DatagramReceived (sample_datagram 5 [1]); DatagramReceived (sample_datagram 6 [2]);
   DatagramReceived (sample_datagram 5 [3]); ForwarderSends (sample_datagram 5 [4]); JobEnds 0; JobEnds 0;
   SendDatagramBranch; MuxCloses].

Lemma udp_clients_separated_witness :
  exists st : ws_state chan_state nat, handle_websocket sample_ws_events = Some (st, Looping) /\ ws_wf st.
Proof.
  eexists. split; [vm_compute; reflexivity|].
  eapply (udp_clients_separated (C := chan_state) sample_ws_events). vm_compute. reflexivity.
Defined.

Lemma websocket_never_exits_witness :
  exists st : ws_state chan_state nat,
    handle_websocket sample_ws_events = Some (st, Looping)
    /\ wv_jobs st = [] /\ wv_mux_open st = false /\ else_enabled st = false.
Proof.
  eexists. split; [vm_compute; reflexivity|]. split; [reflexivity|]. split; [reflexivity|].
  eapply (websocket_never_exits (C := chan_state) sample_ws_events _ Looping). vm_compute. reflexivity.
Defined.

(** A datagram for a client whose forwarder has just ended is lost; the next
    one starts a new forwarder. *)
Example pruned_client_loses_one :
  match handle_websocket (C := chan_state) (Stream := nat)
          [DatagramReceived (sample_datagram 5 [1]); JobEnds 0; DatagramReceived (sample_datagram 5 [2]);
           DatagramReceived (sample_datagram 5 [3])] with
  | Some (st, _) => wv_jobs st = [UdpJob (sample_datagram 5 [3]) 1]
  | None => False
  end.
Proof. vm_compute. reflexivity. Qed.

(** With reverse forwarding the multiplexor accepts sixteen bind requests and
    no branch of the loop takes them. *)
Example reverse_bind_buffer : opt_bind_buffer_size (websocket_options true) = 16.
Proof. reflexivity. Qed.
