(* ===== verification/Tunnel.v ===== *)
(** * Datagrams through the whole tunnel

    The UDP listeners and relays of the client, the loop of the client around
    its multiplexor, the wire, the loop of the server and its forwarders,
    composed: any interleaving of their steps, with the streams and bind
    requests of both multiplexors going on at the same time.  Nothing is
    forged, altered, duplicated or reordered in either direction, and a packet
    that fits arrives and is answered where it came from. *)

From S2P Require Import Prelude Runtime Frame Timing Net SocksWire Config Stream Mux MuxInv MuxProps Datagrams.
From S2P Require Import UdpClients Handlers Forwarder Server.

Section Tunnel.
Context {C : Type -> Type} `{!Mpsc C} {O : Type -> Type} `{!Oneshot O} {W : Type} `{!Waker W}
    {S1 S2 : Type} `{!WebSocket S1} `{!WebSocket S2} {Socket : Type}.
Variable local_addr : Socket -> option SocketAddr.

(** ** Definitions *)

(** What the two processes hold: the client maps and the channel to the main
    loop, both multiplexors, and the loop of the server. *)
Record tunnel := MkTunnel {
  tn_udp : udp_state Socket C;
  tn_client : Mux C O W S1;
  tn_server : Mux C O W S2;
  tn_ws : @ws_state C MuxStream;
}.

(** A step of one of the tasks. *)
Inductive tunnel_event :=
| PacketReceived (socket : Socket) (rhost : bytes) (rport : Z) (r : udp_recv)   (* handle_udp *)
| RelayReceived (socket : Socket) (r : udp_recv)                                (* udp_relay *)
| Pruned (now : Z) (order : list (Z * ClientIdMapEntry Socket) -> list (Z * ClientIdMapEntry Socket))
| ClientSends                    (* on_connected: the branch of [datagram_rx] *)
| ToServer                       (* a message crosses *)
| ServerTakes                    (* handle_websocket: the branch of [get_datagram] *)
| ServerAccepts                  (* the branch of [accept_stream_channel] *)
| ForwarderReads (i : nat)
| ForwarderReplies (i : nat) (data : bytes)
| JobFinished (i : nat)
| ServerSends                    (* the branch of [datagram_send_rx] *)
| ToClient
| ClientTakes                    (* on_connected: the branch of [get_datagram] *)
| ClientOp (op : mux_op)         (* streams and bind requests *)
| ServerOp (op : mux_op).

(** What is seen of a step: a datagram queued by a listener, given to a
    forwarder, queued by a forwarder, and what the client did with one. *)
Inductive tunnel_obs :=
| Queued (d : MuxDatagram)
| Dispatched (d : MuxDatagram)
| Replied (d : MuxDatagram)
| Returned (d : MuxDatagram) (r : option (@reply Socket)).

(** The branches of the loop of [on_connected] about datagrams: an error of
    [send_datagram] is logged. *)
Definition client_sends (t : tunnel) : option tunnel :=
  match poll_recv (us_tx (tn_udp t)) with
  | (tx, Ready (Some d)) =>
      Some (MkTunnel (MkUdp (us_maps (tn_udp t)) tx) (send_datagram d (tn_client t)).1 (tn_server t) (tn_ws t))
  | _ => None
  end.

Definition client_takes (t : tunnel) : option (tunnel * list tunnel_obs) :=
  match get_datagram (tn_client t) with
  | (x, Ret d) =>
      Some (MkTunnel (tn_udp t) x (tn_server t) (tn_ws t),
            [Returned d (send_datagram_reply (us_maps (tn_udp t)) (dg_flow_id d) (dg_data d))])
  | _ => None
  end.

(** The branches of the loop of [handle_websocket] about the multiplexor. *)
Definition server_takes (t : tunnel) : option (tunnel * list tunnel_obs) :=
  match get_datagram (tn_server t) with
  | (y, Ret d) =>
      '(ws, _) ← ws_step (DatagramReceived d) (tn_ws t);
      Some (MkTunnel (tn_udp t) (tn_client t) y ws, [Dispatched d])
  | _ => None
  end.

Definition server_accepts (t : tunnel) : option tunnel :=
  match accept_stream_channel (tn_server t) with
  | (y, Ret s) =>
      '(ws, _) ← ws_step (StreamAccepted s) (tn_ws t); Some (MkTunnel (tn_udp t) (tn_client t) y ws)
  | _ => None
  end.

Definition server_sends (t : tunnel) : option tunnel :=
  match (poll_recv (wv_datagram_send (tn_ws t))).2 with
  | Ready (Some d) =>
      '(ws, _) ← ws_step SendDatagramBranch (tn_ws t);
      Some (MkTunnel (tn_udp t) (tn_client t) (send_datagram d (tn_server t)).1 ws)
  | _ => None
  end.

(** The forwarder [i] received [data] from its target. *)
Definition forwarder_replies (i : nat) (data : bytes) (t : tunnel) : option (tunnel * list tunnel_obs) :=
  match wv_jobs (tn_ws t) !! i with
  | Some (UdpJob first _) =>
      let d := reply_frame first data in
      '(ws, _) ← ws_step (ForwarderSends d) (tn_ws t);
      Some (MkTunnel (tn_udp t) (tn_client t) (tn_server t) ws, [Replied d])
  | _ => None
  end.

(** What a handler added to the channel. *)
Definition queued_since (before after : C MuxDatagram) : list MuxDatagram := drop (length (queue before)) (queue after).

Definition handler_step (u : udp_state Socket C) (t : tunnel) : tunnel * list tunnel_obs :=
  (MkTunnel u (tn_client t) (tn_server t) (tn_ws t), map Queued (queued_since (us_tx (tn_udp t)) (us_tx u))).

Definition ws_only (e : ws_event) (t : tunnel) : option (tunnel * list tunnel_obs) :=
  '(ws, _) ← ws_step e (tn_ws t); Some (MkTunnel (tn_udp t) (tn_client t) (tn_server t) ws, []).

(** One step; [None] when it cannot happen or ends the tunnel. *)
Definition tunnel_step (e : tunnel_event) (t : tunnel) : option (tunnel * list tunnel_obs) :=
  let silent (o : option tunnel) := t' ← o; Some (t', []) in
  match e with
  | PacketReceived socket rhost rport r =>
      Some (handler_step (handle_udp_step local_addr socket rhost rport r (tn_udp t)).1 t)
  | RelayReceived socket r => Some (handler_step (udp_relay_step local_addr socket r (tn_udp t)).1 t)
  | Pruned now order =>
      match prune_udp_clients now (order (map_to_list (client_id_map (us_maps (tn_udp t))))) (us_maps (tn_udp t)) with
      | Ok m => Some (MkTunnel (MkUdp m (us_tx (tn_udp t))) (tn_client t) (tn_server t) (tn_ws t), [])
      | _ => None
      end
  | ClientSends => silent (client_sends t)
  | ToServer => silent ('(x, y) ← transfer (tn_client t) (tn_server t); Some (MkTunnel (tn_udp t) x y (tn_ws t)))
  | ServerTakes => server_takes t
  | ServerAccepts => silent (server_accepts t)
  | ForwarderReads i => ws_only (ForwarderTakes i) t
  | ForwarderReplies i data => forwarder_replies i data t
  | JobFinished i => ws_only (JobEnds i) t
  | ServerSends => silent (server_sends t)
  | ToClient => silent ('(y, x) ← transfer (tn_server t) (tn_client t); Some (MkTunnel (tn_udp t) x y (tn_ws t)))
  | ClientTakes => client_takes t
  | ClientOp op =>
      if is_quiet_op op then Some (MkTunnel (tn_udp t) (run_op op (tn_client t)).1 (tn_server t) (tn_ws t), []) else None
  | ServerOp op =>
      if is_quiet_op op then Some (MkTunnel (tn_udp t) (tn_client t) (run_op op (tn_server t)).1 (tn_ws t), []) else None
  end.

Fixpoint tunnel_run (events : list tunnel_event) (t : tunnel) : option (tunnel * list tunnel_obs) :=
  match events with
  | [] => Some (t, [])
  | e :: rest =>
      '(t1, obs) ← tunnel_step e t;
      '(t2, more) ← tunnel_run rest t1;
      Some (t2, obs ++ more)
  end.

(** ** Reference notions *)

Definition queued (obs : list tunnel_obs) : list MuxDatagram :=
  flat_map (fun o => match o with Queued d => [d] | _ => [] end) obs.
Definition dispatched (obs : list tunnel_obs) : list MuxDatagram :=
  flat_map (fun o => match o with Dispatched d => [d] | _ => [] end) obs.
Definition replied (obs : list tunnel_obs) : list MuxDatagram :=
  flat_map (fun o => match o with Replied d => [d] | _ => [] end) obs.
Definition returned (obs : list tunnel_obs) : list MuxDatagram :=
  flat_map (fun o => match o with Returned d _ => [d] | _ => [] end) obs.

(** The datagrams under way, the oldest first. *)
Definition going_up (t : tunnel) : list MuxDatagram :=
  queue (mx_datagrams (tn_server t)) ++ dgrams (mx_tx_frame (tn_client t)) ++ queue (us_tx (tn_udp t)).
Definition going_down (t : tunnel) : list MuxDatagram :=
  queue (mx_datagrams (tn_client t)) ++ dgrams (mx_tx_frame (tn_server t)) ++ queue (wv_datagram_send (tn_ws t)).

(** Sockets are bound, draws come from the generator, packets are octets and
    ports are ports; the order of a map is some order of its entries. *)
Definition recv_ok (r : udp_recv) : Prop :=
  recv_valid r /\ match r with Received _ _ data _ => bytes_ok data | RecvFailed _ => True end.

Definition event_ok (e : tunnel_event) : Prop :=
  match e with
  | PacketReceived socket _ rport r => is_Some (local_addr socket) /\ u16_ok rport /\ recv_ok r
  | RelayReceived socket r => is_Some (local_addr socket) /\ recv_ok r
  | Pruned _ order => forall l, order l ≡ₚ l
  | _ => True
  end.

Record tunnel_wf (t : tunnel) : Prop := {
  tw_maps : maps_wf local_addr (us_maps (tn_udp t));
  tw_up : Forall dg_ok (going_up t);
  tw_down : Forall dg_ok (going_down t);
  tw_jobs : forall first chan, UdpJob first chan ∈ wv_jobs (tn_ws t) -> dg_ok first;
}.

(** The reply of a forwarder answers the datagram it was started with. *)
Definition answers (first d : MuxDatagram) : Prop :=
  dg_flow_id d = dg_flow_id first /\ dg_target_host d = dg_target_host first /\ dg_target_port d = dg_target_port first.

(** An empty channel with room; a tunnel with nothing under way. *)
Definition idle_queue {A} (c : C A) : Prop := queue c = [] /\ rx_open c = true /\ chan_full (chan_view c) = false.

Definition idle_mux {S} (x : Mux C O W S) : Prop :=
  mux_live x /\ queue (mx_tx_frame x) = [] /\ idle_queue (mx_datagrams x).

Definition idle_ws (ws : @ws_state C MuxStream) : Prop :=
  wv_mux_open ws = true /\ wv_udp_clients ws = ∅ /\ wv_jobs ws = [] /\ idle_queue (wv_datagram_send ws).

Record tunnel_idle (t : tunnel) : Prop := {
  ti_maps : maps_wf local_addr (us_maps (tn_udp t));
  ti_tx : idle_queue (us_tx (tn_udp t));
  ti_client : idle_mux (tn_client t);
  ti_server : idle_mux (tn_server t);
  ti_ws : idle_ws (tn_ws t);
}.

(** ** Lemmas *)

Lemma recv_queue {A} (c c' : C A) a : poll_recv c = (c', Ready (Some a)) -> queue c = a :: queue c'.
Proof.
  intros H. pose proof (view_poll_recv _ c) as Hv. pose proof (res_poll_recv _ c) as Hr. rewrite H in Hv, Hr. cbn in Hv, Hr.
  unfold spec_recv in Hv, Hr. destruct (queue c) as [|b q]; cbn in Hv, Hr; [now destruct (_ && _)|]. injection Hr as ->. now rewrite Hv.
Qed.

Lemma try_send_sublist {A} (a : A) (c : C A) : exists ds, queue (try_send a c).1 = queue c ++ ds /\ sublist ds [a].
Proof.
  rewrite view_try_send, spec_send_queue. destruct (spec_send a (chan_view c)).2.
  - exists []. split; [now rewrite app_nil_r|apply sublist_nil_l].
  - now exists [a].
Qed.

Lemma get_datagram_head {S} (x y : Mux C O W S) d :
  get_datagram x = (y, Ret d) -> queue (mx_datagrams x) = d :: queue (mx_datagrams y) /\ mx_tx_frame y = mx_tx_frame x.
Proof.
  unfold get_datagram. destruct (poll_recv (mx_datagrams x)) as [q [[a|]|]] eqn:Hq; cbn; intros [= <- <-]; [|easy..].
  split; [|easy]. now apply recv_queue in Hq.
Qed.

(** A message that crosses: what the receiver gets was at the head. *)
Lemma transfer_spec {S S'} (a a' : Mux C O W S) (b b' : Mux C O W S') :
  transfer a b = Some (a', b') ->
  mx_datagrams a' = mx_datagrams a /\ dgrams (mx_tx_frame b') = dgrams (mx_tx_frame b)
  /\ exists ds es, queue (mx_datagrams b') = queue (mx_datagrams b) ++ ds /\ sublist ds es
     /\ dgrams (mx_tx_frame a) = es ++ dgrams (mx_tx_frame a').
Proof.
  unfold transfer. destruct (poll_recv (mx_tx_frame a)) as [tx [[e|]|]] eqn:Htx; try easy. intros H.
  pose proof (process_message_dgrams e false b) as Hp. cbv zeta in Hp.
  assert (Hab : a' = set_tx a tx /\ b' = (process_message (MsgBinary e) false b).1).
  { destruct (process_message _ _ b) as [y []]; try discriminate; now injection H as <- <-. }
  destruct Hab as [-> ->], Hp as (H1 & ds & H2 & H3). split; [easy|]. split; [exact H1|]. exists ds, (dgram_of e).
  split; [exact H2|]. split; [exact H3|]. unfold dgrams. now rewrite (recv_queue _ _ _ Htx).
Qed.

(** The identifier a handler gives to a datagram. *)
Lemma client_id_ok m key id : maps_wf local_addr m -> client_addr_map m !! key = Some id -> u32_ok id.
Proof.
  intros Hm Hk. destruct (wf_backward _ _ Hm _ _ Hk) as (e & He & _). exact (valid_draw_u32 _ (wf_ids _ _ Hm _ _ He)).
Qed.

Definition handled (u u' : udp_state Socket C) : Prop :=
  maps_wf local_addr (us_maps u') /\ exists ds, queue (us_tx u') = queue (us_tx u) ++ ds /\ Forall dg_ok ds.

Lemma handled_refl u : maps_wf local_addr (us_maps u) -> handled u u.
Proof. intros Hm. split; [easy|]. exists []. split; [now rewrite app_nil_r|apply Forall_nil_2]. Qed.

Lemma forward_handled draws now addr socket socks5 host port data u :
  maps_wf local_addr (us_maps u) -> is_Some (local_addr socket) -> Forall valid_draw draws -> u16_ok port ->
  handled u (forward_datagram local_addr draws now addr socket socks5 host port data u).1.
Proof.
  intros Hm [our Hs] Hd Hp.
  pose proof (forward_datagram_spec local_addr draws now addr socket our socks5 host port data u Hm Hd Hs) as H.
  destruct (forward_datagram _ _ _ _ _ _ _ _ _ u) as [u' r]. destruct H as (Hm' & _ & _ & ds & Hq & Hds). split; [exact Hm'|].
  exists ds. split; [exact Hq|]. destruct r as [[]| |]; [|subst ds; apply Forall_nil_2..].
  destruct Hds as (id & -> & Hid). apply Forall_cons_2; [|apply Forall_nil_2]. split; [exact (client_id_ok _ _ _ Hm' Hid)|exact Hp].
Qed.

Lemma plain_handled socket rhost rport r u :
  maps_wf local_addr (us_maps u) -> is_Some (local_addr socket) -> u16_ok rport -> recv_ok r ->
  handled u (handle_udp_step local_addr socket rhost rport r u).1.
Proof.
  intros Hm Hs Hp [Hr _]. destruct r as [draws now data addr|e]; [|now apply handled_refl]. now apply forward_handled.
Qed.

Lemma relay_handled socket r u :
  maps_wf local_addr (us_maps u) -> is_Some (local_addr socket) -> recv_ok r ->
  handled u (udp_relay_step local_addr socket r u).1.
Proof.
  intros Hm Hs [Hr Hb]. destruct r as [draws now data addr|e]; [|now apply handled_refl]. cbn [udp_relay_step].
  assert (Ht : bytes_ok (truncate data)) by (unfold bytes_ok, truncate; now apply Forall_take).
  destruct (relay_header_cases _ Ht) as [->|[[_ ->]|(dst & port & payload & (rsv & a & _ & _ & _ & Hp & _) & ->)]];
    [now apply handled_refl..|now apply forward_handled].
Qed.

Lemma queued_since_app (before after : C MuxDatagram) ds : queue after = queue before ++ ds -> queued_since before after = ds.
Proof. intros H. unfold queued_since. rewrite H. apply drop_app_length. Qed.

Lemma queued_map ds : queued (map Queued ds) = ds.
Proof. induction ds as [|d ds IH]; [easy|]. cbn. now f_equal. Qed.

Lemma others_queued ds : dispatched (map Queued ds) = [] /\ replied (map Queued ds) = [] /\ returned (map Queued ds) = [].
Proof. induction ds as [|d ds IH]; [easy|]. exact IH. Qed.

(** *** The loop of the server *)

(** The jobs and the channel from the forwarders after an event. *)
Definition ws_moved (started replies : list MuxDatagram) (ws ws' : @ws_state C MuxStream) : Prop :=
  (forall first chan, UdpJob first chan ∈ wv_jobs ws' -> UdpJob first chan ∈ wv_jobs ws \/ first ∈ started)
  /\ sublist (queue (wv_datagram_send ws')) (queue (wv_datagram_send ws) ++ replies).

Lemma ws_moved_same ws ws' :
  wv_jobs ws' = wv_jobs ws -> queue (wv_datagram_send ws') = queue (wv_datagram_send ws) -> ws_moved [] [] ws ws'.
Proof. intros Hj Hq. split; [rewrite Hj; auto|]. now rewrite Hq, app_nil_r. Qed.

Lemma dispatch_moved d ws : ws_moved [d] [] ws (dispatch_datagram d ws).
Proof.
  unfold dispatch_datagram. destruct (wv_udp_clients ws !! dg_flow_id d) as [chan|].
  - assert (Hsame : forall ws', wv_jobs ws' = wv_jobs ws -> wv_datagram_send ws' = wv_datagram_send ws -> ws_moved [d] [] ws ws').
    { intros ws' Hj Hq. split; [rewrite Hj; auto|]. now rewrite Hq, app_nil_r. }
    destruct (wv_chans ws !! chan) as [c|]; [|now apply Hsame]. destruct (try_send d c) as [c' [[]|]]; now apply Hsame.
  - split; cbn; [|now rewrite app_nil_r]. intros first chan [Hj|Hj]%list_elem_of_In%in_app_or; [left; now apply list_elem_of_In|].
    destruct Hj as [[= <- <-]|[]]. right. left.
Qed.

Lemma ws_moved_step e ws ws' status :
  ws_step e ws = Some (ws', status) ->
  ws_moved (match e with DatagramReceived d => [d] | _ => [] end) (match e with ForwarderSends d => [d] | _ => [] end) ws ws'.
Proof.
  destruct e as [i|st|d| | |d|i|]; cbn [ws_step].
  - destruct (wv_jobs ws !! i) as [j|] eqn:Hj; [|easy]. cbn [mbind option_bind]. intros [= <- _].
    assert (H : ws_moved [] [] ws (set_jobs (delete i (wv_jobs ws)) ws)).
    { split; [|cbn; now rewrite app_nil_r]. intros first chan Hin. left. cbn in Hin.
      eapply elem_of_sublist, sublist_delete. exact Hin. }
    now destruct j.
  - case_bool; [|easy]. intros [= <- _]. split; [|cbn; now rewrite app_nil_r].
    intros first chan [Hj|[Hj|[]]]%list_elem_of_In%in_app_or; [left; now apply list_elem_of_In|easy].
  - case_bool; [|easy]. intros [= <- _]. apply dispatch_moved.
  - destruct (poll_recv (wv_datagram_send ws)) as [c [[d|]|]] eqn:Hc; try easy. intros [= <- _]. split; [now left|].
    cbn. rewrite (recv_queue _ _ _ Hc), app_nil_r. now apply sublist_cons.
  - case_bool; [|easy]. intros [= <- _]. now apply ws_moved_same.
  - destruct (wv_jobs ws) as [|j jobs] eqn:Hj; [easy|]. intros [= <- _]. split; [now left|]. cbn.
    destruct (try_send_sublist d (wv_datagram_send ws)) as (ds & -> & Hds). now apply sublist_app.
  - destruct (wv_jobs ws !! i) as [[|first chan]|]; try easy. intros [= <- _]. now apply ws_moved_same.
  - intros [= <- _]. now apply ws_moved_same.
Qed.

(** *** One step *)

Definition moved (t t' : tunnel) (obs : list tunnel_obs) : Prop :=
  maps_wf local_addr (us_maps (tn_udp t'))
  /\ sublist (dispatched obs ++ going_up t') (going_up t ++ queued obs)
  /\ sublist (returned obs ++ going_down t') (going_down t ++ replied obs)
  /\ Forall dg_ok (queued obs)
  /\ (forall first chan, UdpJob first chan ∈ wv_jobs (tn_ws t') -> UdpJob first chan ∈ wv_jobs (tn_ws t) \/ first ∈ dispatched obs)
  /\ (forall d, d ∈ replied obs -> exists first chan, UdpJob first chan ∈ wv_jobs (tn_ws t) /\ answers first d).

(** A step without observations that leaves the jobs alone. *)
Lemma moved_silent t t' :
  maps_wf local_addr (us_maps (tn_udp t')) -> sublist (going_up t') (going_up t) -> sublist (going_down t') (going_down t) ->
  ws_moved [] [] (tn_ws t) (tn_ws t') -> moved t t' [].
Proof.
  intros Hm Hu Hd [Hj _]. unfold moved. cbn. rewrite !app_nil_r. now split_and!.
Qed.

Lemma moved_handler u t : tunnel_wf t -> handled (tn_udp t) u -> moved t (handler_step u t).1 (handler_step u t).2.
Proof.
  intros Ht (Hm & ds & Hq & Hok). cbn [handler_step fst snd]. rewrite (queued_since_app _ _ ds Hq).
  destruct (others_queued ds) as (Hd & Hr & Hret). unfold moved. rewrite queued_map, Hd, Hr, Hret. cbn [app].
  split_and!; try easy.
  - unfold going_up. cbn. now rewrite Hq, <- !app_assoc.
  - now rewrite app_nil_r.
  - auto.
Qed.

Lemma moved_client_sends t t' : tunnel_wf t -> client_sends t = Some t' -> moved t t' [].
Proof.
  intros Ht. unfold client_sends. destruct (poll_recv (us_tx (tn_udp t))) as [tx [[d|]|]] eqn:Htx; try easy. intros [= <-].
  pose proof (recv_queue _ _ _ Htx) as Hq. assert (Hd : dg_ok d).
  { pose proof (tw_up _ Ht) as Hup. unfold going_up in Hup. rewrite Hq in Hup.
    apply Forall_app in Hup as [_ [_ Hup]%Forall_app]. now apply Forall_cons_iff in Hup. }
  destruct (send_datagram_dgrams d (tn_client t) Hd) as (Hg & ds & Hds & Hsub & _).
  apply moved_silent; [apply (tw_maps _ Ht)| | |now apply ws_moved_same].
  - unfold going_up. cbn. rewrite Hds, Hq, <- app_assoc. do 2 (apply sublist_app; [easy|]).
    now apply (sublist_app ds [d]).
  - unfold going_down. cbn. now rewrite Hg.
Qed.

Lemma moved_server_sends t t' : tunnel_wf t -> server_sends t = Some t' -> moved t t' [].
Proof.
  intros Ht. unfold server_sends. destruct (poll_recv (wv_datagram_send (tn_ws t))) as [c [[d|]|]] eqn:Hc; try easy.
  cbn [snd ws_step]. rewrite Hc. cbn [mbind option_bind]. intros [= <-]. pose proof (recv_queue _ _ _ Hc) as Hq.
  assert (Hd : dg_ok d).
  { pose proof (tw_down _ Ht) as Hdn. unfold going_down in Hdn. rewrite Hq in Hdn.
    apply Forall_app in Hdn as [_ [_ Hdn]%Forall_app]. now apply Forall_cons_iff in Hdn. }
  destruct (send_datagram_dgrams d (tn_server t) Hd) as (Hg & ds & Hds & Hsub & _). apply moved_silent.
  - apply (tw_maps _ Ht).
  - unfold going_up. cbn. now rewrite Hg.
  - unfold going_down. cbn. rewrite Hds, Hq, <- app_assoc. do 2 (apply sublist_app; [easy|]).
    now apply (sublist_app ds [d]).
  - split; [now left|]. cbn. rewrite app_nil_r, Hq. now apply sublist_cons.
Qed.

(** A message moves what is on the wire. *)
Lemma moved_middle {A} (ds es d g g' u : list A) : sublist ds es -> g = es ++ g' -> sublist ((d ++ ds) ++ g' ++ u) (d ++ g ++ u).
Proof. intros Hs ->. rewrite <- !app_assoc. do 2 (apply sublist_app; [easy|]). easy. Qed.

Lemma moved_to_server t x y :
  tunnel_wf t -> transfer (tn_client t) (tn_server t) = Some (x, y) -> moved t (MkTunnel (tn_udp t) x y (tn_ws t)) [].
Proof.
  intros Ht (Ha & Hb & ds & es & Hq & Hs & Hg)%transfer_spec. apply moved_silent; [apply (tw_maps _ Ht)| | |now apply ws_moved_same].
  - unfold going_up. cbn. rewrite Hq. now apply (moved_middle ds es).
  - unfold going_down. cbn. now rewrite Ha, Hb.
Qed.

Lemma moved_to_client t x y :
  tunnel_wf t -> transfer (tn_server t) (tn_client t) = Some (y, x) -> moved t (MkTunnel (tn_udp t) x y (tn_ws t)) [].
Proof.
  intros Ht (Ha & Hb & ds & es & Hq & Hs & Hg)%transfer_spec. apply moved_silent; [apply (tw_maps _ Ht)| | |now apply ws_moved_same].
  - unfold going_up. cbn. now rewrite Ha, Hb.
  - unfold going_down. cbn. rewrite Hq. now apply (moved_middle ds es).
Qed.

Lemma moved_server_takes t t' obs : tunnel_wf t -> server_takes t = Some (t', obs) -> moved t t' obs.
Proof.
  intros Ht. unfold server_takes. destruct (get_datagram (tn_server t)) as [y [d| | |]] eqn:Hg; try easy.
  destruct (ws_step (DatagramReceived d) (tn_ws t)) as [[ws status]|] eqn:Hws; [|easy]. cbn [mbind option_bind]. intros [= <- <-].
  apply get_datagram_head in Hg as [Hq Htx]. apply ws_moved_step in Hws as [Hj Hs]. cbn in Hj, Hs. rewrite app_nil_r in Hs.
  unfold moved. cbn. rewrite !app_nil_r. split_and!; try easy.
  - apply (tw_maps _ Ht).
  - unfold going_up. cbn. now rewrite Hq.
  - unfold going_down. cbn. rewrite Htx. now do 2 (apply sublist_app; [easy|]).
Qed.

Lemma moved_server_accepts t t' : tunnel_wf t -> server_accepts t = Some t' -> moved t t' [].
Proof.
  intros Ht. unfold server_accepts. pose proof (quiet_accept (tn_server t)) as [Hg Hd].
  destruct (accept_stream_channel (tn_server t)) as [y [st| | |]]; try easy.
  destruct (ws_step (StreamAccepted st) (tn_ws t)) as [[ws status]|] eqn:Hws; [|easy]. cbn [mbind option_bind]. intros [= <-].
  apply ws_moved_step in Hws. cbn [fst] in *. apply moved_silent; [apply (tw_maps _ Ht)| | |exact Hws]; destruct Hws as [_ Hs].
  - unfold going_up. cbn. now rewrite Hd.
  - unfold going_down. cbn. rewrite Hg. rewrite app_nil_r in Hs. now do 2 (apply sublist_app; [easy|]).
Qed.

Lemma moved_ws_only e t t' obs :
  (match e with DatagramReceived _ | ForwarderSends _ => False | _ => True end) ->
  tunnel_wf t -> ws_only e t = Some (t', obs) -> moved t t' obs.
Proof.
  intros He Ht. unfold ws_only. destruct (ws_step e (tn_ws t)) as [[ws status]|] eqn:Hws; [|easy].
  cbn [mbind option_bind]. intros [= <- <-]. apply ws_moved_step in Hws.
  assert (Hm : ws_moved [] [] (tn_ws t) ws) by now destruct e. apply moved_silent; [apply (tw_maps _ Ht)|easy| |exact Hm].
  destruct Hm as [_ Hs]. rewrite app_nil_r in Hs. now do 2 (apply sublist_app; [easy|]).
Qed.

Lemma moved_forwarder_replies i data t t' obs : tunnel_wf t -> forwarder_replies i data t = Some (t', obs) -> moved t t' obs.
Proof.
  intros Ht. unfold forwarder_replies. destruct (wv_jobs (tn_ws t) !! i) as [[|first chan]|] eqn:Hi; try easy. cbv zeta.
  destruct (ws_step _ (tn_ws t)) as [[ws status]|] eqn:Hws; [|easy]. cbn [mbind option_bind]. intros [= <- <-].
  apply ws_moved_step in Hws as [Hj Hs]. unfold moved. cbn. rewrite !app_nil_r. split_and!; try easy.
  - apply (tw_maps _ Ht).
  - unfold going_down. cbn. rewrite <- !app_assoc. now do 2 (apply sublist_app; [easy|]).
  - intros d [->|H]%list_basics.list.elem_of_cons; [|now apply elem_of_nil in H]. exists first, chan.
    split; [exact (list_elem_of_lookup_2 _ _ _ Hi)|easy].
Qed.

Lemma moved_client_takes t t' obs : tunnel_wf t -> client_takes t = Some (t', obs) -> moved t t' obs.
Proof.
  intros Ht. unfold client_takes. destruct (get_datagram (tn_client t)) as [x [d| | |]] eqn:Hg; try easy. intros [= <- <-].
  apply get_datagram_head in Hg as [Hq Htx]. unfold moved. cbn. rewrite !app_nil_r. split_and!; try easy; auto.
  - apply (tw_maps _ Ht).
  - unfold going_up. cbn. now rewrite Htx.
  - unfold going_down. cbn. now rewrite Hq.
Qed.

Lemma moved_step e t t' obs : tunnel_wf t -> event_ok e -> tunnel_step e t = Some (t', obs) -> moved t t' obs.
Proof.
  assert (Hsilent : forall (o : option tunnel), (forall t', o = Some t' -> moved t t' []) ->
    (t' ← o; Some (t', [])) = Some (t', obs) -> moved t t' obs).
  { intros [t1|] Ho; [|easy]. cbn. intros [= <- <-]. now apply Ho. }
  intros Ht He. destruct e as [socket rhost rport r|socket r|now order| | | | |i|i data|i| | | |op|op]; cbn [tunnel_step event_ok] in *.
  - intros [= <- <-]. destruct He as (? & ? & ?). apply moved_handler; [easy|]. apply plain_handled; try easy. apply (tw_maps _ Ht).
  - intros [= <- <-]. destruct He. apply moved_handler; [easy|]. apply relay_handled; try easy. apply (tw_maps _ Ht).
  - destruct (prune_spec local_addr now _ _ (tw_maps _ Ht) (He _)) as (m & -> & Hm & _). intros [= <- <-].
    apply moved_silent; [exact Hm|easy|easy|]. now apply ws_moved_same.
  - apply Hsilent. intros. now apply moved_client_sends.
  - apply Hsilent. intros t1 H. destruct (transfer _ _) as [[x y]|] eqn:Hx; [|easy]. injection H as <-. now apply moved_to_server.
  - now apply moved_server_takes.
  - apply Hsilent. intros. now apply moved_server_accepts.
  - now apply moved_ws_only.
  - now apply moved_forwarder_replies.
  - now apply moved_ws_only.
  - apply Hsilent. intros. now apply moved_server_sends.
  - apply Hsilent. intros t1 H. destruct (transfer _ _) as [[y x]|] eqn:Hx; [|easy]. injection H as <-. now apply moved_to_client.
  - now apply moved_client_takes.
  - destruct (is_quiet_op op) eqn:Hop; [|easy]. intros [= <- <-]. destruct (quiet_run_op op Hop (tn_client t)) as [Hg Hd].
    apply moved_silent; [apply (tw_maps _ Ht)| | |now apply ws_moved_same]; unfold going_up, going_down; cbn; now rewrite ?Hg, ?Hd.
  - destruct (is_quiet_op op) eqn:Hop; [|easy]. intros [= <- <-]. destruct (quiet_run_op op Hop (tn_server t)) as [Hg Hd].
    apply moved_silent; [apply (tw_maps _ Ht)| | |now apply ws_moved_same]; unfold going_up, going_down; cbn; now rewrite ?Hg, ?Hd.
Qed.

(** *** Runs *)

Lemma Forall_sublist {A} (P : A -> Prop) xs ys : sublist xs ys -> Forall P ys -> Forall P xs.
Proof. intros Hs. rewrite !Forall_forall. intros H x Hx%list_elem_of_In. apply H, list_elem_of_In. now apply (elem_of_sublist xs ys x). Qed.

Lemma moved_wf t t' obs :
  tunnel_wf t -> moved t t' obs -> tunnel_wf t' /\ Forall dg_ok (dispatched obs) /\ Forall dg_ok (replied obs).
Proof.
  intros Ht (Hm & Hu & Hd & Hq & Hj & Hr).
  assert (Hok : Forall dg_ok (dispatched obs ++ going_up t')).
  { eapply Forall_sublist; [exact Hu|]. apply Forall_app. split; [apply (tw_up _ Ht)|exact Hq]. }
  assert (Hrep : Forall dg_ok (replied obs)).
  { apply Forall_forall. intros d Hin. apply list_elem_of_In in Hin. destruct (Hr d Hin) as (first & chan & Hfirst & Ha & _ & Hp).
    destruct (tw_jobs _ Ht _ _ Hfirst). unfold dg_ok. now rewrite Ha, Hp. }
  apply Forall_app in Hok as [Hdisp Hup]. split; [|easy]. split; [exact Hm|exact Hup| |].
  - assert (H : Forall dg_ok (returned obs ++ going_down t')); [|now apply Forall_app in H].
    eapply Forall_sublist; [exact Hd|]. apply Forall_app. split; [apply (tw_down _ Ht)|exact Hrep].
  - intros first chan Hin. destruct (Hj _ _ Hin) as [H|H]; [exact (tw_jobs _ Ht _ _ H)|].
    rewrite Forall_forall in Hdisp. now apply Hdisp, list_elem_of_In.
Qed.

(** Two stretches of a flow. *)
Lemma sublist_chain {A} (p0 p1 p2 q1 q2 o1 o2 : list A) :
  sublist (o1 ++ p1) (p0 ++ q1) -> sublist (o2 ++ p2) (p1 ++ q2) -> sublist ((o1 ++ o2) ++ p2) (p0 ++ q1 ++ q2).
Proof.
  intros H1 H2. rewrite <- app_assoc. etransitivity; [apply sublist_app; [reflexivity|exact H2]|].
  rewrite !app_assoc. apply sublist_app; [exact H1|reflexivity].
Qed.

Lemma obs_app (a b : list tunnel_obs) :
  queued (a ++ b) = queued a ++ queued b /\ dispatched (a ++ b) = dispatched a ++ dispatched b
  /\ replied (a ++ b) = replied a ++ replied b /\ returned (a ++ b) = returned a ++ returned b.
Proof. unfold queued, dispatched, replied, returned. now rewrite !flat_map_app. Qed.

Lemma tunnel_run_moved events t t' log :
  tunnel_wf t -> Forall event_ok events -> tunnel_run events t = Some (t', log) ->
  tunnel_wf t'
  /\ sublist (dispatched log ++ going_up t') (going_up t ++ queued log)
  /\ sublist (returned log ++ going_down t') (going_down t ++ replied log)
  /\ (forall first chan, UdpJob first chan ∈ wv_jobs (tn_ws t') -> UdpJob first chan ∈ wv_jobs (tn_ws t) \/ first ∈ dispatched log)
  /\ (forall d, d ∈ replied log -> exists first, ((exists chan, UdpJob first chan ∈ wv_jobs (tn_ws t)) \/ first ∈ dispatched log) /\ answers first d).
Proof.
  intros Ht Hev. revert t t' log Ht. induction Hev as [|e events He _ IH]; intros t t' log Ht; cbn [tunnel_run].
  { intros [= <- <-]. cbn. rewrite !app_nil_r. split_and!; auto; intros d H; now apply elem_of_nil in H. }
  destruct (tunnel_step e t) as [[t1 obs]|] eqn:Hs; [|easy]. cbn [mbind option_bind].
  destruct (tunnel_run events t1) as [[t2 more]|] eqn:Hr; [|easy]. cbn [mbind option_bind]. intros [= <- <-].
  pose proof (moved_step e t t1 obs Ht He Hs) as Hm. pose proof (moved_wf _ _ _ Ht Hm) as (Ht1 & _).
  destruct Hm as (_ & Hu & Hd & _ & Hj & Hrep). destruct (IH t1 t2 more Ht1 Hr) as (Ht2 & Hu2 & Hd2 & Hj2 & Hrep2).
  destruct (obs_app obs more) as (-> & -> & -> & ->). split_and!; [easy| | | |].
  - now apply (sublist_chain _ (going_up t1)).
  - now apply (sublist_chain _ (going_down t1)).
  - intros first chan H. destruct (Hj2 _ _ H) as [H1|H1]; [|right; apply elem_of_app; now right].
    destruct (Hj _ _ H1); [now left|]. right. apply elem_of_app. now left.
  - intros d [H|H]%elem_of_app.
    + destruct (Hrep d H) as (first & chan & Hf & Ha). exists first. split; [left; now exists chan|easy].
    + destruct (Hrep2 d H) as (first & [[chan Hf]|Hf] & Ha); exists first; (split; [|easy]).
      * destruct (Hj _ _ Hf) as [H1|H1]; [left; now exists chan|]. right. apply elem_of_app. now left.
      * right. apply elem_of_app. now right.
Qed.

(** *** A packet and its answer *)

Lemma send_idle {A} (a : A) (c : C A) : idle_queue c -> exists c', try_send a c = (c', None) /\ queue c' = [a].
Proof.
  intros (Hq & Ho & Hf). pose proof (view_try_send _ a c) as Hv. pose proof (res_try_send _ a c) as Hr.
  rewrite (spec_send_ok _ _ Ho Hf) in Hv, Hr. destruct (try_send a c) as [c' r]. cbn in Hv, Hr. subst r.
  exists c'. split; [easy|]. rewrite Hv. cbn. now rewrite Hq.
Qed.

Lemma recv_head {A} (a : A) q (c : C A) : queue c = a :: q -> exists c', poll_recv c = (c', Ready (Some a)) /\ queue c' = q.
Proof.
  intros Hq. pose proof (view_poll_recv _ c) as Hv. pose proof (res_poll_recv _ c) as Hr. unfold spec_recv in Hv, Hr.
  rewrite Hq in Hv, Hr. destruct (poll_recv c) as [c' r]. cbn in Hv, Hr. subst r. exists c'. now rewrite Hv.
Qed.

(** What the receiver makes of the encoding of a datagram. *)
Lemma process_datagram {S} d (x : Mux C O W S) :
  dg_ok d -> crosses d = true -> idle_queue (mx_datagrams x) ->
  exists q, process_message (MsgBinary (encoded (frame_of d))) false x = (set_queues x (mx_con_recv x) q (mx_bnd x), Ret false)
    /\ queue q = [d].
Proof.
  intros Hd Hc Hi. pose proof Hc as Hc'. unfold crosses in Hc'. bool_prop.
  pose proof (dgram_of_datagram d Hd ltac:(lia)) as Hg. rewrite Hc in Hg. unfold dgram_of in Hg.
  destruct (frame_try_from (encoded (frame_of d))) as [[id [| | | | | |dd]]| |] eqn:Hf; try easy. injection Hg as Hg.
  destruct (send_idle d _ Hi) as (q & Hs & Hq). exists q. split; [|exact Hq].
  unfold process_message, mbind, M_bind, lift. rewrite Hf. cbn [map_err]. unfold process_frame, mbind, M_bind, get.
  cbn [frame_payload frame_id]. rewrite Hg, Hs. reflexivity.
Qed.

(** One leg: sent by one side, taken by the user of the other. *)
Lemma leg {S S'} d (a : Mux C O W S) (b : Mux C O W S') :
  dg_ok d -> crosses d = true -> mux_live a -> queue (mx_tx_frame a) = [] -> idle_queue (mx_datagrams b) ->
  exists a' b1 b', transfer (send_datagram d a).1 b = Some (a', b1) /\ get_datagram b1 = (b', Ret d)
    /\ mx_datagrams a' = mx_datagrams a /\ mx_tx_frame b' = mx_tx_frame b.
Proof.
  intros Hd Hc Hl Hq Hi. destruct (process_datagram d b Hd Hc Hi) as (q & Hp & Hqq). unfold crosses in Hc. bool_prop.
  assert (He : encodable (frame_of d)) by (unfold encodable; cbn; unfold cow_len; cbn; lia).
  unfold send_datagram. destruct (Z.ltb_spec 255 (blen (dg_target_host d))); [lia|]. fold (frame_of d).
  unfold mbind, M_bind. destruct (send_frame_live (frame_of d) a He Hl) as (tx & -> & Htx & _). rewrite Hq in Htx.
  cbn [app] in Htx. cbn [fst mret M_ret]. unfold transfer. change (mx_tx_frame (set_tx a tx)) with tx.
  destruct (recv_head _ _ tx Htx) as (tx' & -> & _). rewrite Hp.
  destruct (recv_head _ _ q Hqq) as (q' & Hq' & _).
  exists (set_tx (set_tx a tx) tx'), (set_queues b (mx_con_recv b) q (mx_bnd b)), (set_queues b (mx_con_recv b) q' (mx_bnd b)).
  split; [easy|]. split; [|easy]. unfold get_datagram. cbn [mx_datagrams set_queues]. now rewrite Hq'.
Qed.

(** A listener that can give its client an identifier queues the packet. *)
Definition client_has_id (draws : list Z) (key : SocketAddr * SocketAddr) (m : ClientIdMaps Socket) : Prop :=
  is_Some (client_addr_map m !! key) \/ is_Some (next_available_key draws (client_id_map m)).

Lemma received_once socket our rhost rport draws now data addr (u : udp_state Socket C) :
  maps_wf local_addr (us_maps u) -> idle_queue (us_tx u) -> local_addr socket = Some our -> Forall valid_draw draws ->
  client_has_id draws (addr, our) (us_maps u) ->
  exists u' id e, handle_udp_step local_addr socket rhost rport (Received draws now data addr) u = (u', Ok tt)
    /\ queue (us_tx u') = [MkMuxDatagram id rhost rport (truncate data)] /\ valid_draw id
    /\ client_id_map (us_maps u') !! id = Some e /\ e_peer_addr e = addr /\ local_addr (e_socket e) = Some our.
Proof.
  intros Hm Hi Hs Hd Hid. cbn [handle_udp_step]. unfold forward_datagram.
  pose proof (add_udp_client_spec local_addr draws now addr socket false (us_maps u) our Hm Hd Hs) as Hadd.
  destruct (add_udp_client local_addr draws now addr socket false (us_maps u)) as [[m' id]|[]|]; [| |easy].
  - destruct Hadd as (Hm' & _ & (e & He & Hk & _) & _).
    destruct (send_idle (MkMuxDatagram id rhost rport (truncate data)) _ Hi) as (tx & Hsend & Htx).
    exists (MkUdp m' tx), id, e. unfold send_datagram_tx. cbn [us_tx us_maps]. rewrite Hsend.
    injection Hk as Hpeer Hour. pose proof (wf_socket _ _ Hm' _ _ He) as Hsock. rewrite Hour in Hsock.
    pose proof (wf_ids _ _ Hm' _ _ He). easy.
  - destruct Hadd as [H1 H2]. destruct Hid as [Hid|Hid]; [rewrite H1 in Hid|rewrite H2 in Hid]; now destruct Hid.
Qed.

(** An idle loop of the server starts a forwarder for a datagram. *)
Lemma dispatch_idle d (ws : @ws_state C MuxStream) :
  idle_ws ws -> exists ws', ws_step (DatagramReceived d) ws = Some (ws', Looping)
    /\ wv_jobs ws' = [UdpJob d (wv_next_chan ws)] /\ wv_datagram_send ws' = wv_datagram_send ws /\ wv_mux_open ws' = true.
Proof.
  intros (Ho & Hc & Hj & _). cbn [ws_step]. rewrite Ho. unfold dispatch_datagram. rewrite Hc, lookup_empty, Hj. eauto.
Qed.

Lemma run_cons e rest t t1 t2 obs more :
  tunnel_step e t = Some (t1, obs) -> tunnel_run rest t1 = Some (t2, more) ->
  tunnel_run (e :: rest) t = Some (t2, obs ++ more).
Proof. intros H1 H2. cbn [tunnel_run]. rewrite H1. cbn [mbind option_bind]. now rewrite H2. Qed.

Definition packet_up (socket : Socket) (rhost : bytes) (rport : Z) (r : udp_recv) : list tunnel_event :=
  [PacketReceived socket rhost rport r; ClientSends; ToServer; ServerTakes].
Definition packet_down (i : nat) (data : bytes) : list tunnel_event := [ForwarderReplies i data; ServerSends; ToClient; ClientTakes].

Lemma goes_up t u d socket rhost rport r :
  handle_udp_step local_addr socket rhost rport r (tn_udp t) = (u, Ok tt) -> queue (us_tx u) = [d] ->
  queue (us_tx (tn_udp t)) = [] -> dg_ok d -> crosses d = true -> idle_mux (tn_client t) -> idle_mux (tn_server t) -> idle_ws (tn_ws t) ->
  exists t1, tunnel_run (packet_up socket rhost rport r) t = Some (t1, [Queued d; Dispatched d])
    /\ us_maps (tn_udp t1) = us_maps u /\ wv_jobs (tn_ws t1) = [UdpJob d (wv_next_chan (tn_ws t))]
    /\ wv_datagram_send (tn_ws t1) = wv_datagram_send (tn_ws t) /\ wv_mux_open (tn_ws t1) = true
    /\ mx_datagrams (tn_client t1) = mx_datagrams (tn_client t) /\ mx_tx_frame (tn_server t1) = mx_tx_frame (tn_server t).
Proof.
  intros Hu Hq Hq0 Hd Hc (Hcl & Hcq & _) (_ & _ & Hsi) Hws.
  destruct (recv_head _ _ _ Hq) as (tx & Hrecv & _). destruct (leg d (tn_client t) (tn_server t) Hd Hc Hcl Hcq Hsi) as (x & y1 & y & Htr & Hget & Hdg & Htx).
  destruct (dispatch_idle d _ Hws) as (ws & Hstep & Hj & Hds & Hop).
  exists (MkTunnel (MkUdp (us_maps u) tx) x y ws). split; [|easy]. unfold packet_up.
  apply (run_cons _ _ t (MkTunnel u (tn_client t) (tn_server t) (tn_ws t)) _ [Queued d] [Dispatched d]).
  { cbn [tunnel_step]. rewrite Hu. unfold handler_step, queued_since. cbn [fst]. now rewrite Hq, Hq0. }
  apply (run_cons _ _ _ (MkTunnel (MkUdp (us_maps u) tx) (send_datagram d (tn_client t)).1 (tn_server t) (tn_ws t)) _ [] [Dispatched d]).
  { cbn [tunnel_step]. unfold client_sends. cbn [tn_udp]. now rewrite Hrecv. }
  apply (run_cons _ _ _ (MkTunnel (MkUdp (us_maps u) tx) x y1 (tn_ws t)) _ [] [Dispatched d]).
  { cbn [tunnel_step tn_client tn_server]. now rewrite Htr. }
  apply (run_cons _ _ _ (MkTunnel (MkUdp (us_maps u) tx) x y ws) _ [Dispatched d] []); [|easy].
  cbn [tunnel_step]. unfold server_takes. cbn [tn_server tn_ws]. rewrite Hget, Hstep. reflexivity.
Qed.

Lemma comes_down t d chan back :
  let answer := reply_frame d back in
  wv_jobs (tn_ws t) = [UdpJob d chan] -> idle_queue (wv_datagram_send (tn_ws t)) -> wv_mux_open (tn_ws t) = true ->
  dg_ok answer -> crosses answer = true -> mux_live (tn_server t) -> queue (mx_tx_frame (tn_server t)) = [] ->
  idle_queue (mx_datagrams (tn_client t)) ->
  exists t2, tunnel_run (packet_down 0 back) t
    = Some (t2, [Replied answer; Returned answer (send_datagram_reply (us_maps (tn_udp t)) (dg_flow_id answer) (dg_data answer))]).
Proof.
  cbv zeta. set (answer := reply_frame d back). intros Hj Hi Hop Hd Hc Hl Hq Hci.
  destruct (send_idle answer _ Hi) as (c & Hsend & Hcq). destruct (recv_head _ _ c Hcq) as (c' & Hrecv & _).
  destruct (leg answer (tn_server t) (tn_client t) Hd Hc Hl Hq Hci) as (y & x1 & x & Htr & Hget & _).
  set (ws1 := set_send c (wv_sent (tn_ws t)) (tn_ws t)). set (ws2 := set_send c' (wv_sent ws1 ++ [answer]) ws1).
  exists (MkTunnel (tn_udp t) x y ws2). unfold packet_down.
  set (final := Returned answer _). 
  apply (run_cons _ _ t (MkTunnel (tn_udp t) (tn_client t) (tn_server t) ws1) _ [Replied answer] [final]).
  { cbn [tunnel_step]. unfold forwarder_replies. rewrite Hj. cbn [lookup list_lookup]. cbv zeta. fold answer.
    cbn [ws_step]. rewrite Hj, Hsend. reflexivity. }
  apply (run_cons _ _ _ (MkTunnel (tn_udp t) (tn_client t) (send_datagram answer (tn_server t)).1 ws2) _ [] [final]).
  { cbn [tunnel_step]. unfold server_sends. cbn [tn_ws]. change (wv_datagram_send ws1) with c. rewrite Hrecv. cbn [snd ws_step].
    change (wv_datagram_send ws1) with c. rewrite Hrecv. change (wv_mux_open ws1) with (wv_mux_open (tn_ws t)). now rewrite Hop. }
  apply (run_cons _ _ _ (MkTunnel (tn_udp t) x1 y ws2) _ [] [final]).
  { cbn [tunnel_step tn_client tn_server]. now rewrite Htr. }
  apply (run_cons _ _ _ (MkTunnel (tn_udp t) x y ws2) _ [final] []); [|easy].
  cbn [tunnel_step]. unfold client_takes. cbn [tn_client]. now rewrite Hget.
Qed.

(** ** Properties *)

(** C5: datagrams through the tunnel, both ends and the wire included, in any
    interleaving with each other and with whatever streams and bind requests
    do: what the forwarders of the server are given is a subsequence of what
    the listeners and relays of the client queued, and what the client
    delivers a subsequence of what the forwarders answered, so nothing is
    forged, altered, duplicated or reordered; every answer carries the
    identifier, host and port of a datagram some listener queued; and the
    client maps stay consistent. *)
Theorem tunnel_datagrams_ordered events t t' log :
  tunnel_wf t -> going_up t = [] -> going_down t = [] -> wv_jobs (tn_ws t) = [] ->
  Forall event_ok events -> tunnel_run events t = Some (t', log) ->
  sublist (dispatched log) (queued log)
  /\ sublist (returned log) (replied log)
  /\ (forall d, d ∈ returned log -> exists d0, d0 ∈ queued log /\ answers d0 d)
  /\ maps_wf local_addr (us_maps (tn_udp t')).
Proof.
  intros Ht Hup Hdown Hjobs Hev Hrun. destruct (tunnel_run_moved events t t' log Ht Hev Hrun) as (Ht' & Hu & Hd & _ & Hrep).
  rewrite Hup in Hu. rewrite Hdown in Hd. cbn [app] in Hu, Hd.
  assert (Hu' : sublist (dispatched log) (queued log)) by (etransitivity; [|exact Hu]; now apply sublist_inserts_r).
  assert (Hd' : sublist (returned log) (replied log)) by (etransitivity; [|exact Hd]; now apply sublist_inserts_r).
  split_and!; [easy|easy| |apply (tw_maps _ Ht')]. intros d Hin.
  destruct (Hrep d) as (first & [[chan Hf]|Hf] & Ha); [now apply (elem_of_sublist (returned log) (replied log))| |].
  - rewrite Hjobs in Hf. now apply elem_of_nil in Hf.
  - exists first. split; [|easy]. now apply (elem_of_sublist (dispatched log) (queued log)).
Qed.

(** C8: through a tunnel with nothing under way, a UDP packet whose data are at
    least four octets reaches a forwarder of the server as it was received,
    for the host and port of its listener, in four steps; and what the target
    answers, four octets at least, comes back in four more to the address the
    packet came from, from a socket bound where it was received. *)
Theorem tunnel_round_trip t socket our rhost rport draws now data addr back :
  tunnel_idle t -> local_addr socket = Some our -> Forall valid_draw draws -> client_has_id draws (addr, our) (us_maps (tn_udp t)) ->
  u16_ok rport -> blen rhost <= 255 -> 4 <= blen (truncate data) -> 4 <= blen (truncate back) ->
  exists id t1 t2 e,
    let d := MkMuxDatagram id rhost rport (truncate data) in
    let answer := MkMuxDatagram id rhost rport (truncate back) in
    let content := if e_socks5 e then udp_relay_response addr (truncate back) else truncate back in
    tunnel_run (packet_up socket rhost rport (Received draws now data addr)) t = Some (t1, [Queued d; Dispatched d])
    /\ wv_jobs (tn_ws t1) = [UdpJob d (wv_next_chan (tn_ws t))]
    /\ tunnel_run (packet_down 0 back) t1
       = Some (t2, [Replied answer; Returned answer (Some (ReplySend (e_socket e) content addr))])
    /\ local_addr (e_socket e) = Some our.
Proof.
  intros [Hm Htx Hcl Hsv Hws] Hs Hdr Hid Hport Hhost Hdata Hback.
  destruct (received_once socket our rhost rport draws now data addr (tn_udp t) Hm Htx Hs Hdr Hid)
    as (u & id & e & Hstep & Hq & Hv & He & Hpeer & Hsock).
  assert (Hok : forall x, dg_ok (MkMuxDatagram id rhost rport x)) by (intros x; split; [now apply valid_draw_u32|exact Hport]).
  assert (Hcr : forall x, 4 <= blen x -> crosses (MkMuxDatagram id rhost rport x) = true).
  { intros x Hx. unfold crosses. cbn [dg_target_host dg_data]. destruct (Z.leb_spec (blen rhost) 255), (Z.leb_spec 4 (blen x)); lia || easy. }
  destruct (goes_up t u _ socket rhost rport _ Hstep Hq (proj1 Htx) (Hok _) (Hcr _ Hdata) Hcl Hsv Hws)
    as (t1 & Hrun & Hmaps & Hj & Hds & Hop & Hcd & Hst).
  destruct Hcl as (_ & _ & Hci), Hsv as ([Hso Hsc] & Hsq & _), Hws as (_ & _ & _ & Hwi).
  destruct (comes_down t1 (MkMuxDatagram id rhost rport (truncate data)) (wv_next_chan (tn_ws t)) back) as (t2 & Hrun2);
    [exact Hj|now rewrite Hds|exact Hop|apply Hok|now apply Hcr|unfold mux_live; now rewrite Hst|now rewrite Hst|now rewrite Hcd|].
  exists id, t1, t2, e. cbv zeta. split; [exact Hrun|]. split; [exact Hj|]. split; [|exact Hsock].
  rewrite Hrun2, Hmaps. unfold send_datagram_reply. cbn [reply_frame dg_flow_id dg_data dg_target_host dg_target_port].
  destruct (Z.eqb_spec id 0) as [->|]; [now destruct Hv|]. rewrite He. cbn [mbind option_bind]. rewrite Hpeer.
  now destruct (e_socks5 e).
Qed.

End Tunnel.

(** ** Concrete runs *)

Definition idle_peer : Mux chan_state shot_state bool MemWs := empty_mux (MkMemWs [] []).

Definition sample_tunnel : tunnel (C := chan_state) (O := shot_state) (W := bool) (S1 := MemWs) (S2 := MemWs) (Socket := Z) :=
  MkTunnel sample_udp idle_peer idle_peer ws_initial.

(** Two clients, a stream opened meanwhile, one answer. *)
Definition sample_run : list (tunnel_event (Socket := Z)) :=
  [PacketReceived 53 (str "dns") 53 (Received [4] 0 [1; 2; 3; 4] sample_peer); ClientOp (OpNewStream [9] (str "web") 80);
   ClientSends; PacketReceived 54 (str "ntp") 123 (Received [5] 1 [5; 6; 7; 8; 9] sample_peer); ToServer; ToServer; ClientSends;
   ServerAccepts; ServerTakes; ToServer; ServerTakes; ForwarderReplies 2 [8; 8; 8; 8]; ServerSends; ToClient; ToClient; ClientTakes].

Lemma sample_wf : tunnel_wf loopback_addr sample_tunnel.
Proof. split; [apply maps_new_wf|apply Forall_nil_2..|]. intros first chan H. now apply elem_of_nil in H. Qed.

Lemma sample_run_ok : Forall (event_ok loopback_addr) sample_run.
Proof.
  repeat (apply Forall_cons_2; [first [exact I|split; [now eexists|]; split; [solve_ranges|]; split;
    [apply Forall_cons_2; [unfold valid_draw, u32_max; lia|apply Forall_nil_2]|unfold bytes_ok; solve_ranges]]|]).
  apply Forall_nil_2.
Qed.

Lemma tunnel_datagrams_ordered_witness :
  match tunnel_run loopback_addr sample_run sample_tunnel with
  | Some (t, log) =>
      map dg_data (dispatched log) = [[1; 2; 3; 4]; [5; 6; 7; 8; 9]] /\ map dg_data (returned log) = [[8; 8; 8; 8]]
      /\ sublist (dispatched log) (queued log) /\ sublist (returned log) (replied log)
      /\ maps_wf loopback_addr (us_maps (tn_udp t))
  | None => False
  end.
Proof.
  assert (Hlog : (fun r => (map dg_data (dispatched r.2), map dg_data (returned r.2))) <$> tunnel_run loopback_addr sample_run sample_tunnel
    = Some ([[1; 2; 3; 4]; [5; 6; 7; 8; 9]], [[8; 8; 8; 8]])) by (vm_compute; reflexivity).
  pose proof (tunnel_datagrams_ordered loopback_addr sample_run sample_tunnel) as H.
  destruct (tunnel_run loopback_addr sample_run sample_tunnel) as [[t log]|]; [|discriminate].
  destruct (H t log sample_wf eq_refl eq_refl eq_refl sample_run_ok eq_refl) as (H1 & H2 & _ & H3).
  injection Hlog as Hd Hr. now split_and!.
Defined.

Lemma sample_idle : tunnel_idle loopback_addr sample_tunnel.
Proof. split; [apply maps_new_wf|..]; repeat split. Qed.

Lemma tunnel_round_trip_witness :
  exists id t1 t2 e,
    tunnel_run loopback_addr (packet_up 53 (str "dns") 53 (Received [4] 0 [1; 2; 3; 4] sample_peer)) sample_tunnel
      = Some (t1, [Queued (MkMuxDatagram id (str "dns") 53 (truncate [1; 2; 3; 4]));
                   Dispatched (MkMuxDatagram id (str "dns") 53 (truncate [1; 2; 3; 4]))])
    /\ (exists r, (tunnel_run loopback_addr (packet_down 0 [8; 8; 8; 8]) t1) = Some (t2, r))
    /\ loopback_addr (e_socket e) = Some (MkSocketAddr (IpV4 2130706433) 53).
Proof.
  destruct (tunnel_round_trip loopback_addr sample_tunnel 53 (MkSocketAddr (IpV4 2130706433) 53) (str "dns") 53 [4] 0
    [1; 2; 3; 4] sample_peer [8; 8; 8; 8] sample_idle eq_refl) as (id & t1 & t2 & e & H1 & _ & H2 & H3).
  - apply Forall_cons_2; [unfold valid_draw, u32_max; lia|apply Forall_nil_2].
  - right. now exists 4.
  - solve_ranges.
  - vm_compute. discriminate.
  - vm_compute. discriminate.
  - vm_compute. discriminate.
  - exists id, t1, t2, e. split; [exact H1|]. split; [|exact H3]. eexists. exact H2.
Defined.

(** A packet of fewer than four octets ends the tunnel: the decoder of the
    server refuses its frame, and its task returns the error. *)
Example short_packet_ends_tunnel :
  let up := [PacketReceived 53 (str "dns") 53 (Received [4] 0 [1; 2; 3] sample_peer); ClientSends] in
  match tunnel_run loopback_addr up sample_tunnel with
  | Some (t, _) => tunnel_run loopback_addr [ToServer] t
  | None => Some (sample_tunnel, [])
  end = None.
Proof. vm_compute. reflexivity. Qed.
