(* ===== verification/Serve.v ===== *)
(** * The server as a whole (src/src/server/mod.rs)

    From the arguments to the connections: the identity the server presents,
    from files or from ACME, its replacement on SIGUSR1 or by the renewal
    while connections are accepted, and the start of [server_main] in the
    order of its steps.  Composes Args.v, Tls.v, Acme.v and Service.v. *)

From S2P Require Import Prelude Timing Remote Net Args Service Tls Acme.

Open Scope penguin_scope.

(** ** Definitions *)

(** [ServerArgs] without the options that do nothing. *)
Record ServerArgs := MkServerArgs {
  ar_host : list bytes;
  ar_port : list Z;
  ar_backend : option BackendUrl;
  ar_obfs : bool;
  ar_not_found_resp : bytes;
  ar_ws_psk : option bytes;
  ar_reverse : bool;
  ar_tls_key : option Path;
  ar_tls_cert : option Path;
  ar_tls_ca : option Path;
  ar_tls_domain : list bytes;
  ar_tls_acme_url : bytes;
  ar_tls_acme_email : option bytes;
  ar_tls_acme_accept_tos : bool;
  ar_tls_acme_challenge_helper : option bytes;
  ar_timeout : OptionalDuration;
}.

Definition acme_args (args : ServerArgs) : AcmeArgs :=
  MkAcmeArgs (ar_tls_acme_challenge_helper args) (ar_tls_acme_email args) (ar_tls_acme_accept_tos args)
    (ar_tls_acme_url args) (ar_tls_domain args) (ar_tls_ca args).

(** [server::Error]. *)
Inductive ServerError {TE AE : Type} :=
| ServerInvalidHost (e : AddrError)
| ServerTls (e : TE)
| ServerSignal (e : IoErrorKind)
| ServerIo (e : IoErrorKind)
| ServerAcme (e : AE).
Arguments ServerError : clear implicits.

(** [service::State], with its timeouts; the HTTP client is left out. *)
Record ServerState := MkServerState {
  ss_service : State;
  ss_tls_timeout : OptionalDuration;
  ss_http_timeout : OptionalDuration;
}.

(** [State::new]; [connector] is what making the HTTPS connector gives. *)
Definition state_new (connector : IoErrorKind + unit) (backend : option BackendUrl) (ws_psk : option bytes)
    (not_found_resp : bytes) (obfs reverse : bool) (tls_timeout http_timeout : OptionalDuration)
  : IoErrorKind + ServerState :=
  match connector with
  | inl e => inl e
  | inr _ => inr (MkServerState (MkState backend ws_psk not_found_resp obfs reverse) tls_timeout http_timeout)
  end.

Section Serve.
Context {S Account Order Child Params KeyPair IE GE TE Config Listener Conn : Type}.
Context {env : AcmeEnv (S := S) (Account := Account) (Order := Order) (Child := Child) (Params := Params)
                       (KeyPair := KeyPair) (IE := IE) (GE := GE)}.
Abbreviation World := (@World S Account Config).
Abbreviation Client := (@Client Account Config).
Abbreviation Error := (ServerError TE (AcmeError IE GE TE)).

(** The TLS library compiled in, and the operating system:
    binding, the address a listener got, and registering a signal handler. *)
Variable make_server_config : Files -> Path -> Path -> option Path -> res TE Config.
Variable make_config_from_pem : Files -> bytes * bytes -> option Path -> res TE Config.
Variable bind : SocketAddr -> IoErrorKind + Listener.
Variable local_addr : Listener -> IoErrorKind + SocketAddr.
Variable signal : IoErrorKind + unit.
(** Whether the [acme] feature is compiled in, and the rounds of its loops. *)
Variable acme : bool.
Variables rounds polls : nat.

(** Where the identity comes from, with its present value: the arguments of
    the SIGUSR1 task, or the ACME client with its renewal task. *)
Inductive identity_source :=
| FromFiles (config : Config) (tls_cert tls_key : Path) (tls_ca : option Path)
| FromAcme (client : Client).

(** [tls_config.load_full()]. *)
Definition load_full (src : identity_source) : Config :=
  match src with FromFiles config _ _ _ => config | FromAcme client => cl_tls_config client end.

(** [register_signal_handler], up to spawning its task. *)
Definition register_signal_handler (config : Config) (tls_cert tls_key : Path) (tls_ca : option Path)
  : res Error identity_source :=
  match signal with
  | inl e => Err (ServerSignal e)
  | inr _ => Ok (FromFiles config tls_cert tls_key tls_ca)
  end.

(** [check_start_tls]; [None] while it waits for the certificate. *)
Definition check_start_tls (files : Files) (args : ServerArgs) (w : World)
  : World * option (res Error (option identity_source)) :=
  match ar_tls_key args with
  | Some tls_key =>
      (w, Some match ar_tls_cert args with
               | None => Panic
               | Some tls_cert =>
                   tls_config ← map_err ServerTls
                     (make_tls_identity make_server_config files tls_cert tls_key (ar_tls_ca args));
                   src ← register_signal_handler tls_config tls_cert tls_key (ar_tls_ca args);
                   Ok (Some src)
               end)
  | None =>
      if acme && negb (bool_decide (ar_tls_domain args = [])) then
        match populate_or_get make_config_from_pem rounds polls files (acme_args args) w with
        | (w, Finished r) => (w, Some (acme_client ← map_err ServerAcme r; Ok (Some (FromAcme acme_client))))
        | (w, StillWaiting) => (w, None)
        end
      else (w, Some (Ok None))
  end.

(** Binding the listeners one by one; the first failure ends [server_main],
    and dropping the tasks stops those already spawned. *)
Fixpoint bind_listeners (sockaddrs : list SocketAddr) : res Error (list Listener) :=
  match sockaddrs with
  | [] => Ok []
  | sockaddr :: rest =>
      listener ← try_with ServerIo (bind sockaddr);
      actual_addr ← try_with ServerIo (local_addr listener);
      listeners ← bind_listeners rest;
      Ok (listener :: listeners)
  end.

(** The server while it runs: the service, the listeners, the identity, and
    the connections given to tasks of their own, with what they are served
    with. *)
Record Server := MkServer {
  sv_state : ServerState;
  sv_listeners : list Listener;
  sv_tls : option identity_source;
  sv_renewing : bool;                       (* the renewal task is between renewals *)
  sv_spawned : list (Conn * option Config);
}.

(** [server_main] up to its waiting for the listeners. *)
Definition server_main (connector : IoErrorKind + unit) (files : Files) (args : ServerArgs) (w : World)
  : World * option (res Error Server) :=
  match state_new connector (ar_backend args) (ar_ws_psk args) (ar_not_found_resp args) (ar_obfs args)
          (ar_reverse args) (ar_timeout args) (ar_timeout args) with
  | inl e => (w, Some (Err (ServerIo e)))
  | inr state =>
      match arg_to_sockaddrs (ar_host args) (ar_port args) with
      | Ok sockaddrs =>
          match check_start_tls files args w with
          | (w, Some r) =>
              (w, Some (tls ← r;
                        listeners ← bind_listeners sockaddrs;
                        Ok (MkServer state listeners tls true [])))
          | (w, None) => (w, None)
          end
      | Err e => (w, Some (Err (ServerInvalidHost e)))
      | Panic => (w, Some Panic)
      end
  end.

(** Waiting for the listeners: a task that ended well or was cancelled is
    passed over, a panic in one fails an assertion. *)
Inductive join_result := Joined | JoinCancelled | JoinPanicked.

Fixpoint join_listeners (results : list join_result) : res Error unit :=
  match results with
  | [] => Ok tt
  | JoinPanicked :: _ => Panic
  | _ :: rest => join_listeners rest
  end.

(** What can happen while the server runs: [accept] of a listener, a SIGUSR1,
    a tick of the renewal; with the files there are then. *)
Inductive server_event :=
| Accept (r : IoErrorKind + Conn)
| Sigusr1 (files : Files)
| RenewalTick (files : Files).

Definition with_tls (tls : option identity_source) (renewing : bool) (sv : Server) : Server :=
  MkServer (sv_state sv) (sv_listeners sv) tls renewing (sv_spawned sv).

(** One turn of [run_listener], of the task of [register_signal_handler], or
    of the renewal. *)
Definition server_step (e : server_event) (sw : Server * World) : Server * World :=
  let '(sv, w) := sw in
  match e with
  | Accept (inl _) => (sv, w)
  | Accept (inr stream) =>
      (MkServer (sv_state sv) (sv_listeners sv) (sv_tls sv) (sv_renewing sv)
         (sv_spawned sv ++ [(stream, load_full <$> sv_tls sv)]), w)
  | Sigusr1 files =>
      match sv_tls sv with
      | Some (FromFiles config tls_cert tls_key tls_ca) =>
          let '(config, _) := reload_tls_identity make_server_config config files tls_cert tls_key tls_ca in
          (with_tls (Some (FromFiles config tls_cert tls_key tls_ca)) (sv_renewing sv) sv, w)
      | _ => (sv, w)
      end
  | RenewalTick files =>
      match sv_tls sv with
      | Some (FromAcme client) =>
          if sv_renewing sv then
            match renew_once make_config_from_pem rounds polls files client w with
            | (w, Finished (Ok client)) => (with_tls (Some (FromAcme client)) true sv, w)
            | (w, _) => (with_tls (sv_tls sv) false sv, w)
            end
          else (sv, w)
      | _ => (sv, w)
      end
  end.

Fixpoint server_run (events : list server_event) (sw : Server * World) : Server * World :=
  match events with
  | [] => sw
  | e :: rest => server_run rest (server_step e sw)
  end.

(** ** Reference notions *)

(** Whether the arguments ask for TLS. *)
Definition tls_wanted (args : ServerArgs) : bool :=
  bool_decide (is_Some (ar_tls_key args)) || (acme && negb (bool_decide (ar_tls_domain args = []))).

(** A configuration made from the key and certificate, or the authorities, of
    the arguments and the files there were at some moment. *)
Definition made_from (args : ServerArgs) (files : Files) (config : Config) : Prop :=
  match ar_tls_key args with
  | Some key => exists cert, ar_tls_cert args = Some cert /\ make_server_config files cert key (ar_tls_ca args) = Ok config
  | None => exists pair, make_config_from_pem files pair (ar_tls_ca args) = Ok config
  end.

Definition event_files (events : list server_event) : list Files :=
  omap (fun e => match e with Sigusr1 f | RenewalTick f => Some f | Accept _ => None end) events.

Definition accepted (events : list server_event) : list Conn :=
  omap (fun e => match e with Accept (inr c) => Some c | _ => None end) events.

(** The source belongs to the arguments. *)
Definition source_of (args : ServerArgs) (src : identity_source) : Prop :=
  match src with
  | FromFiles _ cert key ca => ar_tls_key args = Some key /\ ar_tls_cert args = Some cert /\ ar_tls_ca args = ca
  | FromAcme client => ar_tls_key args = None /\ cl_tls_ca client = ar_tls_ca args
  end.

(** What holds of the server while it runs: it serves with TLS exactly when
    that was asked for, now and in every connection so far. *)
Record served_ok (args : ServerArgs) (seen : list Files) (sv : Server) : Prop := {
  so_tls : is_Some (sv_tls sv) <-> tls_wanted args = true;
  so_source : forall src, sv_tls sv = Some src ->
    source_of args src /\ exists f, f ∈ seen /\ made_from args f (load_full src);
  so_spawned : Forall (fun c => match c.2 with
                                | Some config => tls_wanted args = true /\ exists f, f ∈ seen /\ made_from args f config
                                | None => tls_wanted args = false
                                end) (sv_spawned sv);
}.

(** ** Lemmas *)

Lemma res_bind_ok {E A B} (c : res E A) (k : A -> res E B) b :
  (a ← c; k a) = Ok b -> exists a, c = Ok a /\ k a = Ok b.
Proof. destruct c; cbn; [eauto|easy..]. Qed.

Lemma map_err_ok {E F A} (f : E -> F) (c : res E A) a : map_err f c = Ok a -> c = Ok a.
Proof. destruct c; cbn; congruence. Qed.

Lemma check_start_tls_ok files args w w' tls :
  wd_client w = None -> check_start_tls files args w = (w', Some (Ok tls)) ->
  (is_Some tls <-> tls_wanted args = true)
  /\ forall src, tls = Some src -> source_of args src /\ made_from args files (load_full src).
Proof.
  intros Hn. unfold check_start_tls, tls_wanted, made_from, source_of.
  destruct (ar_tls_key args) as [key|] eqn:Hk.
  - intros H. injection H as <- H. destruct (ar_tls_cert args) as [cert|] eqn:Hc; [|easy].
    apply res_bind_ok in H as (config & Hm & H). apply map_err_ok in Hm. unfold register_signal_handler in H.
    destruct signal as [e|u]; [easy|]. cbn in H. injection H as <-. split; [now rewrite bool_decide_eq_true_2|].
    intros src H. injection H as <-. split; [easy|]. now exists cert.
  - change (bool_decide (is_Some (@None Path))) with false. cbn [orb]. destruct (acme && _); [|intros H; injection H as <- <-].
    + destruct (populate_or_get _ _ _ _ _ w) as [w1 [r|]] eqn:Hp; [|easy]. intros H. injection H as -> H.
      apply res_bind_ok in H as (client & Hr & H). apply map_err_ok in Hr as ->. injection H as <-.
      split; [easy|]. intros src H. injection H as <-. now destruct (populate_made _ _ _ _ _ _ _ _ Hn Hp) as [Hca Hpair].
    + split; [split; [intros [? ?]|]; easy|easy].
Qed.

Lemma server_main_ok connector files args w w' sv :
  wd_client w = None -> server_main connector files args w = (w', Some (Ok sv)) ->
  served_ok args [files] sv /\ sv_spawned sv = [].
Proof.
  intros Hn. unfold server_main. destruct (state_new _ _ _ _ _ _ _ _) as [e|state]; [easy|].
  destruct (arg_to_sockaddrs _ _) as [addrs|e|]; [|easy..].
  destruct (check_start_tls files args w) as [w1 [r|]] eqn:Hs; [|easy]. intros H. injection H as -> H.
  apply res_bind_ok in H as (tls & -> & H). apply res_bind_ok in H as (ls & _ & H). injection H as <-.
  destruct (check_start_tls_ok _ _ _ _ _ Hn Hs) as [Hw Hsrc]. split; [|easy].
  split; cbn; [easy| |constructor]. intros src Hsome. destruct (Hsrc src Hsome) as [H1 H2]. split; [easy|].
  exists files. split; [now left|easy].
Qed.

Lemma made_seen args (seen seen' : list Files) config :
  (forall f, f ∈ seen -> f ∈ seen') -> (exists f, f ∈ seen /\ made_from args f config) -> exists f, f ∈ seen' /\ made_from args f config.
Proof. intros Hi (f & Hf & Hm). exists f. auto. Qed.

Lemma served_ok_seen args (seen seen' : list Files) sv : (forall f, f ∈ seen -> f ∈ seen') -> served_ok args seen sv -> served_ok args seen' sv.
Proof.
  intros Hi [Ht Hs Hp]. split; [easy| |].
  - intros src H. destruct (Hs src H) as [H1 H2]. split; [easy|now apply (made_seen args seen)].
  - revert Hp. apply Forall_impl. intros c. destruct c.2; [|easy]. intros [Hw Hm]. split; [easy|now apply (made_seen args seen)].
Qed.

(** A source replaced by one of the same kind. *)
Lemma served_ok_replace args seen sv src renewing :
  served_ok args seen sv -> is_Some (sv_tls sv) ->
  source_of args src -> (exists f, f ∈ seen /\ made_from args f (load_full src)) ->
  served_ok args seen (with_tls (Some src) renewing sv).
Proof.
  intros [Ht Hs Hp] Hsome Hsrc Hm. split; cbn; [|intros s H; now injection H as <-|easy].
  rewrite <- Ht. now split.
Qed.

Lemma server_step_ok args seen e sv w :
  served_ok args seen sv ->
  served_ok args (seen ++ event_files [e]) (server_step e (sv, w)).1
  /\ map fst (sv_spawned (server_step e (sv, w)).1) = map fst (sv_spawned sv) ++ accepted [e]
  /\ sv_listeners (server_step e (sv, w)).1 = sv_listeners sv.
Proof.
  intros Hok. assert (Hsame : forall fs, served_ok args (seen ++ fs) sv).
  { intros fs. revert Hok. apply served_ok_seen. set_solver. }
  assert (Hkept : forall fs tls renewing, served_ok args (seen ++ fs) (with_tls tls renewing sv) ->
    served_ok args (seen ++ fs) (with_tls tls renewing sv) /\ map fst (sv_spawned sv) = map fst (sv_spawned sv) ++ []
    /\ sv_listeners (with_tls tls renewing sv) = sv_listeners sv) by (intros; now rewrite app_nil_r).
  destruct e as [[e|c]|files|files]; cbn [server_step event_files accepted omap list_omap].
  - rewrite app_nil_r. now split; [|rewrite app_nil_r].
  - rewrite app_nil_r. cbn. rewrite map_app. split_and!; try easy. destruct Hok as [Ht Hs Hp]. split; cbn; [easy..|].
    apply Forall_app. split; [easy|]. constructor; [|constructor]. cbn.
    destruct (sv_tls sv) as [src|] eqn:E0; cbn; [split; [apply Ht; eauto|now apply Hs]|].
    destruct (tls_wanted args) eqn:Hw; [|easy]. destruct (proj2 Ht eq_refl) as [? ?]. easy.
  - destruct (sv_tls sv) as [[config cert key ca|client]|] eqn:E0; cbn [fst];
      try (split; [apply Hsame|split; [now rewrite app_nil_r|easy]]).
    destruct (so_source _ _ _ (Hsame [files]) _ E0) as [Hsrc Hm].
    unfold reload_tls_identity, store_if_ok. destruct (make_server_config files cert key ca) as [new|e|] eqn:Hmk; cbn [fst];
      apply Hkept; (apply served_ok_replace; [apply Hsame|eauto|easy|]); try exact Hm.
    exists files. split; [set_solver|]. destruct Hsrc as (Hk & Hc & Hca). unfold made_from. rewrite Hk. subst ca. eauto.
  - destruct (sv_tls sv) as [[config cert key ca|client]|] eqn:E0; cbn [fst];
      try (split; [apply Hsame|split; [now rewrite app_nil_r|easy]]).
    destruct (sv_renewing sv); [|split; [apply Hsame|split; [now rewrite app_nil_r|easy]]].
    destruct (so_source _ _ _ (Hsame [files]) _ E0) as [[Hk Hca] Hm].
    destruct (renew_once _ _ _ _ _ _) as [w1 [[client'|e|]|]] eqn:Hr; cbn [fst]; rewrite ?E0;
      apply Hkept; (apply served_ok_replace; [apply Hsame|eauto|try easy|]); try exact Hm.
    + destruct (renew_once_made _ _ _ _ _ _ _ _ Hr) as [-> _]. now split.
    + destruct (renew_once_made _ _ _ _ _ _ _ _ Hr) as [_ [Heq|[pair Hp]]]; cbn.
      * cbn in Hm. now rewrite Heq.
      * exists files. split; [set_solver|]. unfold made_from. rewrite Hk, <- Hca. eauto.
Qed.

Lemma server_run_ok args events seen sv w :
  served_ok args seen sv ->
  served_ok args (seen ++ event_files events) (server_run events (sv, w)).1
  /\ map fst (sv_spawned (server_run events (sv, w)).1) = map fst (sv_spawned sv) ++ accepted events
  /\ sv_listeners (server_run events (sv, w)).1 = sv_listeners sv.
Proof.
  revert seen sv w. induction events as [|e events IH]; intros seen sv w Hok; cbn [server_run fst].
  { cbn. now rewrite !app_nil_r. }
  destruct (server_step_ok args seen e sv w Hok) as (H1 & H2 & H3). destruct (server_step e (sv, w)) as [sv1 w1]. cbn [fst] in *.
  destruct (IH _ _ w1 H1) as (H4 & H5 & H6). rewrite H5, H2, H6, H3, <- !app_assoc. rewrite <- app_assoc in H4.
  unfold event_files, accepted in *. rewrite <- omap_app in H4. rewrite <- omap_app. easy.
Qed.

(** Every accepted connection is served, in order, whatever fails between. *)
Lemma run_listener_serves args events seen sv w :
  served_ok args seen sv ->
  map fst (sv_spawned (server_run events (sv, w)).1) = map fst (sv_spawned sv) ++ accepted events.
Proof. intros Hok. apply (server_run_ok args events seen sv w Hok). Qed.

(** ** Properties *)

(** C18: a server that was asked for TLS starts only with an identity made from
    its key and certificate, or by ACME, and from then on never serves a
    connection without TLS, whatever reloads and renewals fail: each accepted
    connection, in the order of the accepts, gets a configuration made from
    these very arguments and the files of the start or of some reload.  One
    that was not asked for TLS serves all in the clear. *)
Theorem tls_never_dropped connector files args w w' sv events :
  wd_client w = None -> server_main connector files args w = (w', Some (Ok sv)) ->
  let '(sv', _) := server_run events (sv, w') in
  map fst (sv_spawned sv') = accepted events /\ sv_listeners sv' = sv_listeners sv
  /\ Forall (fun c => if tls_wanted args
                      then exists config f, c.2 = Some config /\ f ∈ files :: event_files events /\ made_from args f config
                      else c.2 = None) (sv_spawned sv').
Proof.
  intros Hn Hm. destruct (server_main_ok _ _ _ _ _ _ Hn Hm) as [Hok Hs].
  destruct (server_run_ok args events [files] sv w' Hok) as (H1 & H2 & H3). rewrite Hs in H2.
  destruct (server_run events (sv, w')) as [sv' w'']. cbn [fst] in *. split_and!; [easy..|].
  generalize (so_spawned _ _ _ H1). apply Forall_impl. intros c. destruct c.2 as [config|] eqn:Hc.
  - intros (-> & f & Hf & Hmf). eauto.
  - now intros ->.
Qed.

Lemma bind_listeners_ok sockaddrs listeners :
  bind_listeners sockaddrs = Ok listeners -> Forall2 (fun a l => bind a = inr l) sockaddrs listeners.
Proof.
  revert listeners. induction sockaddrs as [|a rest IH]; intros listeners H; cbn in H; [injection H as <-; constructor|].
  apply res_bind_ok in H as (l & Hl & H). apply res_bind_ok in H as (actual & _ & H).
  apply res_bind_ok in H as (ls & Hls & H). injection H as <-. constructor; [now destruct (bind a); [|injection Hl as ->]|now apply IH].
Qed.

(** The steps of a start that succeeds: the HTTPS connector, the addresses,
    TLS, then a listener bound to each address, in order. *)
Theorem server_start_exact connector files args w w' sv :
  server_main connector files args w = (w', Some (Ok sv)) <->
  exists addrs, connector = inr tt
    /\ arg_to_sockaddrs (ar_host args) (ar_port args) = Ok addrs
    /\ check_start_tls files args w = (w', Some (Ok (sv_tls sv)))
    /\ bind_listeners addrs = Ok (sv_listeners sv)
    /\ sv = MkServer (MkServerState (MkState (ar_backend args) (ar_ws_psk args) (ar_not_found_resp args) (ar_obfs args)
                                       (ar_reverse args)) (ar_timeout args) (ar_timeout args))
                     (sv_listeners sv) (sv_tls sv) true [].
Proof.
  unfold server_main, state_new. split.
  - destruct connector as [e|[]]; [easy|]. destruct (arg_to_sockaddrs _ _) as [addrs|e|]; [|easy..].
    destruct (check_start_tls files args w) as [w1 [r|]] eqn:Hs; [|easy]. intros H. injection H as -> H.
    apply res_bind_ok in H as (tls & -> & H). apply res_bind_ok in H as (ls & Hb & H). injection H as <-.
    exists addrs. now split_and!.
  - intros (addrs & -> & -> & -> & Hb & ->). cbn in *. now rewrite Hb.
Qed.
End Serve.

(** ** Witnesses *)

Module Concrete.
(** Everything binds; TLS as in [Tls.Concrete]. *)
Definition args : ServerArgs :=
  MkServerArgs [str "0.0.0.0"; str "[::]"] [443; 8443] None true (str "Not found") None false (Some (str "key")) (Some (str "cert"))
    (Some (str "ca")) [] (str "https://ca") None false None None.

Definition make_config (files : Files) (cert key : Path) (ca : option Path) : res (TlsError unit unit unit) _ :=
  Rustls.make_server_config (lib := Tls.Concrete.library) files cert key ca.

Definition pem_config (files : Files) (pair : bytes * bytes) (ca : option Path) : res (TlsError unit unit unit) _ :=
  Rustls.make_server_config_from_rcgen_pem (lib := Tls.Concrete.library) files pair.1 pair.2 ca.

Definition start := server_main (env := Acme.Concrete.scripted) make_config pem_config (fun a => inr a) (fun a => inr a) (inr tt) true 11 3
  (Conn := nat) (inr tt) Tls.Concrete.files args (MkWorld [] [] None).

(** A reload whose files are gone, then one with other authorities. *)
Definition events : list server_event :=
  [Accept (inr 1%nat); Sigusr1 (fun _ => inl OtherIoKind); Accept (inl OtherIoKind); Accept (inr 2%nat);
   Sigusr1 (fun path => if is_str path "ca" then inr [5] else Tls.Concrete.files path); Accept (inr 3%nat)].

Lemma tls_never_dropped_witness :
  exists w' sv, start = (w', Some (Ok sv))
    /\ let '(sv', _) := server_run (env := Acme.Concrete.scripted) make_config pem_config 11 3 events (sv, w') in
       map fst (sv_spawned sv') = [1; 2; 3]%nat /\ sv_listeners sv' = sv_listeners sv
       /\ Forall (fun c => exists config f, c.2 = Some config /\ f ∈ Tls.Concrete.files :: event_files events
                          /\ made_from make_config pem_config args f config) (sv_spawned sv').
Proof.
  eexists _, _. split; [vm_compute; reflexivity|].
  eapply (tls_never_dropped (env := Acme.Concrete.scripted) make_config pem_config (fun a => inr a) (fun a => inr a) (inr tt) true 11 3
            (inr tt) Tls.Concrete.files args (MkWorld [] [] None) _ _ events eq_refl). vm_compute. reflexivity.
Defined.
End Concrete.
