(* ===== verification/Sharing.v ===== *)
(** * Cheap clones and the shims for loom (mux/dupe.rs, mux/loom.rs)

    The trait [Dupe], which the program uses where a clone is meant to share,
    with its implementations; and the wrappers that give the locks and the
    waker of [loom] the interface of those of [parking_lot] and
    [futures-util]. *)

From S2P Require Import Prelude Runtime Frame Timing UdpClients Service Serve.

(** ** [Dupe] *)

(** [Clone], of types outside of the program: the clone of a reference-counted
    value or of a sender is the same value to everyone. *)
Class Clone (A : Type) := {
  clone : A -> A;
  clone_same : forall a, clone a = a;
}.

(** The trait, with what it promises: a duplicate cannot be told from the
    original. *)
Class Dupe (A : Type) := {
  dupe : A -> A;
  dupe_same : forall a, dupe a = a;
}.

(** [impl_dupe_as_clone!]. *)
#[export] Instance impl_dupe_as_clone {A} `{!Clone A} : Dupe A := {| dupe := clone; dupe_same := clone_same |}.

(** [CowBytes]: a borrow is copied, owned bytes are duplicated. *)
#[export] Program Instance cow_bytes_dupe : Dupe CowBytes := { dupe := cow_dupe }.
Next Obligation. now intros []. Qed.

(** [ClientIdMapEntry]: its socket is shared, the rest is copied. *)
Definition entry_dupe {Socket} `{!Dupe Socket} (e : ClientIdMapEntry Socket) : ClientIdMapEntry Socket :=
  MkEntry (e_peer_addr e) (e_our_addr e) (dupe (e_socket e)) (e_socks5 e) (e_expires e).

#[export] Program Instance ClientIdMapEntry_dupe {Socket} `{!Dupe Socket} : Dupe (ClientIdMapEntry Socket) := {
  dupe := entry_dupe;
}.
Next Obligation. intros Socket ? []. unfold entry_dupe. cbn. now rewrite dupe_same. Qed.

(** [State], field by field; its HTTP client is not part of the model. *)
Definition state_dupe (s : ServerState) : ServerState :=
  MkServerState
    (MkState (st_backend (ss_service s)) (st_ws_psk (ss_service s)) (st_not_found_resp (ss_service s))
       (st_obfs (ss_service s)) (st_reverse (ss_service s)))
    (ss_tls_timeout s) (ss_http_timeout s).

#[export] Program Instance ServerState_dupe : Dupe ServerState := { dupe := state_dupe }.
Next Obligation. now intros [[] ? ?]. Qed.

(** ** The shims *)

(** The locks of [loom], with the interface of the standard library: a lock can
    be poisoned, by a thread that panicked while it held it. *)
Class LoomLocks (L R : Type -> Type) (G : Type -> Type) := {
  mutex_new : forall {T}, T -> L T;
  mutex_lock : forall {T}, L T -> option (G T);       (* [None]: poisoned *)
  rwlock_new : forall {T}, T -> R T;
  rwlock_read : forall {T}, R T -> option (G T);
  rwlock_write : forall {T}, R T -> option (G T);
}.

Section Shims.
Context {L R G : Type -> Type} `{!LoomLocks L R G} {T : Type}.

Definition expect_unpoisoned (r : option (G T)) : res unit (G T) :=
  match r with Some g => Ok g | None => Panic end.

(** [Mutex] and [RwLock] of the module [lock]. *)
Definition Mutex_new (t : T) : L T := mutex_new t.
Definition Mutex_lock (m : L T) : res unit (G T) := expect_unpoisoned (mutex_lock m).
Definition RwLock_new (t : T) : R T := rwlock_new t.
Definition RwLock_read (m : R T) : res unit (G T) := expect_unpoisoned (rwlock_read m).
Definition RwLock_write (m : R T) : res unit (G T) := expect_unpoisoned (rwlock_write m).

End Shims.

(** [AtomicWaker]: the three calls go to the waker inside, so what holds of any
    waker holds of the shim. *)
Record AtomicWaker (W : Type) := MkAtomicWaker { aw_inner : W }.
Arguments MkAtomicWaker {W} _.
Arguments aw_inner {W} _.

#[export] Program Instance atomic_waker {W} `{!Waker W} : Waker (AtomicWaker W) := {
  new_waker := MkAtomicWaker new_waker;
  register w := MkAtomicWaker (register (aw_inner w));
  wake w := let '(w, woken) := wake (aw_inner w) in (MkAtomicWaker w, woken);
  waker_view w := waker_view (aw_inner w);
}.
Next Obligation. intros. cbn. apply view_new_waker. Qed.
Next Obligation. intros. cbn. apply view_register. Qed.
Next Obligation. intros W ? [w]. cbn. pose proof (view_wake w). now destruct (wake w). Qed.
Next Obligation. intros W ? [w]. cbn. pose proof (res_wake w). now destruct (wake w). Qed.
