(* ===== verification/CommandLine.v ===== *)
(** * The command line (src/src/arg.rs)

    The arguments the two subcommands declare, with the attributes of their
    fields, the values the program gets from what [clap] matched, and what a
    command line that was accepted guarantees to the two sides.  [clap] itself
    is an interface: what its documentation says of an accepted command
    line. *)

From S2P Require Import Prelude Timing Remote Net Args Service Tls Acme Client Serve.

Open Scope penguin_scope.

(** ** Declarations and matches *)

(** [clap::ArgAction], those used. *)
Inductive ArgAction := ActSet | ActAppend | ActSetTrue | ActCount.

#[export] Instance ArgAction_eq_dec : EqDecision ArgAction.
Proof. solve_decision. Defined.

(** [clap::Arg]: one without a short and a long form is positional, with how
    many values it takes; [arg_value_ok] is what its value parser accepts. *)
Record Arg := MkArg {
  arg_id : bytes;
  arg_short : option Z;
  arg_long : option bytes;
  arg_action : ArgAction;
  arg_num_args : Z * Z;
  arg_default_values : list bytes;
  arg_required : bool;
  arg_requires : list bytes;
  arg_conflicts_with : list bytes;
  arg_value_ok : bytes -> bool;
}.

(** The arguments found on the command line, by identifier, each with its
    values in order; a flag has an empty value for each occurrence. *)
Definition Matches : Type := gmap bytes (list bytes).

Definition present (m : Matches) (id : bytes) : Prop := is_Some (m !! id).

#[export] Instance present_dec m id : Decision (present m id).
Proof. unfold present. apply _. Defined.

(** Those an argument conflicts with, whichever of the two declares it. *)
Definition conflicts_of (args : list Arg) (id : bytes) : list bytes :=
  flat_map (fun b => (if bool_decide (arg_id b = id) then arg_conflicts_with b else [])
                     ++ (if bool_decide (id ∈ arg_conflicts_with b) then [arg_id b] else [])) args.

(** A missing argument is excused when one that conflicts with it is there. *)
Definition there (args : list Arg) (m : Matches) (id : bytes) : Prop :=
  present m id \/ Exists (present m) (conflicts_of args id).

Definition values_accepted (a : Arg) (values : list bytes) : Prop :=
  Forall (fun v => arg_value_ok a v = true) values
  /\ match arg_action a with
     | ActSet | ActSetTrue => length values = 1%nat
     | ActAppend => (arg_num_args a).1 <= Z.of_nat (length values)
     | ActCount => (1 <= length values)%nat
     end.

Definition arg_accepted (args : list Arg) (m : Matches) (a : Arg) : Prop :=
  (arg_required a = true -> there args m (arg_id a))
  /\ match m !! arg_id a with
     | None => True
     | Some values =>
         values_accepted a values
         /\ Forall (there args m) (arg_requires a)
         /\ Forall (fun c => ~ present m c) (arg_conflicts_with a)
     end.

(** What [clap] has checked of the arguments of a subcommand. *)
Definition accepted (args : list Arg) (m : Matches) : Prop := Forall (arg_accepted args m) args.

#[export] Instance there_dec args m id : Decision (there args m id).
Proof. unfold there. apply _. Defined.

#[export] Instance values_accepted_dec a values : Decision (values_accepted a values).
Proof. unfold values_accepted. destruct (arg_action a); apply _. Defined.

#[export] Instance arg_accepted_dec args m a : Decision (arg_accepted args m a).
Proof. unfold arg_accepted. destruct (m !! arg_id a); [|apply _]. destruct (arg_required a); apply _. Defined.

#[export] Instance accepted_dec args m : Decision (accepted args m).
Proof. unfold accepted. apply _. Defined.

(** [Command::try_get_matches_from] for subcommands and global flags: which
    subcommand, its matches, and how often each global flag was given. *)
Class Clap := {
  clap_error : Type;
  try_get_matches_from : list (bytes * list Arg) -> list Arg -> list bytes -> clap_error + bytes * Matches * (bytes -> Z);
  matches_accepted : forall subcommands globals argv name m given,
    try_get_matches_from subcommands globals argv = inr (name, m, given) ->
    exists args, (name, args) ∈ subcommands /\ accepted args m;
}.

(** ** Typed arguments *)

(** A declaration with the value parser of its field. *)
Record Typed (A : Type) := MkTyped { ty_arg : Arg; ty_parse : bytes -> option A }.
Arguments MkTyped {A} _ _.
Arguments ty_arg {A} _.
Arguments ty_parse {A} _ _.

Definition declare {A} (parse : bytes -> option A) (id : bytes) (short : option Z) (long : option bytes) (action : ArgAction)
    (num_args : Z * Z) (default_values : list bytes) (required : bool) (requires conflicts_with : list bytes) : Typed A :=
  MkTyped (MkArg id short long action num_args default_values required requires conflicts_with
             (fun v => match parse v with Some _ => true | None => false end)) parse.

(** What the derive macro makes of the fields: [T] is positional and required,
    [Vec<T>] appends, [Option<T>] is set at most once, as is a [T] with a
    default, [bool] is a flag. *)
Definition positional {A} parse id : Typed A := declare parse id None None ActSet (1, 1) [] true [] [].
Definition positionals {A} parse id num_args required : Typed A := declare parse id None None ActAppend num_args [] required [] [].
Definition vec {A} parse id short long default_values requires conflicts : Typed A :=
  declare parse id short (Some long) ActAppend (1, 1) default_values false requires conflicts.
Definition opt {A} parse id short long requires : Typed A := declare parse id short (Some long) ActSet (1, 1) [] false requires [].
Definition with_default {A} parse id long default_value : Typed A :=
  declare parse id None (Some long) ActSet (1, 1) [default_value] false [] [].
Definition flag id short long : Typed unit := declare (fun _ => Some tt) id short (Some long) ActSetTrue (0, 0) [] false [] [].

(** [ArgMatches::get_many], [get_one], [remove_one] of a required one and
    [get_flag]: the defaults stand in for an absent argument. *)
Definition get_many {A} (t : Typed A) (m : Matches) : option (list A) :=
  mapM (ty_parse t) (default (arg_default_values (ty_arg t)) (m !! arg_id (ty_arg t))).

Definition get_one {A} (t : Typed A) (m : Matches) : option (option A) := hd_error <$> get_many t m.

Definition get_required {A} (t : Typed A) (m : Matches) : option A := get_many t m ≫= hd_error.

Definition get_flag {A} (t : Typed A) (m : Matches) : bool := bool_decide (present m (arg_id (ty_arg t))).

(** ** Lemmas on matches *)

(** Every argument below is made by [declare], so its parser is the one it was
    checked with. *)
Definition sound {A} (t : Typed A) : Prop := forall v, arg_value_ok (ty_arg t) v = true -> is_Some (ty_parse t v).

Lemma declare_sound {A} parse id short long action num_args defaults required requires conflicts :
  @sound A (declare parse id short long action num_args defaults required requires conflicts).
Proof. intros v. cbn. destruct (parse v); eauto. easy. Qed.

Lemma accepted_arg args m a : accepted args m -> a ∈ args -> arg_accepted args m a.
Proof. unfold accepted. rewrite Forall_forall. intros H Ha%list_elem_of_In. auto. Qed.

Lemma accepted_required args m a :
  accepted args m -> a ∈ args -> arg_required a = true -> conflicts_of args (arg_id a) = [] -> present m (arg_id a).
Proof.
  intros H Ha Hr Hc. destruct (proj1 (accepted_arg _ _ _ H Ha) Hr) as [Hp|He]; [easy|]. rewrite Hc in He. now apply Exists_nil in He.
Qed.

Lemma accepted_present args m a :
  accepted args m -> a ∈ args -> present m (arg_id a) ->
  Forall (there args m) (arg_requires a) /\ Forall (fun c => ~ present m c) (arg_conflicts_with a).
Proof. intros H Ha [vs Hvs]. pose proof (proj2 (accepted_arg _ _ _ H Ha)) as Hv. rewrite Hvs in Hv. tauto. Qed.

(** The values of an accepted command line parse. *)
Lemma get_many_ok {A} (t : Typed A) args m :
  accepted args m -> ty_arg t ∈ args -> sound t -> Forall (fun v => is_Some (ty_parse t v)) (arg_default_values (ty_arg t)) ->
  exists l, get_many t m = Some l
    /\ length l = length (default (arg_default_values (ty_arg t)) (m !! arg_id (ty_arg t)))
    /\ Forall (fun x => exists v, ty_parse t v = Some x) l.
Proof.
  intros H Ha Hs Hd. unfold get_many.
  assert (Hall : Forall (fun v => is_Some (ty_parse t v)) (default (arg_default_values (ty_arg t)) (m !! arg_id (ty_arg t)))).
  { pose proof (proj2 (accepted_arg _ _ _ H Ha)) as Hv. destruct (m !! arg_id (ty_arg t)) as [vs|]; [|easy]. cbn.
    destruct Hv as ((Hok & _) & _). revert Hok. apply Forall_impl. auto. }
  apply mapM_is_Some_2 in Hall as [l Hl]. exists l. split; [easy|]. apply mapM_Some in Hl.
  split; [now apply Forall2_length in Hl|]. clear -Hl. induction Hl; constructor; eauto.
Qed.

(** One that is set at most once has at most one value. *)
Lemma get_one_ok {A} (t : Typed A) args m :
  accepted args m -> ty_arg t ∈ args -> sound t -> arg_default_values (ty_arg t) = [] ->
  exists o, get_one t m = Some o /\ (arg_action (ty_arg t) = ActSet -> is_Some o <-> present m (arg_id (ty_arg t))).
Proof.
  intros H Ha Hs Hd. destruct (get_many_ok t args m H Ha Hs) as (l & Hl & Hlen & _); [now rewrite Hd|].
  exists (hd_error l). unfold get_one. rewrite Hl. split; [easy|]. intros Hset.
  pose proof (proj2 (accepted_arg _ _ _ H Ha)) as Hv. unfold present.
  destruct (m !! arg_id (ty_arg t)) as [vs|]; cbn in Hlen.
  - destruct Hv as ((_ & Hn) & _). rewrite Hset in Hn. rewrite Hn in Hlen. destruct l as [|x [|]]; easy.
  - rewrite Hd in Hlen. destruct l; [|easy]. cbn. split; now intros [].
Qed.

Lemma get_required_ok {A} (t : Typed A) args m :
  accepted args m -> ty_arg t ∈ args -> sound t ->
  Forall (fun v => is_Some (ty_parse t v)) (arg_default_values (ty_arg t)) ->
  arg_action (ty_arg t) = ActSet -> (arg_default_values (ty_arg t) = [] -> present m (arg_id (ty_arg t))) ->
  exists x, get_required t m = Some x /\ exists v, ty_parse t v = Some x.
Proof.
  intros H Ha Hs Hd Hset Hp. destruct (get_many_ok t args m H Ha Hs Hd) as (l & Hl & Hlen & Hall).
  unfold get_required. rewrite Hl. cbn. destruct l as [|x l]; [exfalso|].
  - pose proof (proj2 (accepted_arg _ _ _ H Ha)) as Hv. unfold present in Hp. destruct (m !! arg_id (ty_arg t)) as [vs|]; cbn in Hlen.
    + destruct Hv as ((_ & Hn) & _). rewrite Hset in Hn. congruence.
    + destruct (arg_default_values (ty_arg t)); [|easy]. now destruct (Hp eq_refl).
  - exists x. split; [easy|]. now inversion Hall.
Qed.

(** One that appends has a value when it is there or has a default. *)
Lemma get_many_nonempty {A} (t : Typed A) args m l :
  accepted args m -> ty_arg t ∈ args -> arg_action (ty_arg t) = ActAppend -> 1 <= (arg_num_args (ty_arg t)).1 ->
  arg_default_values (ty_arg t) <> [] \/ present m (arg_id (ty_arg t)) -> get_many t m = Some l -> l <> [].
Proof.
  intros H Ha Hact Hnum Hp Hl ->. apply mapM_Some, Forall2_nil_inv_r in Hl.
  pose proof (proj2 (accepted_arg _ _ _ H Ha)) as Hv. unfold present in Hp.
  destruct (m !! arg_id (ty_arg t)) as [vs|]; cbn in Hl.
  - subst vs. destruct Hv as ((_ & Hn) & _). rewrite Hact in Hn. cbn in Hn. lia.
  - destruct Hp as [Hp|[? Hp]]; easy.
Qed.

Lemma get_many_present {A} (t : Typed A) m l :
  arg_default_values (ty_arg t) = [] -> get_many t m = Some l -> l <> [] -> present m (arg_id (ty_arg t)).
Proof.
  intros Hd Hl Hne. unfold get_many in Hl. unfold present. destruct (m !! arg_id (ty_arg t)); [eauto|].
  cbn in Hl. rewrite Hd in Hl. now injection Hl as <-.
Qed.

(** ** The arguments of the program *)

(** [Result::ok].  A parser that panics, as the one of remotes does on some
    texts, ends the process: its value is not accepted either. *)
Definition ok {E A} (r : res E A) : option A := match r with Ok a => Some a | _ => None end.

Section Program.
(** The [http] crate, as in Args.v; [clap]'s parser of an integer up to a
    bound; the directory [instant_acme] knows for Let's Encrypt; and the
    features compiled in. *)
Context {Uri : Type}.
Variable uri_parts : bytes -> option Parts.
Variable uri_build : bytes -> bytes -> bytes -> option Uri.
Variable uri_scheme : Uri -> option bytes.
Variable header_name : bytes -> option bytes.
Variable header_value : bytes -> option bytes.
Variable parse_ranged : Z -> bytes -> option Z.
Variable lets_encrypt_production_url : bytes.
Variables default_is_ipv6 acme : bool.

(** Value parsers: [String], the integers, and the [FromStr] of the others. *)
Definition parse_string (v : bytes) : option bytes := if utf8_ok v then Some v else None.
Definition parse_u8 : bytes -> option Z := parse_ranged (2 ^ 8 - 1).
Definition parse_u16 : bytes -> option Z := parse_ranged (2 ^ 16 - 1).
Definition parse_u32 : bytes -> option Z := parse_ranged (2 ^ 32 - 1).
Definition parse_u64 : bytes -> option Z := parse_ranged (2 ^ 64 - 1).
Definition parse_timeout (v : bytes) : option OptionalDuration := ok (optional_from_str v).
Definition parse_remote (v : bytes) : option Remote := ok (remote_from_str default_is_ipv6 v).
Definition parse_server (v : bytes) : option Uri := ok (server_url_from_str uri_parts uri_build v).
Definition parse_backend (v : bytes) : option BackendUrl := ok (backend_url_from_str uri_parts v).
Definition parse_header (v : bytes) : option Header := ok (header_from_str header_name header_value v).

(** *** [ClientArgs] *)

Definition client_server : Typed Uri := positional parse_server (str "server").
Definition client_remote : Typed Remote := positionals parse_remote (str "remote") (1, 65535) true.
Definition client_ws_psk : Typed bytes := opt header_value (str "ws_psk") None (str "ws-psk") [].
Definition client_keepalive : Typed OptionalDuration := with_default parse_timeout (str "keepalive") (str "keepalive") (str "25").
Definition client_max_retry_count : Typed Z := with_default parse_u32 (str "max_retry_count") (str "max-retry-count") (show_uint 0).
Definition client_max_retry_interval : Typed Z := with_default parse_u64 (str "max_retry_interval") (str "max-retry-interval") (show_uint 300000).
Definition client_handshake_timeout : Typed OptionalDuration :=
  with_default parse_timeout (str "handshake_timeout") (str "handshake-timeout") (str "10").
Definition client_proxy : Typed bytes := opt parse_string (str "proxy") (Some 120) (str "proxy") [].
Definition client_header : Typed Header := vec parse_header (str "header") (Some 72) (str "header") [] [] [].
Definition client_hostname : Typed bytes := opt header_value (str "hostname") None (str "hostname") [].
Definition client_tls_ca : Typed bytes := opt parse_string (str "tls_ca") (Some 116) (str "tls-ca") [].
Definition client_tls_skip_verify : Typed unit := flag (str "tls_skip_verify") (Some 107) (str "tls-skip-verify").
Definition client_tls_key : Typed bytes := opt parse_string (str "tls_key") None (str "tls-key") [str "tls_cert"].
Definition client_tls_cert : Typed bytes := opt parse_string (str "tls_cert") None (str "tls-cert") [str "tls_key"].
Definition client_channel_timeout : Typed OptionalDuration :=
  with_default parse_timeout (str "channel_timeout") (str "channel-timeout") (str "10").
Definition client_pid : Typed unit := flag (str "_pid") None (str "pid").
Definition client_fingerprint : Typed bytes := opt parse_string (str "_fingerprint") None (str "fingerprint") [].
Definition client_auth : Typed bytes := opt parse_string (str "_auth") None (str "auth") [].

Definition client_args : list Arg :=
  [ty_arg client_server; ty_arg client_remote; ty_arg client_ws_psk; ty_arg client_keepalive; ty_arg client_max_retry_count; ty_arg client_max_retry_interval;
   ty_arg client_handshake_timeout; ty_arg client_proxy; ty_arg client_header; ty_arg client_hostname; ty_arg client_tls_ca; ty_arg client_tls_skip_verify;
   ty_arg client_tls_key; ty_arg client_tls_cert; ty_arg client_channel_timeout; ty_arg client_pid; ty_arg client_fingerprint; ty_arg client_auth].

(** The fields of [ClientArgs] without those that do nothing. *)
Record ClientArgs := MkClientArgs {
  cl_server : Uri;
  cl_remote : list Remote;
  cl_ws_psk : option bytes;
  cl_keepalive : OptionalDuration;
  cl_max_retry_count : Z;
  cl_max_retry_interval : Z;
  cl_handshake_timeout : OptionalDuration;
  cl_proxy : option bytes;
  cl_header : list Header;
  cl_hostname : option bytes;
  cl_tls_ca : option bytes;
  cl_tls_skip_verify : bool;
  cl_tls_key : option bytes;
  cl_tls_cert : option bytes;
  cl_channel_timeout : OptionalDuration;
}.

(** [FromArgMatches for ClientArgs]. *)
Definition client_from_arg_matches (m : Matches) : option ClientArgs :=
  server ← get_required client_server m;
  remote ← get_many client_remote m;
  ws_psk ← get_one client_ws_psk m;
  keepalive ← get_required client_keepalive m;
  max_retry_count ← get_required client_max_retry_count m;
  max_retry_interval ← get_required client_max_retry_interval m;
  handshake_timeout ← get_required client_handshake_timeout m;
  proxy ← get_one client_proxy m;
  header ← get_many client_header m;
  hostname ← get_one client_hostname m;
  tls_ca ← get_one client_tls_ca m;
  tls_key ← get_one client_tls_key m;
  tls_cert ← get_one client_tls_cert m;
  channel_timeout ← get_required client_channel_timeout m;
  Some (MkClientArgs server remote ws_psk keepalive max_retry_count max_retry_interval handshake_timeout proxy header hostname
          tls_ca (get_flag client_tls_skip_verify m) tls_key tls_cert channel_timeout).

(** The fields Client.v uses. *)
Definition client_view (a : ClientArgs) : Client.ClientArgs :=
  MkArgs (uri_scheme (cl_server a)) (cl_ws_psk a) (cl_hostname a) (map (fun h => (hd_name h, hd_value h)) (cl_header a))
    (cl_max_retry_count a) (cl_max_retry_interval a) (cl_channel_timeout a).

(** *** [ServerArgs] *)

Definition server_host : Typed bytes := vec parse_string (str "host") None (str "host") [str "::"] [] [].
Definition server_port : Typed Z := vec parse_u16 (str "port") (Some 112) (str "port") [show_uint 8080] [] [].
Definition server_backend : Typed BackendUrl := opt parse_backend (str "backend") None (str "backend") [].
Definition server_obfs : Typed unit := flag (str "obfs") None (str "obfs").
Definition server_not_found_resp : Typed bytes := with_default parse_string (str "not_found_resp") (str "404-resp") (str "Not found").
Definition server_ws_psk : Typed bytes := opt header_value (str "ws_psk") None (str "ws-psk") [].
Definition server_reverse : Typed unit := flag (str "reverse") None (str "reverse").
Definition server_tls_key : Typed bytes := opt parse_string (str "tls_key") None (str "tls-key") [str "tls_cert"].
Definition server_tls_cert : Typed bytes := opt parse_string (str "tls_cert") None (str "tls-cert") [str "tls_key"].
Definition server_tls_ca : Typed bytes := opt parse_string (str "tls_ca") None (str "tls-ca") [].
Definition server_tls_domain : Typed bytes :=
  vec parse_string (str "tls_domain") None (str "tls-domain") [] [str "tls_acme_accept_tos"; str "tls_acme_challenge_helper"]
    [str "tls_key"; str "tls_cert"].
Definition server_tls_acme_url : Typed bytes := with_default parse_string (str "tls_acme_url") (str "tls-acme-url") lets_encrypt_production_url.
Definition server_tls_acme_email : Typed bytes := opt parse_string (str "tls_acme_email") None (str "tls-acme-email") [].
Definition server_tls_acme_accept_tos : Typed unit := flag (str "tls_acme_accept_tos") None (str "tls-acme-accept-tos").
Definition server_tls_acme_challenge_helper : Typed bytes :=
  opt Some (str "tls_acme_challenge_helper") None (str "tls-acme-challenge-helper") [].
Definition server_timeout : Typed OptionalDuration := with_default parse_timeout (str "timeout") (str "timeout") (str "60").
Definition server_pid : Typed unit := flag (str "_pid") None (str "pid").
Definition server_socks5 : Typed unit := flag (str "_socks5") None (str "socks5").
Definition server_keepalive : Typed OptionalDuration := with_default parse_timeout (str "_keepalive") (str "keepalive") (str "0").
Definition server_auth : Typed bytes := opt parse_string (str "_auth") None (str "auth") [].
Definition server_authfile : Typed bytes := opt parse_string (str "_authfile") None (str "authfile") [].
Definition server_key : Typed bytes := opt parse_string (str "_key") None (str "key") [].

(** The arguments of the [acme] feature. *)
Definition acme_table : list Arg :=
  [ty_arg server_tls_domain; ty_arg server_tls_acme_url; ty_arg server_tls_acme_email; ty_arg server_tls_acme_accept_tos;
   ty_arg server_tls_acme_challenge_helper].

Definition server_args : list Arg :=
  [ty_arg server_host; ty_arg server_port; ty_arg server_backend; ty_arg server_obfs; ty_arg server_not_found_resp; ty_arg server_ws_psk; ty_arg server_reverse;
   ty_arg server_tls_key; ty_arg server_tls_cert; ty_arg server_tls_ca]
  ++ (if acme then acme_table else [])
  ++ [ty_arg server_timeout; ty_arg server_pid; ty_arg server_socks5; ty_arg server_keepalive; ty_arg server_auth; ty_arg server_authfile; ty_arg server_key].

(** What the fields of the feature are: without it they do not exist, and the
    values here are looked at by nothing. *)
Definition acme_fields (m : Matches) : option (list bytes * bytes * option bytes * bool * option bytes) :=
  if acme then
    tls_domain ← get_many server_tls_domain m;
    tls_acme_url ← get_required server_tls_acme_url m;
    tls_acme_email ← get_one server_tls_acme_email m;
    tls_acme_challenge_helper ← get_one server_tls_acme_challenge_helper m;
    Some (tls_domain, tls_acme_url, tls_acme_email, get_flag server_tls_acme_accept_tos m, tls_acme_challenge_helper)
  else Some ([], [], None, false, None).

(** [FromArgMatches for ServerArgs]. *)
Definition server_from_arg_matches (m : Matches) : option ServerArgs :=
  host ← get_many server_host m;
  port ← get_many server_port m;
  backend ← get_one server_backend m;
  not_found_resp ← get_required server_not_found_resp m;
  ws_psk ← get_one server_ws_psk m;
  tls_key ← get_one server_tls_key m;
  tls_cert ← get_one server_tls_cert m;
  tls_ca ← get_one server_tls_ca m;
  '(tls_domain, tls_acme_url, tls_acme_email, tls_acme_accept_tos, tls_acme_challenge_helper) ← acme_fields m;
  timeout ← get_required server_timeout m;
  Some (MkServerArgs host port backend (get_flag server_obfs m) not_found_resp ws_psk (get_flag server_reverse m) tls_key tls_cert tls_ca
          tls_domain tls_acme_url tls_acme_email tls_acme_accept_tos tls_acme_challenge_helper timeout).

(** *** [PenguinCli] *)

Definition verbose : Typed unit :=
  declare (fun _ => Some tt) (str "verbose") (Some 118) (Some (str "verbose")) ActCount (0, 0) [] false [] [str "quiet"].
Definition quiet : Typed unit :=
  declare (fun _ => Some tt) (str "quiet") (Some 113) (Some (str "quiet")) ActCount (0, 0) [] false [] [str "verbose"].

Inductive Commands := Client (args : ClientArgs) | Server (args : ServerArgs).

Record PenguinCli := MkPenguinCli { subcommand : Commands; cli_verbose : Z; cli_quiet : Z }.

Definition subcommands : list (bytes * list Arg) := [(str "client", client_args); (str "server", server_args)].

(** A count of a [u8] stays at its largest value. *)
Definition saturating_count (n : Z) : Z := Z.min 255 n.

Definition from_arg_matches (name : bytes) (m : Matches) (given : bytes -> Z) : option PenguinCli :=
  command ← if is_str name "client" then Client <$> client_from_arg_matches m
            else if is_str name "server" then Server <$> server_from_arg_matches m else None;
  Some (MkPenguinCli command (saturating_count (given (str "verbose"))) (saturating_count (given (str "quiet")))).

(** [PenguinCli::try_parse_from]: the error of [clap], or [None] when its
    matches are not of the types of the fields. *)
Definition try_parse_from `{!Clap} (argv : list bytes) : clap_error + option PenguinCli :=
  match try_get_matches_from subcommands [ty_arg verbose; ty_arg quiet] argv with
  | inl e => inl e
  | inr (name, m, given) => inr (from_arg_matches name m given)
  end.

(** ** Lemmas *)

(** What the parsers of the crates do with what the program gives them. *)
Hypothesis parse_ranged_bound : forall max s n, 0 <= max -> parse_ranged max s = Some n -> 0 <= n <= max.
Hypothesis parse_ranged_show : forall max n, 0 <= n <= max -> n < 10 ^ 20 -> parse_ranged max (show_uint n) = Some n.
Hypothesis production_url_utf8 : utf8_ok lets_encrypt_production_url = true.

Lemma parse_show_ok max n : 0 <= n <= max -> n < 10 ^ 20 -> is_Some (parse_ranged max (show_uint n)).
Proof. intros. rewrite parse_ranged_show by easy. eauto. Qed.

Lemma production_url_ok : is_Some (parse_string lets_encrypt_production_url).
Proof. unfold parse_string. rewrite production_url_utf8. eauto. Qed.

Ltac in_args :=
  first [apply list_elem_of_here | apply list_elem_of_further; in_args].

(** A declared argument is one of the table. *)
Ltac in_table := unfold client_args, server_args, acme_table; cbn [app]; in_args.

(** The default of a declared argument parses. *)
Ltac default_parses :=
  cbn -[show_uint parse_string]; repeat constructor;
  first [apply parse_show_ok; lia | apply production_url_ok | eexists; reflexivity].

Ltac take_field H :=
  match goal with
  | |- context [get_required ?t ?m ≫= _] =>
      let x := fresh "x" in let Hx := fresh "Hx" in let Hv := fresh "Hv" in
      destruct (get_required_ok t _ m H) as (x & Hx & Hv);
      [in_table | apply declare_sound | default_parses | reflexivity
      | first [discriminate | intros _; apply (accepted_required _ _ (ty_arg t) H); [in_table | reflexivity | reflexivity]]
      | rewrite Hx; cbn [mbind option_bind]]
  | |- context [get_one ?t ?m ≫= _] =>
      let o := fresh "o" in let Ho := fresh "Ho" in let Hp := fresh "Hp" in
      destruct (get_one_ok t _ m H) as (o & Ho & Hp);
      [in_table | apply declare_sound | reflexivity | rewrite Ho; cbn [mbind option_bind]; specialize (Hp eq_refl)]
  | |- context [get_many ?t ?m ≫= _] =>
      let l := fresh "l" in let Hl := fresh "Hl" in let Hn := fresh "Hn" in let Hv := fresh "Hv" in
      destruct (get_many_ok t _ m H) as (l & Hl & Hn & Hv);
      [in_table | apply declare_sound | default_parses | rewrite Hl; cbn [mbind option_bind]]
  end.

(** The key and the certificate come together: each requires the other, and
    what conflicts with one conflicts with both. *)
Lemma key_with_cert args m a b :
  accepted args m -> a ∈ args -> b ∈ args -> arg_requires a = [arg_id b] ->
  (forall c, c ∈ conflicts_of args (arg_id b) -> present m c -> ~ present m (arg_id a)) ->
  present m (arg_id a) -> present m (arg_id b).
Proof.
  intros H Ha Hb Hr Hc Hp. destruct (accepted_present _ _ _ H Ha Hp) as [Hreq _]. rewrite Hr in Hreq.
  apply Forall_cons_1 in Hreq as [[Hok|He] _]; [easy|]. apply Exists_exists in He as (c & Hin%list_elem_of_In & Hpc).
  now destruct (Hc c Hin Hpc).
Qed.

Lemma accepted_client m :
  accepted client_args m ->
  exists a, client_from_arg_matches m = Some a
    /\ cl_remote a <> [] /\ Forall (fun r => exists v, parse_remote v = Some r) (cl_remote a)
    /\ (is_Some (cl_tls_key a) <-> is_Some (cl_tls_cert a))
    /\ (exists v, parse_server v = Some (cl_server a))
    /\ 0 <= cl_max_retry_count a < 2 ^ 32 /\ 0 <= cl_max_retry_interval a < 2 ^ 64.
Proof.
  intros H. unfold client_from_arg_matches. repeat take_field H. eexists. split; [reflexivity|].
  cbn [cl_server cl_remote cl_tls_key cl_tls_cert cl_max_retry_count cl_max_retry_interval]. split_and!.
  - eapply (get_many_nonempty client_remote); [exact H|in_table|reflexivity|easy| |eassumption]. right.
    apply (accepted_required _ _ (ty_arg client_remote) H); [in_table|reflexivity..].
  - easy.
  - rewrite Hp3, Hp4. split; apply (key_with_cert client_args); try (in_table || easy); now intros c Hc%elem_of_nil.
  - easy.
  - destruct Hv1 as [v Hv1]. apply parse_ranged_bound in Hv1; [|lia]. lia.
  - destruct Hv1 as [v Hv1]. apply parse_ranged_bound in Hv1; [|lia]. lia.
  - destruct Hv2 as [v Hv2]. apply parse_ranged_bound in Hv2; [|lia]. lia.
  - destruct Hv2 as [v Hv2]. apply parse_ranged_bound in Hv2; [|lia]. lia.
Qed.

(** What an argument needs that conflicts with nothing. *)
Lemma needs args m a id :
  accepted args m -> a ∈ args -> present m (arg_id a) -> id ∈ arg_requires a -> conflicts_of args id = [] -> present m id.
Proof.
  intros H Ha Hp Hid%list_elem_of_In Hc. destruct (accepted_present _ _ _ H Ha Hp) as [Hr _]. rewrite Forall_forall in Hr.
  destruct (Hr id Hid) as [Hpr|He]; [easy|]. rewrite Hc in He. now apply Exists_nil in He.
Qed.

(** The domains exclude a key and a certificate and need the rest of ACME. *)
Lemma domain_needs m :
  acme = true -> accepted server_args m -> present m (str "tls_domain") ->
  ~ present m (str "tls_key") /\ ~ present m (str "tls_cert")
  /\ present m (str "tls_acme_accept_tos") /\ present m (str "tls_acme_challenge_helper").
Proof.
  intros Ha H Hp. unfold server_args in H. rewrite Ha in H.
  destruct (accepted_present _ _ (ty_arg server_tls_domain) H) as [_ Hc]; [in_table|easy|].
  cbn in Hc. apply Forall_cons_1 in Hc as [Hkey Hc]. apply Forall_cons_1 in Hc as [Hcert _].
  split; [easy|]. split; [easy|].
  split; (eapply (needs _ _ (ty_arg server_tls_domain) _ H); [in_table|exact Hp| |reflexivity]); [apply list_elem_of_here|].
  apply list_elem_of_further, list_elem_of_here.
Qed.

Lemma key_with_server_cert m :
  accepted server_args m -> present m (str "tls_key") <-> present m (str "tls_cert").
Proof.
  intros H. assert (Hc : forall id c, id = str "tls_key" \/ id = str "tls_cert" ->
    c ∈ conflicts_of server_args id -> present m c -> ~ present m (str "tls_key") /\ ~ present m (str "tls_cert")).
  { intros id c Hid Hin Hp. unfold server_args in Hin. pose proof (domain_needs m) as Hd. destruct acme.
    - assert (c = str "tls_domain") as ->; [|now destruct (Hd eq_refl H Hp) as (? & ? & _)].
      destruct Hid as [-> | ->]; now apply list_elem_of_singleton in Hin.
    - destruct Hid as [-> | ->]; now apply elem_of_nil in Hin. }
  split.
  - apply (key_with_cert server_args m (ty_arg server_tls_key) (ty_arg server_tls_cert) H); [in_table|in_table|easy|].
    intros c Hin Hp. now apply (Hc (str "tls_cert") c); auto.
  - apply (key_with_cert server_args m (ty_arg server_tls_cert) (ty_arg server_tls_key) H); [in_table|in_table|easy|].
    intros c Hin Hp. now apply (Hc (str "tls_key") c); auto.
Qed.

Lemma accepted_server m :
  accepted server_args m ->
  exists a, server_from_arg_matches m = Some a
    /\ ar_host a <> [] /\ ar_port a <> [] /\ Forall u16_ok (ar_port a)
    /\ (is_Some (ar_tls_key a) <-> is_Some (ar_tls_cert a))
    /\ (ar_tls_domain a <> [] ->
        ar_tls_key a = None /\ ar_tls_acme_accept_tos a = true /\ is_Some (ar_tls_acme_challenge_helper a)).
Proof.
  intros H. pose proof (key_with_server_cert m H) as Hkey. pose proof (domain_needs m) as Hdomain.
  assert (Hhost : forall l, get_many server_host m = Some l -> l <> []).
  { intros l. apply (get_many_nonempty server_host server_args); try easy; [in_table|now left]. }
  assert (Hport : forall l, get_many server_port m = Some l -> l <> []).
  { intros l. apply (get_many_nonempty server_port server_args); try easy; [in_table|now left]. }
  assert (Hports : forall l, Forall (fun p => exists v, ty_parse server_port v = Some p) l -> Forall u16_ok l).
  { intros l. apply Forall_impl. intros p [v Hv]. apply parse_ranged_bound in Hv; [|lia]. unfold in_width. lia. }
  unfold server_from_arg_matches, acme_fields. unfold server_args in H, Hdomain. destruct acme.
  - specialize (Hdomain eq_refl H). repeat take_field H. cbn. repeat take_field H. eexists. split; [reflexivity|]. cbn.
    split_and!; [auto|auto|auto|now rewrite Hp1, Hp2|].
    intros Hd. destruct Hdomain as (H1 & _ & H3 & H4); [now eapply (get_many_present server_tls_domain); eauto|].
    split_and!; [|now apply bool_decide_eq_true_2|now apply Hp5]. destruct o1; [|easy]. destruct H1. apply Hp1. eauto.
  - repeat take_field H. cbn. repeat take_field H. eexists. split; [reflexivity|]. cbn.
    split_and!; [auto|auto|auto|now rewrite Hp1, Hp2|easy].
Qed.

(** ** Starting from an accepted command line *)

Lemma collect_sockaddrs_total ports last_port i hosts : collect_sockaddrs ports last_port i hosts <> Panic.
Proof.
  revert i. induction hosts as [|h hosts IH]; intros i; cbn; [easy|]. destruct (ip_from_str (remove_brackets h)); [|easy]. cbn.
  specialize (IH (S i)). now destruct (collect_sockaddrs ports last_port (S i) hosts).
Qed.

Lemma arg_to_sockaddrs_total hosts ports : hosts <> [] -> ports <> [] -> arg_to_sockaddrs hosts ports <> Panic.
Proof.
  intros Hh Hp. unfold arg_to_sockaddrs, last_of. destruct (rev ports) as [|p l] eqn:Hr.
  - apply (f_equal (@rev _)) in Hr. now rewrite rev_involutive in Hr.
  - cbn. destruct hosts; [easy|]. apply collect_sockaddrs_total.
Qed.

Lemma parse_remote_sound v r : parse_remote v = Some r -> local_sound (local_addr r) /\ remote_sound (remote_addr r).
Proof.
  unfold parse_remote, remote_from_str. intros H.
  destruct (match rsplit_once ch_slash v with Some (rest, proto) => p ← protocol_from_str proto; Ok (rest, p) | None => Ok (v, Tcp) end)
    as [[rest proto]|e|]; [|easy..]. cbn [mbind res_bind] in H.
  destruct (tokenize_remote rest) as [tokens|e|]; [|easy..]. cbn [mbind res_bind] in H.
  pose proof (remote_of_tokens_sound default_is_ipv6 proto tokens) as Hs.
  destruct (remote_of_tokens default_is_ipv6 proto tokens) as [r'|e|]; [|easy..]. destruct Hs as (H1 & H2 & _).
  assert (r' = r) as <- by (now destruct (remote_addr r'), (protocol r'); inversion H). easy.
Qed.

(** A URL that was built has the scheme it was built with. *)
Hypothesis built_scheme : forall scheme authority path u, uri_build scheme authority path = Some u -> uri_scheme u = Some scheme.

Lemma parse_server_scheme v u :
  parse_server v = Some u -> uri_scheme u = Some (str "ws") \/ uri_scheme u = Some (str "wss").
Proof.
  unfold parse_server. destruct (server_url_from_str uri_parts uri_build v) as [u'|e|] eqn:H; [|easy..].
  intros [= <-]. apply server_url_scheme in H as (parts & authority & _ & _ & H). apply built_scheme in H. rewrite H.
  destruct (is_str _ "https" || is_str _ "wss"); auto.
Qed.

Section Start.
Context {St Account Order Child Params KeyPair IE GE TE Config Listener Conn : Type}.
Context {env : AcmeEnv (S := St) (Account := Account) (Order := Order) (Child := Child) (Params := Params)
                       (KeyPair := KeyPair) (IE := IE) (GE := GE)}.
Variable make_server_config : Files -> Path -> Path -> option Path -> res TE Config.
Variable make_config_from_pem : Files -> bytes * bytes -> option Path -> res TE Config.
Variable bind : SocketAddr -> IoErrorKind + Listener.
Variable listener_addr : Listener -> IoErrorKind + SocketAddr.
Variable signal : IoErrorKind + unit.
Variables rounds polls : nat.

(** The TLS libraries report their failures. *)
Hypothesis make_server_config_total : forall files cert key ca, make_server_config files cert key ca <> Panic.
Hypothesis make_config_total : forall files pair ca, make_config_from_pem files pair ca <> Panic.

Lemma bind_listeners_total sockaddrs :
  bind_listeners (IE := IE) (GE := GE) (TE := TE) bind listener_addr sockaddrs <> Panic.
Proof.
  induction sockaddrs as [|a rest IH]; cbn; [easy|]. destruct (bind a) as [|l]; [easy|]. cbn.
  destruct (listener_addr l); [easy|]. cbn. now destruct (bind_listeners bind listener_addr rest).
Qed.

(** What the server asks of its arguments. *)
Definition startable (args : ServerArgs) : Prop :=
  ar_host args <> [] /\ ar_port args <> []
  /\ (is_Some (ar_tls_key args) -> is_Some (ar_tls_cert args))
  /\ (ar_tls_domain args <> [] -> is_Some (ar_tls_acme_challenge_helper args)).

Abbreviation start connector files args w :=
  (server_main (env := env) (Conn := Conn) make_server_config make_config_from_pem bind listener_addr signal acme rounds polls
     connector files args w).

Lemma check_start_tls_total files args w :
  (11 <= rounds)%nat -> startable args ->
  (check_start_tls (env := env) make_server_config make_config_from_pem signal acme rounds polls files args w).2 <> Some Panic.
Proof.
  intros Hr (_ & _ & Hkey & Hhelper). unfold check_start_tls. destruct (ar_tls_key args) as [key|].
  - destruct (Hkey (ltac:(eauto))) as [cert ->]. cbn. unfold make_tls_identity.
    pose proof (make_server_config_total files cert key (ar_tls_ca args)) as Ht.
    destruct (make_server_config files cert key (ar_tls_ca args)); try easy. cbn. unfold register_signal_handler. now destruct signal.
  - destruct (acme && negb (bool_decide (ar_tls_domain args = []))) eqn:Hd; [|easy].
    apply andb_prop in Hd as [_ Hd%negb_true_iff%bool_decide_eq_false]. destruct (Hhelper Hd) as [helper Hh].
    destruct (populate_once make_config_from_pem make_config_total rounds polls files (acme_args args) helper w Hr Hh)
      as (w' & p & -> & Hp & _). destruct p as [[c|e|]|]; easy.
Qed.

Lemma start_total connector files args w :
  (11 <= rounds)%nat -> startable args -> (start connector files args w).2 <> Some Panic.
Proof.
  intros Hr Hs. pose proof (check_start_tls_total files args w Hr Hs) as Ht. destruct Hs as (Hh & Hp & _).
  unfold server_main, state_new. destruct connector; [easy|].
  pose proof (arg_to_sockaddrs_total _ _ Hh Hp) as Ha. destruct (arg_to_sockaddrs (ar_host args) (ar_port args)) as [addrs| |]; try easy.
  destruct (check_start_tls _ _ _ _ _ _ _ _ _) as [w' [r|]]; [|easy]. cbn in *. destruct r as [tls| |]; try easy. cbn.
  pose proof (bind_listeners_total addrs) as Hb. now destruct (bind_listeners bind listener_addr addrs).
Qed.

(** C19: a command line that was accepted can be acted on: the fields of the
    subcommand are there with their types, and
    - a server has a host and ports of 16 bits, a key with a certificate or
      neither, and a domain only without a key and with the terms accepted;
      whatever the system, the certificate authority and the files do, none of
      the assertions of its start fails;
    - a client has remotes with ports of 16 bits, a key with a certificate or
      neither, a URL of a WebSocket, and its handshake does not panic. *)
Theorem accepted_start `{!Clap} argv parsed :
  (11 <= rounds)%nat -> try_parse_from argv = inr parsed ->
  exists cli, parsed = Some cli /\
    match subcommand cli with
    | Server args =>
        Forall u16_ok (ar_port args)
        /\ (is_Some (ar_tls_key args) <-> is_Some (ar_tls_cert args))
        /\ (ar_tls_domain args <> [] -> ar_tls_key args = None /\ ar_tls_acme_accept_tos args = true)
        /\ forall connector files w, (start connector files args w).2 <> Some Panic
    | Client args =>
        cl_remote args <> []
        /\ Forall (fun r => local_sound (local_addr r) /\ remote_sound (remote_addr r)) (cl_remote args)
        /\ (is_Some (cl_tls_key args) <-> is_Some (cl_tls_cert args))
        /\ (uri_scheme (cl_server args) = Some (str "ws") \/ uri_scheme (cl_server args) = Some (str "wss"))
        /\ forall request_ok tls_ok e, handshake (client_view args) request_ok tls_ok e <> Panic
    end.
Proof.
  unfold try_parse_from. intros Hr Hp.
  destruct (try_get_matches_from subcommands _ argv) as [e|[[name m] given]] eqn:Hm; [easy|]. injection Hp as <-.
  apply matches_accepted in Hm as (args & Hin & Hacc). unfold from_arg_matches.
  apply elem_of_cons in Hin as [[= -> ->]|[= -> ->]%list_elem_of_singleton].
  - destruct (accepted_client m Hacc) as (a & Ha & Hne & Hremotes & Hkey & [v Hserver] & _).
    exists (MkPenguinCli (Client a) (saturating_count (given (str "verbose"))) (saturating_count (given (str "quiet")))).
    split; [cbn; now rewrite Ha|]. cbn. pose proof (parse_server_scheme v _ Hserver) as Hscheme. split_and!; try easy.
    + revert Hremotes. apply Forall_impl. intros r [w Hw]. now apply parse_remote_sound in Hw.
    + intros request_ok tls_ok e. unfold handshake. cbn.
      destruct Hscheme as [-> | ->]; now destruct request_ok, tls_ok, e.
  - destruct (accepted_server m Hacc) as (a & Ha & Hhost & Hport & Hports & Hkey & Hdomain).
    exists (MkPenguinCli (Server a) (saturating_count (given (str "verbose"))) (saturating_count (given (str "quiet")))).
    split; [cbn; now rewrite Ha|]. cbn. split; [easy|]. split; [easy|].
    split; [intros Hd; now destruct (Hdomain Hd) as (? & ? & _)|]. intros connector files w. apply start_total; [easy|]. split; [easy|]. split; [easy|].
    split; [apply Hkey|]. intros Hd. now destruct (Hdomain Hd) as (_ & _ & ?).
Qed.
End Start.
End Program.

(** ** A concrete parser *)

Module Concrete.
(** A parser of command lines of the usual form: [--name value],
    [--name=value], clusters of short flags, [--] before positional values. *)
Definition add_values (id : bytes) (vs : list bytes) (m : Matches) : Matches := <[id := default [] (m !! id) ++ vs]> m.

Definition takes_value (a : Arg) : bool := match arg_action a with ActSet | ActAppend => true | _ => false end.

Definition is_positional (a : Arg) : bool := match arg_short a, arg_long a with None, None => true | _, _ => false end.

Definition find_long (name : bytes) : list Arg -> option Arg := List.find (fun a => bool_decide (arg_long a = Some name)).
Definition find_short (c : Z) : list Arg -> option Arg := List.find (fun a => bool_decide (arg_short a = Some c)).

Definition ch_dash : Z := 45.
Definition ch_equals : Z := 61.

(** A cluster of short arguments; the last may wait for its value. *)
Fixpoint shorts (args : list Arg) (cluster : bytes) (m : Matches) : option (Matches * option Arg) :=
  match cluster with
  | [] => Some (m, None)
  | c :: more =>
      a ← find_short c args;
      if takes_value a then
        match more with
        | [] => Some (m, Some a)
        | x :: value => Some (add_values (arg_id a) [if x =? ch_equals then value else more] m, None)
        end
      else shorts args more (add_values (arg_id a) [[]] m)
  end.

(** A long argument, with the value after an equals sign if there is one. *)
Definition long (args : list Arg) (name : bytes) (m : Matches) : option (Matches * option Arg) :=
  match split_once ch_equals name with
  | Some (name, value) =>
      a ← find_long name args; if takes_value a then Some (add_values (arg_id a) [value] m, None) else None
  | None =>
      a ← find_long name args; if takes_value a then Some (m, Some a) else Some (add_values (arg_id a) [[]] m, None)
  end.

Definition is_dashed (tok : bytes) : bool := starts_with ch_dash tok && negb (bool_decide (tok = [ch_dash])).

Definition option_of (args : list Arg) (tok : bytes) (m : Matches) : option (Matches * option Arg) :=
  match tok with
  | _ :: x :: name => if x =? ch_dash then long args name m else shorts args (x :: name) m
  | _ => None
  end.

Fixpoint tokens (args : list Arg) (escaped : bool) (argv : list bytes) (m : Matches) (pos : list bytes)
  : option (Matches * list bytes) :=
  match argv with
  | [] => Some (m, pos)
  | tok :: rest =>
      if escaped || negb (is_dashed tok) then tokens args escaped rest m (pos ++ [tok])
      else if bool_decide (tok = [ch_dash; ch_dash]) then tokens args true rest m pos
      else
        match option_of args tok m with
        | None => None
        | Some (m, None) => tokens args false rest m pos
        | Some (m, Some a) =>
            match rest with
            | [] => None
            | value :: rest' => if is_dashed value then None else tokens args false rest' (add_values (arg_id a) [value] m) pos
            end
        end
  end.

(** Positional values go to the positional arguments in their order. *)
Fixpoint distribute (positional : list Arg) (pos : list bytes) (m : Matches) : option Matches :=
  match positional, pos with
  | [], [] => Some m
  | [], _ => None
  | a :: positional', _ =>
      match pos, arg_action a with
      | [], _ => distribute positional' [] m
      | _, ActAppend =>
          if (arg_num_args a).2 <? Z.of_nat (length pos) then None else distribute positional' [] (add_values (arg_id a) pos m)
      | value :: pos', _ => distribute positional' pos' (add_values (arg_id a) [value] m)
      end
  end.

Definition matches_of (args : list Arg) (argv : list bytes) : option Matches :=
  '(m, pos) ← tokens args false argv ∅ []; distribute (List.filter is_positional args) pos m.

(** The global flags before the name of the subcommand. *)
Fixpoint leading (globals : list Arg) (argv : list bytes) (m : Matches) : option (Matches * bytes * list bytes) :=
  match argv with
  | [] => None
  | tok :: rest =>
      if is_dashed tok then
        match option_of globals tok m with Some (m, None) => leading globals rest m | _ => None end
      else Some (m, tok, rest)
  end.

Definition occurrences (m : Matches) (id : bytes) : option Z := Z.of_nat ∘ length <$> m !! id.

Definition get_matches (subcommands : list (bytes * list Arg)) (globals : list Arg) (argv : list bytes)
  : option (bytes * Matches * (bytes -> Z)) :=
  '(before, name, rest) ← leading globals (drop 1 argv) ∅;
  '(_, args) ← List.find (fun s => bool_decide (s.1 = name)) subcommands;
  m ← matches_of (args ++ globals) rest;
  if bool_decide (accepted args m) && bool_decide (accepted globals m) && bool_decide (accepted globals before)
  then Some (name, m, fun id => default (default 0 (occurrences before id)) (occurrences m id)) else None.

#[export] Program Instance parser : Clap := {
  clap_error := unit;
  try_get_matches_from := fun subcommands globals argv =>
    match get_matches subcommands globals argv with Some r => inr r | None => inl tt end;
}.
Next Obligation.
  intros subcommands globals argv name m given. unfold get_matches.
  destruct (leading globals (drop 1 argv) ∅) as [[[before name'] rest]|]; [|easy]. cbn [mbind option_bind].
  destruct (List.find _ subcommands) as [[n args]|] eqn:Hf; [|easy]. cbn [mbind option_bind].
  destruct (matches_of (args ++ globals) rest) as [m'|]; [|easy]. cbn [mbind option_bind].
  destruct (bool_decide (accepted args m')) eqn:Ha; [|easy]. destruct (_ && _); [|easy]. intros [= <- <- <-].
  exists args. apply List.find_some in Hf as [Hin Hn%bool_decide_eq_true]. cbn in Hn. subst n.
  split; [now apply list_elem_of_In|now apply bool_decide_eq_true in Ha].
Qed.

(** URLs as their three parts, none of them parsed; integers as the standard
    library parses them. *)
Definition Uri : Type := bytes * bytes * bytes.

Definition ranged (max : Z) (s : bytes) : option Z := ok (parse_uint max s).

Lemma ranged_bound max s n : 0 <= max -> ranged max s = Some n -> 0 <= n <= max.
Proof.
  unfold ranged. intros Hm. destruct (parse_uint max s) as [k|e|] eqn:H; [|easy..]. intros [= <-].
  now apply parse_uint_bound in H.
Qed.

Lemma ranged_show max n : 0 <= n <= max -> n < 10 ^ 20 -> ranged max (show_uint n) = Some n.
Proof. intros. unfold ranged. now rewrite parse_show_uint. Qed.

(** A server for two domains. *)
Definition argv : list bytes :=
  [str "penguin"; str "-v"; str "server"; str "--host=0.0.0.0"; str "-p"; str "443"; str "--tls-domain"; str "example.org";
   str "--tls-domain"; str "example.net"; str "--tls-acme-accept-tos"; str "--tls-acme-challenge-helper"; str "/bin/helper"].

Definition parse (argv : list bytes) : unit + option (PenguinCli (Uri := Uri)) :=
  try_parse_from (fun _ => None) (fun scheme authority path => Some (scheme, authority, path)) Some Some ranged
    (str "https://ca/directory") false true argv.

Lemma accepted_start_witness :
  exists args, parse argv = inr (Some (MkPenguinCli (Server args) 1 0))
    /\ ar_tls_domain args = [str "example.org"; str "example.net"] /\ ar_tls_key args = None /\ ar_tls_acme_accept_tos args = true
    /\ forall connector files w,
         (server_main (env := Acme.Concrete.scripted) (Conn := nat) Serve.Concrete.make_config Serve.Concrete.pem_config
            (fun a => inr a) (fun a => inr a) (inr tt) true 11 3 connector files args w).2 <> Some Panic.
Proof.
  assert (H : exists cli, parse argv = inr (Some cli) /\ exists args, cli = MkPenguinCli (Server args) 1 0
              /\ ar_tls_domain args = [str "example.org"; str "example.net"]).
  { eexists. split; [vm_compute; reflexivity|]. eexists. split; [reflexivity|]. vm_compute. reflexivity. }
  destruct H as (cli & Hparse & args & -> & Hdomain). exists args. split; [exact Hparse|].
  destruct (accepted_start (fun _ => None) (fun scheme authority path => Some (scheme, authority, path)) (fun u => Some u.1.1)
              Some Some ranged (str "https://ca/directory") false true ranged_bound ranged_show eq_refl
              ltac:(now intros scheme authority path u [= <-])
              (env := Acme.Concrete.scripted) (Conn := nat) Serve.Concrete.make_config Serve.Concrete.pem_config
              (fun a => inr a) (fun a => inr a) (inr tt) 11 3
              (fun files cert key ca => Rustls.make_server_config_never_panics (lib := Tls.Concrete.library) files cert key ca)
              (fun files pair ca => Rustls.from_rcgen_pem_never_panics (lib := Tls.Concrete.library) files pair.1 pair.2 ca) argv _ ltac:(lia) Hparse) as (cli & [= <-] & _ & _ & Hacme & Hstart).
  cbn in *. split; [exact Hdomain|]. destruct (Hacme ltac:(now rewrite Hdomain)) as [H1 H2]. auto.
Defined.
End Concrete.
