(* ===== verification/Entry.v ===== *)
(** * Entry point (src/src/main.rs, client_main of src/src/client/mod.rs)

    What the process does once: putting the parsed command line into its global
    cell, the log level, the choice of the side, and the resources the
    handlers of the client share.  What was parsed is CommandLine.v, the two
    sides themselves are Client.v and Serve.v. *)

From S2P Require Import Prelude Runtime Timing Net SocksWire Mux UdpClients Client Server Serve CommandLine.

Open Scope penguin_scope.

(** ** Definitions *)

(** [std::sync::OnceLock::set] and [get]. *)
Definition once_set {A} (a : A) (cell : option A) : option A * bool :=
  match cell with None => (Some a, true) | Some b => (Some b, false) end.

(** [filter::LevelFilter], the levels used. *)
Inductive LevelFilter := ERROR | WARN | INFO | DEBUG | TRACE.

Definition level_rank (l : LevelFilter) : Z :=
  match l with ERROR => 1 | WARN => 2 | INFO => 3 | DEBUG => 4 | TRACE => 5 end.

Definition QUIET_QUIET_LOG_LEVEL : LevelFilter := ERROR.
Definition QUIET_LOG_LEVEL : LevelFilter := WARN.
Definition DEFAULT_LOG_LEVEL : LevelFilter := INFO.
Definition VERBOSE_LOG_LEVEL : LevelFilter := DEBUG.
Definition VERBOSE_VERBOSE_LOG_LEVEL : LevelFilter := TRACE.

(** The reloads of the level, in their order: [verbose] first, then [quiet]. *)
Definition apply_verbose (verbose : Z) (level : LevelFilter) : LevelFilter :=
  if verbose =? 0 then level else if verbose =? 1 then VERBOSE_LOG_LEVEL else VERBOSE_VERBOSE_LOG_LEVEL.

Definition apply_quiet (quiet : Z) (level : LevelFilter) : LevelFilter :=
  if quiet =? 0 then level else if quiet =? 1 then QUIET_LOG_LEVEL else QUIET_QUIET_LOG_LEVEL.

Section Main.
Context {Uri CE SE : Type}.
Abbreviation ClientArgs := (CommandLine.ClientArgs (Uri := Uri)).
Abbreviation PenguinCli := (CommandLine.PenguinCli (Uri := Uri)).

(** [PenguinCli::parse_global] and [get_global]; [clap] exits by itself when
    the command line does not parse. *)
Definition parse_global (parsed : PenguinCli) (args : option PenguinCli) : res unit (option PenguinCli) :=
  let '(args, ok) := once_set parsed args in if ok then Ok args else Panic.

Definition get_global (args : option PenguinCli) : res unit PenguinCli :=
  match args with Some cli => Ok cli | None => Panic end.

(** The two sides, up to their results. *)
Variable client_main : ClientArgs -> res CE unit.
Variable server_main : ServerArgs -> res SE unit.

(** [main]: the level in force from then on, and the result. *)
Definition main (parsed : PenguinCli) (args : option PenguinCli) : res unit (LevelFilter * res (CE + SE) unit) :=
  args ← parse_global parsed args;
  cli_args ← get_global args;
  let level := apply_quiet (cli_quiet cli_args) (apply_verbose (cli_verbose cli_args) DEFAULT_LOG_LEVEL) in
  Ok (level, match subcommand cli_args with
             | CommandLine.Client args => map_err inl (client_main args)
             | CommandLine.Server args => map_err inr (server_main args)
             end).
End Main.

(** *** [client_main] *)

Section ClientMain.
Context {C : Type -> Type} `{!Mpsc C} {Stream Socket : Type}.

Definition STREAM_REQUEST_COMMAND_SIZE : nat := 64.

(** [HandlerResources], with the channels whose receivers [create] returns. *)
Record HandlerResources := MkResources {
  hr_stream_command : C StreamCommand;
  hr_datagram : C MuxDatagram;
  hr_udp_client_map : ClientIdMaps Socket;
}.

Definition resources_create : HandlerResources :=
  MkResources (channel STREAM_REQUEST_COMMAND_SIZE) (channel INCOMING_DATAGRAM_BUFFER_SIZE) maps_new.

(** [client_main]: the resources are set once for the life of the process;
    then [client_main_inner] runs with them. *)
Definition client_main (cell : option HandlerResources) (handlers : nat) (results : list (res FatalError unit))
    (main : main_exit) : option HandlerResources * res unit main_exit :=
  let '(cell, ok) := once_set resources_create cell in
  (cell, if ok then match cell with
                    | Some resources => Ok (client_main_inner handlers results main)
                    | None => Panic
                    end
         else Panic).

(** ** Properties *)

(** A process that calls [client_main] once has its resources and no panic. *)
Lemma client_main_once handlers results main :
  client_main None handlers results main = (Some resources_create, Ok (client_main_inner handlers results main)).
Proof. easy. Qed.

(** The resources handed out are empty, bounded and open, and no client is
    known. *)
Lemma resources_create_fresh :
  queue (hr_stream_command resources_create) = [] /\ capacity (hr_stream_command resources_create) = Some 64%nat
  /\ queue (hr_datagram resources_create) = [] /\ capacity (hr_datagram resources_create) = Some 64%nat
  /\ forall local_addr, maps_wf local_addr (hr_udp_client_map resources_create).
Proof.
  cbn. rewrite !view_channel. split_and!; try easy; intros; apply maps_new_wf.
Qed.
End ClientMain.

(** The level: each [-v] shows more, each [-q] less, two are as many as count,
    and without any it is [INFO]. *)
Theorem log_level_exact {Uri CE SE : Type} (client_main : CommandLine.ClientArgs (Uri := Uri) -> res CE unit) (server_main : ServerArgs -> res SE unit)
    parsed :
  (cli_verbose parsed = 0 \/ cli_quiet parsed = 0) -> 0 <= cli_verbose parsed -> 0 <= cli_quiet parsed ->
  exists level r, main client_main server_main parsed None = Ok (level, r)
    /\ level_rank level = 3 + Z.min 2 (cli_verbose parsed) - Z.min 2 (cli_quiet parsed).
Proof.
  intros H Hv Hq. unfold main, parse_global. cbn. eexists _, _. split; [reflexivity|].
  unfold apply_quiet, apply_verbose. repeat case_bool; bool_prop; cbn; lia.
Qed.
