(* ===== verification/Asserts.v ===== *)
(** * Unit tests of the source

    A test of the source is a computation that panics when one of its
    assertions fails; the files *Tests.v translate the tests that need nothing
    but the program, and run them on the model.  This file has the assertions
    of the standard library. *)

From S2P Require Import Prelude Runtime.

(** ** Definitions *)

(** What a test does: it returns or panics; the error of a test that returns
    one is a failure as well. *)
Definition test := res unit unit.

Definition assert (c : bool) : test := if c then Ok tt else Panic.

Definition assert_eq {A} `{EqDecision A} (left right : A) : test := assert (bool_decide (left = right)).

Definition assert_ne {A} `{EqDecision A} (left right : A) : test := assert (negb (bool_decide (left = right))).

(** [Result::unwrap], [Option::unwrap], [Result::unwrap_err]. *)
Definition unwrap {E A} (r : res E A) : res unit A := match r with Ok a => Ok a | _ => Panic end.

Definition unwrap_some {A} (o : option A) : res unit A := match o with Some a => Ok a | None => Panic end.

Definition unwrap_err {E A} (r : res E A) : res unit E := match r with Err e => Ok e | _ => Panic end.

Definition is_pending {A} (p : poll A) : bool := match p with Pending => true | Ready _ => false end.

(** [s[i]]. *)
Definition index {A} (s : list A) (i : nat) : res unit A := unwrap_some (s !! i).

(** A loop over a table. *)
Fixpoint for_all {A} (f : A -> test) (l : list A) : test :=
  match l with [] => Ok tt | a :: l' => _ ← f a; for_all f l' end.

(** ** Decidable equality of what is compared *)

#[export] Instance res_eq_dec {E A} `{EqDecision E, EqDecision A} : EqDecision (res E A).
Proof. solve_decision. Defined.

#[export] Instance poll_eq_dec {A} `{EqDecision A} : EqDecision (poll A).
Proof. solve_decision. Defined.
