(* ===== verification/Fuzz.v ===== *)
(** * The fuzz targets (src/fuzz/fuzz_targets)

    A fuzz target is a program over arbitrary octets that must not panic.  The
    two of the repository are functions here, and what fuzzing samples is
    proved for every input. *)

From S2P Require Import Prelude Runtime Frame Timing Config Stream Mux Asserts.

(** ** Definitions *)

(** [let _ = Frame::try_from(bytes)]. *)
Definition frame_parser (data : bytes) : test :=
  match frame_try_from data with Panic => Panic | _ => Ok tt end.

(** [Buf::try_get_u32] and [try_get_u16] on a slice, [unwrap_or(0)]. *)
Definition try_get (n : nat) (data : bytes) : option Z :=
  match @get_be unit n data with Ok (z, _) => Some z | _ => None end.

(** [data.get(4..251).unwrap_or(&[])]. *)
Definition get_range (first last : nat) (data : bytes) : option bytes :=
  if (last <=? length data)%nat then Some (take (last - first) (drop first data)) else None.

Definition fuzz_datagram (data : bytes) : MuxDatagram :=
  MkMuxDatagram (default 0 (try_get 4 data)) (default [] (get_range 4 251 data)) (default 0 (try_get 2 data)) data.

Section Fuzz.
Context {C : Type -> Type} `{!Mpsc C} {O : Type -> Type} `{!Oneshot O}
    {W : Type} `{!Waker W} {S : Type} `{!WebSocket S}.

Abbreviation FuzzMux := (Mux C O W S).

(** The target from its multiplexor on: [ws] is the WebSocket over the pipe
    that was given the octets, and [meanwhile] what the task has made of them
    before the datagram is sent; the result is [unwrap]ped. *)
Definition socket_input (ws : S) (meanwhile : FuzzMux -> FuzzMux) (data : bytes) : res unit FuzzMux :=
  mux ← mux_new ws None;
  match send_datagram (fuzz_datagram data) (meanwhile mux) with
  | (mux, Ret _) => Ok mux
  | _ => Panic
  end.

(** ** Lemmas *)

Lemma fuzz_datagram_host data : blen (dg_target_host (fuzz_datagram data)) < 248.
Proof.
  unfold fuzz_datagram, get_range. cbn [dg_target_host]. case_bool; [|reflexivity].
  change (blen (take (251 - 4) (drop 4 data)) < 248). unfold blen. rewrite length_take. lia.
Qed.

Lemma try_get_width n data : bytes_ok data -> 0 <= default 0 (try_get n data) < 256 ^ Z.of_nat n.
Proof.
  intros Hok. unfold try_get, get_be. pose proof (Z.pow_pos_nonneg 256 (Z.of_nat n)).
  destruct (Nat.leb_spec n (length data)).
  - pose proof (be_value_bound (take n data) (Forall_take _ _ _ Hok)) as Hb. rewrite length_take in Hb.
    now replace (n `min` length data)%nat with n in Hb by lia.
  - cbn [default from_option]. lia.
Qed.

(** The datagram of the target is one the types allow. *)
Lemma fuzz_datagram_ok data :
  bytes_ok data ->
  let d := fuzz_datagram data in
  u32_ok (dg_flow_id d) /\ u16_ok (dg_target_port d) /\ bytes_ok (dg_target_host d) /\ bytes_ok (dg_data d).
Proof.
  intros Hok. cbn. split; [exact (try_get_width 4 data Hok)|]. split; [exact (try_get_width 2 data Hok)|].
  split; [|easy]. unfold get_range. case_bool; [|apply Forall_nil; easy]. now apply Forall_take, Forall_drop.
Qed.

(** ** Properties *)

(** The first target never panics. *)
Theorem frame_parser_never_panics data : frame_parser data = Ok tt.
Proof.
  intros. unfold frame_parser. pose proof (frame_try_from_no_panic data). now destruct (frame_try_from data).
Qed.

(** The second neither, on any octets and whatever the task has done with them
    so far, as long as the task still runs; and what it queues is read back as
    the datagram it made, unless it has fewer than four octets, which the
    decoder of the other side refuses. *)
Theorem socket_input_never_panics ws meanwhile data :
  bytes_ok data ->
  (forall x : FuzzMux, mux_new ws None = Ok x ->
     rx_open (mx_tx_frame (meanwhile x)) = true /\ capacity (mx_tx_frame (meanwhile x)) = None) ->
  exists mux encoded, socket_input ws meanwhile data = Ok mux
    /\ [encoded] `suffix_of` queue (mx_tx_frame mux)
    /\ frame_try_from encoded
       = if blen data <? 4 then Err FrameTooShort
         else let d := fuzz_datagram data in
              Ok (new_datagram_owned (dg_flow_id d) (dg_target_host d) (dg_target_port d) (dg_data d)).
Proof.
  intros Hok Hopen. unfold socket_input.
  destruct (mux_new ws None) as [x| |] eqn:Hnew; [|easy..]. cbn [mbind res_bind].
  destruct (Hopen x eq_refl) as [Hrx Hcap]. set (y := meanwhile x) in *.
  pose proof (fuzz_datagram_ok data Hok) as (H1 & H2 & H3 & H4). pose proof (fuzz_datagram_host data) as Hh.
  set (d := fuzz_datagram data) in *.
  set (f := new_datagram_owned (dg_flow_id d) (dg_target_host d) (dg_target_port d) (dg_data d)).
  assert (Hf : frame_ok f) by easy.
  assert (He : encodable f) by (change (blen (dg_target_host d) < 256); lia).
  destruct (frame_to_vec_encodable f He) as [bs Hbs].
  assert (Hq : queue (try_send bs (mx_tx_frame y)).1 = queue (mx_tx_frame y) ++ [bs]
               /\ (try_send bs (mx_tx_frame y)).2 = None).
  { rewrite view_try_send, res_try_send. unfold spec_send, chan_full. now rewrite Hrx, Hcap. }
  destruct Hq as [Hq Hsent].
  unfold send_datagram. rewrite (proj2 (Z.ltb_ge 255 _)) by lia. fold f.
  unfold mbind, M_bind, send_frame, tx_send, finalize. rewrite Hbs.
  destruct (try_send bs (mx_tx_frame y)) as [tx e]. cbn [fst snd] in *. subst e.
  eexists _, bs. split; [reflexivity|]. split.
  - cbn [mx_tx_frame set_tx]. rewrite Hq. now apply suffix_app_r.
  - change (dg_data d) with data in *. case_bool; bool_prop.
    + destruct (short_datagram_refused f Hf He) as (bs' & Hbs' & Hr); [now apply Z.ltb_lt|]. congruence.
    + now rewrite (frame_try_from_to_vec f bs Hf Hbs) by now apply Z.ltb_ge.
Qed.

End Fuzz.

(** ** On a WebSocket in memory *)

Abbreviation MemMux := (Mux chan_state shot_state bool MemWs).

(** What the target queues for six octets. *)
Lemma socket_input_never_panics_witness :
  exists mux encoded,
    socket_input (C := chan_state) (O := shot_state) (W := bool) (MkMemWs [] []) id [1; 2; 3; 4; 5; 6] = Ok mux
    /\ [encoded] `suffix_of` queue (mx_tx_frame mux)
    /\ frame_try_from encoded
       = if blen [1; 2; 3; 4; 5; 6] <? 4 then Err FrameTooShort
         else let d := fuzz_datagram [1; 2; 3; 4; 5; 6] in
              Ok (new_datagram_owned (dg_flow_id d) (dg_target_host d) (dg_target_port d) (dg_data d)).
Proof.
  apply (socket_input_never_panics (C := chan_state) (O := shot_state) (W := bool) (MkMemWs [] []) id [1; 2; 3; 4; 5; 6]).
  - solve_ranges.
  - intros x H. vm_compute in H. injection H as <-. easy.
Defined.

Example fuzz_datagram_six :
  fuzz_datagram [1; 2; 3; 4; 5; 6] = MkMuxDatagram 16909060 [] 258 [1; 2; 3; 4; 5; 6].
Proof. vm_compute. reflexivity. Qed.

(** The condition is needed: octets that are no WebSocket end the task, and a
    target that is scheduled after that end panics in [unwrap]. *)
Definition task_ended : MemMux -> MemMux := fun x => (start 4 8 WsNextBranch [] x).1.

Example socket_input_after_the_end :
  socket_input (MkMemWs [Err (WebSocketError (WsProtocol OtherProtocolError))] []) task_ended [1; 2; 3; 4; 5; 6] = Panic.
Proof. vm_compute. reflexivity. Qed.
