(* ===== verification/WireTests.v ===== *)
(** * Tests of frames, timing, options and messages

    The unit tests of mux/frame.rs, mux/timing.rs, mux/config.rs and mux/ws.rs,
    assertion by assertion. *)

From S2P Require Import Prelude Runtime Frame Timing Config Stream Mux Asserts.

Open Scope penguin_scope.

(** ** Frames (mux/frame.rs) *)

(** [PartialEq] of the payloads and of frames. *)
#[export] Instance cow_equiv_dec : RelDecision (≡@{CowBytes}).
Proof. intros x y. unfold equiv, cow_equiv. apply _. Defined.

#[export] Instance BindType_eq_dec : EqDecision BindType.
Proof. solve_decision. Defined.

#[export] Instance OpCode_eq_dec : EqDecision OpCode.
Proof. solve_decision. Defined.

#[export] Instance payload_equiv_dec : RelDecision (≡@{Payload}).
Proof. intros p q. destruct p, q; unfold equiv, payload_equiv; apply _. Defined.

#[export] Instance frame_equiv_dec : RelDecision (≡@{Frame}).
Proof. intros f g. unfold equiv, frame_equiv. apply _. Defined.

Definition assert_same (f g : Frame) : test := assert (bool_decide (f ≡ g)).

Definition test_cow_bytes_eq : test :=
  let cow1 := Borrowed (str "1234") in
  let cow2 := Owned (str "1234") in
  _ ← assert (cow_eq cow1 cow2);
  let cow3 := Borrowed (str "12345") in
  assert (negb (cow_eq cow1 cow3)).

Definition test_cow_bytes : test :=
  let cow1 := Borrowed [1; 2; 3] in
  let cow2 := cow_dupe cow1 in
  _ ← assert (cow_eq cow1 cow2);
  _ ← assert_eq (cow_len cow1) 3;
  _ ← assert_eq (cow_len cow2) 3;
  let cow3 := cow_into_owned cow1 in
  _ ← assert_eq cow3 (cow_as_ref cow2);
  let bytes := [4; 5; 6] in
  let cow4 := Owned bytes in
  _ ← assert_eq (cow_as_ref cow4) bytes;
  assert_eq (cow_len cow4) 3.

(** [Bytes::from(&frame)] and [Frame::try_from(..).unwrap()]. *)
Definition decoded (frame : Frame) : res unit Frame :=
  bytes ← unwrap (frame_to_vec frame); unwrap (frame_try_from bytes).

Definition test_frames : test :=
  let frame := new_connect [] 5678 1234 128 in
  _ ← assert_same frame (MkFrame 1234 (Connect (MkConnect 128 5678 cow_default)));
  decoded1 ← decoded frame;
  _ ← assert_same frame decoded1;
  let frame := MkFrame 5678 (Datagram (MkDatagram 1234 (Borrowed [1; 2; 3; 4]) (Borrowed [1; 2; 3; 4]))) in
  decoded2 ← decoded frame;
  assert_same frame decoded2.

(** The bytes of a frame, and the frame from them. *)
Definition assert_repr (frame : Frame) (expected : bytes) : test :=
  bytes ← unwrap (frame_to_vec frame);
  _ ← assert_eq bytes expected;
  frame_back ← unwrap (frame_try_from bytes);
  assert_same frame frame_back.

Definition test_frame_repr_connect : test :=
  assert_repr (new_connect [1; 2; 3] 5678 1234 512) [0x70; 0x00; 0x00; 0x04; 0xd2; 0x00; 0x00; 0x02; 0x00; 0x16; 0x2e; 0x01; 0x02; 0x03].

Definition test_frame_repr_acknowledge : test :=
  assert_repr (new_acknowledge 5678 128) [0x71; 0x00; 0x00; 0x16; 0x2e; 0x00; 0x00; 0x00; 0x80].

Definition test_frame_repr_reset : test := assert_repr (new_reset 1291) [0x72; 0x00; 0x00; 0x05; 0x0b].

Definition test_frame_repr_finish : test := assert_repr (new_finish 0x534c) [0x73; 0x00; 0x00; 0x53; 0x4c].

Definition test_frame_repr_push : test :=
  assert_repr (new_push 0x75b97bb [1; 2; 3; 4]) [0x74; 0x07; 0x5b; 0x97; 0xbb; 0x01; 0x02; 0x03; 0x04].

Definition test_frame_repr_bind : test :=
  _ ← assert_repr (new_bind 42132 BindDatagram [1; 2; 3; 4] 1234)
        [0x75; 0x00; 0x00; 0xa4; 0x94; 0x03; 0x04; 0xd2; 0x01; 0x02; 0x03; 0x04];
  assert_repr (new_bind 0x282ea5f BindStream [4; 2; 3; 4] 1234)
    [0x75; 0x02; 0x82; 0xea; 0x5f; 0x01; 0x04; 0xd2; 0x04; 0x02; 0x03; 0x04].

Definition test_frame_repr_datagram : test :=
  assert_repr (new_datagram 2134 [1; 2; 3; 4] 1234 [1; 2; 3; 4])
    [0x76; 0x00; 0x00; 0x08; 0x56; 0x04; 0x04; 0xd2; 0x01; 0x02; 0x03; 0x04; 0x01; 0x02; 0x03; 0x04].

(** [should_panic]. *)
Definition test_finalized_frame_too_long : test :=
  let long_hostname := repeat 0 256 in
  let frame := new_datagram 2134 long_hostname 1234 [1; 2; 3; 4] in
  _ ← unwrap (finalize frame); Ok tt.

Definition COMMON_OVERHEAD_SIZE : Z := 1 + 4.

Definition assert_finalized (frame : Frame) (op : OpCode) : test :=
  let payload_len := Payload_len (frame_payload frame) in
  finalized ← unwrap (finalize frame);
  _ ← assert_eq (blen finalized) (COMMON_OVERHEAD_SIZE + payload_len);
  opcode ← unwrap (finalized_opcode finalized);
  _ ← assert_eq opcode op;
  decoded ← unwrap (frame_try_from finalized);
  assert_same frame decoded.

Definition test_finalized_frame : test :=
  _ ← assert_finalized (new_connect [1; 2; 3] 5678 1234 128) OpConnect;
  assert_finalized (new_datagram 2134 [1; 2; 3; 4] 1234 [1; 2; 3; 4]) OpDatagram.

Example frame_tests :
  Forall (fun t => t = Ok tt)
    [test_cow_bytes_eq; test_cow_bytes; test_frames; test_frame_repr_connect; test_frame_repr_acknowledge; test_frame_repr_reset;
     test_frame_repr_finish; test_frame_repr_push; test_frame_repr_bind; test_frame_repr_datagram; test_finalized_frame]
  /\ test_finalized_frame_too_long = Panic.
Proof. split; [repeat constructor|reflexivity]. Qed.

(** ** Timing (mux/timing.rs) *)

(** [assert_eq!(backoff.advance(), ..)]. *)
Definition advances (backoff : Backoff) (expected : option Duration) : res unit Backoff :=
  '(backoff, d) ← backoff_advance backoff;
  _ ← assert_eq d expected;
  Ok backoff.

Definition test_backoff : test :=
  let backoff := backoff_new (duration_from_millis 10) (duration_from_secs 1) 2 5 in
  backoff ← advances backoff (Some (duration_from_millis 10));
  backoff ← advances backoff (Some (duration_from_millis 20));
  backoff ← advances backoff (Some (duration_from_millis 40));
  backoff ← advances backoff (Some (duration_from_millis 80));
  backoff ← advances backoff (Some (duration_from_millis 160));
  backoff ← advances backoff None;
  let backoff := backoff_reset backoff in
  backoff ← advances backoff (Some (duration_from_millis 10));
  let backoff := backoff_reset backoff in
  backoff ← advances backoff (Some (duration_from_millis 10));
  backoff ← advances backoff (Some (duration_from_millis 20));
  backoff ← advances backoff (Some (duration_from_millis 40));
  backoff ← advances backoff (Some (duration_from_millis 80));
  backoff ← advances backoff (Some (duration_from_millis 160));
  backoff ← advances backoff None;
  backoff ← advances backoff None;
  let backoff := backoff_new (duration_from_secs 10) (duration_from_secs 1) 2 0 in
  backoff ← advances backoff (Some (duration_from_secs 1));
  backoff ← advances backoff (Some (duration_from_secs 1));
  _ ← advances backoff (Some (duration_from_secs 1));
  Ok tt.

#[local] Instance OptionalDuration_eq_dec : EqDecision OptionalDuration.
Proof. unfold OptionalDuration. apply _. Defined.

Definition test_optional_duration : test :=
  let std_dur := duration_from_secs 0 in
  let opt_dur := optional_from_duration std_dur in
  _ ← assert_eq opt_dur optional_duration_none;
  let std_dur := duration_from_secs 10 in
  let opt_dur := optional_from_duration std_dur in
  _ ← assert_eq opt_dur (optional_from_secs 10);
  let dur := optional_from_secs 10 in
  _ ← assert_eq (optional_to_string dur) (str "10s");
  let dur_none := optional_duration_none in
  _ ← assert_eq (optional_to_string dur_none) (str "indefinite");
  parsed ← unwrap (optional_from_str (str "20"));
  _ ← assert_eq (optional_to_string parsed) (str "20s");
  parsed_none ← unwrap (optional_from_str (str "0"));
  assert_eq parsed_none optional_duration_none.

Example timing_tests : Forall (fun t => t = Ok tt) [test_backoff; test_optional_duration].
Proof. repeat constructor. Qed.

(** ** Options (mux/config.rs), for any width of [usize] from 32 bits *)

Definition test_options (usize_bits : Z) : test :=
  options ← datagram_buffer_size (keepalive_interval options_new (optional_from_duration (duration_from_secs 100))) 33;
  options ← stream_buffer_size options 44;
  options ← max_flow_id_retries (bind_buffer_size options 55) 66;
  options ← rwnd usize_bits options 77;
  options ← default_rwnd_threshold options 88;
  _ ← assert_eq (opt_keepalive_interval options) (optional_from_duration (duration_from_secs 100));
  _ ← assert_eq (opt_datagram_buffer_size options) 33;
  _ ← assert_eq (opt_stream_buffer_size options) 44;
  _ ← assert_eq (opt_bind_buffer_size options) 55;
  _ ← assert_eq (opt_max_flow_id_retries options) 66;
  _ ← assert_eq (opt_rwnd options) 77;
  assert_eq (opt_default_rwnd_threshold options) 88.

Example options_tests : test_options 32 = Ok tt /\ test_options 64 = Ok tt.
Proof. now split. Qed.

(** ** Messages (mux/ws.rs) *)

#[local] Instance Message_eq_dec : EqDecision Message.
Proof. solve_decision. Defined.

#[local] Instance TungsteniteMessage_eq_dec : EqDecision TungsteniteMessage.
Proof. solve_decision. Defined.

Definition test_binary_message : test :=
  let msg := TgBinary (str "Hello") in
  converted ← unwrap (message_from_tungstenite msg);
  _ ← assert_eq converted (MsgBinary (str "Hello"));
  assert_eq (message_to_tungstenite converted) msg.

Definition test_text_message : test :=
  let msg := TgText (str "Hello") in
  converted ← unwrap (message_from_tungstenite msg);
  _ ← assert_eq converted (MsgBinary (str "Hello"));
  assert_eq (message_to_tungstenite converted) (TgBinary (str "Hello")).

Definition test_ping_message : test :=
  let msg := TgPing (str "Ping") in
  converted ← unwrap (message_from_tungstenite msg);
  _ ← assert_eq converted MsgPing;
  _ ← assert_eq (message_to_tungstenite converted) (TgPing []);
  let msg := TgPong (str "Pong") in
  converted ← unwrap (message_from_tungstenite msg);
  _ ← assert_eq converted MsgPong;
  assert_eq (message_to_tungstenite converted) (TgPong []).

Definition test_close_message : test :=
  let close_msg := TgClose (Some (str "Normal")) in
  converted ← unwrap (message_from_tungstenite close_msg);
  assert_eq converted MsgClose.

Example message_tests : Forall (fun t => t = Ok tt) [test_binary_message; test_text_message; test_ping_message; test_close_message].
Proof. repeat constructor. Qed.

(** What one adapter sends the other one receives: the payloads of pings,
    pongs and closes are the only thing lost. *)
Lemma message_round_trip m : message_from_tungstenite (message_to_tungstenite m) = Ok m.
Proof. now destruct m. Qed.
