(* ===== verification/ValueTests.v ===== *)
(** * Tests of specifications, command line values and addresses

    The unit tests of parse_remote.rs and server/mod.rs, and those of arg.rs
    for the values that have a parser of their own. *)

From S2P Require Import Prelude Runtime Remote Net Args Asserts.

Open Scope penguin_scope.

(** ** Remote specifications (parse_remote.rs) *)

#[local] Instance LocalSpec_eq_dec : EqDecision LocalSpec.
Proof. solve_decision. Defined.
#[local] Instance RemoteSpec_eq_dec : EqDecision RemoteSpec.
Proof. solve_decision. Defined.
#[local] Instance Protocol_eq_dec : EqDecision Protocol.
Proof. solve_decision. Defined.
#[local] Instance Remote_eq_dec : EqDecision Remote.
Proof. solve_decision. Defined.

(** Without and with [default-is-ipv6]; [UNSPECIFIED] and [LOCALHOST]. *)
Definition test_default_host_v4 : test :=
  unspec ← unwrap_some (ipv4_from_str (default_host_unspec false));
  _ ← assert_eq unspec 0;
  local ← unwrap_some (ipv4_from_str (default_host_local false));
  assert_eq local (be_value [127; 0; 0; 1]).

Definition test_default_host_v6 : test :=
  unspec ← unwrap_some (ipv6_from_str (default_host_unspec true));
  _ ← assert_eq unspec 0;
  local ← unwrap_some (ipv6_from_str (default_host_local true));
  assert_eq local 1.

(** The table of [test_parse_remote]. *)
Definition remote_table (ipv6 : bool) : list (bytes * Remote) :=
  let unspec := default_host_unspec ipv6 in
  let local := default_host_local ipv6 in
  [ (str "3000", MkRemote (LocalInet unspec 3000) (RemoteInet local 3000) Tcp);
    (str "4000/udp", MkRemote (LocalInet unspec 4000) (RemoteInet local 4000) Udp);
    (str "google.com:80", MkRemote (LocalInet unspec 80) (RemoteInet (str "google.com") 80) Tcp);
    (str "示例網站.com:80", MkRemote (LocalInet unspec 80) (RemoteInet (str "示例網站.com") 80) Tcp);
    (str "8080:example.com:80", MkRemote (LocalInet unspec 8080) (RemoteInet (str "example.com") 80) Tcp);
    (str "socks", MkRemote (LocalInet local 1080) Socks Tcp);
    (str "127.0.0.1:1081:socks", MkRemote (LocalInet (str "127.0.0.1") 1081) Socks Tcp);
    (str "9050:socks", MkRemote (LocalInet local 9050) Socks Tcp);
    (str "1.1.1.1:53/udp", MkRemote (LocalInet unspec 53) (RemoteInet (str "1.1.1.1") 53) Udp);
    (str "localhost:5353:1.1.1.1:53/udp", MkRemote (LocalInet (str "localhost") 5353) (RemoteInet (str "1.1.1.1") 53) Udp);
    (str "[::1]:8080:google.com:80", MkRemote (LocalInet (str "::1") 8080) (RemoteInet (str "google.com") 80) Tcp);
    (str "localhost:5354:[2001:4860:4860:0:0:0:0:8888]:53/udp",
     MkRemote (LocalInet (str "localhost") 5354) (RemoteInet (str "2001:4860:4860:0:0:0:0:8888") 53) Udp);
    (str "stdio:google.com:80", MkRemote Stdio (RemoteInet (str "google.com") 80) Tcp);
    (str "stdio:socks", MkRemote Stdio Socks Tcp);
    (str "stdio:443", MkRemote Stdio (RemoteInet local 443) Tcp);
    (str "stdio:5353/udp", MkRemote Stdio (RemoteInet local 5353) Udp) ].

Definition test_parse_remote (ipv6 : bool) : test :=
  _ ← for_all (fun '(s, expected) =>
        actual ← unwrap (remote_from_str ipv6 s);
        _ ← assert_eq actual expected;
        reparsed ← unwrap (remote_from_str ipv6 (show_remote actual));
        assert_eq reparsed expected) (remote_table ipv6);
  _ ← unwrap_err (remote_from_str ipv6 (str "just_a_hostname"));
  _ ← unwrap_err (remote_from_str ipv6 (str "socks/udp"));
  Ok tt.

Example remote_tests : Forall (fun t => t = Ok tt) [test_default_host_v4; test_default_host_v6; test_parse_remote false; test_parse_remote true].
Proof. repeat apply Forall_cons_2; vm_compute; constructor. Qed.

(** ** URLs and headers (arg.rs) *)

Section Urls.
Context {Uri : Type}.
Variable uri_parts : bytes -> option Parts.
Variable uri_build : bytes -> bytes -> bytes -> option Uri.
Variable to_string : Uri -> bytes.

Definition assert_server_url (url expected : bytes) : test :=
  u ← unwrap (server_url_from_str uri_parts uri_build url); assert_eq (to_string u) expected.

Definition test_serverurl_fromstr : test :=
  _ ← assert_server_url (str "example.com") (str "ws://example.com/");
  _ ← assert_server_url (str "wss://example.com") (str "wss://example.com/");
  _ ← assert_server_url (str "ws://example.com") (str "ws://example.com/");
  _ ← assert_server_url (str "https://example.com") (str "wss://example.com/");
  _ ← assert_server_url (str "http://example.com") (str "ws://example.com/");
  _ ← unwrap_err (server_url_from_str uri_parts uri_build (str "ftp://example.com"));
  Ok tt.

#[local] Instance BackendUrl_eq_dec : EqDecision BackendUrl.
Proof. solve_decision. Defined.

Definition assert_backend_url (url expected : bytes) : test :=
  b ← unwrap (backend_url_from_str uri_parts url); assert_eq (show_backend b) expected.

Definition test_backendurl_fromstr : test :=
  _ ← assert_backend_url (str "https://example.com") (str "https://example.com/");
  _ ← assert_backend_url (str "http://example.com") (str "http://example.com/");
  b ← unwrap (backend_url_from_str uri_parts (str "https://example.com/foo"));
  _ ← assert_eq b (MkBackend (str "https") (str "example.com") (str "/foo"));
  _ ← assert_backend_url (str "http://example.com/foo?bar") (str "http://example.com/foo?bar");
  _ ← unwrap_err (backend_url_from_str uri_parts (str "ftp://example.com"));
  _ ← unwrap_err (backend_url_from_str uri_parts (str "http://"));
  Ok tt.
End Urls.

Section Headers.
(** [HeaderName::from_str], [HeaderName::as_str], [HeaderValue::from_str] and
    [HeaderValue::to_str]. *)
Variable header_name : bytes -> option bytes.
Variable header_value : bytes -> option bytes.
Variable value_to_str : bytes -> option bytes.

Definition assert_header (s value : bytes) : test :=
  header ← unwrap (header_from_str header_name header_value s);
  _ ← assert_eq (to_lowercase (hd_name header)) (to_lowercase (str "X-Test"));
  _ ← unwrap_some (value_to_str (hd_value header));
  v ← unwrap_some (value_to_str (hd_value header));
  assert_eq v value.

Definition test_header_parser : test :=
  _ ← assert_header (str "X-Test: test") (str "test");
  _ ← unwrap_err (header_from_str header_name header_value (str "X-Test"));
  _ ← unwrap_err (header_from_str header_name header_value (str ": test"));
  _ ← assert_header (str "X-Test: test: test") (str "test: test");
  assert_header (str "X-Test:test") (str "test").
End Headers.

(** What the [http] crate does with the texts of these tests: a URL of a known
    form is a scheme, an authority and a path with its query; a name is of
    letters and hyphens and kept in lower case, a value of visible characters
    and spaces. *)
Definition scheme_end : bytes := str "://".

Fixpoint find_slices (s : bytes) (i fuel : nat) : option nat :=
  match fuel with
  | O => None
  | S fuel' => if has_prefix scheme_end (drop i s) then Some i else find_slices s (S i) fuel'
  end.

Definition sample_parts (url : bytes) : option Parts :=
  match find_slices url 0 (length url) with
  | None => Some (MkParts None (Some url) None)
  | Some i =>
      let rest := drop (i + 3) url in
      match rest with
      | [] => None
      | _ => match find ch_slash rest with
             | Some j => Some (MkParts (Some (take i url)) (Some (take j rest)) (Some (drop j rest)))
             | None => Some (MkParts (Some (take i url)) (Some rest) (Some (str "/")))
             end
      end
  end.

Definition sample_build (scheme authority path : bytes) : option bytes := Some (scheme ++ scheme_end ++ authority ++ path).

Definition sample_name (s : bytes) : option bytes :=
  match s with
  | [] => None
  | _ => if forallb (fun c => (c =? 45) || ((97 <=? c) && (c <=? 122))) (to_lowercase s) then Some (to_lowercase s) else None
  end.

Definition sample_value (s : bytes) : option bytes := if forallb (fun c => (32 <=? c) && (c <=? 126)) s then Some s else None.

Example value_tests :
  Forall (fun t => t = Ok tt)
    [test_serverurl_fromstr sample_parts sample_build id; test_backendurl_fromstr sample_parts; test_header_parser sample_name sample_value sample_value].
Proof. repeat apply Forall_cons_2; vm_compute; constructor. Qed.

(** ** Listening addresses (server/mod.rs) *)

(** The entry [i] has this address and port. *)
Definition assert_sockaddr (sockaddrs : list SocketAddr) (i : nat) (ip : IpAddr) (port : Z) : test :=
  a ← index sockaddrs i;
  _ ← assert_eq (sa_ip a) ip;
  assert_eq (sa_port a) port.

Definition ipv4_new (a b c d : Z) : IpAddr := IpV4 (be_value [a; b; c; d]).
Definition ipv6_new (a b c d e f g h : Z) : IpAddr := IpV6 (of_groups [a; b; c; d; e; f; g; h]).

(** [should_panic]. *)
Definition test_arg_to_sockaddrs_empty : test := _ ← unwrap (arg_to_sockaddrs [] []); Ok tt.
Definition test_arg_to_sockaddrs_empty_host : test := _ ← unwrap (arg_to_sockaddrs [] [1234]); Ok tt.
Definition test_arg_to_sockaddrs_empty_port : test := _ ← unwrap (arg_to_sockaddrs [str "::"] []); Ok tt.

Definition test_arg_to_sockaddrs_single_v4 : test :=
  sockaddrs ← unwrap (arg_to_sockaddrs [str "127.0.0.1"] [9999]);
  _ ← assert_eq (length sockaddrs) 1%nat;
  assert_sockaddr sockaddrs 0 (ipv4_new 127 0 0 1) 9999.

Definition test_arg_to_sockaddrs_single_v6 : test :=
  sockaddrs ← unwrap (arg_to_sockaddrs [str "[::1]"] [1532]);
  _ ← assert_eq (length sockaddrs) 1%nat;
  assert_sockaddr sockaddrs 0 (ipv6_new 0 0 0 0 0 0 0 1) 1532.

Definition test_arg_to_sockaddrs_multi_v4 : test :=
  sockaddrs ← unwrap (arg_to_sockaddrs [str "127.0.0.1"; str "0.0.0.0"; str "[::]"; str "::1"] [1233]);
  _ ← assert_eq (length sockaddrs) 4%nat;
  _ ← assert_sockaddr sockaddrs 0 (ipv4_new 127 0 0 1) 1233;
  _ ← assert_sockaddr sockaddrs 1 (ipv4_new 0 0 0 0) 1233;
  _ ← assert_sockaddr sockaddrs 2 (ipv6_new 0 0 0 0 0 0 0 0) 1233;
  assert_sockaddr sockaddrs 3 (ipv6_new 0 0 0 0 0 0 0 1) 1233.

Example sockaddr_tests :
  Forall (fun t => t = Ok tt) [test_arg_to_sockaddrs_single_v4; test_arg_to_sockaddrs_single_v6; test_arg_to_sockaddrs_multi_v4]
  /\ Forall (fun t => t = Panic) [test_arg_to_sockaddrs_empty; test_arg_to_sockaddrs_empty_host; test_arg_to_sockaddrs_empty_port].
Proof. split; repeat apply Forall_cons_2; vm_compute; constructor. Qed.
