(* ===== verification/SocksTests.v ===== *)
(** * Tests of the client

    The unit tests of client/handle_remote/socks/v4.rs and v5.rs, client/mod.rs
    and client/handle_remote/udp.rs. *)

From S2P Require Import Prelude Runtime Timing Net SocksWire Mux UdpClients Handlers Asserts.

Open Scope penguin_scope.

(** ** SOCKS messages *)

(** [Cursor::new] on what is to be read, or on an empty vector; [get_ref]. *)
Definition cursor (content : bytes) : peer := Peer content InEof [] None None [].

(** [f(&mut cursor).await.unwrap()] and [.unwrap_err()]. *)
Definition io_unwrap {E A} (c : Io E A) (p : peer) : res unit (A * peer) :=
  match c p with (p', Done a) => Ok (a, p') | _ => Panic end.

Definition io_unwrap_err {E A} (c : Io E A) (p : peer) : res unit E :=
  match c p with (_, Failed e) => Ok e | _ => Panic end.

Definition assert_request {E} (c : Io E (Z * bytes * Z)) (input : bytes) (command : Z) (host : bytes) (port : Z) : test :=
  '(request, _) ← io_unwrap c (cursor input);
  let '(command', host', port') := request in
  _ ← assert_eq command' command;
  _ ← assert_eq host' host;
  assert_eq port' port.

Definition assert_written {E} (c : Io E unit) (expected : bytes) : test :=
  '(_, writer) ← io_unwrap c (cursor []);
  assert_eq (p_out writer) expected.

(** *** v4.rs *)

Definition v4_test_read_request_ip : test :=
  assert_request v4_read_request [0x01; 0x00; 0x50; 0x7f; 0x00; 0x00; 0x01; 0x61; 0x00] 0x01 (str "127.0.0.1") 0x50.

Definition v4_test_read_request_domain : test :=
  assert_request v4_read_request
    [0x01; 0x00; 0x50; 0x00; 0x00; 0x00; 0x01; 0x61; 0x00; 0x77; 0x77; 0x77; 0x2e; 0x65; 0x78; 0x61; 0x6d; 0x70; 0x6c; 0x65; 0x2e; 0x63; 0x6f; 0x6d; 0x00]
    0x01 (str "www.example.com") 0x50.

Definition v4_test_write_response : test := assert_written (v4_write_response 0x5a) [0x00; 0x5a; 0x00; 0x00; 0x00; 0x00; 0x00; 0x00].

(** *** v5.rs *)

Definition test_read_auth_methods : test :=
  '(methods, _) ← io_unwrap v5_read_auth_methods (cursor [0x02; 0x00; 0x01]);
  assert_eq methods [0x00; 0x01].

Definition test_write_auth_method : test := assert_written (v5_write_auth_method 0x00) [0x05; 0x00].

Definition test_read_request_v4 : test :=
  assert_request v5_read_request [0x05; 0x01; 0x00; 0x01; 0x7f; 0x00; 0x00; 0x01; 0x00; 0x50] 0x01 (str "127.0.0.1") 0x50.

Definition test_read_request_v6 : test :=
  assert_request v5_read_request
    [0x05; 0x01; 0x00; 0x04; 0x20; 0x01; 0x0d; 0xb8; 0x00; 0x00; 0x00; 0x00; 0x00; 0x00; 0x00; 0x00; 0x00; 0x00; 0x00; 0x01; 0x00; 0x50]
    0x01 (str "2001:db8::1") 0x50.

Definition test_read_request_domain : test :=
  assert_request v5_read_request
    [0x05; 0x01; 0x00; 0x03; 0x0f; 0x77; 0x77; 0x77; 0x2e; 0x65; 0x78; 0x61; 0x6d; 0x70; 0x6c; 0x65; 0x2e; 0x63; 0x6f; 0x6d; 0x00; 0x50]
    0x01 (str "www.example.com") 0x50.

Definition test_read_request_invalid_address_type : test :=
  _ ← io_unwrap_err v5_read_request (cursor [0x05; 0x01; 0x00; 0x02; 0x00; 0x50]); Ok tt.

Definition test_write_response : test :=
  assert_written (v5_write_response 0x00 (MkSocketAddr (IpV4 (be_value [127; 0; 0; 1])) 80))
    [0x05; 0x00; 0x00; 0x01; 0x7f; 0x00; 0x00; 0x01; 0x00; 0x50].

Definition test_write_response_unspecified : test :=
  assert_written (v5_write_response_unspecified 0x00) [0x05; 0x00; 0x00; 0x01; 0x00; 0x00; 0x00; 0x00; 0x00; 0x00].

Example socks_tests :
  Forall (fun t => t = Ok tt)
    [v4_test_read_request_ip; v4_test_read_request_domain; v4_test_write_response; test_read_auth_methods; test_write_auth_method;
     test_read_request_v4; test_read_request_v6; test_read_request_domain; test_read_request_invalid_address_type; test_write_response;
     test_write_response_unspecified].
Proof. repeat apply Forall_cons_2; vm_compute; constructor. Qed.

(** ** UDP clients (client/mod.rs)

    A socket is the port of the loopback address the system bound it to; the
    generator of identifiers is a supply for each call. *)

Definition local (port : Z) : SocketAddr := MkSocketAddr (IpV4 (be_value [127; 0; 0; 1])) port.

Definition test_client_map_add_client (draws1 draws2 draws3 draws4 : list Z) (now stub_socket stub_socket_2 : Z) : test :=
  let add draws addr socket m := unwrap (add_udp_client loopback_addr draws now addr socket false m) in
  '(m, client_id) ← add draws1 (local 1234) stub_socket maps_new;
  '(m, client_id2) ← add draws2 (local 1234) stub_socket m;
  _ ← assert_eq client_id client_id2;
  '(m, client_id2) ← add draws3 (local 1234) stub_socket_2 m;
  _ ← assert_ne client_id client_id2;
  '(m, client_id2) ← add draws4 (local 1235) stub_socket m;
  assert_ne client_id client_id2.

(** The clock stands at [now], then at least the time slept has passed. *)
Definition test_client_map_remove_client (draws : list Z) (now slept stub_socket : Z) : test :=
  '(m, _) ← unwrap (add_udp_client loopback_addr draws now (local 1234) stub_socket false maps_new);
  m ← unwrap (prune_udp_clients (now + slept) (map_to_list (client_id_map m)) m);
  assert_eq (map_to_list (client_id_map m)).*1 [].

Example client_map_tests :
  Forall (fun t => t = Ok tt)
    [test_client_map_add_client [3] [] [3; 4] [3; 4; 5] 0 40000 40001; test_client_map_add_client [9] [8] [7] [6] 5 40001 40000;
     test_client_map_remove_client [3] 0 UDP_PRUNE_TIMEOUT 40000; test_client_map_remove_client [3] 5 (UDP_PRUNE_TIMEOUT + 1) 40000].
Proof. repeat apply Forall_cons_2; vm_compute; constructor. Qed.

(** Whatever is drawn, as long as it is enough. *)
Lemma test_client_map_remove_client_passes d draws now slept socket :
  UDP_PRUNE_TIMEOUT <= slept -> test_client_map_remove_client (d :: draws) now slept socket = Ok tt.
Proof.
  intros Hs. unfold test_client_map_remove_client, add_udp_client. cbn [loopback_addr client_addr_map maps_new].
  rewrite lookup_empty. cbn [next_available_key client_id_map maps_new]. rewrite lookup_empty.
  destruct (decide (is_Some None)) as [[? ?]|_]; [easy|]. cbn [ok_or mbind res_bind unwrap client_id_map].
  rewrite insert_empty, map_to_list_singleton. unfold prune_udp_clients. cbn [prune_loop entry_new e_expires].
  destruct (Z.ltb_spec (now + slept) (now + UDP_PRUNE_TIMEOUT)); [lia|]. cbn [e_peer_addr e_our_addr client_addr_map].
  rewrite lookup_insert_eq. cbn [unwrap mbind res_bind client_id_map]. rewrite delete_singleton_eq, map_to_list_empty. reflexivity.
Qed.

(** ** The UDP listener (client/handle_remote/udp.rs)

    The test's socket, on a port of its own, sends one packet to the listener
    on port 14196, which is then aborted. *)

Definition RHOST : bytes := str "127.0.0.1".

Definition test_handle_udp (draws : list Z) (now our_port : Z) : test :=
  let local_addr := local our_port in
  let st := MkUdp maps_new (channel 1 : chan_state MuxDatagram) in
  let '(st, _) := handle_udp loopback_addr (Done 14196) RHOST 255 [Received draws now (str "hello") local_addr] st in
  match poll_recv (us_tx st) with
  | (_, Ready (Some frame)) =>
      _ ← assert_eq (dg_target_host frame) RHOST;
      _ ← assert_eq (dg_target_port frame) 255;
      _ ← assert_eq (dg_data frame) (str "hello");
      client_id ← unwrap_some (client_addr_map (us_maps st) !! (local_addr, local 14196));
      assert_eq (dg_flow_id frame) client_id
  | _ => Panic
  end.

Example handle_udp_test : Forall (fun t => t = Ok tt) [test_handle_udp [7] 0 40000; test_handle_udp [1; 2] 3 50000].
Proof. repeat apply Forall_cons_2; vm_compute; constructor. Qed.
