(* ===== verification/StreamTests.v ===== *)
(** * Tests of the logical stream

    The unit tests of mux/stream.rs: a stream by itself, whose other ends the
    test holds, and a stream with a bidirectional copy running in another task
    between it and the half of an in-memory pipe. *)

From S2P Require Import Prelude Runtime Frame Stream WireTests Asserts.

Open Scope penguin_scope.

(** ** The in-memory pipe ([tokio::io::duplex] in a [BufReader]) *)

(** What the [BufReader] holds, what waits in the pipe each way (the second
    with all that was ever written and how much of it the test read), and
    which ends were shut down. *)
Record Pipe := MkPipe {
  dx_buffered : bytes;
  dx_in : bytes;
  dx_in_closed : bool;
  dx_written : bytes;
  dx_taken : nat;
  dx_out_closed : bool;
}.

Definition dx_max : nat := Z.to_nat 1024.

Definition duplex : Pipe := MkPipe [] [] false [] 0 false.

Definition pipe_fill_buf (p : Pipe) : Pipe * poll (res IoErrorKind bytes) :=
  match dx_buffered p, dx_in p with
  | [], [] => (p, if dx_in_closed p then Ready (Ok []) else Pending)
  | [], waiting =>
      (MkPipe waiting [] (dx_in_closed p) (dx_written p) (dx_taken p) (dx_out_closed p), Ready (Ok waiting))
  | buffered, _ => (p, Ready (Ok buffered))
  end.

Definition pipe_write (bs : bytes) (p : Pipe) : Pipe * poll (res IoErrorKind Z) :=
  if dx_out_closed p then (p, Ready (Err BrokenPipe))
  else
    let avail := (dx_max - (length (dx_written p) - dx_taken p))%nat in
    if (avail =? 0)%nat then (p, Pending)
    else
      (MkPipe (dx_buffered p) (dx_in p) (dx_in_closed p) (dx_written p ++ take avail bs) (dx_taken p) (dx_out_closed p),
       Ready (Ok (blen (take avail bs)))).

Definition pipe_consume (n : nat) (p : Pipe) : Pipe :=
  MkPipe (drop n (dx_buffered p)) (dx_in p) (dx_in_closed p) (dx_written p) (dx_taken p) (dx_out_closed p).

Definition pipe_shutdown (p : Pipe) : Pipe * poll (res IoErrorKind unit) :=
  (MkPipe (dx_buffered p) (dx_in p) (dx_in_closed p) (dx_written p) (dx_taken p) true, Ready (Ok tt)).

#[local] Obligation Tactic := idtac.

#[export] Program Instance pipe_bufrw : BufRW Pipe := {
  rw_fill_buf := pipe_fill_buf;
  rw_consume := pipe_consume;
  rw_write := pipe_write;
  rw_flush p := (p, Ready (Ok tt));
  rw_shutdown := pipe_shutdown;
  rw_in p := dx_buffered p ++ dx_in p;
  rw_out := dx_written;
  rw_avail := dx_buffered;
}.
Next Obligation. intros [[|] [|] ? ? ? ?]; cbn; rewrite ?app_nil_r; easy. Qed.
Next Obligation.
  intros [b i cl w t oc] bs H. destruct b as [|x b], i as [|y i]; cbn in *.
  - destruct cl; [|easy]. now injection H as <-.
  - injection H as <-. now split_and!.
  - injection H as <-. rewrite app_nil_r. now split_and!.
  - injection H as <-. split_and!; [easy| |easy]. now eexists.
Qed.
Next Obligation. intros n p H. cbn in *. now rewrite drop_app_le by easy. Qed.
Next Obligation.
  intros bs p. cbn. unfold pipe_write. split; [now repeat case_match|].
  destruct (dx_out_closed p); [easy|]. destruct (_ =? 0)%nat; [easy|]. cbn.
  set (k := (_ - _)%nat). unfold blen. rewrite Nat2Z.id, length_take. split; [lia|]. f_equal.
  destruct (Nat.min_spec k (length bs)) as [[? ->]|[? ->]]; [easy|]. now rewrite !take_ge by lia.
Qed.
Next Obligation. easy. Qed.
Next Obligation. easy. Qed.

(** ** What a test holds *)

(** [World] is what the test and the tasks it spawned share: the context of
    the stream, the other half of the pipe, and, once the stream was given to
    a copy, the copy and what the task returned. *)
Inductive task :=
| NotSpawned
| Running (read : ReadState) (write : WriteState)
| Finished (r : res IoErrorKind (Z * Z)).

Record World := MkWorld { wd_ctx : Ctx chan_state bool; wd_pipe : Pipe; wd_task : task }.

Definition copy_fuel : nat := 64.

(** The other tasks run until they wait: a finished copy is dropped, and the
    stream and the half of the pipe in it. *)
Definition others_run (w : World) : World :=
  match wd_task w with
  | Running r s =>
      let '(c, o) := copy_poll copy_fuel (MkCopy (wd_ctx w) (wd_pipe w) r s) in
      match o with
      | Some (Ready result) => MkWorld (stream_drop (cb_us c)) (pipe_shutdown (cb_other c)).1 (Finished result)
      | _ => MkWorld (cb_us c) (cb_other c) (Running (cb_read_state c) (cb_write_state c))
      end
  | _ => w
  end.

(** A step of a test: it may change the world, and panics when it fails. *)
Definition step (A : Type) : Type := World -> res unit (A * World).

#[export] Instance step_ret : MRet step := fun _ a w => Ok (a, w).
#[export] Instance step_bind : MBind step := fun _ _ k c w =>
  match c w with Ok (a, w') => k a w' | Err e => Err e | Panic => Panic end.

Definition check (t : test) : step unit := fun w => match t with Ok _ => Ok (tt, w) | _ => Panic end.

Definition get {A} (r : res unit A) : step A := fun w => match r with Ok a => Ok (a, w) | _ => Panic end.

(** An operation of the test polled once. *)
Definition polled {A} (f : World -> World * poll A) : step (poll A) := fun w => let '(w', r) := f w in Ok (r, w').

(** [.await] in the only task that is not waiting: when the operation is not
    ready the others run and it is polled again; a test that still waits never
    ends. *)
Definition await {A} (f : World -> World * poll A) : step A := fun w =>
  match f w with
  | (w1, Ready a) => Ok (a, w1)
  | (w1, Pending) =>
      match f (others_run w1) with
      | (w2, Ready a) => Ok (a, w2)
      | (_, Pending) => Panic
      end
  end.

Definition in_ctx {A} (f : Ctx chan_state bool -> Ctx chan_state bool * A) (w : World) : World * A :=
  let '(c, a) := f (wd_ctx w) in (MkWorld c (wd_pipe w) (wd_task w), a).

Definition in_pipe {A} (f : Pipe -> Pipe * A) (w : World) : World * A :=
  let '(p, a) := f (wd_pipe w) in (MkWorld (wd_ctx w) p (wd_task w), a).

Definition effect (f : Ctx chan_state bool -> Ctx chan_state bool) : step unit := fun w =>
  Ok (tt, MkWorld (f (wd_ctx w)) (wd_pipe w) (wd_task w)).

(** *** The halves of the channels the test keeps *)

(** [rx_frame_tx.send(b).await.unwrap()]. *)
Definition rx_frame_tx_send (b : bytes) : step unit :=
  r ← await (in_ctx (fun c =>
        let '(q, e) := try_send b (sh_frames (cx_shared c)) in
        let c' := with_shared c (set_frames (cx_shared c) q) in
        match e with
        | None => (c', Ready (Ok tt))
        | Some TrySendFull => (c', Pending)
        | Some TrySendClosed => (c', Ready (Err tt))
        end));
  get r.

(** [drop(rx_frame_tx)]. *)
Definition rx_frame_tx_drop : step unit :=
  effect (fun c => with_shared c (set_frames (cx_shared c) (tx_drop (sh_frames (cx_shared c))))).

Definition tx_frame_rx_poll (c : Ctx chan_state bool) : Ctx chan_state bool * poll (option bytes) :=
  let '(q, r) := poll_recv (cx_tx c) in (with_tx c q, r).

(** [tx_frame_rx.recv().await.unwrap()]. *)
Definition tx_frame_rx_recv : step bytes := r ← await (in_ctx tx_frame_rx_poll); get (unwrap_some r).

(** [psh_send_remaining.fetch_add(n)]. *)
Definition psh_send_remaining_fetch_add (n : Z) : step unit :=
  effect (fun c =>
    with_shared c (set_remaining (cx_shared c) (wrapping_add32 (sh_psh_send_remaining (cx_shared c)) n))).

(** *** The other half of the pipe *)

Definition check_side_poll_read (n : nat) (p : Pipe) : Pipe * poll (res IoErrorKind bytes) :=
  let waiting := drop (dx_taken p) (dx_written p) in
  match waiting with
  | [] => (p, if dx_out_closed p then Ready (Ok []) else Pending)
  | _ =>
      (MkPipe (dx_buffered p) (dx_in p) (dx_in_closed p) (dx_written p) (dx_taken p + length (take n waiting)) (dx_out_closed p),
       Ready (Ok (take n waiting)))
  end.

Definition check_side_poll_write (bs : bytes) (p : Pipe) : Pipe * poll (res IoErrorKind Z) :=
  if dx_in_closed p then (p, Ready (Err BrokenPipe))
  else
    let avail := (dx_max - length (dx_in p))%nat in
    if (avail =? 0)%nat then (p, Pending)
    else
      (MkPipe (dx_buffered p) (dx_in p ++ take avail bs) (dx_in_closed p) (dx_written p) (dx_taken p) (dx_out_closed p),
       Ready (Ok (blen (take avail bs)))).

(** [check_side.read(&mut buf).await.unwrap()], with [n] octets of buffer. *)
Definition check_side_read (n : nat) : step bytes :=
  r ← await (in_pipe (check_side_poll_read n)); get (unwrap r).

(** [AsyncReadExt::read_exact], for a given [read]: end of file before the
    buffer is full is an error. *)
Fixpoint read_exact (fuel : nat) (read : nat -> step bytes) (n : nat) : step bytes :=
  match n, fuel with
  | O, _ => mret []
  | _, O => get Panic
  | _, S fuel' =>
      got ← read n;
      match got with
      | [] => get (Err tt)
      | _ => rest ← read_exact fuel' read (n - length got); mret (got ++ rest)
      end
  end.

(** [check_side.write_all(bs).await.unwrap()]. *)
Fixpoint write_all (fuel : nat) (bs : bytes) : step unit :=
  match bs, fuel with
  | [], _ => mret tt
  | _, O => get Panic
  | _, S fuel' =>
      r ← await (in_pipe (check_side_poll_write bs));
      n ← get (unwrap r);
      write_all fuel' (drop (Z.to_nat n) bs)
  end.

Definition check_side_write_all (bs : bytes) : step unit := write_all (length bs) bs.

(** [check_side.shutdown().await.unwrap()]. *)
Definition check_side_shutdown : step unit := fun w =>
  let p := wd_pipe w in
  Ok (tt, MkWorld (wd_ctx w) (MkPipe (dx_buffered p) (dx_in p) true (dx_written p) (dx_taken p) (dx_out_closed p)) (wd_task w)).

(** *** The copy *)

(** [tokio::spawn(mux_stream.into_copy_bidirectional(other_stream))]. *)
Definition spawn_copy : step unit := fun w =>
  let c := into_copy_bidirectional_with_buf (wd_ctx w) (wd_pipe w) in
  Ok (tt, MkWorld (cb_us c) (cb_other c) (Running (cb_read_state c) (cb_write_state c))).

(** [copy_task.await.unwrap().unwrap()]. *)
Definition join_copy : step (Z * Z) :=
  r ← await (fun w => (w, match wd_task w with Finished r => Ready r | _ => Pending end)); get (unwrap r).

(** ** The tests *)

Definition DEFAULT_RWND_THRESHOLD : Z := 4.

(** The stream of a test, with a channel of [capacity] received payloads and a
    window of [window] frames. *)
Definition start (capacity flow_id window threshold : Z) : World :=
  MkWorld
    (MkCtx (MkMuxStream 0 flow_id [] 8080 0 [] threshold)
       (MkShared (channel (Z.to_nat capacity)) false window new_waker)
       unbounded_channel unbounded_channel)
    duplex NotSpawned.

(** A half bound to [_] is dropped where it is bound. *)
Definition no_dropped_ports_rx : step unit :=
  effect (fun c => MkCtx (cx_stream c) (cx_shared c) (cx_tx c) (rx_drop (cx_dropped c))).

(** The next frame to the peer, decoded. *)
Definition next_frame : step (bytes * Frame) :=
  b ← tx_frame_rx_recv; f ← get (unwrap (frame_try_from b)); mret (b, f).

(** A [match] on the payload of the next frame, with [panic!] otherwise. *)
Definition expect_acknowledge (id ack : Z) : step unit :=
  '(_, frame) ← next_frame;
  _ ← check (assert_eq (frame_id frame) id);
  match frame_payload frame with Acknowledge a => check (assert_eq a ack) | _ => check Panic end.

Definition expect_push (id : Z) (data : bytes) : step unit :=
  '(_, frame) ← next_frame;
  _ ← check (assert_eq (frame_id frame) id);
  match frame_payload frame with Push push => check (assert_eq (cow_as_ref push) data) | _ => check Panic end.

(** [frame.opcode().unwrap()] of the next frame, which stays. *)
Definition expect_opcode (op : OpCode) : step unit := fun w =>
  match tx_frame_rx_recv w with
  | Ok (b, _) => check (opcode ← unwrap (finalized_opcode b); assert_eq opcode op) w
  | _ => Panic
  end.

Definition stream_poll_read (n : Z) : step (poll (res IoErrorKind bytes)) := polled (in_ctx (poll_read n)).

Definition stream_poll_write (bs : bytes) : step (poll (res IoErrorKind Z)) := polled (in_ctx (poll_write [] bs)).

Definition test_mux_stream_read_inner : step unit :=
  _ ← no_dropped_ports_rx;
  rs ← stream_poll_read 5;
  _ ← check (assert (is_pending rs));
  _ ← rx_frame_tx_send (str "hello");
  rs ← stream_poll_read 5;
  _ ← check (assert_eq rs (Ready (Ok (str "hello"))));
  rs ← stream_poll_read 5;
  _ ← check (assert (is_pending rs));
  _ ← rx_frame_tx_send (str "world");
  rs ← stream_poll_read 5;
  _ ← check (assert_eq rs (Ready (Ok (str "world"))));
  _ ← expect_opcode OpAcknowledge;
  _ ← expect_acknowledge 1 2;
  _ ← rx_frame_tx_drop;
  rs ← stream_poll_read 5;
  check (assert_eq rs (Ready (Ok []))).

Definition test_mux_stream_write_inner : step unit :=
  _ ← rx_frame_tx_drop;
  _ ← no_dropped_ports_rx;
  rs ← stream_poll_write (str "hello");
  _ ← check (assert_eq rs (Ready (Ok 5)));
  rs ← stream_poll_write (str "world");
  _ ← check (assert_eq rs (Ready (Ok 5)));
  _ ← expect_opcode OpPush;
  _ ← expect_push 1 (str "hello");
  _ ← expect_opcode OpPush;
  _ ← expect_push 1 (str "world");
  rs ← stream_poll_write (str "maybe");
  _ ← check (assert (is_pending rs));
  _ ← psh_send_remaining_fetch_add 1;
  rs ← stream_poll_write (str "maybe");
  _ ← check (assert_eq rs (Ready (Ok 5)));
  _ ← expect_opcode OpPush;
  expect_push 1 (str "maybe").

Definition test_copy_bidirectional_normal : step unit :=
  let TX1 := str "hello from mux" in
  let RX1 := str "hello from other" in
  let TX2 := str "short" in
  let RX2 := str "hello after half-close" in
  let RX3 := str "stout" in
  _ ← no_dropped_ports_rx;
  _ ← spawn_copy;
  rs ← polled (in_pipe (check_side_poll_read 14));
  _ ← check (assert (is_pending rs));
  _ ← rx_frame_tx_send TX1;
  got ← check_side_read 14;
  _ ← check (assert_eq got TX1);
  _ ← check_side_write_all RX1;
  _ ← expect_push 1 RX1;
  _ ← rx_frame_tx_send TX2;
  _ ← rx_frame_tx_drop;
  got ← check_side_read 14;
  _ ← check (assert_eq got TX2);
  got ← check_side_read 14;
  _ ← check (assert_eq (blen got) 0);
  _ ← check_side_write_all RX2;
  _ ← expect_push 1 RX2;
  _ ← check_side_write_all RX3;
  _ ← check_side_shutdown;
  _ ← expect_push 1 RX3;
  '(bytes_read, bytes_written) ← join_copy;
  _ ← check (assert_eq bytes_read (blen TX1 + blen TX2));
  check (assert_eq bytes_written (blen RX1 + blen RX2 + blen RX3)).

(** [send] the same payload [n] times. *)
Fixpoint times (n : nat) (s : step unit) : step unit :=
  match n with O => mret tt | S n' => _ ← s; times n' s end.

(** The loop at the end of the test: [buf] is overwritten by each [Push] that
    has its length, until a [Finish]. *)
Fixpoint drain_frames (fuel : nat) (buf : bytes) : step bytes :=
  match fuel with
  | O => get Panic
  | S fuel' =>
      '(_, frame) ← next_frame;
      _ ← check (assert_eq (frame_id frame) 1);
      match frame_payload frame with
      | Push push =>
          _ ← check (assert_eq (cow_len push) (blen buf));
          drain_frames fuel' (cow_as_ref push)
      | Finish => mret buf
      | _ => get Panic
      end
  end.

Definition test_flow_control : step unit :=
  let TEST_ACK_THRESHOLD := 5%nat in
  let TEST_ACK_THRESHOLD_U32 := 5 in
  _ ← check (assert_eq (Z.of_nat TEST_ACK_THRESHOLD) TEST_ACK_THRESHOLD_U32);
  _ ← no_dropped_ports_rx;
  _ ← times TEST_ACK_THRESHOLD (rx_frame_tx_send (str "hello"));
  rs ← polled (in_ctx tx_frame_rx_poll);
  _ ← check (assert (is_pending rs));
  got ← read_exact 64 (fun n => r ← await (in_ctx (poll_read (Z.of_nat n))); get (unwrap r)) (5 * TEST_ACK_THRESHOLD);
  _ ← check (assert_eq got (concat (repeat (str "hello") TEST_ACK_THRESHOLD)));
  _ ← expect_acknowledge 1 TEST_ACK_THRESHOLD_U32;
  _ ← spawn_copy;
  _ ← times (2 * TEST_ACK_THRESHOLD) (rx_frame_tx_send (str "hello"));
  _ ← expect_acknowledge 1 TEST_ACK_THRESHOLD_U32;
  _ ← expect_acknowledge 1 TEST_ACK_THRESHOLD_U32;
  got ← read_exact 64 check_side_read (5 * 2 * TEST_ACK_THRESHOLD);
  _ ← check (assert_eq got (concat (repeat (str "hello") (2 * TEST_ACK_THRESHOLD))));
  _ ← rx_frame_tx_drop;
  _ ← times TEST_ACK_THRESHOLD (check_side_write_all (str "hello"));
  _ ← check_side_shutdown;
  _ ← join_copy;
  buf ← drain_frames 8 (repeat 0 (5 * TEST_ACK_THRESHOLD));
  check (assert_eq buf (concat (repeat (str "hello") TEST_ACK_THRESHOLD))).

Definition test_mux_stream_shutdown_inner : step unit :=
  _ ← rx_frame_tx_drop;
  rs ← polled (in_ctx poll_shutdown);
  _ ← check (assert_eq rs (Ready (Ok tt)));
  _ ← expect_opcode OpFinish;
  '(_, frame) ← next_frame;
  _ ← check (assert_eq (frame_id frame) 15);
  _ ← effect stream_drop;
  r ← await (in_ctx (fun c => let '(q, r) := poll_recv (cx_dropped c) in (MkCtx (cx_stream c) (cx_shared c) (cx_tx c) q, r)));
  dropped_port ← get (unwrap_some r);
  check (assert_eq dropped_port 15).

(** A test run from its start. *)
Definition passes (s : step unit) (w : World) : bool := match s w with Ok _ => true | _ => false end.

Example stream_tests :
  passes test_mux_stream_read_inner (start 10 1 2 2) = true
  /\ passes test_mux_stream_write_inner (start DEFAULT_RWND_THRESHOLD 1 2 DEFAULT_RWND_THRESHOLD) = true
  /\ passes test_copy_bidirectional_normal (start DEFAULT_RWND_THRESHOLD 1 10 DEFAULT_RWND_THRESHOLD) = true
  /\ passes test_flow_control (start 5 1 10 5) = true
  /\ passes test_mux_stream_shutdown_inner (start 10 15 2 2) = true.
Proof. split_and!; vm_compute; reflexivity. Qed.
