(* ===== verification/Executor.v ===== *)
(** * An executor for two multiplexors (mux/tests.rs)

    The integration tests of the multiplexor run several asynchronous tasks
    against two multiplexors whose WebSockets are joined.  Here are the
    WebSocket of their module [mock], the tasks as values that can be polled,
    and an executor that polls them and the tasks of both multiplexors in
    turn.  MuxTests.v has the tests. *)

From S2P Require Import Prelude Runtime Frame Timing Config Stream Mux Asserts.

Open Scope penguin_scope.

(** ** The WebSocket of the module [mock] *)

(** The sender, until it is taken, and the two channels: the one it feeds and
    the one the other half of the pair feeds. *)
Record MockWebSocketStream := MkMock {
  mock_tx : bool;
  mock_out : chan_state Message;
  mock_in : chan_state Message;
}.

Definition mock_poll_ready (s : MockWebSocketStream) : MockWebSocketStream * poll (res Error unit) :=
  (s, Ready (if mock_tx s then Ok tt else Err Closed)).

Definition mock_start_send (item : Message) (s : MockWebSocketStream) : MockWebSocketStream * res Error unit :=
  if mock_tx s then
    let '(out, e) := try_send item (mock_out s) in
    (MkMock true out (mock_in s), match e with None => Ok tt | Some _ => Err Closed end)
  else (s, Err Closed).

Definition mock_poll_flush (s : MockWebSocketStream) : MockWebSocketStream * poll (res Error unit) := (s, Ready (Ok tt)).

(** [self.0.take()], which drops the sender. *)
Definition mock_poll_close (s : MockWebSocketStream) : MockWebSocketStream * poll (res Error unit) :=
  (MkMock false (tx_drop (mock_out s)) (mock_in s), Ready (Ok tt)).

Definition mock_poll_next (s : MockWebSocketStream) : MockWebSocketStream * poll (option (res Error Message)) :=
  let '(q, r) := poll_recv (mock_in s) in (MkMock (mock_tx s) (mock_out s) q, map_poll (fmap Ok) r).

#[export] Instance mock_websocket : WebSocket MockWebSocketStream := {
  ws_poll_ready := mock_poll_ready;
  ws_start_send := mock_start_send;
  ws_poll_flush := mock_poll_flush;
  ws_poll_close := mock_poll_close;
  ws_poll_next := mock_poll_next;
}.

Definition get_pair : MockWebSocketStream * MockWebSocketStream :=
  let tx1 := unbounded_channel in
  let tx2 := unbounded_channel in
  (MkMock true tx1 tx2, MkMock true tx2 tx1).

(** Dropping one half drops the sender and the receiver in it. *)
Definition mock_drop (s : MockWebSocketStream) : MockWebSocketStream :=
  MkMock false (tx_drop (mock_out s)) (rx_drop (mock_in s)).

(** ** The two sides *)

Abbreviation TestMux := (Mux chan_state shot_state bool MockWebSocketStream).

(** Where the task of a multiplexor is. *)
Inductive task_state :=
| Looping
| WindingDown (r : outcome unit)
| Ended (r : outcome unit).

(** What holds one half of the pair: the test itself, or a multiplexor with its
    task and the ticks of its keepalive interval. *)
Inductive Side :=
| Bare (ws : MockWebSocketStream)
| Running (x : TestMux) (keepalive : bool) (t : task_state).

Definition polls : nat := 4.
Definition task_fuel : nat := 64.

(** The frame branch polled with an interval that has just ticked, or with none. *)
Definition ticks (keepalive : bool) : list bool :=
  if keepalive then true :: repeat false task_fuel else repeat false task_fuel.

(** The end of [Task::start] drops the WebSocket with the task. *)
Definition exit_with (x : TestMux) : TestMux := let x := task_exit x in set_ws x (mock_drop (mx_ws x)).

Definition finish (r : outcome unit) (p : TestMux * outcome unit) : TestMux * task_state :=
  match p with
  | (x, Ret _) => (exit_with x, Ended r)
  | (x, Fail e) => (exit_with x, Ended (Fail e))
  | (x, Panicked) => (x, Ended Panicked)
  | (x, Parked _) => (x, WindingDown r)
  end.

(** One branch of the [select!], polled once: [None] while it waits.  A branch
    that holds a stream or a request it cannot hand over is not followed
    further; no test fills these queues. *)
Definition poll_branch (br : select_branch) (x : TestMux) : TestMux * option (outcome unit) :=
  match run_branch polls task_fuel br x with
  | (x, Parked (OnStreamQueue _ | OnBindQueue _)) => (x, Some Panicked)
  | (x, Parked _) => (x, None)
  | (x, r) => (x, Some r)
  end.

Fixpoint poll_branches (brs : list select_branch) (x : TestMux) : TestMux * task_state :=
  match brs with
  | [] => (x, Looping)
  | br :: brs' =>
      match poll_branch br x with
      | (x, None) => poll_branches brs' x
      | (x, Some Panicked) => (x, Ended Panicked)
      | (x, Some r) => finish r (after_select polls task_fuel br [] x)
      end
  end.

(** The task polled once; winding down it can only be left waiting for what the
    peer still sends. *)
Definition task_poll (keepalive : bool) (x : TestMux) (t : task_state) : TestMux * task_state :=
  match t with
  | Looping => poll_branches [DroppedPortsBranch; FrameRecvBranch (ticks keepalive); WsNextBranch] x
  | WindingDown r => finish r ((_ ← drain_source polls task_fuel; drain_flows) x)
  | Ended _ => (x, t)
  end.

Definition side_poll (s : Side) : Side :=
  match s with
  | Bare _ => s
  | Running x ka t => let '(x, t) := task_poll ka x t in Running x ka t
  end.

Definition side_ws (s : Side) : MockWebSocketStream :=
  match s with Bare ws => ws | Running x _ _ => mx_ws x end.

Definition set_side_ws (s : Side) (ws : MockWebSocketStream) : Side :=
  match s with Bare _ => Bare ws | Running x ka t => Running (set_ws x ws) ka t end.

(** The channels are shared: what the first side did to them the second sees. *)
Definition share (from to : Side) : Side :=
  set_side_ws to (MkMock (mock_tx (side_ws to)) (mock_in (side_ws from)) (mock_out (side_ws from))).

(** [Multiplexor::new], which spawns its task. *)
Definition multiplexor_new (ws : MockWebSocketStream) (options : Options) : res unit Side :=
  x ← mux_new ws (Some options);
  Ok (Running x (match opt_keepalive_interval options with Some _ => true | None => false end) Looping).

(** ** The tasks of a test *)

Inductive Who := Client | Server.

(** Both sides, how many spawned tasks have ended, the identifier the generator
    draws next, and the one-shot channel of one test. *)
Record World := MkWorld {
  wd_client : Side;
  wd_server : Side;
  wd_joined : nat;
  wd_draw : Z;
  wd_told : option (Z * Z);
}.

Definition side (who : Who) (w : World) : Side :=
  match who with Client => wd_client w | Server => wd_server w end.

(** One side after an operation, and the other with the channels they share. *)
Definition set_side (who : Who) (s : Side) (w : World) : World :=
  match who with
  | Client => MkWorld s (share s (wd_server w)) (wd_joined w) (wd_draw w) (wd_told w)
  | Server => MkWorld (share s (wd_client w)) s (wd_joined w) (wd_draw w) (wd_told w)
  end.

(** What an asynchronous function is to its executor: finished, failed (a panic
    or a failed assertion), at an [await] whose future has a state of its own,
    or about to spawn another. *)
Inductive job :=
| Finished
| Failed
| Await (L X : Type) (l : L) (poll : L -> World -> World * (L * poll (res unit X))) (k : X -> job)
| Spawn (spawned k : job).

Definition code (A : Type) : Type := (A -> job) -> job.

#[export] Instance code_ret : MRet code := fun _ a k => k a.
#[export] Instance code_bind : MBind code := fun _ _ f m k => m (fun a => f a k).

Definition await {L X} (l : L) (poll : L -> World -> World * (L * poll (res unit X))) : code X :=
  fun k => Await L X l poll k.

Definition spawn (c : code unit) : code unit := fun k => Spawn (c (fun _ => Finished)) (k tt).

(** Something that never waits. *)
Definition effect {X} (f : World -> World * res unit X) : code X :=
  await tt (fun l w => let '(w, r) := f w in (w, (l, Ready r))).

Definition check {X} (r : res unit X) : code X := effect (fun w => (w, r)).

(** [while let Some(r) = jobs.join_next().await], or one [task.await], with
    [unwrap]: a task that failed ends the test anyway. *)
Definition join (n : nat) : code unit :=
  await tt (fun l w => (w, (l, if (n <=? wd_joined w)%nat then Ready (Ok tt) else Pending))).

(** ** The executor *)

Definition poll_job (j : job) (w : World) : World * (job * list job) :=
  match j with
  | Await L X l poll k =>
      match poll l w with
      | (w, (l, Pending)) => (w, (Await L X l poll k, []))
      | (w, (_, Ready (Ok a))) => (w, (k a, []))
      | (w, (_, Ready _)) => (w, (Failed, []))
      end
  | Spawn j k => (w, (k, [j]))
  | _ => (w, (j, []))
  end.

(** Every task polled once: those that are left, the new ones last; [None] when
    one failed. *)
Fixpoint poll_jobs (jobs : list job) (w : World) : World * option (list job * list job) :=
  match jobs with
  | [] => (w, Some ([], []))
  | j :: rest =>
      let '(w, (j, new)) := poll_job j w in
      match j with
      | Failed => (w, None)
      | _ =>
          let ended := match j with Finished => true | _ => false end in
          let w := if ended then MkWorld (wd_client w) (wd_server w) (S (wd_joined w)) (wd_draw w) (wd_told w) else w in
          match poll_jobs rest w with
          | (w, Some (kept, new')) => (w, Some (if ended then kept else j :: kept, new ++ new'))
          | other => other
          end
      end
  end.

Definition tasks_poll (w : World) : World :=
  let w := set_side Client (side_poll (wd_client w)) w in
  set_side Server (side_poll (wd_server w)) w.

(** Rounds until every task has ended; the tasks of the multiplexors get their
    turn every [period] rounds.  A test that hangs fails. *)
Fixpoint execute (fuel period countdown : nat) (jobs : list job) (w : World) : test :=
  match jobs, fuel with
  | [], _ => Ok tt
  | _, O => Panic
  | _, S fuel =>
      match poll_jobs jobs w with
      | (_, None) => Panic
      | (w, Some (kept, new)) =>
          match countdown with
          | O => execute fuel period period (kept ++ new) (tasks_poll w)
          | S countdown => execute fuel period countdown (kept ++ new) w
          end
      end
  end.

(** A test from its two sides; the halves of the pair are given to them. *)
Definition run_test (fuel period : nat) (client server : MockWebSocketStream -> res unit Side) (main : code unit) : test :=
  let '(client_ws, server_ws) := get_pair in
  client ← client client_ws;
  server ← server server_ws;
  execute fuel period period [main (fun _ => Finished)] (MkWorld client server 0 1 None).

(** ** The calls of the tests *)

(** The monad of the multiplexor at this instance. *)
Abbreviation TestM := (@M chan_state shot_state bool MockWebSocketStream).

Definition run_mux {A} (who : Who) (m : TestM A) (w : World) : World * outcome A :=
  match side who w with
  | Running x ka t => let '(x, r) := m x in (set_side who (Running x ka t) w, r)
  | Bare _ => (w, Panicked)
  end.

(** A call on a multiplexor, awaited. *)
Definition call {A} (who : Who) (m : TestM A) : code (res Error A) :=
  await tt (fun l w =>
    let '(w, r) := run_mux who m w in
    (w, (l, match r with
            | Ret a => Ready (Ok (Ok a))
            | Fail e => Ready (Ok (Err e))
            | Panicked => Ready Panic
            | Parked _ => Pending
            end))).

(** [unwrap] and [unwrap_err] of what a call returned. *)
Definition unwrap_await {E A} (c : code (res E A)) : code A := r ← c; check (unwrap r).
Definition unwrap_err_await {E A} (c : code (res E A)) : code E := r ← c; check (unwrap_err r).

(** The draws of the generator: one after the other, so that two are never the
    same. *)
Definition draws : code (list Z) :=
  effect (fun w => (MkWorld (wd_client w) (wd_server w) (wd_joined w) (wd_draw w + 1) (wd_told w), Ok [wd_draw w])).

Fixpoint new_stream_rounds (retries : nat) (who : Who) (host : bytes) (port : Z) : code (res Error MuxStream) :=
  match retries with
  | O => mret (Err FlowIdRejected)
  | S retries =>
      ids ← draws;
      shot ← call who (new_stream_attempt ids host port);
      match shot with
      | Ok shot =>
          stream ← call who (await_stream_shot retries shot);
          match stream with
          | Ok (Some s) => mret (Ok s)
          | Ok None => new_stream_rounds retries who host port
          | Err e => mret (Err e)
          | Panic => mret Panic
          end
      | Err e => mret (Err e)
      | Panic => mret Panic
      end
  end.

(** [mux.new_stream_channel(host, port).await]: the rounds of
    [Mux.new_stream_loop], with the rest of the world where that has
    [meanwhile]. *)
Definition open_stream (who : Who) (host : bytes) (port : Z) : code (res Error MuxStream) :=
  retries ← call who (x ← get; mret (mx_max_flow_id_retries x));
  match retries with
  | Ok retries => new_stream_rounds retries who host port
  | Err e => mret (Err e)
  | Panic => mret Panic
  end.

(** [mux.request_bind(host, port, bind_type).await]. *)
Definition bind_request (who : Who) (host : bytes) (port : Z) (t : BindType) : code (res Error bool) :=
  ids ← draws;
  shot ← call who (request_bind_attempt ids host port t);
  match shot with
  | Ok shot => call who (await_bind_shot shot)
  | Err e => mret (Err e)
  | Panic => mret Panic
  end.

(** A poll function of a stream, awaited; the stream with what it answered. *)
Definition on_stream_await {A} (who : Who) (s : MuxStream)
    (f : Ctx chan_state bool -> Ctx chan_state bool * poll (res IoErrorKind A)) : code (MuxStream * res IoErrorKind A) :=
  await s (fun s w =>
    match run_mux who (on_stream s f) w with
    | (w, Ret (Some (s, Ready Panic))) => (w, (s, Ready Panic))
    | (w, Ret (Some (s, Ready r))) => (w, (s, Ready (Ok (s, r))))
    | (w, Ret (Some (s, Pending))) => (w, (s, Pending))
    | (w, _) => (w, (s, Ready Panic))
    end).

(** [stream.read(&mut buf).await.unwrap()] with [n] octets of buffer. *)
Definition stream_read (who : Who) (s : MuxStream) (n : Z) : code (MuxStream * bytes) :=
  '(s, r) ← on_stream_await who s (poll_read n); got ← check (unwrap r); mret (s, got).

(** [AsyncReadExt::read_exact] with [unwrap]: end of file before the buffer is
    full is an error. *)
Fixpoint stream_read_exact (fuel : nat) (who : Who) (s : MuxStream) (n : nat) : code (MuxStream * bytes) :=
  match n, fuel with
  | O, _ => mret (s, [])
  | _, O => check Panic
  | _, S fuel =>
      '(s, got) ← stream_read who s (Z.of_nat n);
      match got with
      | [] => check Panic
      | _ =>
          '(s, rest) ← stream_read_exact fuel who s (n - length got);
          mret (s, got ++ rest)
      end
  end.

(** [AsyncWriteExt::write_all]. *)
Fixpoint write_all_loop (fuel : nat) (who : Who) (s : MuxStream) (bs : bytes) : code (MuxStream * res IoErrorKind unit) :=
  match bs, fuel with
  | [], _ => mret (s, Ok tt)
  | _, O => check Panic
  | _, S fuel =>
      '(s, r) ← on_stream_await who s (poll_write [] bs);
      match r with
      | Ok n => write_all_loop fuel who s (drop (Z.to_nat n) bs)
      | Err e => mret (s, Err e)
      | Panic => check Panic
      end
  end.

Definition stream_write_all (who : Who) (s : MuxStream) (bs : bytes) : code (MuxStream * res IoErrorKind unit) :=
  write_all_loop (length bs) who s bs.

(** [stream.write_all(bs).await.unwrap()]. *)
Definition stream_write (who : Who) (s : MuxStream) (bs : bytes) : code MuxStream :=
  '(s, r) ← stream_write_all who s bs; _ ← check (unwrap r); mret s.

(** [stream.shutdown().await.unwrap()]. *)
Definition stream_shutdown (who : Who) (s : MuxStream) : code MuxStream :=
  '(s, r) ← on_stream_await who s poll_shutdown; _ ← check (unwrap r); mret s.

(** What the end of a scope drops. *)
Definition drop_conn (who : Who) (s : MuxStream) : code unit := unwrap_await (call who (drop_stream s)).
Definition drop_multiplexor (who : Who) : code unit := unwrap_await (call who mux_drop).

(** *** A half of the pair in the hands of the test *)

Definition with_ws {A} (who : Who) (f : MockWebSocketStream -> MockWebSocketStream * A) (w : World) : World * option A :=
  match side who w with
  | Bare ws => let '(ws, a) := f ws in (set_side who (Bare ws) w, Some a)
  | Running _ _ _ => (w, None)
  end.

(** [CompatSinkStreamWebSocket::send] of the mock, which is always ready or
    closed, with [unwrap]. *)
Definition ws_send (who : Who) (item : Message) : code unit :=
  effect (fun w =>
    let '(w, r) := with_ws who ws_poll_ready w in
    match r with
    | Some (Ready (Ok _)) =>
        let '(w, r) := with_ws who (ws_start_send item) w in
        match r with
        | Some (Ok _) =>
            let '(w, r) := with_ws who ws_poll_flush w in
            (w, match r with Some (Ready (Ok _)) => Ok tt | _ => Panic end)
        | _ => (w, Panic)
        end
    | _ => (w, Panic)
    end).

(** [CompatSinkStreamWebSocket::next]. *)
Definition ws_next (who : Who) : code (option (res Error Message)) :=
  await tt (fun l w =>
    let '(w, r) := with_ws who ws_poll_next w in
    (w, (l, match r with
            | Some (Ready m) => Ready (Ok m)
            | Some Pending => Pending
            | None => Ready Panic
            end))).

Definition drop_ws (who : Who) : code unit :=
  effect (fun w => let '(w, _) := with_ws who (fun ws => (mock_drop ws, tt)) w in (w, Ok tt)).

(** ** The pair stays a pair *)

(** Each half feeds the channel the other reads. *)
Definition joined (w : World) : Prop :=
  mock_in (side_ws (wd_client w)) = mock_out (side_ws (wd_server w))
  /\ mock_in (side_ws (wd_server w)) = mock_out (side_ws (wd_client w)).

Lemma get_pair_joined client server joined_tasks draw told :
  client = Bare get_pair.1 -> server = Bare get_pair.2 -> joined (MkWorld client server joined_tasks draw told).
Proof. now intros -> ->. Qed.

Lemma side_ws_share from to :
  side_ws (share from to)
  = MkMock (mock_tx (side_ws to)) (mock_in (side_ws from)) (mock_out (side_ws from)).
Proof. now destruct to. Qed.

(** Whatever an operation does to one side, the other sees its channels. *)
Lemma set_side_joined who s w : joined (set_side who s w).
Proof. destruct who; unfold joined; cbn; now rewrite !side_ws_share. Qed.

Lemma run_mux_joined {A} who (m : TestM A) w : joined w -> joined (run_mux who m w).1.
Proof.
  intros Hw. unfold run_mux. destruct (side who w) as [ws|x ka t]; [easy|].
  destruct (m x) as [x' r]. apply set_side_joined.
Qed.

Lemma tasks_poll_joined w : joined (tasks_poll w).
Proof. apply set_side_joined. Qed.

(** What one half sends, the other receives after all that was sent before. *)
Lemma mock_send_received m a b :
  mock_tx a = true -> cs_rx_open (mock_out a) = true -> cs_cap (mock_out a) = None ->
  mock_in b = mock_out a ->
  (mock_start_send m a).2 = Ok tt
  /\ match cs_queue (mock_in b) with
     | [] => (mock_poll_next (MkMock (mock_tx b) (mock_out b) (mock_out (mock_start_send m a).1))).2 = Ready (Some (Ok m))
     | first :: rest =>
         (mock_poll_next b).2 = Ready (Some (Ok first))
         /\ cs_queue (mock_out (mock_start_send m a).1) = first :: rest ++ [m]
     end.
Proof.
  intros Htx Hrx Hcap Hin. unfold mock_start_send, mock_poll_next. rewrite Htx. cbn [try_send list_mpsc].
  rewrite spec_send_unbounded, Hrx by easy. cbn. split; [easy|]. rewrite Hin.
  destruct (cs_queue (mock_out a)) as [|first rest] eqn:Hq; unfold spec_recv; cbn; rewrite ?Hq; easy.
Qed.
