(* ===== verification/MuxTests.v ===== *)
(** * Integration tests of the multiplexor (mux/tests.rs)

    Each test is the two sides it builds and what its tasks do, call by call,
    with the drops at the ends of their scopes, run by Executor.v on the pair
    of mock WebSockets.  Sizes are those of the source scaled down, which still
    run through the window of four frames of the test configuration many
    times; every test runs once with the tasks of the multiplexors polled after
    every round and once with them late.  The two tests over a real TCP socket
    differ in the WebSocket only and are not repeated. *)

From S2P Require Import Prelude Runtime Frame Timing Config Stream Mux WireTests Asserts Executor.

Open Scope penguin_scope.

(** ** Shared parts *)

(** [Options::new] in the test configuration. *)
Definition options_new_test : Options := MkOptions optional_duration_none (Z.shiftl 1 9) (Z.shiftl 1 4) 0 3 4 4.

Definition plain (ws : MockWebSocketStream) : res unit Side := multiplexor_new ws options_new_test.

Definition configured (options : res unit Options) (ws : MockWebSocketStream) : res unit Side :=
  options ← options; multiplexor_new ws options.

Definition bare (ws : MockWebSocketStream) : res unit Side := Ok (Bare ws).

(** Octets in no obvious order, for [rand::random]. *)
Fixpoint random_bytes (n : nat) (seed : Z) : bytes :=
  match n with
  | O => []
  | S n => Z.land (Z.shiftr seed 16) 255 :: random_bytes n ((seed * 1103515245 + 12345) mod 2 ^ 31)
  end.

(** [while i < bytes.len() { conn.write_all(&bytes[i..i + n]).await.unwrap(); i += n; }]. *)
Fixpoint write_chunks (fuel : nat) (who : Who) (conn : MuxStream) (n : nat) (bs : bytes) : code MuxStream :=
  match bs, fuel with
  | [], _ => mret conn
  | _, O => check Panic
  | _, S fuel => conn ← stream_write who conn (take n bs); write_chunks fuel who conn n (drop n bs)
  end.

(** [while out.len() < len { let n = conn.read(&mut buf).await.unwrap(); .. }],
    which stops at the end of the stream. *)
Fixpoint read_until (fuel : nat) (who : Who) (conn : MuxStream) (len : nat) (buf : Z) (out : bytes) : code (MuxStream * bytes) :=
  if (len <=? length out)%nat then mret (conn, out)
  else
    match fuel with
    | O => check Panic
    | S fuel =>
        '(conn, got) ← stream_read who conn buf;
        match got with
        | [] => mret (conn, out)
        | _ => read_until fuel who conn len buf (out ++ got)
        end
    end.

Definition read_all (who : Who) (conn : MuxStream) (len : nat) (buf : Z) : code (MuxStream * bytes) :=
  read_until len who conn len buf [].

Definition accept (who : Who) : code MuxStream := unwrap_await (call who accept_stream_channel).
Definition connect (who : Who) : code MuxStream := unwrap_await (open_stream who [] 0).

(** [let Message::Binary(payload) = ..next().await.unwrap().unwrap() else panic],
    then [Frame::try_from(payload).unwrap()]. *)
Definition next_frame (who : Who) : code Frame :=
  m ← ws_next who;
  m ← check (unwrap_some m);
  m ← check (unwrap m);
  match m with
  | MsgBinary payload => check (unwrap (frame_try_from payload))
  | _ => check Panic
  end.

Definition send_frame_by_hand (who : Who) (f : Frame) : code unit :=
  payload ← check (unwrap (finalize f)); ws_send who (MsgBinary payload).

(** ** The tests *)

Definition connect_succeeds : code unit :=
  _ ← spawn (stream ← accept Server; _ ← drop_conn Server stream; drop_multiplexor Server);
  stream ← connect Client;
  _ ← join 1;
  _ ← drop_conn Client stream;
  drop_multiplexor Client.

Fixpoint echo_datagrams (n : nat) : code unit :=
  match n with
  | O => drop_multiplexor Server
  | S n =>
      dgram ← unwrap_await (call Server get_datagram);
      _ ← unwrap_await (call Server (send_datagram dgram));
      echo_datagrams n
  end.

Fixpoint exchange_datagrams (n size : nat) : code unit :=
  match n with
  | O => mret tt
  | S n =>
      let payload := random_bytes size (Z.of_nat n) in
      _ ← unwrap_await (call Client (send_datagram (MkMuxDatagram 1 (str "example.com") 53 payload)));
      recvd ← unwrap_await (call Client get_datagram);
      _ ← check (assert_eq (dg_target_host recvd) (str "example.com"));
      _ ← check (assert_eq (dg_target_port recvd) 53);
      _ ← check (assert_eq (dg_flow_id recvd) 1);
      _ ← check (assert_eq (dg_data recvd) payload);
      exchange_datagrams n size
  end.

Definition datagram_channel_passes_data (rounds size : nat) : code unit :=
  _ ← spawn (echo_datagrams rounds);
  _ ← exchange_datagrams rounds size;
  _ ← join 1;
  drop_multiplexor Client.

Definition test_datagram_reject_long_host : code unit :=
  let long_host := concat (replicate 32 (str "example1")) in
  let data := str "hello" in
  _ ← unwrap_err_await (call Client (send_datagram (MkMuxDatagram 1 long_host 53 data)));
  let long_host2 := drop 1 long_host in
  _ ← unwrap_await (call Client (send_datagram (MkMuxDatagram 1 long_host2 53 data)));
  result ← unwrap_await (call Server get_datagram);
  _ ← check (assert_eq (dg_target_host result) long_host2);
  _ ← check (assert_eq (dg_target_port result) 53);
  _ ← check (assert_eq (dg_flow_id result) 1);
  check (assert_eq (dg_data result) data).

(** [connected_stream_passes_data] and its variants: the server sends in
    pieces of [piece] octets, the client reads into [buf]; in
    [.._one_sided_lots] the client shuts its own side down first. *)
Definition connected_stream_passes_data (size piece : nat) (buf : Z) (one_sided : bool) : code unit :=
  let input_bytes := random_bytes size 42 in
  _ ← spawn (conn ← accept Server;
             conn ← write_chunks size Server conn piece input_bytes;
             conn ← stream_shutdown Server conn;
             _ ← drop_conn Server conn;
             drop_multiplexor Server);
  conn ← connect Client;
  conn ← (if one_sided then stream_shutdown Client conn else mret conn);
  '(conn, output_bytes) ← read_all Client conn (length input_bytes) buf;
  _ ← check (assert_eq input_bytes output_bytes);
  _ ← join 1;
  _ ← drop_conn Client conn;
  drop_multiplexor Client.

(** The roles of the tasks exchanged, and the whole written at once. *)
Definition connected_stream_passes_data_with_keepalive (size : nat) : code unit :=
  let input_bytes := random_bytes size 42 in
  _ ← spawn (conn ← connect Client;
             '(conn, output_bytes) ← read_all Client conn (length input_bytes) 2048;
             _ ← check (assert_eq input_bytes output_bytes);
             _ ← drop_conn Client conn;
             drop_multiplexor Client);
  conn ← accept Server;
  conn ← stream_write Server conn input_bytes;
  conn ← stream_shutdown Server conn;
  _ ← join 1;
  _ ← drop_conn Server conn;
  drop_multiplexor Server.

Definition test_shutdown_has_effect : code unit :=
  _ ← spawn (conn ← accept Server;
             conn ← stream_shutdown Server conn;
             '(conn, r) ← stream_write_all Server conn (str "hello");
             _ ← check (unwrap_err r);
             _ ← drop_conn Server conn;
             drop_multiplexor Server);
  conn ← connect Client;
  conn ← stream_shutdown Client conn;
  '(conn, r) ← stream_write_all Client conn (str "hello");
  _ ← check (unwrap_err r);
  _ ← join 1;
  _ ← drop_conn Client conn;
  drop_multiplexor Client.

Fixpoint serve_job (writes : nat) (payload : bytes) (stream : MuxStream) : code unit :=
  match writes with
  | O => stream ← stream_shutdown Server stream; drop_conn Server stream
  | S writes =>
      stream ← stream_write Server stream payload;
      '(stream, _) ← stream_read_exact (length payload) Server stream (length payload);
      serve_job writes payload stream
  end.

Fixpoint echo_job (writes len : nat) (stream : MuxStream) : code unit :=
  match writes with
  | O => stream ← stream_shutdown Client stream; drop_conn Client stream
  | S writes =>
      '(stream, buf) ← stream_read_exact len Client stream len;
      stream ← stream_write Client stream buf;
      echo_job writes len stream
  end.

(** The jobs of the server and of the client are counted together: [join] waits
    for all that were spawned. *)
Fixpoint repeat_spawn (n : nat) (get : code MuxStream) (body : MuxStream -> code unit) : code unit :=
  match n with
  | O => mret tt
  | S n => stream ← get; _ ← spawn (body stream); repeat_spawn n get body
  end.

Definition test_contention (concurrent writes size : nat) : code unit :=
  let payload := random_bytes size 7 in
  _ ← spawn (repeat_spawn concurrent (accept Server) (serve_job writes payload));
  _ ← repeat_spawn concurrent (connect Client) (echo_job writes size);
  join (1 + concurrent + concurrent).

(** What [test_with_tcpsocket] does after the connection: the client half-closes
    and reads exactly, while the server writes. *)
Fixpoint read_pieces (fuel : nat) (stream : MuxStream) (piece : nat) (expected : bytes) : code MuxStream :=
  match expected, fuel with
  | [], _ => mret stream
  | _, O => check Panic
  | _, S fuel =>
      '(stream, buf) ← stream_read_exact piece Client stream piece;
      _ ← check (assert_eq (take piece expected) buf);
      read_pieces fuel stream piece (drop piece expected)
  end.

Definition half_closed_stream (piece iterations : nat) : code unit :=
  let all_payload := random_bytes (piece * iterations) 3 in
  _ ← spawn (stream ← accept Server;
             stream ← write_chunks iterations Server stream piece all_payload;
             stream ← stream_shutdown Server stream;
             _ ← drop_conn Server stream;
             drop_multiplexor Server);
  stream ← connect Client;
  stream ← stream_shutdown Client stream;
  stream ← read_pieces iterations stream piece all_payload;
  _ ← drop_conn Client stream;
  drop_multiplexor Client.

(** The server drops its stream without a shutdown. *)
Definition test_early_eof_detected_inner (size : nat) : code unit :=
  let input_bytes := random_bytes size 11 in
  _ ← spawn (conn ← accept Server;
             conn ← stream_write Server conn input_bytes;
             _ ← drop_conn Server conn;
             drop_multiplexor Server);
  conn ← connect Client;
  '(conn, output_bytes) ← read_all Client conn (length input_bytes + 2) 2048;
  _ ← check (assert_eq input_bytes output_bytes);
  _ ← join 1;
  _ ← drop_conn Client conn;
  drop_multiplexor Client.

(** The client side of the protocol by hand. *)
Definition test_close_port_behaviour : code unit :=
  _ ← spawn (conn1 ← connect Server;
             conn1 ← stream_shutdown Server conn1;
             _ ← drop_conn Server conn1;
             conn2 ← accept Server;
             _ ← drop_conn Server conn2;
             drop_multiplexor Server);
  frame ← next_frame Client;
  let flow_id := frame_id frame in
  _ ← check (match frame_payload frame with Connect _ => Ok tt | _ => Panic end);
  _ ← send_frame_by_hand Client (new_acknowledge flow_id 10);
  frame ← next_frame Client;
  _ ← check (match frame_payload frame with Finish => Ok tt | _ => Panic end);
  _ ← check (assert_eq flow_id (frame_id frame));
  _ ← send_frame_by_hand Client (new_connect [] 0 41352 20);
  frame ← next_frame Client;
  _ ← check (match frame_payload frame with Acknowledge _ => Ok tt | _ => Panic end);
  _ ← check (assert_eq (frame_id frame) 41352);
  frame ← next_frame Client;
  _ ← check (match frame_payload frame with Reset => Ok tt | _ => Panic end);
  _ ← check (assert_eq (frame_id frame) 41352);
  _ ← join 1;
  drop_ws Client.

Definition test_several_channels : code unit :=
  _ ← spawn (conn1 ← accept Server;
             conn2 ← accept Server;
             conn3 ← accept Server;
             '(conn3, got) ← stream_read Server conn3 32;
             _ ← check (assert_eq got (str "!"));
             '(conn2, got) ← stream_read Server conn2 32;
             _ ← check (assert_eq got (str "world"));
             '(conn1, got) ← stream_read Server conn1 32;
             _ ← check (assert_eq got (str "hello"));
             _ ← drop_conn Server conn3;
             _ ← drop_conn Server conn2;
             _ ← drop_conn Server conn1;
             drop_multiplexor Server);
  conn1 ← connect Client;
  conn2 ← connect Client;
  conn3 ← connect Client;
  conn1 ← stream_write Client conn1 (str "hello");
  conn1 ← stream_shutdown Client conn1;
  conn2 ← stream_write Client conn2 (str "world");
  conn2 ← stream_shutdown Client conn2;
  conn3 ← stream_write Client conn3 (str "!");
  conn3 ← stream_shutdown Client conn3;
  _ ← join 1;
  _ ← drop_conn Client conn3;
  _ ← drop_conn Client conn2;
  _ ← drop_conn Client conn1;
  drop_multiplexor Client.

(** [while let Some(message) = server.next().await], with the answer to every
    [Connect]. *)
Fixpoint reject_connects (fuel : nat) : code unit :=
  match fuel with
  | O => check Panic
  | S fuel =>
      m ← ws_next Server;
      match m with
      | None => drop_ws Server
      | Some m =>
          message ← check (unwrap m);
          match message with
          | MsgBinary payload =>
              frame ← check (unwrap (frame_try_from payload));
              _ ← match frame_payload frame with
                  | Connect _ => send_frame_by_hand Server (new_reset (frame_id frame))
                  | _ => mret tt
                  end;
              reject_connects fuel
          | _ => reject_connects fuel
          end
      end
  end.

Definition test_flow_id_contention_will_give_up : code unit :=
  _ ← spawn (reject_connects 16);
  stream1 ← open_stream Client [] 0;
  e ← check (unwrap_err stream1);
  _ ← check (match e with FlowIdRejected => Ok tt | _ => Panic end);
  _ ← drop_multiplexor Client;
  join 1.

(** The next frame, answered if it is a [Connect]; its identifier. *)
Definition answer_connect (answer : Z -> Frame) : code Z :=
  frame ← next_frame Server;
  _ ← match frame_payload frame with
      | Connect _ => send_frame_by_hand Server (answer (frame_id frame))
      | _ => mret tt
      end;
  mret (frame_id frame).

Definition test_flow_id_contention_can_succeed : code unit :=
  _ ← spawn (id0 ← answer_connect new_reset;
             id1 ← answer_connect (fun id => new_acknowledge id 10);
             _ ← effect (fun w =>
                   (MkWorld (wd_client w) (wd_server w) (wd_joined w) (wd_draw w) (Some (id0, id1)), Ok tt));
             drop_ws Server);
  stream1 ← unwrap_await (open_stream Client [] 0);
  _ ← drop_multiplexor Client;
  '(_, server_flow_id2) ← await tt (fun l w =>
    (w, (l, match wd_told w with Some ids => Ready (Ok ids) | None => Pending end)));
  _ ← check (assert_eq (ms_flow_id stream1) server_flow_id2);
  '(stream1, remaining) ← on_stream_await Client stream1
    (fun c => (c, Ready (Ok (sh_psh_send_remaining (cx_shared c)))));
  remaining ← check (unwrap remaining);
  _ ← check (assert_eq remaining 10);
  _ ← join 1;
  drop_conn Client stream1.

(** What the accessors of a bind request give. *)
Definition expect_bind (t : BindType) (host : bytes) (port : Z) : code BindRequest :=
  request ← unwrap_await (call Client next_bind_request);
  _ ← check (assert_eq (BindRequests.bind_type request) t);
  _ ← check (assert_ne (BindRequests.flow_id request) 0);
  _ ← check (assert_eq (BindRequests.host request) host);
  _ ← check (assert_eq (BindRequests.port request) port);
  mret request.

Definition expect_bind_answer (answer : bool) (who : Who) (host : bytes) (port : Z) (t : BindType) : code unit :=
  request ← unwrap_await (bind_request who host port t);
  check (assert_eq request answer).

Definition drop_bind (r : BindRequest) : code unit := unwrap_await (call Client (bind_drop r)).

(** A variable that shadows another drops nothing: the requests live to the end
    of the test, apart from the one that is dropped by hand. *)
Definition test_bind_request : code unit :=
  _ ← spawn (_ ← expect_bind_answer true Server (str "testbind") 0 BindDatagram;
             _ ← expect_bind_answer false Server (str "testbind2") 40 BindStream;
             e ← unwrap_err_await (call Server next_bind_request);
             _ ← check (match e with UnsupportedOperation => Ok tt | _ => Panic end);
             _ ← expect_bind_answer false Server (str "testbind3") 8011 BindStream;
             drop_multiplexor Server);
  request1 ← expect_bind BindDatagram (str "testbind") 0;
  _ ← unwrap_await (call Client (bind_reply request1 true));
  request2 ← expect_bind BindStream (str "testbind2") 40;
  _ ← drop_bind request2;
  _ ← expect_bind_answer false Client (str "testbindc") 80 BindStream;
  request3 ← expect_bind BindStream (str "testbind3") 8011;
  _ ← unwrap_await (call Client (bind_reply request3 false));
  _ ← join 1;
  _ ← drop_bind request3;
  _ ← drop_bind request1;
  drop_multiplexor Client.

(** ** The runs *)

Definition keepalive_options : res unit Options :=
  Ok (keepalive_interval options_new_test (optional_from_secs 1)).

Definition window_minus_one : res unit Options :=
  options ← rwnd 64 options_new_test 4; default_rwnd_threshold options (4 - 1).

Definition allow_bind : res unit Options := Ok (bind_buffer_size options_new_test 16).


Definition suite (period : nat) : list test := [
  run_test 100 period plain plain connect_succeeds;
  run_test 1000 period plain plain (datagram_channel_passes_data 8 32);
  run_test 100 period plain plain test_datagram_reject_long_host;
  run_test 5000 period (configured window_minus_one) (configured window_minus_one)
    (connected_stream_passes_data 1024 64 256 false);
  run_test 5000 period (configured keepalive_options) plain (connected_stream_passes_data_with_keepalive 1024);
  run_test 5000 period plain plain (connected_stream_passes_data 1024 64 256 false);
  run_test 5000 period plain plain (connected_stream_passes_data 1024 32 64 true);
  run_test 1000 period plain plain test_shutdown_has_effect;
  run_test 5000 period plain plain (test_contention 3 3 64);
  run_test 5000 period plain plain (half_closed_stream 32 16);
  run_test 1000 period plain plain (test_early_eof_detected_inner 256);
  run_test 1000 period bare plain test_close_port_behaviour;
  run_test 1000 period plain plain test_several_channels;
  run_test 1000 period plain bare test_flow_id_contention_will_give_up;
  run_test 1000 period plain bare test_flow_id_contention_can_succeed;
  run_test 1000 period (configured allow_bind) plain test_bind_request
].

Example suite_passes : Forall (fun t => t = Ok tt) (suite 0).
Proof. vm_compute. now repeat constructor. Qed.

(** Nothing in it depends on the tasks of the multiplexors being prompt. *)
Example suite_passes_late : Forall (fun t => t = Ok tt) (suite 7).
Proof. vm_compute. now repeat constructor. Qed.

(** *** What the suite leaves out

    No test sends a datagram of fewer than four octets, which ends the
    connection of its receiver, and none has sides with different windows, with
    which a threshold can be above the window of its own side: the writer then
    waits for ever after its first window. *)
Example short_datagrams_fail : run_test 1000 0 plain plain (datagram_channel_passes_data 1 3) = Panic.
Proof. vm_compute. reflexivity. Qed.

Definition options_of (window threshold : Z) : res unit Options :=
  options ← rwnd 64 options_new_test window; default_rwnd_threshold options threshold.

(** The client grants four frames and acknowledges every fifth. *)
Example threshold_above_window_hangs :
  run_test 5000 0 (configured (options_of 4 5)) (configured (options_of 8 4))
    (connected_stream_passes_data 1024 64 256 false) = Panic
  /\ run_test 5000 0 (configured (options_of 4 5)) (configured (options_of 8 4))
       (connected_stream_passes_data 256 64 256 false) = Ok tt.
Proof. vm_compute. easy. Qed.
