(* ===== verification/ServiceTests.v ===== *)
(** * Tests of the HTTP service

    The unit tests of server/service.rs, with two small hosts for those that
    reach one, and the digest and the text encoding the service takes from
    crates written down after their standards (FIPS 180-4, RFC 4648). *)

From S2P Require Import Prelude Frame Remote Args Service ValueTests Asserts.

Open Scope penguin_scope.

(** ** SHA-1 *)

Definition add32 (a b : Z) : Z := (a + b) mod 2 ^ 32.

Definition rotl32 (n a : Z) : Z := Z.lor (Z.land (Z.shiftl a n) (2 ^ 32 - 1)) (Z.shiftr a (32 - n)).

Definition not32 (a : Z) : Z := Z.lxor a (2 ^ 32 - 1).

(** Big-endian octets of a number. *)
Fixpoint octets_of (count : nat) (x : Z) : bytes :=
  match count with O => [] | S count' => octets_of count' (x / 256) ++ [x mod 256] end.

(** The message, a one bit, zeros and its length in bits. *)
Definition sha1_padded (message : bytes) : bytes :=
  let l := blen message in
  message ++ [0x80] ++ repeat 0 (Z.to_nat ((55 - l) mod 64)) ++ octets_of 8 (8 * l).

(** The next word of the schedule, kept newest first. *)
Definition sha1_next (schedule : list Z) : Z :=
  rotl32 1 (Z.lxor (Z.lxor (nth 2 schedule 0) (nth 7 schedule 0)) (Z.lxor (nth 13 schedule 0) (nth 15 schedule 0))).

Fixpoint sha1_expand (more : nat) (schedule : list Z) : list Z :=
  match more with O => schedule | S more' => sha1_expand more' (sha1_next schedule :: schedule) end.

Fixpoint words_of (fuel : nat) (block : bytes) : list Z :=
  match fuel, block with
  | S fuel', a :: b :: c :: d :: rest => (((a * 256 + b) * 256 + c) * 256 + d) :: words_of fuel' rest
  | _, _ => []
  end.

Definition sha1_f (t b c d : Z) : Z :=
  if t <? 20 then Z.lor (Z.land b c) (Z.land (not32 b) d)
  else if t <? 40 then Z.lxor (Z.lxor b c) d
  else if t <? 60 then Z.lor (Z.lor (Z.land b c) (Z.land b d)) (Z.land c d)
  else Z.lxor (Z.lxor b c) d.

Definition sha1_k (t : Z) : Z :=
  if t <? 20 then 0x5a827999 else if t <? 40 then 0x6ed9eba1 else if t <? 60 then 0x8f1bbcdc else 0xca62c1d6.

Definition digest : Type := Z * Z * Z * Z * Z.

Fixpoint sha1_rounds (t : Z) (schedule : list Z) (h : digest) : digest :=
  match schedule with
  | [] => h
  | w :: rest =>
      let '(a, b, c, d, e) := h in
      sha1_rounds (t + 1) rest (add32 (rotl32 5 a) (add32 (sha1_f t b c d) (add32 e (add32 w (sha1_k t)))), a, rotl32 30 b, c, d)
  end.

Definition sha1_block (h : digest) (block : bytes) : digest :=
  let '(a, b, c, d, e) := h in
  let '(a', b', c', d', e') := sha1_rounds 0 (rev (sha1_expand 64 (rev (words_of 16 block)))) h in
  (add32 a a', add32 b b', add32 c c', add32 d d', add32 e e').

Fixpoint sha1_blocks (fuel : nat) (h : digest) (message : bytes) : digest :=
  match fuel, message with
  | S fuel', _ :: _ => sha1_blocks fuel' (sha1_block h (take 64 message)) (drop 64 message)
  | _, _ => h
  end.

Definition sha1 (message : bytes) : bytes :=
  let padded := sha1_padded message in
  let '(a, b, c, d, e) := sha1_blocks (length padded) (0x67452301, 0xefcdab89, 0x98badcfe, 0x10325476, 0xc3d2e1f0) padded in
  octets_of 4 a ++ octets_of 4 b ++ octets_of 4 c ++ octets_of 4 d ++ octets_of 4 e.

(** "abc" and the empty message of the standard's examples. *)
Example sha1_examples :
  sha1 (str "abc") = octets_of 20 0xa9993e364706816aba3e25717850c26c9cd0d89d
  /\ sha1 [] = octets_of 20 0xda39a3ee5e6b4b0d3255bfef95601890afd80709.
Proof. split; vm_compute; reflexivity. Qed.

(** ** Base64 *)

Definition base64_alphabet : bytes := str "ABCDEFGHIJKLMNOPQRSTUVWXYZabcdefghijklmnopqrstuvwxyz0123456789+/".

Definition sextet (x i : Z) : Z := nth (Z.to_nat (Z.land (Z.shiftr x (6 * i)) 63)) base64_alphabet 0.

Definition ch_pad : Z := 61.

Fixpoint base64 (fuel : nat) (bs : bytes) : bytes :=
  match fuel, bs with
  | S fuel', a :: b :: c :: rest =>
      let x := (a * 256 + b) * 256 + c in [sextet x 3; sextet x 2; sextet x 1; sextet x 0] ++ base64 fuel' rest
  | _, [a; b] => let x := (a * 256 + b) * 256 in [sextet x 3; sextet x 2; sextet x 1; ch_pad]
  | _, [a] => let x := a * 256 * 256 in [sextet x 3; sextet x 2; ch_pad; ch_pad]
  | _, _ => []
  end.

Definition b64_standard_engine_encode (bs : bytes) : bytes := base64 (length bs) bs.

Example base64_examples :
  map b64_standard_engine_encode [[]; str "f"; str "fo"; str "foo"; str "foobar"]
  = [[]; str "Zg=="; str "Zm8="; str "Zm9v"; str "Zm9vYmFy"].
Proof. vm_compute. reflexivity. Qed.

(** ** The service of a test *)

Definition test_version : bytes := str "0.7.0".

(** Without a backend. *)
Definition run (state : State) (req : Request) : answer :=
  call (Uri := unit) sha1 b64_standard_engine_encode Some (fun _ _ _ => None) (fun _ _ => None) (fun body : bytes => Some body) test_version state req.

(** [State::new] of the tests. *)
Definition new_state (ws_psk : option bytes) (obfs : bool) : State :=
  MkState None ws_psk (str "not found in the test") obfs false.

(** [Request::builder()]: a request is for the root unless it says another
    address. *)
Definition builder (method path : bytes) (headers : list (bytes * bytes)) (on_upgrade : bool) : Request :=
  MkRequest method path (Some path) (list_to_map headers) on_upgrade [].

Definition assert_answer (a : answer) (status : Z) (body : bytes) : test :=
  '(resp, _) ← unwrap a;
  _ ← assert_eq (rs_status resp) status;
  assert_eq (rs_body resp) body.

(** ** The tests *)

Definition test_make_sec_websocket_accept : test :=
  for_all
    (fun '(key, expected) =>
       actual ← unwrap (make_sec_websocket_accept sha1 b64_standard_engine_encode Some (str key));
       assert_eq actual (str expected))
    [("dGhlIHNhbXBsZSBub25jZQ=="%string, "s3pPLMBiTxaQ9kYGzzhZRbK+xOo="%string);
     ("7S3qp57psT3kwWF29CFJNg=="%string, "4s9bDvNVhoia18oejmdBEUJci9s="%string)].

Definition test_obfs_or_not : test :=
  let health := builder (str "GET") (str "/health") [] false in
  let version := builder (str "GET") (str "/version") [] false in
  _ ← assert_answer (run (new_state None false) health) 200 (str "OK");
  _ ← assert_answer (run (new_state None true) health) 404 (str "not found in the test");
  _ ← assert_answer (run (new_state None false) version) 200 test_version;
  assert_answer (run (new_state None true) version) 404 (str "not found in the test").

(** The two hosts the tests ask, as far as they rely on them: one answers with
    the status in the path, the other knows its front page and a teapot. *)
Definition internet (uri : bytes * bytes * bytes) (req : Request) : option (Z * list (bytes * bytes) * bytes) :=
  let '(scheme, authority, path) := uri in
  if is_str authority "httpbin.io" && is_str scheme "http" then
    if is_str path "/status/200" then Some (200, [], []) else if is_str path "/status/418" then Some (418, [], []) else None
  else if is_str authority "www.google.com" && is_str scheme "https" then
    if is_str path "/" then Some (200, [], []) else if is_str path "/teapot" then Some (418, [], []) else None
  else None.

Definition assert_backend_status (backend path : bytes) (status : Z) : test :=
  BACKEND ← unwrap (backend_url_from_str sample_parts backend);
  let state := MkState (Some BACKEND) None (str "not found in the test") false false in
  '(resp, _) ← unwrap (call sha1 b64_standard_engine_encode Some (fun s a p => Some (s, a, p)) internet Some test_version state
                         (builder (str "GET") path [] false));
  assert_eq (rs_status resp) status.

Definition test_backend : test :=
  _ ← assert_backend_status (str "http://httpbin.io") (str "/status/200") 200;
  assert_backend_status (str "http://httpbin.io") (str "/status/418") 418.

Definition test_backend_tls : test :=
  _ ← assert_backend_status (str "https://www.google.com") (str "/") 200;
  assert_backend_status (str "https://www.google.com") (str "/teapot") 418.

(** The headers of the handshake, as the tests give them. *)
Definition upgrade_headers : list (bytes * bytes) :=
  [(str "connection", str "UpGrAdE"); (str "upgrade", str "WEBSOCKET"); (str "sec-websocket-version", str "13");
   (str "sec-websocket-protocol", WANTED_PROTOCOL)].

Definition key_header : bytes * bytes := (str "sec-websocket-key", str "dGhlIHNhbXBsZSBub25jZQ==").

Definition test_stealth_websocket_upgrade_method : test :=
  let req := builder (str "POST") (str "/") (upgrade_headers ++ [key_header]) false in
  assert_answer (run (new_state None false) req) 404 (str "not found in the test").

Definition test_stealth_websocket_upgrade_missing_key_header : test :=
  let req := builder (str "GET") (str "/") upgrade_headers false in
  assert_answer (run (new_state None false) req) 404 (str "not found in the test").

Definition test_stealth_websocket_upgrade_wrong_psk : test :=
  let PSK := str "correct PSK" in
  let req := builder (str "GET") (str "/") (upgrade_headers ++ [key_header; (str "x-penguin-psk", str "wrong PSK")]) false in
  assert_answer (run (new_state (Some PSK) false) req) 404 (str "not found in the test").

Definition test_stealth_websocket_upgrade_correct_psk : test :=
  let PSK := str "correct PSK" in
  let req := builder (str "GET") (str "/ws") (upgrade_headers ++ [key_header; (str "x-penguin-psk", PSK)]) true in
  '(result, _) ← unwrap (run (new_state (Some PSK) false) req);
  assert_eq (rs_status result) 101.

Example service_tests :
  Forall (fun t => t = Ok tt)
    [test_make_sec_websocket_accept; test_obfs_or_not; test_backend; test_backend_tls; test_stealth_websocket_upgrade_method;
     test_stealth_websocket_upgrade_missing_key_header; test_stealth_websocket_upgrade_wrong_psk;
     test_stealth_websocket_upgrade_correct_psk].
Proof. repeat constructor; vm_compute; reflexivity. Qed.

(** The three tests of refused upgrades name no address, so their requests are
    for the root and the page is missing whatever the handshake: the complete
    one with the right key is answered the same.  Sent to the endpoint, the
    three are refused for the reason the tests have in mind. *)
Example refused_upgrades_never_reach_the_endpoint :
  let complete := upgrade_headers ++ [key_header; (str "x-penguin-psk", str "correct PSK")] in
  let state := new_state (Some (str "correct PSK")) false in
  assert_answer (run state (builder (str "GET") (str "/") complete true)) 404 (str "not found in the test") = Ok tt
  /\ assert_answer (run state (builder (str "POST") (str "/ws") complete true)) 404 (str "not found in the test") = Ok tt
  /\ assert_answer (run state (builder (str "GET") (str "/ws") (upgrade_headers ++ [key_header; (str "x-penguin-psk", str "wrong PSK")]) true))
       404 (str "not found in the test") = Ok tt.
Proof. split_and!; vm_compute; reflexivity. Qed.
